(** * Underwriting aggregation-and-decision engine

    A shallow embedding of [src/services/underwriting.service.ts] and of the
    signals scorer of [src/clients/googleClient.ts].

    JavaScript [number]s are IEEE-754 binary64 values; they are embedded as
    Rocq's primitive [float]s, whose operations are the same binary64
    operations (round to nearest, ties to even).  Decimal literals are read
    as the nearest binary64 value, as the JavaScript parser reads them.  A
    value of type [T | undefined] is an [option T]. *)

From Stdlib Require Import ZArith Lia Bool List String Ascii Floats.
From Stdlib Require QArith Qround Qabs Qpower Lqa.
Import ListNotations.

Set Warnings "-inexact-float".

Local Open Scope float_scope.

(** JavaScript writes [a >= b] and [a > b]; on binary64 values these are
    [b <= a] and [b < a] (all four are false when an operand is NaN). *)
Notation "x >=? y" := (PrimFloat.leb y x) (at level 70, no associativity) : float_scope.
Notation "x >? y" := (PrimFloat.ltb y x) (at level 70, no associativity) : float_scope.

(** ** The parts of the JavaScript runtime the engine uses *)

Module JS.

(** [ToBoolean] on a number: [0], [-0] and [NaN] are falsy. *)
Definition truthy (x : float) : bool := negb (is_zero x || is_nan x).

(** [ToBoolean] on a string: only the empty string is falsy. *)
Definition nonempty (s : string) : bool :=
  match s with EmptyString => false | String _ _ => true end.

(** [a || b] on strings. *)
Definition or_else (a b : string) : string := if nonempty a then a else b.

(** The integer [floor (v + 1/2)] for the finite value
    [v = (-1)^s * m * 2^e]. *)
Definition round_half_up (s : bool) (m : positive) (e : Z) : Z :=
  let n := cond_Zopp s (Zpos m) in
  match e with
  | Zneg k => ((n + 2 ^ (Zpos k - 1)) / 2 ^ Zpos k)%Z
  | _ => (n * 2 ^ e)%Z
  end.

(** [Math.round]: NaN, the infinities and the zeros are returned as they
    are; a finite [x] goes to the integer closest to it, the one towards
    +infinity on a tie, and to a zero of the sign of [x] when that integer
    is 0.  The integer has magnitude at most [2^53] or is [x] itself, so
    it is a binary64 value and [binary_normalize] does not round. *)
Definition Math_round (x : float) : float :=
  match Prim2SF x with
  | S754_finite s m e =>
      SF2Prim (binary_normalize prec emax (round_half_up s m e) 0 s)
  | _ => x
  end.

(** [Math.min] of two numbers. *)
Definition Math_min (x y : float) : float :=
  if is_nan x then x
  else if is_nan y then y
  else if x <? y then x
  else if y <? x then y
  else if get_sign x then x else y.

(** [String.prototype.toLowerCase], on the ASCII letters; every other
    byte of the (UTF-8) string is kept. *)
Definition lower_ascii (c : ascii) : ascii :=
  let n := nat_of_ascii c in
  if (65 <=? n)%nat && (n <=? 90)%nat then ascii_of_nat (n + 32) else c.

Fixpoint toLowerCase (s : string) : string :=
  match s with
  | EmptyString => EmptyString
  | String c s' => String (lower_ascii c) (toLowerCase s')
  end.

(** [s.includes(t)]: [t] occurs in [s] as a substring. *)
Fixpoint includes (s t : string) : bool :=
  if String.prefix t s then true
  else match s with
       | EmptyString => false
       | String _ s' => includes s' t
       end.

(** [parts.join(sep)]. *)
Definition join (sep : string) (parts : list string) : string :=
  String.concat sep parts.

Definition is_space (c : ascii) : bool :=
  let n := nat_of_ascii c in
  (n =? 32)%nat || ((9 <=? n)%nat && (n <=? 13)%nat).

Fixpoint trimStart (s : string) : string :=
  match s with
  | String c s' => if is_space c then trimStart s' else s
  | EmptyString => EmptyString
  end.

Fixpoint rev_string (acc s : string) : string :=
  match s with
  | EmptyString => acc
  | String c s' => rev_string (String c acc) s'
  end.

(** [s.trim()], on ASCII white space. *)
Definition trim (s : string) : string :=
  rev_string EmptyString (trimStart (rev_string EmptyString (trimStart s))).

(** [s.split(" ")]: the pieces between single spaces; never empty. *)
Fixpoint split_space (cur s : string) : list string :=
  match s with
  | EmptyString => [rev_string EmptyString cur]
  | String c s' =>
      if (nat_of_ascii c =? 32)%nat
      then rev_string EmptyString cur :: split_space EmptyString s'
      else split_space (String c cur) s'
  end.

Definition split (s : string) : list string := split_space EmptyString s.

End JS.

(** ** Data model ([models/Application.ts]) *)

Inductive DecisionStatus :=
| UNDERWRITING_PENDING
| APPROVED
| REJECTED
| MANUAL_REVIEW.

Module FormData.
(** [Partial<FormData>]: every field may be absent. *)
Record t := {
  legal_name : option string;
  tax_id : option string;
  phone : option string;
  google_business_url : option string;
  facebook_access_token : option string;
  instagram_access_token : option string
}.
End FormData.

Module ApplicationDoc.
Record t := {
  id : string;
  merchant_id : string;
  decision_status : DecisionStatus;
  form_data : option FormData.t
}.
End ApplicationDoc.

Module SyntageRevenueData.
Record t := {
  merchant_id : string;
  annual_revenue : float;
  months_active : float;
  tax_regime : option string;
  cfdi_count_last_12m : option float;
  tax_compliance : option bool
}.
End SyntageRevenueData.

Module SyntageResult.
Record t := {
  merchant_id : string;
  annual_revenue : float;
  monthly_revenue : float;
  months_active : float;
  tax_regime : option string;
  cfdi_count_last_12m : option float;
  tax_compliance : option bool;
  raw_response : SyntageRevenueData.t;
  fetched_at : string
}.
End SyntageResult.

Module PlacesResult.
Record t := {
  connected : bool;
  place_id : option string;
  business_name : option string;
  rating : option float;
  total_review_count : option float;
  price_level_index : option float;
  is_verified : option bool;
  categories : option (list string);
  has_website : option bool;
  business_status : option string;
  signals_score : option float;
  fetched_at : string
}.

(** [{ connected: false, fetched_at }] *)
Definition not_connected (now : string) : t :=
  {| connected := false; place_id := None; business_name := None;
     rating := None; total_review_count := None; price_level_index := None;
     is_verified := None; categories := None; has_website := None;
     business_status := None; signals_score := None; fetched_at := now |}.
End PlacesResult.

Module FacebookResult.
Record t := {
  connected : bool;
  page_name : option string;
  fan_count : option float;
  rating : option float;
  fetched_at : string
}.

Definition not_connected (now : string) : t :=
  {| connected := false; page_name := None; fan_count := None;
     rating := None; fetched_at := now |}.
End FacebookResult.

Module InstagramResult.
Record t := {
  connected : bool;
  username : option string;
  followers_count : option float;
  media_count : option float;
  fetched_at : string
}.

Definition not_connected (now : string) : t :=
  {| connected := false; username := None; followers_count := None;
     media_count := None; fetched_at := now |}.
End InstagramResult.

Module TwilioResult.
Record t := {
  connected : bool;
  phone_number : option string;
  identity_match : option bool;
  whatsapp_business : option bool;
  line_type : option string;
  sim_swap_detected : option bool;
  fetched_at : string
}.

Definition not_connected (now : string) : t :=
  {| connected := false; phone_number := None; identity_match := None;
     whatsapp_business := None; line_type := None;
     sim_swap_detected := None; fetched_at := now |}.
End TwilioResult.

Module BureauResult.
Record t := {
  bureau_score : option float;
  active_debt_amount : option float;
  fetched_at : string
}.
End BureauResult.

Module PlatformResult.
Record t := {
  avg_platform_gmv_6m : option float;
  tenure_months : option float;
  pre_approved_amount : option float;
  fetched_at : string
}.
End PlatformResult.

Module CreditOffer.
Record t := {
  approved_amount : float;
  interest_rate_monthly : float;
  installments : float;
  monthly_payment : float;
  withholding_amount : float;
  direct_debit_amount : float;
  currency : string
}.
End CreditOffer.

Module DecisionPayload.
Record t := {
  credit_offer : option CreditOffer.t;
  reason : string;
  syntage_monthly_revenue : float;
  syntage_tax_compliance : bool;
  syntage_cfdi_count : option float;
  syntage_tax_regime : option string;
  places_signals_score : float;
  places_rating : option float;
  places_review_count : option float;
  facebook_fan_count : option float;
  facebook_rating : option float;
  instagram_followers : option float;
  instagram_media_count : option float;
  twilio_identity_match : option bool;
  twilio_whatsapp_business : option bool;
  twilio_sim_swap_detected : option bool;
  twilio_line_type : option string;
  bureau_score : option float;
  platform_gmv_6m : option float;
  platform_tenure_months : option float;
  total_revenue : float;
  threshold_used : float;
  data_sources : list string;
  decided_at : string
}.
End DecisionPayload.

Module UnderwritingDecision.
Record t := {
  status : DecisionStatus;
  payload : DecisionPayload.t;
  syntage_result : option SyntageResult.t;
  places_result : option PlacesResult.t;
  facebook_result : option FacebookResult.t;
  instagram_result : option InstagramResult.t;
  twilio_result : option TwilioResult.t;
  bureau_result : option BureauResult.t;
  platform_result : option PlatformResult.t
}.
End UnderwritingDecision.

(** The part of [config/env.ts] the engine reads. *)
Module Env.
Record t := {
  DEMO_MODE : bool;
  APPROVAL_THRESHOLD : float;
  SYNTAGE_TIMEOUT_MS : float
}.
End Env.

(** ** Signals scorer ([GooglePlacesClient.computeSignalsScore]) *)

Definition commercialTypes : list string :=
  ["restaurant"; "food"; "store"; "bakery"; "cafe"; "bar"; "supermarket";
   "pharmacy"]%string.

(** [data.categories?.some(c => commercialTypes.some(t =>
    c.toLowerCase().includes(t)))]; [undefined] is falsy. *)
Definition hasCommercialType (data : PlacesResult.t) : bool :=
  match PlacesResult.categories data with
  | None => false
  | Some cs =>
      existsb (fun c =>
        existsb (fun t => JS.includes (JS.toLowerCase c) t) commercialTypes) cs
  end.

Definition is_true (b : option bool) : bool :=
  match b with Some true => true | _ => false end.

(** [data.business_status === "OPERATIONAL"] *)
Definition is_operational (s : option string) : bool :=
  match s with Some v => String.eqb v "OPERATIONAL" | None => false end.

(** [score] is the local variable of the source, updated in place by each
    [if]; a sub-signal whose test fails leaves it as it is. *)
Definition computeSignalsScore (data : PlacesResult.t) : float :=
  let score := 0 in
  (* Rating: operational quality (25 pts) *)
  let score :=
    match PlacesResult.rating data with
    | Some rating =>
        if JS.truthy rating then
          if rating >=? 4.5 then score + 25
          else if rating >=? 4.0 then score + 20
          else if rating >=? 3.5 then score + 12
          else score + 5
        else score
    | None => score
    end in
  (* Reviews: business scale (20 pts) *)
  let score :=
    match PlacesResult.total_review_count data with
    | Some total_review_count =>
        if JS.truthy total_review_count then
          if total_review_count >=? 200 then score + 20
          else if total_review_count >=? 100 then score + 15
          else if total_review_count >=? 50 then score + 10
          else if total_review_count >=? 10 then score + 5
          else score
        else score
    | None => score
    end in
  (* Verified listing (10 pts) *)
  let score :=
    if is_true (PlacesResult.is_verified data) then score + 10 else score in
  (* Has a website (10 pts) *)
  let score :=
    if is_true (PlacesResult.has_website data) then score + 10 else score in
  (* Operating business (10 pts) *)
  let score :=
    if is_operational (PlacesResult.business_status data)
    then score + 10 else score in
  (* Commercial category (10 pts) *)
  let score := if hasCommercialType data then score + 10 else score in
  (* Price level 3-4 (5 pts) *)
  let score :=
    match PlacesResult.price_level_index data with
    | Some price_level_index =>
        if JS.truthy price_level_index && (price_level_index >=? 3)
        then score + 5 else score
    | None => score
    end in
  JS.Math_min score 100.

(** ** Revenue scoring engine ([computeTotalRevenue]) *)

Definition computeTotalRevenue
    (syntageMonthly placesScore : float)
    (bureauScore tenureMonths : option float)
    (taxCompliance : bool)
    (facebookFans instagramFollowers : option float)
    (twilioIdentityMatch twilioWhatsapp twilioSimSwap : option bool) : float :=
  if syntageMonthly =? 0 then 0 else
  (* Google Places: boost of at most 20% *)
  let placesBoost := 1 + (placesScore / 100) * 0.20 in
  (* Facebook: boost of at most 8% *)
  let facebookBoost :=
    match facebookFans with
    | None => 0
    | Some facebookFans =>
        if facebookFans >=? 5000 then 0.08
        else if facebookFans >=? 1000 then 0.05
        else 0.02
    end in
  (* Instagram: boost of at most 7% *)
  let instagramBoost :=
    match instagramFollowers with
    | None => 0
    | Some instagramFollowers =>
        if instagramFollowers >=? 5000 then 0.07
        else if instagramFollowers >=? 1000 then 0.04
        else 0.01
    end in
  let socialBoost := 1 + facebookBoost + instagramBoost in
  let identityBoost := if is_true twilioIdentityMatch then 1.05 else 1.0 in
  let whatsappBoost := if is_true twilioWhatsapp then 1.03 else 1.0 in
  let simSwapPenalty := if is_true twilioSimSwap then 0.90 else 1.0 in
  let bureauMultiplier :=
    match bureauScore with
    | None => 1.0
    | Some bureauScore =>
        if bureauScore >? 700 then 1.10
        else if bureauScore >? 600 then 1.0
        else 0.90
    end in
  let tenureMultiplier :=
    match tenureMonths with
    | None => 1.0
    | Some tenureMonths =>
        if tenureMonths >? 24 then 1.05
        else if tenureMonths <? 6 then 0.95
        else 1.0
    end in
  let complianceMultiplier := if taxCompliance then 1.0 else 0.80 in
  JS.Math_round
    (syntageMonthly *
     placesBoost *
     socialBoost *
     identityBoost *
     whatsappBoost *
     simSwapPenalty *
     bureauMultiplier *
     tenureMultiplier *
     complianceMultiplier).

(** ** Decision resolver (step 11 of [runUnderwriting]) *)

Definition resolveStatus (totalRevenue threshold : float) : DecisionStatus :=
  if totalRevenue >=? threshold then APPROVED
  else if totalRevenue >? 0 then MANUAL_REVIEW
  else REJECTED.

(** ** Awaited calls, exceptions and the trace of adapter calls

    [runUnderwriting] awaits seven adapter calls, each raced against a timer
    by [withTimeout] and each inside a [try]/[catch].  Time is not modelled:
    a call is given by how its promise has settled when the timer fires.  A
    computation threads the list of the adapters called so far and either
    returns a value or throws (the thrown value is kept as a string). *)

Inductive adapter :=
| Syntage | GooglePlaces | Facebook | Instagram | Twilio | Bureau | Platform.

(** How the promise of an adapter call has settled.  A transport error or
    an unreadable response that the adapter lets through rejects the
    promise; a call still pending when the timer fires has timed out. *)
Inductive settled (A : Type) : Type :=
| Fulfilled (value : A)
| RejectedWith (error : string)
| Pending.
Arguments Fulfilled {A} value.
Arguments RejectedWith {A} error.
Arguments Pending {A}.

Definition M (A : Type) : Type := list adapter -> (string + A) * list adapter.

Definition ret {A} (a : A) : M A := fun calls => (inr a, calls).

Definition bind {A B} (m : M A) (k : A -> M B) : M B :=
  fun calls =>
    match m calls with
    | (inl err, calls') => (inl err, calls')
    | (inr a, calls') => k a calls'
    end.

Definition throw {A} (err : string) : M A := fun calls => (inl err, calls).

(** [try { body } catch (err) { handler }] *)
Definition try_catch {A} (body : M A) (handler : string -> M A) : M A :=
  fun calls =>
    match body calls with
    | (inl err, calls') => handler err calls'
    | (inr a, calls') => (inr a, calls')
    end.

Declare Scope m_scope.
Delimit Scope m_scope with m.
Notation "x <- m ;; k" := (bind m (fun x => k))
  (at level 61, m at next level, right associativity) : m_scope.
Notation "' pat <- m ;; k" := (bind m (fun x => match x with pat => k end))
  (at level 61, pat pattern, m at next level, right associativity) : m_scope.

(** [await withTimeout(client.method(args), ms, message)]: the adapter is
    called; the awaited race yields the value of a fulfilled promise and
    throws the error of a rejected one or, when the timer wins,
    [new Error(message)]. *)
Definition withTimeout {A} (a : adapter) (promise : settled A)
    (message : string) : M A :=
  fun calls =>
    match promise with
    | Fulfilled v => (inr v, calls ++ [a])
    | RejectedWith err => (inl err, calls ++ [a])
    | Pending => (inl ("Error: " ++ message)%string, calls ++ [a])
    end.

(** The seven clients, as what each call settles to. *)
Module Clients.
Record t := {
  getRevenueData : string -> settled SyntageRevenueData.t;
  getPlacesData : string -> settled PlacesResult.t;
  getPageData : string -> settled FacebookResult.t;
  getProfileData : string -> settled InstagramResult.t;
  verifyPhone : string -> string -> string -> settled TwilioResult.t;
  getScore : string -> settled BureauResult.t;
  getMerchantData : string -> settled PlatformResult.t
}.
End Clients.

(** [x ?? d] *)
Definition nullish {A} (x : option A) (d : A) : A :=
  match x with Some v => v | None => d end.

(** [application.form_data?.field ?? ""] *)
Definition form_field (a : ApplicationDoc.t)
    (f : FormData.t -> option string) : string :=
  match ApplicationDoc.form_data a with
  | Some d => nullish (f d) ""%string
  | None => ""%string
  end.

(** The argument object of [buildReason]. *)
Module ReasonParams.
Record t := {
  syntageAvailable : bool;
  placesAvailable : bool;
  facebookAvailable : bool;
  instagramAvailable : bool;
  twilioAvailable : bool;
  bureauAvailable : bool;
  platformAvailable : bool;
  syntageMonthlyRevenue : float;
  placesScore : float;
  bureauScore : option float;
  platformGmv : option float;
  syntageCompliance : bool;
  facebookFanCount : option float;
  instagramFollowers : option float;
  twilioIdentityMatch : option bool;
  twilioWhatsapp : option bool;
  twilioSimSwap : option bool
}.
End ReasonParams.

Section Underwriting.

(** [Math.pow], [Number.prototype.toLocaleString("es-MX")] and the
    conversion of a number inside a template literal are provided by the
    JavaScript engine; [Math.pow] is implementation-approximated. *)
Variable Math_pow : float -> float -> float.
Variable toLocaleString_esMX : float -> string.
Variable Number_toString : float -> string.

(** *** Credit offer calculator ([computeCreditOffer]) *)

Definition computeCreditOffer
    (baseRevenue : float) (bureauScore : option float)
    (dataSourceCount : nat) (hasSocial hasFiscal : bool) : CreditOffer.t :=
  (* Fixed multipliers, variable base *)
  let multiplier := if hasFiscal then 2.0 else if hasSocial then 1.4 else 1.2 in
  let approvedAmount :=
    JS.Math_round ((baseRevenue * multiplier) / 1000) * 1000 in
  (* Monthly rate from the bureau score *)
  let rate :=
    match bureauScore with
    | Some bureauScore =>
        if bureauScore >? 700 then 0.030
        else if bureauScore >? 600 then 0.034
        else 0.038
    | None => 0.038
    end in
  let installments := 12 in
  (* Monthly payment: annuity formula *)
  let monthlyPayment :=
    JS.Math_round
      ((approvedAmount * rate) / (1 - Math_pow (1 + rate) (- installments))) in
  (* Repayment: 20% withheld + direct debit of the remainder *)
  let withholdingAmount := JS.Math_round (monthlyPayment * 0.20) in
  let directDebitAmount := monthlyPayment - withholdingAmount in
  {| CreditOffer.approved_amount := approvedAmount;
     CreditOffer.interest_rate_monthly := rate;
     CreditOffer.installments := installments;
     CreditOffer.monthly_payment := monthlyPayment;
     CreditOffer.withholding_amount := withholdingAmount;
     CreditOffer.direct_debit_amount := directDebitAmount;
     CreditOffer.currency := "MXN" |}.

(** *** Reason string ([buildReason]) *)

Definition buildReason (params : ReasonParams.t) : string :=
  let parts :=
    ["Solicitud en revisión manual para determinar nuevo monto Préstamo MÁS."%string] in
  let parts :=
    if ReasonParams.syntageAvailable params then
      parts ++
      [("Ventas SAT: $" ++
        toLocaleString_esMX (ReasonParams.syntageMonthlyRevenue params) ++
        " MXN/mes." ++
        (if negb (ReasonParams.syntageCompliance params)
         then " ⚠️ Deuda activa con SAT detectada." else ""))%string]
    else
      parts ++
      ["Datos SAT no disponibles — requiere verificación manual."%string] in
  let parts :=
    if ReasonParams.placesAvailable params then
      parts ++
      [("Score Google Places: " ++
        Number_toString (ReasonParams.placesScore params) ++ "/100.")%string]
    else parts in
  let parts :=
    match ReasonParams.facebookAvailable params,
          ReasonParams.facebookFanCount params with
    | true, Some facebookFanCount =>
        parts ++
        [("Facebook: " ++ toLocaleString_esMX facebookFanCount ++
          " seguidores.")%string]
    | _, _ => parts
    end in
  let parts :=
    match ReasonParams.instagramAvailable params,
          ReasonParams.instagramFollowers params with
    | true, Some instagramFollowers =>
        parts ++
        [("Instagram: " ++ toLocaleString_esMX instagramFollowers ++
          " seguidores.")%string]
    | _, _ => parts
    end in
  let parts :=
    if ReasonParams.twilioAvailable params then
      let twilioNotes := [] in
      let twilioNotes :=
        if is_true (ReasonParams.twilioIdentityMatch params)
        then twilioNotes ++ ["identidad verificada ✓"%string]
        else twilioNotes in
      let twilioNotes :=
        if is_true (ReasonParams.twilioWhatsapp params)
        then twilioNotes ++ ["WhatsApp Business activo ✓"%string]
        else twilioNotes in
      let twilioNotes :=
        if is_true (ReasonParams.twilioSimSwap params)
        then twilioNotes ++ ["⚠️ SIM swap reciente detectado"%string]
        else twilioNotes in
      match twilioNotes with
      | [] => parts
      | _ :: _ =>
          parts ++
          [("Twilio Lookup: " ++ JS.join ", " twilioNotes ++ ".")%string]
      end
    else parts in
  let parts :=
    match ReasonParams.bureauAvailable params,
          ReasonParams.bureauScore params with
    | true, Some bureauScore =>
        parts ++
        [("Score Buró de Crédito: " ++ Number_toString bureauScore ++
          "/850.")%string]
    | _, _ => parts
    end in
  let parts :=
    match ReasonParams.platformAvailable params,
          ReasonParams.platformGmv params with
    | true, Some platformGmv =>
        parts ++
        [("GMV en Rappi: $" ++ toLocaleString_esMX platformGmv ++
          " MXN/mes.")%string]
    | _, _ => parts
    end in
  JS.join " " parts.

(** *** Aggregation orchestrator ([runUnderwriting])

    [now] stands for the readings of [new Date().toISOString()]; the
    calls to the logger have no effect on the decision and are left out.
    The seven [try]/[catch] blocks of the function are named
    [fetchSyntage] ... [fetchPlatform]; each yields the local variables it
    assigns, and its [catch] the values they keep (or the sentinel it
    assigns). *)

Variable env : Env.t.
Variable clients : Clients.t.
Variable now : string.

Local Open Scope m_scope.

(* 1. Syntage / SAT:
   (syntageResult, syntageMonthlyRevenue, syntageAvailable, syntageCompliance) *)
Definition fetchSyntage (application : ApplicationDoc.t)
    : M (option SyntageResult.t * float * bool * bool) :=
  try_catch
    (raw <- withTimeout Syntage
              (Clients.getRevenueData clients
                 (ApplicationDoc.merchant_id application))
              "Syntage fetch timed out" ;;
     let monthlyRevenue := SyntageRevenueData.annual_revenue raw / 12 in
     ret (Some
            {| SyntageResult.merchant_id := SyntageRevenueData.merchant_id raw;
               SyntageResult.annual_revenue :=
                 SyntageRevenueData.annual_revenue raw;
               SyntageResult.monthly_revenue := monthlyRevenue;
               SyntageResult.months_active :=
                 SyntageRevenueData.months_active raw;
               SyntageResult.tax_regime := SyntageRevenueData.tax_regime raw;
               SyntageResult.cfdi_count_last_12m :=
                 SyntageRevenueData.cfdi_count_last_12m raw;
               SyntageResult.tax_compliance :=
                 Some (nullish (SyntageRevenueData.tax_compliance raw) true);
               SyntageResult.raw_response := raw;
               SyntageResult.fetched_at := now |},
          monthlyRevenue,
          true,
          nullish (SyntageRevenueData.tax_compliance raw) true))
    (fun err => ret (None, 0, false, true)).

(* 2. Google Places: (placesResult, placesScore, placesAvailable) *)
Definition fetchPlaces (mapsUrl : string)
    : M (option PlacesResult.t * float * bool) :=
  if JS.nonempty mapsUrl then
    try_catch
      (places <- withTimeout GooglePlaces
                   (Clients.getPlacesData clients mapsUrl)
                   "Google Places fetch timed out" ;;
       if PlacesResult.connected places
       then ret (Some places,
                 nullish (PlacesResult.signals_score places) 0, true)
       else ret (Some places, 0, false))
      (fun err => ret (Some (PlacesResult.not_connected now), 0, false))
  else ret (Some (PlacesResult.not_connected now), 0, false).

(* 3. Facebook Pages: (facebookResult, facebookFanCount, facebookAvailable) *)
Definition fetchFacebook (facebookToken : string)
    : M (option FacebookResult.t * option float * bool) :=
  if JS.nonempty facebookToken || Env.DEMO_MODE env then
    try_catch
      (fb <- withTimeout Facebook
               (Clients.getPageData clients facebookToken)
               "Facebook fetch timed out" ;;
       if FacebookResult.connected fb
       then ret (Some fb, FacebookResult.fan_count fb, true)
       else ret (Some fb, None, false))
      (fun err => ret (Some (FacebookResult.not_connected now), None, false))
  else ret (Some (FacebookResult.not_connected now), None, false).

(* 4. Instagram Business:
   (instagramResult, instagramFollowers, instagramAvailable) *)
Definition fetchInstagram (instagramToken facebookToken : string)
    : M (option InstagramResult.t * option float * bool) :=
  if JS.nonempty instagramToken || JS.nonempty facebookToken
     || Env.DEMO_MODE env then
    try_catch
      (ig <- withTimeout Instagram
               (Clients.getProfileData clients
                  (JS.or_else instagramToken facebookToken))
               "Instagram fetch timed out" ;;
       if InstagramResult.connected ig
       then ret (Some ig, InstagramResult.followers_count ig, true)
       else ret (Some ig, None, false))
      (fun err => ret (Some (InstagramResult.not_connected now), None, false))
  else ret (Some (InstagramResult.not_connected now), None, false).

(* 5. Twilio Lookup: (twilioResult, twilioIdentityMatch, twilioWhatsapp,
   twilioSimSwap, twilioAvailable) *)
Definition fetchTwilio (phone firstName lastName : string)
    : M (option TwilioResult.t * option bool * option bool * option bool
         * bool) :=
  try_catch
    (twilio <- withTimeout Twilio
                 (Clients.verifyPhone clients
                    (JS.or_else phone "+525500000000") firstName lastName)
                 "Twilio Lookup timed out" ;;
     if TwilioResult.connected twilio
     then ret (Some twilio, TwilioResult.identity_match twilio,
               TwilioResult.whatsapp_business twilio,
               TwilioResult.sim_swap_detected twilio, true)
     else ret (Some twilio, None, None, None, false))
    (fun err =>
       ret (Some (TwilioResult.not_connected now), None, None, None, false)).

(* 7. Credit bureau: (bureauResult, bureauScore, bureauAvailable) *)
Definition fetchBureau (taxId : string)
    : M (option BureauResult.t * option float * bool) :=
  try_catch
    (bureau <- withTimeout Bureau (Clients.getScore clients taxId)
                 "Bureau fetch timed out" ;;
     match BureauResult.bureau_score bureau with
     | Some score => ret (Some bureau, Some score, true)
     | None => ret (Some bureau, None, false)
     end)
    (fun err => ret (None, None, false)).

(* 8. Platform: (platformResult, platformGmv, tenureMonths, platformAvailable) *)
Definition fetchPlatform (application : ApplicationDoc.t)
    : M (option PlatformResult.t * option float * option float * bool) :=
  try_catch
    (platform <- withTimeout Platform
                   (Clients.getMerchantData clients
                      (ApplicationDoc.merchant_id application))
                   "Platform fetch timed out" ;;
     match PlatformResult.avg_platform_gmv_6m platform with
     | Some gmv =>
         ret (Some platform, Some gmv,
              PlatformResult.tenure_months platform, true)
     | None => ret (Some platform, None, None, false)
     end)
    (fun err => ret (None, None, None, false)).

Definition runUnderwriting (application : ApplicationDoc.t)
    : M UnderwritingDecision.t :=
  let taxId := form_field application FormData.tax_id in
  let mapsUrl := form_field application FormData.google_business_url in
  let facebookToken := form_field application FormData.facebook_access_token in
  let instagramToken := form_field application FormData.instagram_access_token in
  let phone := form_field application FormData.phone in
  let legalName := form_field application FormData.legal_name in
  let '(firstName, lastParts) :=
    match JS.split (JS.trim legalName) with
    | firstName :: lastParts => (firstName, lastParts)
    | [] => (""%string, [])
    end in
  let lastName := JS.join " " lastParts in

  '(syntageResult, syntageMonthlyRevenue, syntageAvailable, syntageCompliance) <-
    fetchSyntage application ;;
  '(placesResult, placesScore, placesAvailable) <- fetchPlaces mapsUrl ;;
  '(facebookResult, facebookFanCount, facebookAvailable) <-
    fetchFacebook facebookToken ;;
  '(instagramResult, instagramFollowers, instagramAvailable) <-
    fetchInstagram instagramToken facebookToken ;;
  '(twilioResult, twilioIdentityMatch, twilioWhatsapp, twilioSimSwap,
    twilioAvailable) <- fetchTwilio phone firstName lastName ;;
  '(bureauResult, bureauScore, bureauAvailable) <- fetchBureau taxId ;;
  '(platformResult, platformGmv, tenureMonths, platformAvailable) <-
    fetchPlatform application ;;

  (* 9. Consolidate and compute the weighted total *)
  let dataSources : list string :=
    ((if syntageAvailable then ["syntage"%string] else []) ++
     (if placesAvailable then ["google_places"%string] else []) ++
     (if facebookAvailable then ["facebook"%string] else []) ++
     (if instagramAvailable then ["instagram"%string] else []) ++
     (if twilioAvailable then ["twilio"%string] else []) ++
     (if bureauAvailable then ["bureau"%string] else []) ++
     (if platformAvailable then ["platform"%string] else []))%list in
  let totalRevenue :=
    computeTotalRevenue syntageMonthlyRevenue placesScore bureauScore
      tenureMonths syntageCompliance facebookFanCount instagramFollowers
      twilioIdentityMatch twilioWhatsapp twilioSimSwap in

  (* 10. Credit offer *)
  let preApprovedBase :=
    nullish
      (match platformResult with
       | Some r => PlatformResult.pre_approved_amount r
       | None => None
       end) 50000 in
  let hasSocial := placesAvailable || facebookAvailable || instagramAvailable in
  let hasFiscal := syntageAvailable in
  let creditOffer :=
    computeCreditOffer preApprovedBase bureauScore (List.length dataSources)
      hasSocial hasFiscal in

  (* 11. Status *)
  let status := resolveStatus totalRevenue (Env.APPROVAL_THRESHOLD env) in

  let payload :=
    {| DecisionPayload.credit_offer := Some creditOffer;
       DecisionPayload.reason :=
         buildReason
           {| ReasonParams.syntageAvailable := syntageAvailable;
              ReasonParams.placesAvailable := placesAvailable;
              ReasonParams.facebookAvailable := facebookAvailable;
              ReasonParams.instagramAvailable := instagramAvailable;
              ReasonParams.twilioAvailable := twilioAvailable;
              ReasonParams.bureauAvailable := bureauAvailable;
              ReasonParams.platformAvailable := platformAvailable;
              ReasonParams.syntageMonthlyRevenue := syntageMonthlyRevenue;
              ReasonParams.placesScore := placesScore;
              ReasonParams.bureauScore := bureauScore;
              ReasonParams.platformGmv := platformGmv;
              ReasonParams.syntageCompliance := syntageCompliance;
              ReasonParams.facebookFanCount := facebookFanCount;
              ReasonParams.instagramFollowers := instagramFollowers;
              ReasonParams.twilioIdentityMatch := twilioIdentityMatch;
              ReasonParams.twilioWhatsapp := twilioWhatsapp;
              ReasonParams.twilioSimSwap := twilioSimSwap |};
       DecisionPayload.syntage_monthly_revenue := syntageMonthlyRevenue;
       DecisionPayload.syntage_tax_compliance := syntageCompliance;
       DecisionPayload.syntage_cfdi_count :=
         match syntageResult with
         | Some r => SyntageResult.cfdi_count_last_12m r
         | None => None
         end;
       DecisionPayload.syntage_tax_regime :=
         match syntageResult with
         | Some r => SyntageResult.tax_regime r
         | None => None
         end;
       DecisionPayload.places_signals_score := placesScore;
       DecisionPayload.places_rating :=
         match placesResult with
         | Some r => PlacesResult.rating r
         | None => None
         end;
       DecisionPayload.places_review_count :=
         match placesResult with
         | Some r => PlacesResult.total_review_count r
         | None => None
         end;
       DecisionPayload.facebook_fan_count := facebookFanCount;
       DecisionPayload.facebook_rating :=
         match facebookResult with
         | Some r => FacebookResult.rating r
         | None => None
         end;
       DecisionPayload.instagram_followers := instagramFollowers;
       DecisionPayload.instagram_media_count :=
         match instagramResult with
         | Some r => InstagramResult.media_count r
         | None => None
         end;
       DecisionPayload.twilio_identity_match := twilioIdentityMatch;
       DecisionPayload.twilio_whatsapp_business := twilioWhatsapp;
       DecisionPayload.twilio_sim_swap_detected := twilioSimSwap;
       DecisionPayload.twilio_line_type :=
         match twilioResult with
         | Some r => TwilioResult.line_type r
         | None => None
         end;
       DecisionPayload.bureau_score := bureauScore;
       DecisionPayload.platform_gmv_6m := platformGmv;
       DecisionPayload.platform_tenure_months := tenureMonths;
       DecisionPayload.total_revenue := totalRevenue;
       DecisionPayload.threshold_used := Env.APPROVAL_THRESHOLD env;
       DecisionPayload.data_sources := dataSources;
       DecisionPayload.decided_at := now |} in

  ret {| UnderwritingDecision.status := status;
         UnderwritingDecision.payload := payload;
         UnderwritingDecision.syntage_result := syntageResult;
         UnderwritingDecision.places_result := placesResult;
         UnderwritingDecision.facebook_result := facebookResult;
         UnderwritingDecision.instagram_result := instagramResult;
         UnderwritingDecision.twilio_result := twilioResult;
         UnderwritingDecision.bureau_result := bureauResult;
         UnderwritingDecision.platform_result := platformResult |}.

End Underwriting.


(** * The rest of the underwriting service and its callers *)

(** ** Pre-qualification ([runPrequalification]) *)

Module PrequalOffers.
Record t := {
  base_amount : float;
  bureau_offer : float;
  social_offer : float;
  fiscal_offer : float
}.
End PrequalOffers.

Definition runPrequalification (clients : Clients.t) (merchantId : string)
    : M PrequalOffers.t :=
  (baseAmount <-
     try_catch
       (platform <- withTimeout Platform
                      (Clients.getMerchantData clients merchantId)
                      "Platform prequal timed out" ;;
        match PlatformResult.pre_approved_amount platform with
        | Some amount => if JS.truthy amount then ret amount else ret 50000
        | None => ret 50000
        end)
       (fun err => ret 50000) (* fallback to default *) ;;
   (* Fixed multipliers applied to the pre-approved base *)
   let bureauOffer := JS.Math_round ((baseAmount * 1.2) / 1000) * 1000 in
   let socialOffer := JS.Math_round ((baseAmount * 1.4) / 1000) * 1000 in
   let fiscalOffer := JS.Math_round ((baseAmount * 2.0) / 1000) * 1000 in
   ret {| PrequalOffers.base_amount := baseAmount;
          PrequalOffers.bureau_offer := bureauOffer;
          PrequalOffers.social_offer := socialOffer;
          PrequalOffers.fiscal_offer := fiscalOffer |})%m.

(** ** The names handed to the phone lookup

    [const [firstName, ...lastParts] = legalName.trim().split(" ")] and
    [lastName = lastParts.join(" ")], the first statements of
    [runUnderwriting]. *)
Definition nameParts (legalName : string) : string * string :=
  match JS.split (JS.trim legalName) with
  | firstName :: lastParts => (firstName, JS.join " " lastParts)
  | [] => (""%string, ""%string)
  end.



(** ** The application service ([services/application.service.ts])

    The documents of the service are kept in [memStore], a JavaScript [Map]
    from the application id.  [Timestamp.now()], [new Date().toISOString()]
    and [uuidv4()] are readings of the environment; the functions below take
    them as arguments ([stamp], [now], [id]). *)

Definition Timestamp : Type := Z.

Inductive KycStatus := NOT_STARTED | SUBMITTED | VERIFIED | KYC_REJECTED.

(** [Partial<FormData>] with every field of [FormData]; [FormData.t] above
    keeps the six that [runUnderwriting] reads. *)
Module FormFields.
Record t := {
  legal_name : option string;
  tax_id : option string;
  ciec : option string;
  address : option string;
  phone : option string;
  email : option string;
  consent_given : option bool;
  google_business_url : option string;
  facebook_access_token : option string;
  instagram_access_token : option string;
  google_oauth_access_token : option string
}.

Definition read (f : t) : FormData.t :=
  {| FormData.legal_name := legal_name f;
     FormData.tax_id := tax_id f;
     FormData.phone := phone f;
     FormData.google_business_url := google_business_url f;
     FormData.facebook_access_token := facebook_access_token f;
     FormData.instagram_access_token := instagram_access_token f |}.
End FormFields.

Module Consent.
(** [Omit<ConsentData, "consented_at">] *)
Record t := {
  bureau_consent : bool;
  twilio_consent : bool;
  data_processing_consent : bool
}.
End Consent.

Module ConsentData.
Record t := {
  bureau_consent : bool;
  twilio_consent : bool;
  data_processing_consent : bool;
  consented_at : string
}.
End ConsentData.

Module KycPersonalData.
Record t := {
  first_name : string;
  last_name : string;
  birth_date : string;
  cedula : string;
  nationality : string;
  marital_status : string
}.
End KycPersonalData.

Module KycAddressData.
Record t := {
  street : string;
  neighborhood : option string;
  postal_code : string;
  city : string;
  state : string
}.
End KycAddressData.

Module KycBankData.
Record t := {
  clabe : string;
  bank_name : string;
  account_type : string;
  account_holder : string
}.
End KycBankData.

Module KycDocuments.
Record t := {
  id_front_path : string;
  id_back_path : string;
  proof_of_address_path : option string
}.
End KycDocuments.

Module KycData.
Record t := {
  personal : KycPersonalData.t;
  address : KycAddressData.t;
  bank : KycBankData.t;
  documents : KycDocuments.t;
  submitted_at : string
}.
End KycData.

(** [ApplicationDoc] with all its fields. *)
Module Application.
Record t := {
  id : string;
  merchant_id : string;
  created_at : Timestamp;
  updated_at : Timestamp;
  decision_status : DecisionStatus;
  form_data : option FormFields.t;
  consent_data : option ConsentData.t;
  syntage_result : option SyntageResult.t;
  places_result : option PlacesResult.t;
  facebook_result : option FacebookResult.t;
  instagram_result : option InstagramResult.t;
  twilio_result : option TwilioResult.t;
  bureau_result : option BureauResult.t;
  platform_result : option PlatformResult.t;
  decision_payload : option DecisionPayload.t;
  underwriting_notes : option string;
  kyc_status : option KycStatus;
  kyc_data : option KycData.t
}.

(** What [runUnderwriting] reads of [{ ...application, form_data }]. *)
Definition submitted (a : t) (formData : FormFields.t) : ApplicationDoc.t :=
  {| ApplicationDoc.id := id a;
     ApplicationDoc.merchant_id := merchant_id a;
     ApplicationDoc.decision_status := decision_status a;
     ApplicationDoc.form_data := Some (FormFields.read formData) |}.
End Application.

(** An [Error] with the two fields the service adds and [errorHandler]
    reads. *)
Module AppError.
Record t := {
  message : string;
  statusCode : option Z;
  isOperational : option bool
}.

(** [Application ${id} not found], 404, operational. *)
Definition notFound (id : string) : t :=
  {| message := ("Application " ++ id ++ " not found")%string;
     statusCode := Some 404%Z;
     isOperational := Some true |}.

(** [KYC can only be submitted for approved applications], 400,
    operational. *)
Definition kycNotAllowed : t :=
  {| message := "KYC can only be submitted for approved applications";
     statusCode := Some 400%Z;
     isOperational := Some true |}.

(** A value thrown by [runUnderwriting], which has neither field. *)
Definition thrown (err : string) : t :=
  {| message := err; statusCode := None; isOperational := None |}.
End AppError.

(** [memStore]: the entries of the [Map] in insertion order. *)
Definition Store : Type := list (string * Application.t).

(** [memStore.get(id)] *)
Fixpoint Map_get (id : string) (store : Store) : option Application.t :=
  match store with
  | [] => None
  | (key, doc) :: rest => if String.eqb key id then Some doc else Map_get id rest
  end.

(** [memStore.set(id, doc)]: the entry of an existing key is replaced in
    place, a new key is added at the end. *)
Fixpoint Map_set (id : string) (doc : Application.t) (store : Store) : Store :=
  match store with
  | [] => [(id, doc)]
  | (key, old) :: rest =>
      if String.eqb key id then (id, doc) :: rest
      else (key, old) :: Map_set id doc rest
  end.

Definition createApplication (id : string) (stamp : Timestamp)
    (merchantId : string) (store : Store) : Application.t * Store :=
  let doc :=
    {| Application.id := id;
       Application.merchant_id := merchantId;
       Application.created_at := stamp;
       Application.updated_at := stamp;
       Application.decision_status := UNDERWRITING_PENDING;
       Application.form_data := None;
       Application.consent_data := None;
       Application.syntage_result := None;
       Application.places_result := None;
       Application.facebook_result := None;
       Application.instagram_result := None;
       Application.twilio_result := None;
       Application.bureau_result := None;
       Application.platform_result := None;
       Application.decision_payload := None;
       Application.underwriting_notes := None;
       Application.kyc_status := None;
       Application.kyc_data := None |} in
  (doc, Map_set id doc store).

(** [memStore.get(id) ?? null] *)
Definition getApplicationById (id : string) (store : Store)
    : option Application.t :=
  Map_get id store.

Section ApplicationService.

Variable Math_pow : float -> float -> float.
Variable toLocaleString_esMX : float -> string.
Variable Number_toString : float -> string.
Variable env : Env.t.
Variable clients : Clients.t.

(** [submitApplication] reads the document, awaits [runUnderwriting] and
    then writes the document back.  Other requests are served while it
    waits: [store] is [memStore] when the function is called and [resumed]
    what it has become when the underwriting is done ([resumed = store] if
    nothing else happened). *)
Definition submitApplication (id : string) (formData : FormFields.t)
    (now : string) (stamp : Timestamp) (store resumed : Store)
    (calls : list adapter)
    : (AppError.t + Application.t) * Store * list adapter :=
  match Map_get id store with
  | None => (inl (AppError.notFound id), store, calls)
  | Some application =>
      match runUnderwriting Math_pow toLocaleString_esMX Number_toString env
              clients now (Application.submitted application formData) calls with
      | (inl err, calls') => (inl (AppError.thrown err), resumed, calls')
      | (inr decision, calls') =>
          let updated :=
            {| Application.id := Application.id application;
               Application.merchant_id := Application.merchant_id application;
               Application.created_at := Application.created_at application;
               Application.updated_at := stamp;
               Application.decision_status := UnderwritingDecision.status decision;
               Application.form_data := Some formData;
               Application.consent_data := Application.consent_data application;
               Application.syntage_result :=
                 UnderwritingDecision.syntage_result decision;
               Application.places_result :=
                 UnderwritingDecision.places_result decision;
               Application.facebook_result :=
                 UnderwritingDecision.facebook_result decision;
               Application.instagram_result :=
                 UnderwritingDecision.instagram_result decision;
               Application.twilio_result :=
                 UnderwritingDecision.twilio_result decision;
               Application.bureau_result :=
                 UnderwritingDecision.bureau_result decision;
               Application.platform_result :=
                 UnderwritingDecision.platform_result decision;
               Application.decision_payload :=
                 Some (UnderwritingDecision.payload decision);
               Application.underwriting_notes :=
                 Application.underwriting_notes application;
               Application.kyc_status := Application.kyc_status application;
               Application.kyc_data := Application.kyc_data application |} in
          (inr updated, Map_set id updated resumed, calls')
      end
  end.

End ApplicationService.

Definition updateConsent (id : string) (consent : Consent.t) (now : string)
    (stamp : Timestamp) (store : Store) : (AppError.t + Application.t) * Store :=
  match Map_get id store with
  | None => (inl (AppError.notFound id), store)
  | Some application =>
      let updated :=
        {| Application.id := Application.id application;
           Application.merchant_id := Application.merchant_id application;
           Application.created_at := Application.created_at application;
           Application.updated_at := stamp;
           Application.decision_status := Application.decision_status application;
           Application.form_data := Application.form_data application;
           Application.consent_data :=
             Some {| ConsentData.bureau_consent := Consent.bureau_consent consent;
                     ConsentData.twilio_consent := Consent.twilio_consent consent;
                     ConsentData.data_processing_consent :=
                       Consent.data_processing_consent consent;
                     ConsentData.consented_at := now |};
           Application.syntage_result := Application.syntage_result application;
           Application.places_result := Application.places_result application;
           Application.facebook_result := Application.facebook_result application;
           Application.instagram_result := Application.instagram_result application;
           Application.twilio_result := Application.twilio_result application;
           Application.bureau_result := Application.bureau_result application;
           Application.platform_result := Application.platform_result application;
           Application.decision_payload := Application.decision_payload application;
           Application.underwriting_notes :=
             Application.underwriting_notes application;
           Application.kyc_status := Application.kyc_status application;
           Application.kyc_data := Application.kyc_data application |} in
      (inr updated, Map_set id updated store)
  end.

Definition submitKyc (id : string) (personal : KycPersonalData.t)
    (address : KycAddressData.t) (bank : KycBankData.t)
    (documents : KycDocuments.t) (now : string) (stamp : Timestamp)
    (store : Store) : (AppError.t + Application.t) * Store :=
  match Map_get id store with
  | None => (inl (AppError.notFound id), store)
  | Some application =>
      match Application.decision_status application with
      | APPROVED | MANUAL_REVIEW =>
          let kycData :=
            {| KycData.personal := personal;
               KycData.address := address;
               KycData.bank := bank;
               KycData.documents := documents;
               KycData.submitted_at := now |} in
          let updated :=
            {| Application.id := Application.id application;
               Application.merchant_id := Application.merchant_id application;
               Application.created_at := Application.created_at application;
               Application.updated_at := stamp;
               Application.decision_status :=
                 Application.decision_status application;
               Application.form_data := Application.form_data application;
               Application.consent_data := Application.consent_data application;
               Application.syntage_result := Application.syntage_result application;
               Application.places_result := Application.places_result application;
               Application.facebook_result :=
                 Application.facebook_result application;
               Application.instagram_result :=
                 Application.instagram_result application;
               Application.twilio_result := Application.twilio_result application;
               Application.bureau_result := Application.bureau_result application;
               Application.platform_result :=
                 Application.platform_result application;
               Application.decision_payload :=
                 Application.decision_payload application;
               Application.underwriting_notes :=
                 Application.underwriting_notes application;
               Application.kyc_status := Some SUBMITTED;
               Application.kyc_data := Some kycData |} in
          (inr updated, Map_set id updated store)
      | _ => (inl AppError.kycNotAllowed, store)
      end
  end.

(** [prequalify(id, merchantId)]: the id is not used. *)
Definition prequalify (clients : Clients.t) (id merchantId : string)
    : M PrequalOffers.t :=
  runPrequalification clients merchantId.

(** ** The error handler ([middleware/errorHandler.ts])

    [res.status(statusCode).json({ error: message })], as the status and
    the message it sends. *)
Module ErrorResponse.
Record t := {
  status : Z;
  error : string
}.
End ErrorResponse.

Definition errorHandler (err : AppError.t) : ErrorResponse.t :=
  let statusCode := nullish (AppError.statusCode err) 500%Z in
  let message :=
    match AppError.isOperational err with
    | Some true => AppError.message err
    | _ => "Internal server error"%string
    end in
  {| ErrorResponse.status := statusCode; ErrorResponse.error := message |}.



(** ** The listings client ([clients/googleClient.ts])

    A string is the sequence of the bytes of its UTF-8 encoding; the
    characters the regular expressions of the client name are ASCII, and an
    ASCII byte is never part of the encoding of another character. *)

Module Google.

Definition is_digit (c : ascii) : bool :=
  let n := nat_of_ascii c in (48 <=? n)%nat && (n <=? 57)%nat.

Definition one_of (cs : string) (c : ascii) : bool :=
  existsb (Ascii.eqb c) (list_ascii_of_string cs).

(** The longest prefix of [s] whose characters satisfy [p]: what a greedy
    [[...]+] takes. *)
Fixpoint takeWhile (p : ascii -> bool) (s : string) : string :=
  match s with
  | String c s' => if p c then String c (takeWhile p s') else EmptyString
  | EmptyString => EmptyString
  end.

(** [s] without its first [n] characters. *)
Fixpoint drop (n : nat) (s : string) : string :=
  match n, s with
  | S n', String _ s' => drop n' s'
  | _, _ => s
  end.

(** A literal followed by one character or more of a class, tried at the
    start of [s]: the characters of the class. *)
Definition literalThenRun (literal : string) (p : ascii -> bool) (s : string)
    : option string :=
  if String.prefix literal s then
    match takeWhile p (drop (String.length literal) s) with
    | EmptyString => None
    | run => Some run
    end
  else None.

(** [s.match(re)] for an expression without the [g] flag: the attempt at
    the leftmost position that succeeds. *)
Fixpoint firstMatch (attempt : string -> option string) (s : string)
    : option string :=
  match attempt s with
  | Some captured => Some captured
  | None =>
      match s with
      | String _ s' => firstMatch attempt s'
      | EmptyString => None
      end
  end.

(** The group of [/!1s(ChIJ[^!&?]+)/]. *)
Definition matchChIJ (mapsUrl : string) : option string :=
  option_map (append "ChIJ")
    (firstMatch
       (literalThenRun "!1sChIJ" (fun c => negb (one_of "!&?" c))) mapsUrl).

(** The group of [/[?&]cid=(\d+)/]. *)
Definition matchCid (mapsUrl : string) : option string :=
  firstMatch
    (fun s =>
       match s with
       | String c s' =>
           if one_of "?&" c then literalThenRun "cid=" is_digit s' else None
       | EmptyString => None
       end) mapsUrl.

(** The group of [/\/maps\/place\/([^/@?]+)/]. *)
Definition matchName (mapsUrl : string) : option string :=
  firstMatch
    (literalThenRun "/maps/place/" (fun c => negb (one_of "/@?" c))) mapsUrl.

(** [s.replace(/\+/g, " ")] *)
Fixpoint plusToSpace (s : string) : string :=
  match s with
  | String c s' =>
      String (if Ascii.eqb c "+" then " "%char else c) (plusToSpace s')
  | EmptyString => EmptyString
  end.

Definition hexValue (c : ascii) : option nat :=
  let n := nat_of_ascii c in
  if (48 <=? n)%nat && (n <=? 57)%nat then Some (n - 48)%nat
  else if (65 <=? n)%nat && (n <=? 70)%nat then Some (n - 55)%nat
  else if (97 <=? n)%nat && (n <=? 102)%nat then Some (n - 87)%nat
  else None.

(** The number of leading 1 bits of an octet. *)
Definition leadingOnes (b : nat) : nat :=
  if (b <? 128)%nat then 0
  else if (b <? 192)%nat then 1
  else if (b <? 224)%nat then 2
  else if (b <? 240)%nat then 3
  else if (b <? 248)%nat then 4
  else 5.

Definition within (lo hi b : nat) : bool := (lo <=? b)%nat && (b <=? hi)%nat.

(** The octets are the UTF-8 encoding of one code point (no overlong
    form, no surrogate, nothing above U+10FFFF). *)
Definition validUtf8 (octets : list nat) : bool :=
  match octets with
  | [b0; b1] => within 194 223 b0 && within 128 191 b1
  | [b0; b1; b2] =>
      ((b0 =? 224)%nat && within 160 191 b1 && within 128 191 b2)
      || (within 225 236 b0 && within 128 191 b1 && within 128 191 b2)
      || ((b0 =? 237)%nat && within 128 159 b1 && within 128 191 b2)
      || (within 238 239 b0 && within 128 191 b1 && within 128 191 b2)
  | [b0; b1; b2; b3] =>
      ((b0 =? 240)%nat && within 144 191 b1 && within 128 191 b2
       && within 128 191 b3)
      || (within 241 243 b0 && within 128 191 b1 && within 128 191 b2
          && within 128 191 b3)
      || ((b0 =? 244)%nat && within 128 143 b1 && within 128 191 b2
          && within 128 191 b3)
  | _ => false
  end.

Definition ofOctets (octets : list nat) : string :=
  string_of_list_ascii (map ascii_of_nat octets).

(** [decodeURIComponent]; [None] when it throws a [URIError].  [octets]
    are the octets read so far of an escaped character that needs [need]
    more. *)
Fixpoint decodeFrom (octets : list nat) (need : nat) (s : string)
    : option string :=
  match s with
  | EmptyString =>
      match need with O => Some EmptyString | S _ => None end
  | String c s' =>
      if Ascii.eqb c "%" then
        match s' with
        | String h1 (String h2 rest) =>
            match hexValue h1, hexValue h2 with
            | Some d1, Some d2 =>
                let b := (16 * d1 + d2)%nat in
                match need with
                | O =>
                    match leadingOnes b with
                    | 0%nat =>
                        option_map (String (ascii_of_nat b))
                          (decodeFrom [] 0 rest)
                    | 2%nat => decodeFrom [b] 1 rest
                    | 3%nat => decodeFrom [b] 2 rest
                    | 4%nat => decodeFrom [b] 3 rest
                    | _ => None
                    end
                | S O =>
                    let octets := (octets ++ [b])%list in
                    if validUtf8 octets
                    then option_map (append (ofOctets octets))
                           (decodeFrom [] 0 rest)
                    else None
                | S need' => decodeFrom (octets ++ [b])%list need' rest
                end
            | _, _ => None
            end
        | _ => None
        end
      else
        match need with
        | O => option_map (String c) (decodeFrom [] 0 s')
        | S _ => None
        end
  end.

Definition decodeURIComponent (s : string) : option string :=
  decodeFrom [] 0 s.

(** [extractPlaceId]: the identifier, or [None] for [null]; a [URIError]
    is caught and gives [null]. *)
Definition extractPlaceId (mapsUrl : string) : option string :=
  match matchChIJ mapsUrl with
  | Some chij => decodeURIComponent chij
  | None =>
      match matchCid mapsUrl with
      | Some cid => Some cid
      | None =>
          match matchName mapsUrl with
          | Some name => decodeURIComponent (plusToSpace name)
          | None => None
          end
      end
  end.

Fixpoint allDigits (s : string) : bool :=
  match s with
  | String c s' => is_digit c && allDigits s'
  | EmptyString => true
  end.

(** [isRealPlaceId]; the last test is [/^\d{15,}$/]. *)
Definition isRealPlaceId (identifier : string) : bool :=
  String.prefix "ChIJ" identifier || String.prefix "0x" identifier
  || (allDigits identifier && (15 <=? String.length identifier)%nat).

(** The result of a Place Details request, with the fields the client
    asks for and the types the Places API gives them. *)
Module PlaceDetails.
Record t := {
  name : option string;
  rating : option float;
  user_ratings_total : option float;
  price_level : option float;
  types : option (list string);
  website : option string;
  business_status : option string
}.
End PlaceDetails.

(** The two requests of the client, as what each settles to: the value of
    [searchResp.data.candidates?.[0]?.place_id] and of
    [detailsResp.data.result] for a request that is answered, a rejection
    for one that fails or whose answer cannot be read. *)
Module PlacesApi.
Record t := {
  findPlaceFromText : string -> settled (option string);
  details : string -> settled (option PlaceDetails.t)
}.
End PlacesApi.

(** [DEMO_PLACES_STUB], with the fields of [PlacesResult.t]. *)
Definition demoStub (now : string) : PlacesResult.t :=
  {| PlacesResult.connected := true;
     PlacesResult.place_id := Some "ChIJM8FgMXnHxYURW1vYTA2hgcg"%string;
     PlacesResult.business_name := Some "Los Aguacates"%string;
     PlacesResult.rating := Some 4.2;
     PlacesResult.total_review_count := Some 143;
     PlacesResult.price_level_index := Some 2;
     PlacesResult.is_verified := Some true;
     PlacesResult.categories := Some ["Mexican restaurant"; "Taquería"]%string;
     PlacesResult.has_website := Some false;
     PlacesResult.business_status := Some "OPERATIONAL"%string;
     PlacesResult.signals_score := Some 72;
     PlacesResult.fetched_at := now |}.

Section Client.

Variable DEMO_MODE : bool.
Variable GOOGLE_PLACES_API_KEY : string.
Variable api : PlacesApi.t.
Variable now : string.

(** The result built from the details [p], before its score is set. *)
Definition resultOf (placeId : string) (p : PlaceDetails.t) : PlacesResult.t :=
  {| PlacesResult.connected := true;
     PlacesResult.place_id := Some placeId;
     PlacesResult.business_name := PlaceDetails.name p;
     PlacesResult.rating := PlaceDetails.rating p;
     PlacesResult.total_review_count := PlaceDetails.user_ratings_total p;
     PlacesResult.price_level_index := PlaceDetails.price_level p;
     PlacesResult.is_verified := Some true;
     PlacesResult.categories := Some (nullish (PlaceDetails.types p) []);
     PlacesResult.has_website :=
       Some (match PlaceDetails.website p with
             | Some w => JS.nonempty w
             | None => false
             end);
     PlacesResult.business_status :=
       Some (nullish (PlaceDetails.business_status p) "UNKNOWN"%string);
     PlacesResult.signals_score := None;
     PlacesResult.fetched_at := now |}.

(** [result.signals_score = this.computeSignalsScore(result)] *)
Definition withScore (result : PlacesResult.t) : PlacesResult.t :=
  {| PlacesResult.connected := PlacesResult.connected result;
     PlacesResult.place_id := PlacesResult.place_id result;
     PlacesResult.business_name := PlacesResult.business_name result;
     PlacesResult.rating := PlacesResult.rating result;
     PlacesResult.total_review_count := PlacesResult.total_review_count result;
     PlacesResult.price_level_index := PlacesResult.price_level_index result;
     PlacesResult.is_verified := PlacesResult.is_verified result;
     PlacesResult.categories := PlacesResult.categories result;
     PlacesResult.has_website := PlacesResult.has_website result;
     PlacesResult.business_status := PlacesResult.business_status result;
     PlacesResult.signals_score := Some (computeSignalsScore result);
     PlacesResult.fetched_at := PlacesResult.fetched_at result |}.

(** The Place Details request and what follows it. *)
Definition fetchDetails (placeId : string) : settled PlacesResult.t :=
  match PlacesApi.details api placeId with
  | Fulfilled (Some p) => Fulfilled (withScore (resultOf placeId p))
  | Fulfilled None => Fulfilled (PlacesResult.not_connected now)
  | RejectedWith err => Fulfilled (PlacesResult.not_connected now)
  | Pending => Pending
  end.

Definition getPlacesData (mapsUrl : string) : settled PlacesResult.t :=
  if DEMO_MODE || negb (JS.nonempty GOOGLE_PLACES_API_KEY) then
    Fulfilled (demoStub now)
  else
    match extractPlaceId mapsUrl with
    | None => Fulfilled (PlacesResult.not_connected now)
    | Some identifier =>
        if negb (JS.nonempty identifier)
        then Fulfilled (PlacesResult.not_connected now)
        else if negb (String.prefix "ChIJ" identifier) then
          (* not a ChIJ id: resolve it with Text Search first *)
          match PlacesApi.findPlaceFromText api identifier with
          | Fulfilled (Some placeId) =>
              if negb (JS.nonempty placeId)
              then Fulfilled (PlacesResult.not_connected now)
              else fetchDetails placeId
          | Fulfilled None => Fulfilled (PlacesResult.not_connected now)
          | RejectedWith err => Fulfilled (PlacesResult.not_connected now)
          | Pending => Pending
          end
        else fetchDetails identifier
    end.

End Client.

End Google.


(** ** The bureau client ([clients/bureauClient.ts]) and the platform
    client ([clients/platformClient.ts])

    Neither makes a request: in demo mode they answer with their stub
    after 150 and 100 ms, well before the timer of 5000 ms the orchestrator
    sets, and outside demo mode they answer with it at once. *)

Module BureauClient.
Definition getScore (DEMO_MODE : bool) (now : string) (taxId : string)
    : settled BureauResult.t :=
  if DEMO_MODE then
    Fulfilled {| BureauResult.bureau_score := Some 720;
                 BureauResult.active_debt_amount := Some 0;
                 BureauResult.fetched_at := now |}
  else
    (* production: not configured, the stub again *)
    Fulfilled {| BureauResult.bureau_score := Some 720;
                 BureauResult.active_debt_amount := Some 0;
                 BureauResult.fetched_at := now |}.
End BureauClient.

Module PlatformClient.
Definition getMerchantData (DEMO_MODE : bool) (now : string) (merchantId : string)
    : settled PlatformResult.t :=
  if DEMO_MODE then
    Fulfilled {| PlatformResult.avg_platform_gmv_6m := Some 900000;
                 PlatformResult.tenure_months := Some 36;
                 PlatformResult.pre_approved_amount := Some 50000;
                 PlatformResult.fetched_at := now |}
  else
    (* production: not configured, the stub again *)
    Fulfilled {| PlatformResult.avg_platform_gmv_6m := Some 900000;
                 PlatformResult.tenure_months := Some 36;
                 PlatformResult.pre_approved_amount := Some 50000;
                 PlatformResult.fetched_at := now |}.
End PlatformClient.


(** ** The tax client ([clients/syntageClient.ts])

    [http] is the request [GET /merchants/<id>/revenue], as what it settles
    to: the body of the response, read with the type the client gives it,
    or a rejection.  The client catches nothing.  In demo mode, or without
    an API key, it answers with its stub after 200 ms; [inTime] says
    whether these elapse before the timer that the orchestrator sets to
    [SYNTAGE_TIMEOUT_MS] fires. *)
Module SyntageClient.
Definition getRevenueData (DEMO_MODE : bool) (SYNTAGE_API_KEY : option string)
    (inTime : bool) (http : string -> settled SyntageRevenueData.t)
    (merchantId : string) : settled SyntageRevenueData.t :=
  if DEMO_MODE || negb (JS.nonempty (nullish SYNTAGE_API_KEY ""%string)) then
    if inTime then
      Fulfilled
        {| SyntageRevenueData.merchant_id := merchantId;
           SyntageRevenueData.annual_revenue := 720000;
           SyntageRevenueData.months_active := 36;
           SyntageRevenueData.tax_regime :=
             Some "Régimen Simplificado de Confianza"%string;
           SyntageRevenueData.cfdi_count_last_12m := Some 847;
           SyntageRevenueData.tax_compliance := Some true |}
    else Pending
  else http merchantId.
End SyntageClient.

(** ** The social clients ([clients/facebookClient.ts])

    The requests to the Graph API, as what each settles to: the first page
    of [/me/accounts] (with the fields asked for and the types the API
    gives them), the id of the Instagram account linked to it, and the
    profile of that account. *)
Module FacebookPage.
Record t := {
  name : option string;
  fan_count : option float;
  overall_star_rating : option float
}.
End FacebookPage.

Module InstagramProfile.
Record t := {
  username : option string;
  followers_count : option float;
  media_count : option float
}.
End InstagramProfile.

Module GraphApi.
Record t := {
  firstPage : string -> settled (option FacebookPage.t);
  instagramAccountId : string -> settled (option string);
  profile : string -> string -> settled InstagramProfile.t
}.
End GraphApi.

Module FacebookClient.
Definition getPageData (DEMO_MODE : bool) (FACEBOOK_APP_ID : string)
    (api : GraphApi.t) (now : string) (userAccessToken : string)
    : settled FacebookResult.t :=
  if DEMO_MODE || negb (JS.nonempty FACEBOOK_APP_ID) then
    Fulfilled {| FacebookResult.connected := true;
                 FacebookResult.page_name := Some "Panadería Demo"%string;
                 FacebookResult.fan_count := Some 3200;
                 FacebookResult.rating := Some 4.5;
                 FacebookResult.fetched_at := now |}
  else
    match GraphApi.firstPage api userAccessToken with
    | Fulfilled (Some page) =>
        Fulfilled {| FacebookResult.connected := true;
                     FacebookResult.page_name := FacebookPage.name page;
                     FacebookResult.fan_count := FacebookPage.fan_count page;
                     FacebookResult.rating :=
                       FacebookPage.overall_star_rating page;
                     FacebookResult.fetched_at := now |}
    | Fulfilled None => Fulfilled (FacebookResult.not_connected now)
    | RejectedWith err => Fulfilled (FacebookResult.not_connected now)
    | Pending => Pending
    end.
End FacebookClient.

Module InstagramClient.
Definition getProfileData (DEMO_MODE : bool) (FACEBOOK_APP_ID : string)
    (api : GraphApi.t) (now : string) (userAccessToken : string)
    : settled InstagramResult.t :=
  if DEMO_MODE || negb (JS.nonempty FACEBOOK_APP_ID) then
    Fulfilled {| InstagramResult.connected := true;
                 InstagramResult.username := Some "panaderia_demo"%string;
                 InstagramResult.followers_count := Some 1850;
                 InstagramResult.media_count := Some 142;
                 InstagramResult.fetched_at := now |}
  else
    match GraphApi.instagramAccountId api userAccessToken with
    | Fulfilled (Some igAccountId) =>
        if negb (JS.nonempty igAccountId)
        then Fulfilled (InstagramResult.not_connected now)
        else
          match GraphApi.profile api igAccountId userAccessToken with
          | Fulfilled ig =>
              Fulfilled
                {| InstagramResult.connected := true;
                   InstagramResult.username := InstagramProfile.username ig;
                   InstagramResult.followers_count :=
                     InstagramProfile.followers_count ig;
                   InstagramResult.media_count := InstagramProfile.media_count ig;
                   InstagramResult.fetched_at := now |}
          | RejectedWith err => Fulfilled (InstagramResult.not_connected now)
          | Pending => Pending
          end
    | Fulfilled None => Fulfilled (InstagramResult.not_connected now)
    | RejectedWith err => Fulfilled (InstagramResult.not_connected now)
    | Pending => Pending
    end.
End InstagramClient.

(** ** The phone client ([clients/twilioClient.ts])

    What the client reads in the answer of a Lookup request:
    [phone_number], [line_type_intelligence?.type],
    [sim_swap?.last_sim_swap?.swapped_period],
    [identity_match?.first_name_match], and the status and the [registered]
    result of the [whatsapp_business] add-on. *)
Module Lookup.
Record t := {
  phone_number : option string;
  line_type : option string;
  swapped_period : option string;
  first_name_match : option string;
  whatsapp_status : option string;
  whatsapp_registered : option bool
}.
End Lookup.

Module TwilioClient.
(** The [Fields] the request asks for. *)
Definition fields (firstName lastName : string) : list string :=
  (["line_type_intelligence"%string; "sim_swap"%string] ++
   (if JS.nonempty firstName || JS.nonempty lastName
    then ["identity_match"%string] else []))%list.

(** [lookup phone fields firstName lastName] is the request; a name is
    sent when it is not empty. *)
Definition verifyPhone (DEMO_MODE : bool) (TWILIO_ACCOUNT_SID : string)
    (lookup : string -> list string -> option string -> option string ->
              settled Lookup.t)
    (now : string) (phone firstName lastName : string)
    : settled TwilioResult.t :=
  if DEMO_MODE || negb (JS.nonempty TWILIO_ACCOUNT_SID) then
    Fulfilled {| TwilioResult.connected := true;
                 TwilioResult.phone_number := Some phone;
                 TwilioResult.identity_match := Some true;
                 TwilioResult.whatsapp_business := Some true;
                 TwilioResult.line_type := Some "mobile"%string;
                 TwilioResult.sim_swap_detected := Some false;
                 TwilioResult.fetched_at := now |}
  else
    match lookup phone (fields firstName lastName)
            (if JS.nonempty firstName then Some firstName else None)
            (if JS.nonempty lastName then Some lastName else None) with
    | Fulfilled data =>
        let lineType := nullish (Lookup.line_type data) "unknown"%string in
        let simSwap :=
          match Lookup.swapped_period data with
          | Some period => String.eqb period "PT24H" || String.eqb period "P7D"
          | None => false
          end in
        let nameScore := nullish (Lookup.first_name_match data) "no_data"%string in
        let identityMatch :=
          String.eqb nameScore "exact" || String.eqb nameScore "high" in
        let whatsappBusiness :=
          match Lookup.whatsapp_status data with
          | Some status =>
              if String.eqb status "successful"
              then Some (match Lookup.whatsapp_registered data with
                         | Some true => true
                         | _ => false
                         end)
              else None
          | None => None
          end in
        Fulfilled {| TwilioResult.connected := true;
                     TwilioResult.phone_number := Lookup.phone_number data;
                     TwilioResult.identity_match := Some identityMatch;
                     TwilioResult.whatsapp_business := whatsappBusiness;
                     TwilioResult.line_type := Some lineType;
                     TwilioResult.sim_swap_detected := Some simSwap;
                     TwilioResult.fetched_at := now |}
    | RejectedWith err => Fulfilled (TwilioResult.not_connected now)
    | Pending => Pending
    end.
End TwilioClient.

(** ** The seven clients of the repository

    The configuration they read, the services they call and the time each
    reads when it answers. *)
Module Credentials.
Record t := {
  SYNTAGE_API_KEY : option string;
  GOOGLE_PLACES_API_KEY : string;
  FACEBOOK_APP_ID : string;
  TWILIO_ACCOUNT_SID : string
}.
End Credentials.

Module Services.
Record t := {
  syntage : string -> settled SyntageRevenueData.t;
  places : Google.PlacesApi.t;
  graph : GraphApi.t;
  lookup : string -> list string -> option string -> option string ->
           settled Lookup.t
}.
End Services.

Definition repositoryClients (DEMO_MODE : bool) (keys : Credentials.t)
    (services : Services.t) (syntageInTime : bool) (clock : adapter -> string)
    : Clients.t :=
  {| Clients.getRevenueData :=
       SyntageClient.getRevenueData DEMO_MODE (Credentials.SYNTAGE_API_KEY keys)
         syntageInTime (Services.syntage services);
     Clients.getPlacesData :=
       Google.getPlacesData DEMO_MODE (Credentials.GOOGLE_PLACES_API_KEY keys)
         (Services.places services) (clock GooglePlaces);
     Clients.getPageData :=
       FacebookClient.getPageData DEMO_MODE (Credentials.FACEBOOK_APP_ID keys)
         (Services.graph services) (clock Facebook);
     Clients.getProfileData :=
       InstagramClient.getProfileData DEMO_MODE (Credentials.FACEBOOK_APP_ID keys)
         (Services.graph services) (clock Instagram);
     Clients.verifyPhone :=
       TwilioClient.verifyPhone DEMO_MODE (Credentials.TWILIO_ACCOUNT_SID keys)
         (Services.lookup services) (clock Twilio);
     Clients.getScore := BureauClient.getScore DEMO_MODE (clock Bureau);
     Clients.getMerchantData :=
       PlatformClient.getMerchantData DEMO_MODE (clock Platform) |}.


(** * Specification-side definitions

    What the specification says, in its own terms, to be compared with the
    functions above. *)

(** ** The scoring formula, factor by factor, as the specification words it *)

Module Formula.
Definition listingsBoost (score : float) : float := 1 + (score / 100) * 0.20.

Definition facebookTier (followers : option float) : float :=
  match followers with
  | Some n => if n >=? 5000 then 0.08 else if n >=? 1000 then 0.05 else 0.02
  | None => 0
  end.

Definition instagramTier (followers : option float) : float :=
  match followers with
  | Some n => if n >=? 5000 then 0.07 else if n >=? 1000 then 0.04 else 0.01
  | None => 0
  end.

Definition socialBoost (facebook instagram : option float) : float :=
  1 + facebookTier facebook + instagramTier instagram.

(** The three phone factors: a flag counts when it is known and true. *)
Definition identityBoost (identityMatch : option bool) : float :=
  match identityMatch with
  | Some true => 1.05
  | Some false | None => 1.0
  end.

Definition messagingBoost (whatsappBusiness : option bool) : float :=
  match whatsappBusiness with
  | Some true => 1.03
  | Some false | None => 1.0
  end.

Definition simSwapPenalty (simSwap : option bool) : float :=
  match simSwap with
  | Some true => 0.90
  | Some false | None => 1.0
  end.

Definition bureauMultiplier (score : option float) : float :=
  match score with
  | Some s => if s >? 700 then 1.10 else if s >? 600 then 1.0 else 0.90
  | None => 1.0
  end.

Definition tenureMultiplier (months : option float) : float :=
  match months with
  | Some t => if t >? 24 then 1.05 else if t <? 6 then 0.95 else 1.0
  | None => 1.0
  end.

Definition complianceMultiplier (compliant : bool) : float :=
  if compliant then 1.0 else 0.80.

(** The factors applied to the base before the bureau multiplier. *)
Definition digitalFactors (base score : float) (facebook instagram : option float)
    (identityMatch whatsappBusiness simSwap : option bool) : float :=
  base * listingsBoost score * socialBoost facebook instagram *
  identityBoost identityMatch * messagingBoost whatsappBusiness *
  simSwapPenalty simSwap.

Definition total (base score : float) (bureau tenure : option float)
    (compliant : bool) (facebook instagram : option float)
    (identityMatch whatsappBusiness simSwap : option bool) : float :=
  JS.Math_round
    (digitalFactors base score facebook instagram identityMatch
       whatsappBusiness simSwap *
     bureauMultiplier bureau * tenureMultiplier tenure *
     complianceMultiplier compliant).
End Formula.

(** ** The table of the signals scorer *)

Module ScoreTable.
(** Points of the rating: 25 / 20 / 12 / 5 by tier for a rating that is
    present (and neither 0 nor NaN), none otherwise. *)
Definition ratingPoints (rating : option float) : float :=
  match rating with
  | Some r =>
      if JS.truthy r then
        if r >=? 4.5 then 25 else if r >=? 4.0 then 20
        else if r >=? 3.5 then 12 else 5
      else 0
  | None => 0
  end.


(** Points of the review volume: 20 / 15 / 10 / 5 from 200 / 100 / 50 / 10
    reviews on. *)
Definition reviewPoints (total_review_count : option float) : float :=
  match total_review_count with
  | Some n =>
      if JS.truthy n then
        if n >=? 200 then 20 else if n >=? 100 then 15
        else if n >=? 50 then 10 else if n >=? 10 then 5 else 0
      else 0
  | None => 0
  end.

Definition flag (b : bool) (points : float) : float := if b then points else 0.

Definition priceTierHigh (price_level_index : option float) : bool :=
  match price_level_index with
  | Some v => JS.truthy v && (v >=? 3)
  | None => false
  end.

(** The additive weighted sum, before the cap. *)
Definition sum (data : PlacesResult.t) : float :=
  0 + ratingPoints (PlacesResult.rating data)
    + reviewPoints (PlacesResult.total_review_count data)
    + flag (is_true (PlacesResult.is_verified data)) 10
    + flag (is_true (PlacesResult.has_website data)) 10
    + flag (is_operational (PlacesResult.business_status data)) 10
    + flag (hasCommercialType data) 10
    + flag (priceTierHigh (PlacesResult.price_level_index data)) 5.
End ScoreTable.

(** ** The tier multiplier of the credit offer *)

Definition tierMultiplier (hasSocial hasFiscal : bool) : float :=
  if hasFiscal then 2.0 else if hasSocial then 1.4 else 1.2.

(** ** Runs of the orchestrator *)

(** A call that does not yield a value: the promise is rejected, or it is
    still pending when the timer fires. *)
Definition failed {A} (p : settled A) : Prop :=
  match p with Fulfilled _ => False | _ => True end.

(** The adapters a run calls, in the order of the source. *)
Definition plannedCalls (env : Env.t) (application : ApplicationDoc.t) : list adapter :=
  let mapsUrl := form_field application FormData.google_business_url in
  let facebookToken := form_field application FormData.facebook_access_token in
  let instagramToken := form_field application FormData.instagram_access_token in
  [Syntage] ++
  (if JS.nonempty mapsUrl then [GooglePlaces] else []) ++
  (if JS.nonempty facebookToken || Env.DEMO_MODE env then [Facebook] else []) ++
  (if JS.nonempty instagramToken || JS.nonempty facebookToken || Env.DEMO_MODE env
   then [Instagram] else []) ++
  [Twilio; Bureau; Platform].

(** The reason of a run in which no source is available. *)
Definition reasonNoSources : string :=
  "Solicitud en revisión manual para determinar nuevo monto Préstamo MÁS. Datos SAT no disponibles — requiere verificación manual.".

(** ** Concrete inputs

    [Math_pow_model] stands in for [Math.pow] at the one exponent the
    engine uses, -12: the reciprocal of the twelfth power, by repeated
    multiplication.  The two formatting functions are only used in the
    reason string. *)

Fixpoint pow_nat (x : float) (n : nat) : float :=
  match n with
  | O => 1
  | S n' => x * pow_nat x n'
  end.

Definition Math_pow_model (x y : float) : float :=
  if y =? -12 then 1 / pow_nat x 12 else nan.

Definition format_model (x : float) : string := "#"%string.

(** An application with no optional form field. *)
Definition bareApplication : ApplicationDoc.t :=
  {| ApplicationDoc.id := "app-1";
     ApplicationDoc.merchant_id := "merchant-1";
     ApplicationDoc.decision_status := UNDERWRITING_PENDING;
     ApplicationDoc.form_data := None |}.

(** Clients none of whose calls settles before its timer fires. *)
Definition pendingClients : Clients.t :=
  {| Clients.getRevenueData := fun _ => Pending;
     Clients.getPlacesData := fun _ => Pending;
     Clients.getPageData := fun _ => Pending;
     Clients.getProfileData := fun _ => Pending;
     Clients.verifyPhone := fun _ _ _ => Pending;
     Clients.getScore := fun _ => Pending;
     Clients.getMerchantData := fun _ => Pending |}.


(** The stub answers of the tax, bureau and platform clients of the
    source (annual revenue 720,000; score 720; tenure 36 months and a
    pre-approved amount of 50,000); the other calls stay pending. *)
Definition stubClients : Clients.t :=
  {| Clients.getRevenueData := fun merchantId =>
       Fulfilled
         {| SyntageRevenueData.merchant_id := merchantId;
            SyntageRevenueData.annual_revenue := 720000;
            SyntageRevenueData.months_active := 36;
            SyntageRevenueData.tax_regime := None;
            SyntageRevenueData.cfdi_count_last_12m := Some 847;
            SyntageRevenueData.tax_compliance := Some true |};
     Clients.getPlacesData := fun _ => Pending;
     Clients.getPageData := fun _ => Pending;
     Clients.getProfileData := fun _ => Pending;
     Clients.verifyPhone := fun _ _ _ => Pending;
     Clients.getScore := fun _ =>
       Fulfilled
         {| BureauResult.bureau_score := Some 720;
            BureauResult.active_debt_amount := Some 0;
            BureauResult.fetched_at := "t0" |};
     Clients.getMerchantData := fun _ =>
       Fulfilled
         {| PlatformResult.avg_platform_gmv_6m := Some 900000;
            PlatformResult.tenure_months := Some 36;
            PlatformResult.pre_approved_amount := Some 50000;
            PlatformResult.fetched_at := "t0" |} |}.

Definition envWithThreshold (threshold : float) : Env.t :=
  {| Env.DEMO_MODE := false;
     Env.APPROVAL_THRESHOLD := threshold;
     Env.SYNTAGE_TIMEOUT_MS := 10000 |}.

(** A run on the inputs above, from an empty trace of calls. *)
Definition runWith (threshold : float) (clients : Clients.t)
    : (string + UnderwritingDecision.t) * list adapter :=
  runUnderwriting Math_pow_model format_model format_model
    (envWithThreshold threshold) clients "t1" bareApplication [].

(** A listing with every sub-signal at its best. *)
Definition bestListing : PlacesResult.t :=
  {| PlacesResult.connected := true;
     PlacesResult.place_id := None;
     PlacesResult.business_name := None;
     PlacesResult.rating := Some 4.8;
     PlacesResult.total_review_count := Some 350;
     PlacesResult.price_level_index := Some 3;
     PlacesResult.is_verified := Some true;
     PlacesResult.categories := Some ["Mexican restaurant"%string];
     PlacesResult.has_website := Some true;
     PlacesResult.business_status := Some "OPERATIONAL"%string;
     PlacesResult.signals_score := None;
     PlacesResult.fetched_at := "t0" |}.


(** ** Concrete inputs of the service *)

(** An application as [createApplication] stores it. *)
Definition oneApplication : Application.t :=
  fst (createApplication "app-1" 1%Z "merchant-1" []).

(** The store that holds it and nothing else. *)
Definition oneStored : Store :=
  snd (createApplication "app-1" 1%Z "merchant-1" []).

(** A form with no field. *)
Definition bareForm : FormFields.t :=
  {| FormFields.legal_name := None;
     FormFields.tax_id := None;
     FormFields.ciec := None;
     FormFields.address := None;
     FormFields.phone := None;
     FormFields.email := None;
     FormFields.consent_given := None;
     FormFields.google_business_url := None;
     FormFields.facebook_access_token := None;
     FormFields.instagram_access_token := None;
     FormFields.google_oauth_access_token := None |}.

Definition fullConsent : Consent.t :=
  {| Consent.bureau_consent := true;
     Consent.twilio_consent := true;
     Consent.data_processing_consent := true |}.

Definition somePerson : KycPersonalData.t :=
  {| KycPersonalData.first_name := "Ana";
     KycPersonalData.last_name := "Ruiz";
     KycPersonalData.birth_date := "1990-01-01";
     KycPersonalData.cedula := "RUAA900101XXX";
     KycPersonalData.nationality := "MX";
     KycPersonalData.marital_status := "single" |}.

Definition someAddress : KycAddressData.t :=
  {| KycAddressData.street := "Reforma 1";
     KycAddressData.neighborhood := None;
     KycAddressData.postal_code := "72000";
     KycAddressData.city := "Puebla";
     KycAddressData.state := "Puebla" |}.

Definition someBank : KycBankData.t :=
  {| KycBankData.clabe := "002180700000000000";
     KycBankData.bank_name := "Banco";
     KycBankData.account_type := "checking";
     KycBankData.account_holder := "Ana Ruiz" |}.

Definition someDocuments : KycDocuments.t :=
  {| KycDocuments.id_front_path := "uploads/kyc/front.png";
     KycDocuments.id_back_path := "uploads/kyc/back.png";
     KycDocuments.proof_of_address_path := None |}.

(** ** Concrete inputs of the listings client *)

(** A Places API none of whose requests is answered in time. *)
Definition silentApi : Google.PlacesApi.t :=
  {| Google.PlacesApi.findPlaceFromText := fun _ => Pending;
     Google.PlacesApi.details := fun _ => Pending |}.

(** The clients of [pendingClients] with the listings client in demo
    mode. *)
Definition demoListingClients : Clients.t :=
  {| Clients.getRevenueData := fun _ => Pending;
     Clients.getPlacesData := Google.getPlacesData true "" silentApi "t0";
     Clients.getPageData := fun _ => Pending;
     Clients.getProfileData := fun _ => Pending;
     Clients.verifyPhone := fun _ _ _ => Pending;
     Clients.getScore := fun _ => Pending;
     Clients.getMerchantData := fun _ => Pending |}.

(** An application whose form only gives a Maps URL. *)
Definition listedApplication : ApplicationDoc.t :=
  {| ApplicationDoc.id := "app-2";
     ApplicationDoc.merchant_id := "merchant-2";
     ApplicationDoc.decision_status := UNDERWRITING_PENDING;
     ApplicationDoc.form_data :=
       Some {| FormData.legal_name := None;
               FormData.tax_id := None;
               FormData.phone := None;
               FormData.google_business_url :=
                 Some "https://www.google.com/maps/place/Los+Aguacates/"%string;
               FormData.facebook_access_token := None;
               FormData.instagram_access_token := None |} |}.

(** The clients of [pendingClients] with the bureau and platform clients
    of the repository. *)
Definition bureauAndPlatformClients : Clients.t :=
  {| Clients.getRevenueData := fun _ => Pending;
     Clients.getPlacesData := fun _ => Pending;
     Clients.getPageData := fun _ => Pending;
     Clients.getProfileData := fun _ => Pending;
     Clients.verifyPhone := fun _ _ _ => Pending;
     Clients.getScore := BureauClient.getScore false "t0";
     Clients.getMerchantData := PlatformClient.getMerchantData false "t0" |}.




(** ** Followers of a network *)

(** [a] counts at most the followers of [b]; a network that is not
    connected counts none. *)
Definition fewerFollowers (a b : option float) : bool :=
  match a, b with
  | None, _ => true
  | Some x, Some y => x <=? y
  | Some _, None => false
  end.


(** ** The product of the factors, before it is rounded

    The binary64 number that [computeTotalRevenue] hands to [Math.round]:
    the base times the factors of [Formula], multiplied from left to
    right. *)
Definition factorProduct (base score : float) (bureau tenure : option float)
    (compliant : bool) (facebook instagram : option float)
    (identityMatch whatsappBusiness simSwap : option bool) : float :=
  Formula.digitalFactors base score facebook instagram identityMatch
    whatsappBusiness simSwap *
  Formula.bureauMultiplier bureau * Formula.tenureMultiplier tenure *
  Formula.complianceMultiplier compliant.

(** ** The formula over the rationals

    The specification writes the factors as decimal numbers and the total
    as their rounded product.  [Exact] reads this over the rationals:
    [value] is the rational a finite binary64 number stands for, the
    factors are the decimal numbers themselves ([8 # 100] is 0.08) and
    [round] is rounding to the nearest integer, halves upwards. *)
Module Exact.
Import QArith Qround Qabs.

(** [(-1)^s * m * 2^e] *)
Definition ofFinite (s : bool) (m : positive) (e : Z) : Q :=
  match e with
  | Zneg k => cond_Zopp s (Zpos m) # (2 ^ k)
  | _ => inject_Z (cond_Zopp s (Zpos m) * 2 ^ e)
  end.

Definition value (x : float) : option Q :=
  match Prim2SF x with
  | S754_zero _ => Some 0
  | S754_finite s m e => Some (ofFinite s m e)
  | S754_infinity _ | S754_nan => None
  end.

(** [x] is a finite number, and [q] is its value. *)
Definition represents (x : float) (q : Q) : Prop :=
  match value x with
  | Some v => v == q
  | None => False
  end.

(** The value of a finite number (and 0 for the others). *)
Definition valueOf (x : float) : Q :=
  match value x with
  | Some v => v
  | None => 0
  end.

Definition integer (k : Z) : Q := inject_Z k.

(** [floor (q + 1/2)], the integer nearest to [q], the upper one of the
    two when [q] lies half-way. *)
Definition round (q : Q) : Z := Qfloor (q + (1 # 2)).

(** [k] is an integer nearest to [q], however a tie is broken. *)
Definition nearest (q : Q) (k : Z) : bool :=
  Qle_bool (Qabs (q - inject_Z k)) (1 # 2).

(** [|q| <= k] *)
Definition atMost (q : Q) (k : Z) : Prop := Qabs q <= inject_Z k.

Definition listingsBoost (score : Q) : Q := 1 + (score / 100) * (20 # 100).

Definition facebookTier (followers : option float) : Q :=
  match followers with
  | Some n =>
      if n >=? 5000 then 8 # 100 else if n >=? 1000 then 5 # 100 else 2 # 100
  | None => 0
  end.

Definition instagramTier (followers : option float) : Q :=
  match followers with
  | Some n =>
      if n >=? 5000 then 7 # 100 else if n >=? 1000 then 4 # 100 else 1 # 100
  | None => 0
  end.

Definition socialBoost (facebook instagram : option float) : Q :=
  1 + facebookTier facebook + instagramTier instagram.

Definition identityBoost (identityMatch : option bool) : Q :=
  match identityMatch with
  | Some true => 105 # 100
  | Some false | None => 1
  end.

Definition messagingBoost (whatsappBusiness : option bool) : Q :=
  match whatsappBusiness with
  | Some true => 103 # 100
  | Some false | None => 1
  end.

Definition simSwapPenalty (simSwap : option bool) : Q :=
  match simSwap with
  | Some true => 90 # 100
  | Some false | None => 1
  end.

Definition bureauMultiplier (score : option float) : Q :=
  match score with
  | Some s => if s >? 700 then 110 # 100 else if s >? 600 then 1 else 90 # 100
  | None => 1
  end.

Definition tenureMultiplier (months : option float) : Q :=
  match months with
  | Some t => if t >? 24 then 105 # 100 else if t <? 6 then 95 # 100 else 1
  | None => 1
  end.

Definition complianceMultiplier (compliant : bool) : Q :=
  if compliant then 1 else 80 # 100.

(** The product of the base and the factors, for a finite base and a
    finite listings score. *)
Definition product (base score : float) (bureau tenure : option float)
    (compliant : bool) (facebook instagram : option float)
    (identityMatch whatsappBusiness simSwap : option bool) : option Q :=
  match value base, value score with
  | Some b, Some s =>
      Some (b * listingsBoost s * socialBoost facebook instagram *
            identityBoost identityMatch * messagingBoost whatsappBusiness *
            simSwapPenalty simSwap * bureauMultiplier bureau *
            tenureMultiplier tenure * complianceMultiplier compliant)
  | _, _ => None
  end.

(** The product rounded to the nearest integer. *)
Definition total (base score : float) (bureau tenure : option float)
    (compliant : bool) (facebook instagram : option float)
    (identityMatch whatsappBusiness simSwap : option bool) : option Z :=
  option_map round
    (product base score bureau tenure compliant facebook instagram
       identityMatch whatsappBusiness simSwap).

(** Whether [k] is an integer nearest to the product. *)
Definition totalNearest (k : Z) (base score : float) (bureau tenure : option float)
    (compliant : bool) (facebook instagram : option float)
    (identityMatch whatsappBusiness simSwap : option bool) : option bool :=
  option_map (fun q => nearest q k)
    (product base score bureau tenure compliant facebook instagram
       identityMatch whatsappBusiness simSwap).

(** [x] is a finite number whose value lies between [E * a] and [E * b],
    as a proposition and as a test. *)
Definition enclosed (x : float) (E a b : Q) : Prop :=
  exists X, represents x X /\ E * a <= X /\ X <= E * b.

Definition enclosedb (x : float) (E a b : Q) : bool :=
  match value x with
  | Some X => Qle_bool (E * a) X && Qle_bool X (E * b)
  | None => false
  end.

(** [lo <= q <= hi] *)
Definition between (lo : Z) (q : Q) (hi : Z) : Prop :=
  inject_Z lo <= q /\ q <= inject_Z hi.

(** The relative error allowed to the binary64 product of the base and
    the eight factors: [2^-47]. *)
Definition tolerance : Q := 1 # 2 ^ 47.

(** [x] is a finite number within the relative error [tolerance] of [E]. *)
Definition close (x : float) (E : Q) : Prop :=
  enclosed x E (1 - tolerance) (1 + tolerance).

(** The integer [t] lies within [1/2 + 1/1000] of [E]. *)
Definition nearby (t : Z) (E : Q) : Prop := Qabs (inject_Z t - E) <= 501 # 1000.

(** The tier multiplier of the credit offer, and the approved amount as
    the nearest whole number of thousands. *)
Definition tierMultiplier (hasSocial hasFiscal : bool) : Q :=
  if hasFiscal then 2 else if hasSocial then 14 # 10 else 12 # 10.

(** [base * multiplier / 1000], for a finite base. *)
Definition thousands (base : float) (hasSocial hasFiscal : bool) : option Q :=
  option_map (fun b => b * tierMultiplier hasSocial hasFiscal / 1000) (value base).

Definition approvedAmount (base : float) (hasSocial hasFiscal : bool) : option Z :=
  option_map (fun q => (round q * 1000)%Z) (thousands base hasSocial hasFiscal).
End Exact.

(** ** The total as a function of the seven source results

    What [runUnderwriting] passes to [computeTotalRevenue], read off the
    seven results that the decision records. *)
Module OfResults.
Definition monthlyRevenue (r : option SyntageResult.t) : float :=
  match r with
  | Some r => SyntageResult.monthly_revenue r
  | None => 0
  end.

Definition compliance (r : option SyntageResult.t) : bool :=
  match r with
  | Some r => nullish (SyntageResult.tax_compliance r) true
  | None => true
  end.

Definition listingsScore (r : option PlacesResult.t) : float :=
  match r with
  | Some r =>
      if PlacesResult.connected r
      then nullish (PlacesResult.signals_score r) 0
      else 0
  | None => 0
  end.

Definition fanCount (r : option FacebookResult.t) : option float :=
  match r with
  | Some r => if FacebookResult.connected r then FacebookResult.fan_count r else None
  | None => None
  end.

Definition followers (r : option InstagramResult.t) : option float :=
  match r with
  | Some r =>
      if InstagramResult.connected r then InstagramResult.followers_count r else None
  | None => None
  end.

Definition phoneFlag (f : TwilioResult.t -> option bool)
    (r : option TwilioResult.t) : option bool :=
  match r with
  | Some r => if TwilioResult.connected r then f r else None
  | None => None
  end.

Definition bureauScore (r : option BureauResult.t) : option float :=
  match r with
  | Some r => BureauResult.bureau_score r
  | None => None
  end.

Definition tenureMonths (r : option PlatformResult.t) : option float :=
  match r with
  | Some r =>
      match PlatformResult.avg_platform_gmv_6m r with
      | Some _ => PlatformResult.tenure_months r
      | None => None
      end
  | None => None
  end.

(** The total, from the seven source results. *)
Definition total (syntage : option SyntageResult.t) (places : option PlacesResult.t)
    (facebook : option FacebookResult.t) (instagram : option InstagramResult.t)
    (twilio : option TwilioResult.t) (bureau : option BureauResult.t)
    (platform : option PlatformResult.t) : float :=
  computeTotalRevenue
    (monthlyRevenue syntage) (listingsScore places) (bureauScore bureau)
    (tenureMonths platform) (compliance syntage) (fanCount facebook)
    (followers instagram)
    (phoneFlag TwilioResult.identity_match twilio)
    (phoneFlag TwilioResult.whatsapp_business twilio)
    (phoneFlag TwilioResult.sim_swap_detected twilio).

(** The total of the seven results that a decision records. *)
Definition ofDecision (d : UnderwritingDecision.t) : float :=
  total (UnderwritingDecision.syntage_result d)
    (UnderwritingDecision.places_result d)
    (UnderwritingDecision.facebook_result d)
    (UnderwritingDecision.instagram_result d)
    (UnderwritingDecision.twilio_result d)
    (UnderwritingDecision.bureau_result d)
    (UnderwritingDecision.platform_result d).

(** The seven source results of two decisions are the same. *)
Definition sameResults (d1 d2 : UnderwritingDecision.t) : Prop :=
  UnderwritingDecision.syntage_result d1 = UnderwritingDecision.syntage_result d2 /\
  UnderwritingDecision.places_result d1 = UnderwritingDecision.places_result d2 /\
  UnderwritingDecision.facebook_result d1 = UnderwritingDecision.facebook_result d2 /\
  UnderwritingDecision.instagram_result d1 = UnderwritingDecision.instagram_result d2 /\
  UnderwritingDecision.twilio_result d1 = UnderwritingDecision.twilio_result d2 /\
  UnderwritingDecision.bureau_result d1 = UnderwritingDecision.bureau_result d2 /\
  UnderwritingDecision.platform_result d1 = UnderwritingDecision.platform_result d2.
End OfResults.

(** ** Tax answers that are delivered

    [taxAnswering raw] are clients whose tax call is fulfilled with [raw]
    and whose other calls are rejected.

    [emptyTaxAnswer] is the body [{}] read at the type the tax client
    gives it.  Its fields are missing: [annual_revenue] reads as
    [undefined], and [undefined / 12], the one computation the
    orchestrator does with it, is NaN, as [NaN / 12] is; the record holds
    NaN for the two numbers and the empty string for the identifier, which
    are copied and not computed with. *)
Definition taxAnswering (raw : SyntageRevenueData.t) : Clients.t :=
  {| Clients.getRevenueData := fun _ => Fulfilled raw;
     Clients.getPlacesData := fun _ => RejectedWith "Error: Network Error";
     Clients.getPageData := fun _ => RejectedWith "Error: Network Error";
     Clients.getProfileData := fun _ => RejectedWith "Error: Network Error";
     Clients.verifyPhone := fun _ _ _ => RejectedWith "Error: Network Error";
     Clients.getScore := fun _ => RejectedWith "Error: Network Error";
     Clients.getMerchantData := fun _ => RejectedWith "Error: Network Error" |}.

Definition emptyTaxAnswer : SyntageRevenueData.t :=
  {| SyntageRevenueData.merchant_id := "";
     SyntageRevenueData.annual_revenue := nan;
     SyntageRevenueData.months_active := nan;
     SyntageRevenueData.tax_regime := None;
     SyntageRevenueData.cfdi_count_last_12m := None;
     SyntageRevenueData.tax_compliance := None |}.

(** A tax answer with a negative annual revenue. *)
Definition negativeTaxAnswer : SyntageRevenueData.t :=
  {| SyntageRevenueData.merchant_id := "merchant-1";
     SyntageRevenueData.annual_revenue := -12000;
     SyntageRevenueData.months_active := 12;
     SyntageRevenueData.tax_regime := None;
     SyntageRevenueData.cfdi_count_last_12m := None;
     SyntageRevenueData.tax_compliance := Some true |}.

(** The result the tax block records for a delivered answer, at the time
    [now]. *)
Definition syntageResultOf (now : string) (raw : SyntageRevenueData.t) : SyntageResult.t :=
  {| SyntageResult.merchant_id := SyntageRevenueData.merchant_id raw;
     SyntageResult.annual_revenue := SyntageRevenueData.annual_revenue raw;
     SyntageResult.monthly_revenue := SyntageRevenueData.annual_revenue raw / 12;
     SyntageResult.months_active := SyntageRevenueData.months_active raw;
     SyntageResult.tax_regime := SyntageRevenueData.tax_regime raw;
     SyntageResult.cfdi_count_last_12m := SyntageRevenueData.cfdi_count_last_12m raw;
     SyntageResult.tax_compliance :=
       Some (nullish (SyntageRevenueData.tax_compliance raw) true);
     SyntageResult.raw_response := raw;
     SyntageResult.fetched_at := now |}.


(** The application of the same merchant sent again, with a name and a
    phone number in its form. *)
Definition resubmittedApplication : ApplicationDoc.t :=
  {| ApplicationDoc.id := "app-2";
     ApplicationDoc.merchant_id := "merchant-1";
     ApplicationDoc.decision_status := UNDERWRITING_PENDING;
     ApplicationDoc.form_data :=
       Some {| FormData.legal_name := Some "Ana Ruiz"%string;
               FormData.tax_id := Some "RUAA800101AAA"%string;
               FormData.phone := Some "+525512345678"%string;
               FormData.google_business_url := None;
               FormData.facebook_access_token := None;
               FormData.instagram_access_token := None |} |}.

(** ** Binary64 arithmetic: the notions used to reason about it

    The operations of [float] are specified by the functions of [SpecFloat]
    on sign, mantissa and exponent ([FloatAxioms]).  The definitions below
    name what these functions compute, for the binary64 parameters
    [prec = 53] and [emax = 1024]. *)

(** [M / D] rounded to the nearest integer, ties to even. *)
Definition rnd_div (M D : Z) : Z :=
  let q := (M / D)%Z in
  let r := (M mod D)%Z in
  match (2 * r ?= D)%Z with
  | Lt => q
  | Eq => if Z.even q then q else (q + 1)%Z
  | Gt => (q + 1)%Z
  end.

(** The record [shr] reaches after [k] steps from an exact mantissa [m]. *)
Definition shr_state (m k : Z) : shr_record :=
  Build_shr_record (m / 2 ^ k) (Z.odd (m / 2 ^ (k - 1)))
                   (negb (m mod 2 ^ (k - 1) =? 0)%Z).

(** The exponent of the last place of a value of magnitude [e]. *)
Definition fexp64 (e : Z) : Z := Z.max (e - 53) (-1074).

(** Mantissa and exponent of [m * 2^e] rounded to binary64. *)
Definition rnd_pair (m e : Z) : Z * Z :=
  let E := fexp64 (Zdigits2 m + e) in
  let m1 := rnd_div m (2 ^ (E - e)) in
  if (m1 =? 2 ^ 53)%Z then ((2 ^ 52)%Z, (E + 1)%Z) else (m1, E).

(** The value with sign [s] a rounded pair stands for. *)
Definition of_pair (s : bool) (p : Z * Z) : spec_float :=
  match fst p with
  | Z0 => S754_zero s
  | Zpos m => if (snd p <=? 971)%Z then S754_finite s m (snd p) else S754_infinity s
  | Zneg _ => S754_nan
  end.

(** Order of rounded pairs: zero first, then by exponent, then by mantissa. *)
Definition pair_le (p1 p2 : Z * Z) : Prop :=
  fst p1 = 0%Z \/
  ((0 < fst p1)%Z /\ (0 < fst p2)%Z /\
   ((snd p1 < snd p2)%Z \/ (snd p1 = snd p2 /\ (fst p1 <= fst p2)%Z))).

(** The mantissa and exponent [binary_round] hands to [binary_round_aux]. *)
Definition align (m e : Z) : Z * Z :=
  let ez := Z.min e (fexp64 (Zdigits2 m + e)) in ((m * 2 ^ (e - ez))%Z, ez).

(** Zero, positive finite or +infinity: the values [x] with [0 <= x]. *)
Definition SFnonneg (x : spec_float) : bool :=
  match x with
  | S754_zero _ | S754_finite false _ _ | S754_infinity false => true
  | _ => false
  end.

(** Positive finite or +infinity. *)
Definition SFpos (x : spec_float) : bool :=
  match x with
  | S754_finite false _ _ | S754_infinity false => true
  | _ => false
  end.

(** [JS.Math_round] on specified values. *)
Definition SFround (x : spec_float) : spec_float :=
  match x with
  | S754_finite s m e => binary_normalize prec emax (JS.round_half_up s m e) 0 s
  | _ => x
  end.

(** The binary64 value of the integer [k]. *)
Definition SFint (k : Z) : spec_float := binary_normalize prec emax k 0 false.

(** The binary64 value [1]. *)
Definition SFone : spec_float := S754_finite false (2 ^ 52) (-52).

(** ** Binary64 division: the notions used to reason about it *)

(** The record [shr] reaches after [k] steps from the quotient of [M] by
    [D] and the location of its remainder. *)
Definition shr_quot (M D k : Z) : shr_record :=
  Build_shr_record (M / (D * 2 ^ k))%Z (Z.odd (2 * M / (D * 2 ^ k)))
                   (negb (2 * M mod (D * 2 ^ k) =? 0)%Z).

(** Mantissa and exponent of [(M / D) * 2^e] rounded to binary64. *)
Definition rnd_quot (M D e : Z) : Z * Z :=
  let E := fexp64 (Zdigits2 (M / D) + e) in
  let m1 := rnd_div M (D * 2 ^ (E - e)) in
  if (m1 =? 2 ^ 53)%Z then ((2 ^ 52)%Z, (E + 1)%Z) else (m1, E).

(** The exponent [SFdiv_core_binary] gives the quotient of [m1 * 2^e1] by
    [m2 * 2^e2], and the dividend it divides by [m2]. *)
Definition div_exp (m1 e1 m2 e2 : Z) : Z :=
  Z.min (fexp64 (Zdigits2 m1 + e1 - (Zdigits2 m2 + e2))) (e1 - e2).

Definition div_num (m1 e1 m2 e2 : Z) : Z :=
  (m1 * 2 ^ (e1 - e2 - div_exp m1 e1 m2 e2))%Z.

(** * Binary64 arithmetic: rounding, order and exact integers *)

Section Binary64Facts.

Local Open Scope Z_scope.

(** ** Division rounded to nearest, ties to even *)

Lemma rnd_div_exact k D : 0 < D -> rnd_div (k * D) D = k.
Proof.
  intros HD. unfold rnd_div.
  rewrite Z.mod_mul, Z.div_mul by lia.
  destruct (2 * 0 ?= D) eqn:E; try reflexivity.
  - apply Z.compare_eq in E. lia.
  - apply Z.compare_gt_iff in E. lia.
Qed.

Lemma rnd_div_scale M D c : 0 < D -> 0 < c -> rnd_div (M * c) (D * c) = rnd_div M D.
Proof.
  intros HD Hc. unfold rnd_div.
  rewrite Z.div_mul_cancel_r by lia.
  rewrite Z.mul_mod_distr_r by lia.
  replace (2 * (M mod D * c) ?= D * c) with (2 * (M mod D) ?= D); [reflexivity|].
  destruct (Z.compare_spec (2 * (M mod D)) D) as [E|E|E]; symmetry.
  - apply Z.compare_eq_iff. nia.
  - apply Z.compare_lt_iff. nia.
  - apply Z.compare_gt_iff. nia.
Qed.

Lemma rnd_div_bounds M D : 0 < D -> M / D <= rnd_div M D <= M / D + 1.
Proof.
  intros HD. unfold rnd_div.
  destruct (2 * (M mod D) ?= D); [destruct (Z.even (M / D))|..]; lia.
Qed.

Lemma rnd_div_mono_same M1 M2 D : 0 < D -> M1 <= M2 -> rnd_div M1 D <= rnd_div M2 D.
Proof.
  intros HD HM.
  assert (Hq : M1 / D <= M2 / D) by (apply Z.div_le_mono; lia).
  destruct (Z.eq_dec (M1 / D) (M2 / D)) as [E|NE].
  - assert (Hr : M1 mod D <= M2 mod D).
    { rewrite (Z.div_mod M1 D), (Z.div_mod M2 D) in HM by lia. rewrite E in HM. lia. }
    unfold rnd_div. rewrite E.
    destruct (Z.compare_spec (2 * (M1 mod D)) D);
      destruct (Z.compare_spec (2 * (M2 mod D)) D);
      destruct (Z.even (M2 / D)); lia.
  - pose proof (rnd_div_bounds M1 D HD). pose proof (rnd_div_bounds M2 D HD). lia.
Qed.

Lemma rnd_div_mono M1 D1 M2 D2 :
  0 < D1 -> 0 < D2 -> M1 * D2 <= M2 * D1 -> rnd_div M1 D1 <= rnd_div M2 D2.
Proof.
  intros H1 H2 H.
  rewrite <- (rnd_div_scale M1 D1 D2), <- (rnd_div_scale M2 D2 D1) by lia.
  rewrite (Z.mul_comm D2 D1). apply rnd_div_mono_same; lia.
Qed.

Lemma rnd_div_nonneg M D : 0 < D -> 0 <= M -> 0 <= rnd_div M D.
Proof.
  intros HD HM. pose proof (rnd_div_bounds M D HD).
  assert (0 <= M / D) by (apply Z.div_pos; lia). lia.
Qed.

(** ** What shifting a mantissa right computes *)

Lemma iter_pos_nat {A} (f : A -> A) p x :
  iter_pos f p x = Nat.iter (Pos.to_nat p) f x.
Proof.
  revert x. induction p as [p IH|p IH|]; intros x.
  - cbn [iter_pos]. rewrite !IH, Pos2Nat.inj_xI.
    replace (S (2 * Pos.to_nat p)) with (Pos.to_nat p + S (Pos.to_nat p))%nat by lia.
    rewrite Nat.iter_add. f_equal. rewrite Nat.iter_succ, Nat.iter_swap. reflexivity.
  - cbn [iter_pos]. rewrite !IH, Pos2Nat.inj_xO.
    replace (2 * Pos.to_nat p)%nat with (Pos.to_nat p + Pos.to_nat p)%nat by lia.
    rewrite Nat.iter_add. reflexivity.
  - reflexivity.
Qed.

Lemma shr_1_spec q r s :
  0 <= q -> shr_1 (Build_shr_record q r s) = Build_shr_record (q / 2) (Z.odd q) (r || s).
Proof.
  intros Hq. rewrite <- Z.div2_div.
  destruct q as [|[p|p|]|p]; try reflexivity. lia.
Qed.

Lemma pow2_pred k : 0 < k -> 2 ^ k = 2 * 2 ^ (k - 1).
Proof.
  intros Hk. replace k with (Z.succ (k - 1)) at 1 by lia.
  apply Z.pow_succ_r. lia.
Qed.

Lemma mod_pow2_split m k :
  0 < k -> m mod 2 ^ k = m mod 2 ^ (k - 1) + 2 ^ (k - 1) * ((m / 2 ^ (k - 1)) mod 2).
Proof.
  intros Hk. rewrite (pow2_pred k Hk), (Z.mul_comm 2).
  apply Z.rem_mul_r; [apply Z.pow_nonzero; lia | lia].
Qed.

Lemma shr_iter m k :
  0 <= m -> (0 < k)%nat ->
  Nat.iter k shr_1 (Build_shr_record m false false) = shr_state m (Z.of_nat k).
Proof.
  intros Hm Hk. induction k as [|k IH]; [lia|].
  destruct k as [|k].
  - unfold Nat.iter; cbn [nat_rect]. rewrite shr_1_spec by lia. unfold shr_state.
    change (Z.of_nat 1 - 1) with 0. change (2 ^ Z.of_nat 1) with 2.
    rewrite Z.pow_0_r, Z.div_1_r, Z.mod_1_r. reflexivity.
  - rewrite Nat.iter_succ, IH by lia. unfold shr_state.
    assert (H2 : 0 < 2 ^ Z.of_nat (S k)) by (apply Z.pow_pos_nonneg; lia).
    rewrite shr_1_spec by (apply Z.div_pos; lia).
    rewrite Z.div_div by lia.
    replace (2 ^ Z.of_nat (S k) * 2) with (2 ^ Z.of_nat (S (S k)))
      by (rewrite (pow2_pred (Z.of_nat (S (S k)))) by lia;
          replace (Z.of_nat (S (S k)) - 1) with (Z.of_nat (S k)) by lia; lia).
    replace (Z.of_nat (S (S k)) - 1) with (Z.of_nat (S k)) by lia.
    f_equal.
    rewrite (mod_pow2_split m (Z.of_nat (S k))) by lia.
    assert (Hp : 0 < 2 ^ (Z.of_nat (S k) - 1)) by (apply Z.pow_pos_nonneg; lia).
    set (P := 2 ^ (Z.of_nat (S k) - 1)) in *.
    set (lo := m mod P). set (q := m / P).
    assert (Hlo : 0 <= lo < P) by (apply Z.mod_pos_bound; lia).
    rewrite Zodd_mod.
    pose proof (Z.mod_pos_bound q 2 ltac:(lia)) as Hb.
    clearbody lo q P.
    destruct (Z.eqb_spec (q mod 2) 1) as [E|E]; destruct (Z.eqb_spec lo 0) as [E'|E'];
      cbn [orb negb]; symmetry.
    + apply negb_true_iff, Z.eqb_neq. nia.
    + apply negb_true_iff, Z.eqb_neq. nia.
    + apply negb_false_iff, Z.eqb_eq. assert (q mod 2 = 0) by lia. nia.
    + apply negb_true_iff, Z.eqb_neq. assert (q mod 2 = 0) by lia. nia.
Qed.

Lemma shr_state_round m k :
  0 <= m -> 0 < k ->
  round_nearest_even (shr_m (shr_state m k)) (loc_of_shr_record (shr_state m k))
  = rnd_div m (2 ^ k).
Proof.
  intros Hm Hk. unfold shr_state, rnd_div. cbn [shr_m].
  rewrite (mod_pow2_split m k) by lia.
  assert (Hp : 0 < 2 ^ (k - 1)) by (apply Z.pow_pos_nonneg; lia).
  rewrite (pow2_pred k Hk).
  set (P := 2 ^ (k - 1)) in *.
  set (lo := m mod P). set (q := m / P).
  assert (Hlo : 0 <= lo < P) by (apply Z.mod_pos_bound; lia).
  assert (Hq : m / (2 * P) = q / 2).
  { unfold q. rewrite Z.div_div by lia. f_equal. lia. }
  rewrite Hq, Zodd_mod.
  pose proof (Z.mod_pos_bound q 2 ltac:(lia)) as Hb.
  clearbody lo q P.
  destruct (Z.eqb_spec (q mod 2) 1) as [E|E]; destruct (Z.eqb_spec lo 0) as [E'|E'];
    cbn [negb loc_of_shr_record round_nearest_even].
  - rewrite (proj2 (Z.compare_eq_iff _ _)) by nia. reflexivity.
  - rewrite (proj2 (Z.compare_gt_iff _ _)) by nia. reflexivity.
  - rewrite (proj2 (Z.compare_lt_iff _ _)) by nia. reflexivity.
  - rewrite (proj2 (Z.compare_lt_iff _ _)) by nia. reflexivity.
Qed.

(** shr from an exact record *)
Lemma shr_exact_round m e n :
  0 <= m -> 0 < n ->
  let '(mrs, e') := shr (shr_record_of_loc m loc_Exact) e n in
  round_nearest_even (shr_m mrs) (loc_of_shr_record mrs) = rnd_div m (2 ^ n) /\ e' = e + n.
Proof.
  intros Hm Hn. destruct n as [|p|p]; try lia.
  simpl shr. rewrite iter_pos_nat, shr_iter by lia.
  rewrite positive_nat_Z. split; [apply shr_state_round; lia | reflexivity].
Qed.

(** ** Digits, and what binary_round_aux computes *)

Lemma digits2_size p : digits2_pos p = Pos.size p.
Proof. induction p; simpl; congruence. Qed.

Lemma Zdigits2_spec m : 0 < m -> 2 ^ (Zdigits2 m - 1) <= m < 2 ^ Zdigits2 m.
Proof.
  intros Hm. destruct m as [|p|p]; try lia.
  cbn [Zdigits2]. rewrite digits2_size.
  pose proof (Pos.size_gt p) as Hgt. pose proof (Pos.size_le p) as Hle.
  assert (E : Z.pos (2 ^ Pos.size p) = 2 ^ Z.pos (Pos.size p)) by apply Pos2Z.inj_pow.
  rewrite (pow2_pred (Z.pos (Pos.size p))) in E by lia.
  rewrite (pow2_pred (Z.pos (Pos.size p))) by lia.
  lia.
Qed.

Lemma Zdigits2_pos m : 0 < m -> 0 < Zdigits2 m.
Proof. destruct m; simpl; lia. Qed.

Lemma pow2_lt_inv a b : 2 ^ a < 2 ^ b -> 0 <= b -> a < b.
Proof.
  intros H Hb. destruct (Z.lt_ge_cases a b) as [|Hge]; [assumption|].
  assert (2 ^ b <= 2 ^ a) by (apply Z.pow_le_mono_r; lia). lia.
Qed.

Lemma Zdigits2_unique m k : 2 ^ (k - 1) <= m < 2 ^ k -> 0 < k -> Zdigits2 m = k.
Proof.
  intros H Hk.
  assert (Hm : 0 < m).
  { assert (0 < 2 ^ (k - 1)) by (apply Z.pow_pos_nonneg; lia). lia. }
  pose proof (Zdigits2_spec m Hm) as Hd. pose proof (Zdigits2_pos m Hm) as Hp.
  assert (Zdigits2 m - 1 < k) by (apply pow2_lt_inv; lia).
  assert (k - 1 < Zdigits2 m) by (apply pow2_lt_inv; lia).
  lia.
Qed.

Lemma Zdigits2_le m k : 0 < m -> m < 2 ^ k -> 0 <= k -> Zdigits2 m <= k.
Proof.
  intros Hm H Hk. pose proof (Zdigits2_spec m Hm) as Hd.
  assert (Zdigits2 m - 1 < k) by (apply pow2_lt_inv; lia). lia.
Qed.

Lemma Zdigits2_ge m k : 2 ^ k <= m -> 0 <= k -> k < Zdigits2 m.
Proof.
  intros H Hk.
  assert (Hm : 0 < m).
  { assert (0 < 2 ^ k) by (apply Z.pow_pos_nonneg; lia). lia. }
  pose proof (Zdigits2_spec m Hm) as Hd. pose proof (Zdigits2_pos m Hm).
  apply pow2_lt_inv; lia.
Qed.

Lemma fexp_64 e : fexp prec emax e = fexp64 e.
Proof. reflexivity. Qed.

Lemma rnd_first_bound m e :
  0 < m -> e <= fexp64 (Zdigits2 m + e) ->
  0 <= rnd_div m (2 ^ (fexp64 (Zdigits2 m + e) - e)) <= 2 ^ 53.
Proof.
  intros Hm He. set (E := fexp64 (Zdigits2 m + e)) in *.
  assert (HD : 0 < 2 ^ (E - e)) by (apply Z.pow_pos_nonneg; lia).
  split; [apply rnd_div_nonneg; lia|].
  rewrite <- (rnd_div_exact (2 ^ 53) (2 ^ (E - e)) HD).
  apply rnd_div_mono_same; [assumption|].
  rewrite <- Z.pow_add_r by lia.
  pose proof (Zdigits2_spec m Hm) as Hd.
  assert (2 ^ Zdigits2 m <= 2 ^ (53 + (E - e))).
  { apply Z.pow_le_mono_r; [lia|]. unfold E, fexp64. lia. }
  lia.
Qed.

Lemma shr_fexp_exact m e :
  0 <= m -> e <= fexp64 (Zdigits2 m + e) ->
  let '(mrs, e') := shr_fexp prec emax m e loc_Exact in
  round_nearest_even (shr_m mrs) (loc_of_shr_record mrs)
    = rnd_div m (2 ^ (fexp64 (Zdigits2 m + e) - e))
  /\ e' = fexp64 (Zdigits2 m + e).
Proof.
  intros Hm He. unfold shr_fexp. rewrite fexp_64.
  set (E := fexp64 (Zdigits2 m + e)) in *.
  destruct (Z.eq_dec E e) as [Heq|Hne].
  - rewrite Heq, Z.sub_diag. cbn [shr shr_record_of_loc shr_m loc_of_shr_record round_nearest_even].
    change (2 ^ 0) with 1. rewrite <- (Z.mul_1_r m) at 2. rewrite rnd_div_exact by lia. auto.
  - pose proof (shr_exact_round m e (E - e) Hm ltac:(lia)) as H.
    destruct (shr (shr_record_of_loc m loc_Exact) e (E - e)) as [mrs e'].
    destruct H as [H1 H2]. split; [exact H1 | lia].
Qed.

Lemma shr_fexp_id m e :
  fexp64 (Zdigits2 m + e) <= e ->
  shr_fexp prec emax m e loc_Exact = (Build_shr_record m false false, e).
Proof.
  intros H. unfold shr_fexp. rewrite fexp_64.
  destruct (fexp64 (Zdigits2 m + e) - e) eqn:E; try reflexivity. lia.
Qed.

Lemma binary_round_aux_exact s m e :
  0 < m -> e <= fexp64 (Zdigits2 m + e) ->
  binary_round_aux prec emax s m e loc_Exact = of_pair s (rnd_pair m e).
Proof.
  intros Hm He. unfold binary_round_aux.
  pose proof (shr_fexp_exact m e ltac:(lia) He) as H1.
  pose proof (rnd_first_bound m e Hm He) as Hb.
  destruct (shr_fexp prec emax m e loc_Exact) as [mrs' e'].
  destruct H1 as [H1 H2]. rewrite H1, H2. unfold rnd_pair.
  set (E := fexp64 (Zdigits2 m + e)) in *.
  set (m1 := rnd_div m (2 ^ (E - e))) in *.
  assert (HE : -1074 <= E) by (unfold E, fexp64; lia).
  destruct (Z.eqb_spec m1 (2 ^ 53)) as [Hc|Hc].
  - rewrite Hc. unfold shr_fexp. rewrite fexp_64.
    change (Zdigits2 (2 ^ 53)) with 54.
    replace (fexp64 (54 + E) - E) with 1 by (unfold fexp64; lia).
    cbn. unfold of_pair. cbn [fst snd]. reflexivity.
  - rewrite shr_fexp_id.
    + cbn [shr_m]. unfold of_pair. cbn [fst snd]. reflexivity.
    + destruct (Z.eq_dec m1 0) as [Hz|Hz].
      * rewrite Hz. cbn [Zdigits2]. unfold fexp64. lia.
      * assert (Zdigits2 m1 <= 53) by (apply Zdigits2_le; lia).
        unfold fexp64. lia.
Qed.

(** ** Rounding is monotone *)

Lemma pow2_pos k : 0 <= k -> 0 < 2 ^ k.
Proof. intros. apply Z.pow_pos_nonneg; lia. Qed.

Lemma rnd_first_normal m e :
  0 < m -> e <= fexp64 (Zdigits2 m + e) ->
  fexp64 (Zdigits2 m + e) = Zdigits2 m + e - 53 ->
  2 ^ 52 <= rnd_div m (2 ^ (fexp64 (Zdigits2 m + e) - e)).
Proof.
  intros Hm He HE. set (E := fexp64 (Zdigits2 m + e)) in *.
  assert (HD : 0 < 2 ^ (E - e)) by (apply pow2_pos; lia).
  rewrite <- (rnd_div_exact (2 ^ 52) (2 ^ (E - e)) HD) at 1.
  apply rnd_div_mono_same; [assumption|].
  rewrite <- Z.pow_add_r by lia.
  pose proof (Zdigits2_spec m Hm) as Hd.
  replace (52 + (E - e)) with (Zdigits2 m - 1) by lia. lia.
Qed.

Lemma mag_mono b m1 e1 m2 e2 :
  0 < m1 -> 0 < m2 -> b <= e1 -> b <= e2 ->
  m1 * 2 ^ (e1 - b) <= m2 * 2 ^ (e2 - b) ->
  Zdigits2 m1 + e1 <= Zdigits2 m2 + e2.
Proof.
  intros H1 H2 Hb1 Hb2 Hv.
  pose proof (Zdigits2_spec m1 H1) as Hd1. pose proof (Zdigits2_spec m2 H2) as Hd2.
  pose proof (Zdigits2_pos m1 H1). pose proof (Zdigits2_pos m2 H2).
  assert (A : 2 ^ (Zdigits2 m1 - 1 + (e1 - b)) <= m1 * 2 ^ (e1 - b)).
  { rewrite Z.pow_add_r by lia. apply Z.mul_le_mono_nonneg_r; [|lia].
    apply Z.lt_le_incl, pow2_pos; lia. }
  assert (B : m2 * 2 ^ (e2 - b) < 2 ^ (Zdigits2 m2 + (e2 - b))).
  { rewrite Z.pow_add_r by lia. apply Z.mul_lt_mono_pos_r; [apply pow2_pos|]; lia. }
  assert (Zdigits2 m1 - 1 + (e1 - b) < Zdigits2 m2 + (e2 - b))
    by (apply pow2_lt_inv; lia).
  lia.
Qed.

Lemma fexp64_mono a b : a <= b -> fexp64 a <= fexp64 b.
Proof. unfold fexp64. lia. Qed.

Lemma cross_scale b E m1 e1 m2 e2 :
  b <= e1 -> b <= e2 -> e1 <= E -> e2 <= E ->
  m1 * 2 ^ (e1 - b) <= m2 * 2 ^ (e2 - b) ->
  m1 * 2 ^ (E - e2) <= m2 * 2 ^ (E - e1).
Proof.
  intros Hb1 Hb2 H1 H2 Hv.
  assert (P1 : 0 < 2 ^ (e1 - b)) by (apply pow2_pos; lia).
  assert (P2 : 0 < 2 ^ (e2 - b)) by (apply pow2_pos; lia).
  assert (Q1 : 0 < 2 ^ (E - e1)) by (apply pow2_pos; lia).
  assert (Q2 : 0 < 2 ^ (E - e2)) by (apply pow2_pos; lia).
  assert (T : 2 ^ (e1 - b) * 2 ^ (E - e1) = 2 ^ (e2 - b) * 2 ^ (E - e2)).
  { rewrite <- !Z.pow_add_r by lia. f_equal. lia. }
  apply (Z.mul_le_mono_pos_r _ _ (2 ^ (e1 - b) * 2 ^ (e2 - b))); [nia|].
  assert (L : m1 * 2 ^ (E - e2) * (2 ^ (e1 - b) * 2 ^ (e2 - b))
              = m1 * 2 ^ (e1 - b) * (2 ^ (e2 - b) * 2 ^ (E - e2))) by ring.
  assert (R : m2 * 2 ^ (E - e1) * (2 ^ (e1 - b) * 2 ^ (e2 - b))
              = m2 * 2 ^ (e2 - b) * (2 ^ (e1 - b) * 2 ^ (E - e1))) by ring.
  rewrite L, R, T. apply Z.mul_le_mono_nonneg_r; [nia|assumption].
Qed.

Lemma rnd_pair_mono b m1 e1 m2 e2 :
  0 < m1 -> 0 < m2 -> b <= e1 -> b <= e2 ->
  e1 <= fexp64 (Zdigits2 m1 + e1) -> e2 <= fexp64 (Zdigits2 m2 + e2) ->
  m1 * 2 ^ (e1 - b) <= m2 * 2 ^ (e2 - b) ->
  pair_le (rnd_pair m1 e1) (rnd_pair m2 e2).
Proof.
  intros H1 H2 Hb1 Hb2 He1 He2 Hv.
  pose proof (mag_mono b m1 e1 m2 e2 H1 H2 Hb1 Hb2 Hv) as Hmag.
  pose proof (fexp64_mono _ _ Hmag) as HE.
  pose proof (rnd_first_bound m1 e1 H1 He1) as B1.
  pose proof (rnd_first_bound m2 e2 H2 He2) as B2.
  pose proof (rnd_first_normal m2 e2 H2 He2) as N2.
  unfold rnd_pair, pair_le.
  set (E1 := fexp64 (Zdigits2 m1 + e1)) in *.
  set (E2 := fexp64 (Zdigits2 m2 + e2)) in *.
  set (a1 := rnd_div m1 (2 ^ (E1 - e1))) in *.
  set (a2 := rnd_div m2 (2 ^ (E2 - e2))) in *.
  assert (P52 : 0 < 2 ^ 52) by reflexivity.
  assert (P53 : 2 ^ 52 < 2 ^ 53) by reflexivity.
  destruct (Z.eq_dec E1 E2) as [Heq|Hne].
  - assert (Ha : a1 <= a2).
    { unfold a1, a2. apply rnd_div_mono; try (apply pow2_pos; lia).
      rewrite <- Heq. apply (cross_scale b); try lia. }
    destruct (Z.eqb_spec a1 (2 ^ 53)); destruct (Z.eqb_spec a2 (2 ^ 53)); cbn [fst snd]; lia.
  - assert (Hn : E2 = Zdigits2 m2 + e2 - 53).
    { assert (-1074 <= E1) by (unfold E1, fexp64; lia). unfold E2, fexp64 in *. lia. }
    specialize (N2 Hn).
    destruct (Z.eqb_spec a1 (2 ^ 53)); destruct (Z.eqb_spec a2 (2 ^ 53)); cbn [fst snd]; lia.
Qed.

Lemma rnd_pair_nonneg m e :
  0 < m -> e <= fexp64 (Zdigits2 m + e) -> 0 <= fst (rnd_pair m e).
Proof.
  intros Hm He. pose proof (rnd_first_bound m e Hm He). unfold rnd_pair.
  destruct (_ =? _); cbn [fst]; [reflexivity || lia | lia].
Qed.

Lemma SFleb_of_pair p1 p2 :
  pair_le p1 p2 -> 0 <= fst p2 ->
  SFleb (of_pair false p1) (of_pair false p2) = true.
Proof.
  destruct p1 as [a1 x1], p2 as [a2 x2]. unfold pair_le, of_pair. cbn [fst snd].
  intros H H2.
  destruct a1 as [|q1|q1]; destruct a2 as [|q2|q2]; try lia;
    try (destruct (Z.leb_spec x1 971)); try (destruct (Z.leb_spec x2 971));
    try reflexivity; try lia.
  destruct H as [H|(_ & _ & [H|[H H']])]; try lia.
  - unfold SFleb, SFcompare. rewrite (proj2 (Z.compare_lt_iff _ _) H). reflexivity.
  - unfold SFleb, SFcompare. rewrite H, Z.compare_refl.
    change (Pos.compare_cont Eq q1 q2) with (Z.pos q1 ?= Z.pos q2).
    destruct (Z.compare_spec (Z.pos q1) (Z.pos q2)); try reflexivity; lia.
Qed.

(** ** Multiplication of finite values *)

Lemma valid_finite s m e :
  valid_binary (S754_finite s m e) = true ->
  fexp64 (Zdigits2 (Z.pos m) + e) = e /\ e <= 971.
Proof.
  unfold SpecFloat.valid_binary, bounded, canonical_mantissa.
  rewrite fexp_64. intros H. apply andb_true_iff in H. destruct H as [H1 H2].
  apply Z.eqb_eq in H1. apply Z.leb_le in H2. cbn [Zdigits2]. split; [exact H1|exact H2].
Qed.

Lemma SFleb_finite_iff mx ex my ey :
  SFleb (S754_finite false mx ex) (S754_finite false my ey) = true <->
  ex < ey \/ (ex = ey /\ Z.pos mx <= Z.pos my).
Proof.
  unfold SFleb, SFcompare.
  change (Pos.compare_cont Eq mx my) with (Z.pos mx ?= Z.pos my).
  destruct (Z.compare_spec ex ey); destruct (Z.compare_spec (Z.pos mx) (Z.pos my));
    split; intros; try reflexivity; try discriminate; lia.
Qed.

Lemma finite_le_val mx ex my ey :
  valid_binary (S754_finite false mx ex) = true ->
  valid_binary (S754_finite false my ey) = true ->
  SFleb (S754_finite false mx ex) (S754_finite false my ey) = true ->
  Z.pos mx * 2 ^ (ex - Z.min ex ey) <= Z.pos my * 2 ^ (ey - Z.min ex ey).
Proof.
  intros Vx Vy H. apply valid_finite in Vx, Vy. apply SFleb_finite_iff in H.
  destruct Vx as [Cx _], Vy as [Cy _].
  destruct H as [H|[H H']].
  - replace (Z.min ex ey) with ex by lia. rewrite Z.sub_diag, Z.pow_0_r.
    pose proof (Zdigits2_spec (Z.pos mx) ltac:(lia)) as Dx.
    pose proof (Zdigits2_spec (Z.pos my) ltac:(lia)) as Dy.
    assert (Hdx : Zdigits2 (Z.pos mx) <= 53) by (unfold fexp64 in Cx; lia).
    assert (Hdy : Zdigits2 (Z.pos my) = 53) by (unfold fexp64 in Cx, Cy; lia).
    rewrite Hdy in Dy. change (2 ^ (53 - 1)) with (2 ^ 52) in Dy.
    assert (Z.pos mx < 2 ^ 53).
    { eapply Z.lt_le_trans; [apply Dx|]. apply Z.pow_le_mono_r; lia. }
    assert (2 ^ 1 <= 2 ^ (ey - ex)) by (apply Z.pow_le_mono_r; lia).
    change (2 ^ 1) with 2 in *. change (2 ^ 53) with (2 * 2 ^ 52) in *. nia.
  - subst ey. rewrite Z.min_id, Z.sub_diag, Z.pow_0_r. lia.
Qed.

Lemma Zdigits2_mul a b :
  0 < a -> 0 < b -> Zdigits2 a + Zdigits2 b - 1 <= Zdigits2 (a * b).
Proof.
  intros Ha Hb.
  pose proof (Zdigits2_spec a Ha) as Da. pose proof (Zdigits2_spec b Hb) as Db.
  pose proof (Zdigits2_pos a Ha). pose proof (Zdigits2_pos b Hb).
  assert (2 ^ (Zdigits2 a - 1 + (Zdigits2 b - 1)) <= a * b).
  { rewrite Z.pow_add_r by lia.
    assert (0 < 2 ^ (Zdigits2 a - 1)) by (apply pow2_pos; lia).
    assert (0 < 2 ^ (Zdigits2 b - 1)) by (apply pow2_pos; lia). nia. }
  assert (Zdigits2 a - 1 + (Zdigits2 b - 1) < Zdigits2 (a * b)) by (apply Zdigits2_ge; lia).
  lia.
Qed.

Lemma mul_pre mx ex mc ec :
  valid_binary (S754_finite false mx ex) = true ->
  valid_binary (S754_finite false mc ec) = true ->
  ex + ec <= fexp64 (Zdigits2 (Z.pos mx * Z.pos mc) + (ex + ec)).
Proof.
  intros Vx Vc. apply valid_finite in Vx, Vc. destruct Vx as [Cx _], Vc as [Cc _].
  pose proof (Zdigits2_mul (Z.pos mx) (Z.pos mc) ltac:(lia) ltac:(lia)).
  pose proof (Zdigits2_pos (Z.pos mx) ltac:(lia)).
  pose proof (Zdigits2_pos (Z.pos mc) ltac:(lia)).
  unfold fexp64 in *. lia.
Qed.

Lemma SFmul_finite sx mx ex sc mc ec :
  valid_binary (S754_finite false mx ex) = true ->
  valid_binary (S754_finite false mc ec) = true ->
  SFmul prec emax (S754_finite sx mx ex) (S754_finite sc mc ec)
  = of_pair (xorb sx sc) (rnd_pair (Z.pos mx * Z.pos mc) (ex + ec)).
Proof.
  intros Vx Vc. cbn [SFmul]. rewrite Pos2Z.inj_mul.
  apply binary_round_aux_exact; [lia | apply mul_pre; assumption].
Qed.

Lemma of_pair_nonneg p : 0 <= fst p -> SFnonneg (of_pair false p) = true.
Proof.
  destruct p as [a e]. unfold of_pair. cbn [fst snd]. intros H.
  destruct a; try lia; [reflexivity|]. destruct (e <=? 971); reflexivity.
Qed.

Lemma SFleb_zero_nonneg s y : SFnonneg y = true -> SFleb (S754_zero s) y = true.
Proof. destruct y as [| [|] | | [|] ]; try discriminate; reflexivity. Qed.

Lemma SFleb_nonneg_inf x : SFnonneg x = true -> SFleb x (S754_infinity false) = true.
Proof. destruct x as [| [|] | | [|] ]; try discriminate; reflexivity. Qed.

(** multiplication by a positive finite constant is monotone on the
    non-negative values *)
Lemma SFmul_mono x y mc ec :
  valid_binary x = true -> valid_binary y = true ->
  valid_binary (S754_finite false mc ec) = true ->
  SFnonneg x = true -> SFleb x y = true ->
  SFleb (SFmul prec emax x (S754_finite false mc ec))
        (SFmul prec emax y (S754_finite false mc ec)) = true.
Proof.
  intros Vx Vy Vc Nx Hxy.
  destruct x as [sx|[|]| |[|] mx ex]; try discriminate;
    destruct y as [sy|[|]| |[|] my ey]; try discriminate.
  - reflexivity.
  - reflexivity.
  - rewrite SFmul_finite by assumption. cbn [SFmul].
    apply SFleb_zero_nonneg, of_pair_nonneg, rnd_pair_nonneg; [lia|apply mul_pre; assumption].
  - reflexivity.
  - rewrite SFmul_finite by assumption. cbn [SFmul xorb].
    apply SFleb_nonneg_inf, of_pair_nonneg, rnd_pair_nonneg; [lia|apply mul_pre; assumption].
  - rewrite !SFmul_finite by assumption. cbn [xorb].
    apply SFleb_of_pair.
    + apply (rnd_pair_mono (Z.min ex ey + ec)); try lia;
        try (apply mul_pre; assumption).
      pose proof (finite_le_val mx ex my ey Vx Vy Hxy) as Hv.
      replace (ex + ec - (Z.min ex ey + ec)) with (ex - Z.min ex ey) by lia.
      replace (ey + ec - (Z.min ex ey + ec)) with (ey - Z.min ex ey) by lia.
      nia.
    + apply rnd_pair_nonneg; [lia|apply mul_pre; assumption].
Qed.

Lemma SFmul_comm x y : SFmul prec emax x y = SFmul prec emax y x.
Proof.
  destruct x as [sx|sx| |sx mx ex]; destruct y as [sy|sy| |sy my ey];
    cbn [SFmul]; rewrite ?(xorb_comm sx sy); try reflexivity.
  rewrite (Pos.mul_comm mx my), (Z.add_comm ex ey). reflexivity.
Qed.

(** ** Multiplication of floats *)

Local Open Scope float_scope.

Lemma leb0_nonneg x : (0 <=? x) = true <-> SFnonneg (Prim2SF x) = true.
Proof.
  rewrite leb_spec. change (Prim2SF 0) with (S754_zero false).
  destruct (Prim2SF x) as [s|[|]| |[|] m e]; cbn; split; intros; congruence.
Qed.

Lemma pos_finite c :
  (0 <? c) = true -> (c <? infinity) = true ->
  exists mc ec, Prim2SF c = S754_finite false mc ec.
Proof.
  rewrite !ltb_spec. change (Prim2SF 0) with (S754_zero false).
  change (Prim2SF infinity) with (S754_infinity false).
  destruct (Prim2SF c) as [s|[|]| |[|] m e]; cbn; intros; try discriminate.
  eauto.
Qed.

Lemma mul_comm x y : x * y = y * x.
Proof. apply Prim2SF_inj. rewrite !mul_spec. apply SFmul_comm. Qed.

(** [x <= y] gives [x * c <= y * c] for [0 <= x] and a positive finite [c] *)
Lemma mul_mono_r x y c :
  (0 <=? x) = true -> (x <=? y) = true ->
  (0 <? c) = true -> (c <? infinity) = true ->
  (x * c <=? y * c) = true.
Proof.
  intros Hx Hxy Hc Hf. apply leb0_nonneg in Hx. rewrite leb_spec in Hxy.
  destruct (pos_finite c Hc Hf) as (mc & ec & Ec).
  rewrite leb_spec, !mul_spec, Ec.
  apply SFmul_mono; try assumption; try apply Prim2SF_valid.
  rewrite <- Ec. apply Prim2SF_valid.
Qed.

Local Close Scope float_scope.

(** ** binary_round: alignment, validity, monotonicity *)

Lemma iter_xO m d : Z.pos (Pos.iter xO m d) = Z.pos m * 2 ^ Z.pos d.
Proof.
  induction d as [|d IH] using Pos.peano_ind.
  - cbn [Pos.iter]. lia.
  - rewrite Pos.iter_succ, Pos2Z.inj_xO, IH, Pos2Z.inj_succ, Z.pow_succ_r by lia. ring.
Qed.

Lemma shl_align_spec mx ex ex' :
  let '(mz, ez) := shl_align mx ex ex' in
  ez = Z.min ex ex' /\ Z.pos mz = Z.pos mx * 2 ^ (ex - ez).
Proof.
  unfold shl_align. destruct (ex' - ex) as [|d|d] eqn:E.
  - split; [lia|]. replace (ex - ex) with 0 by lia. lia.
  - split; [lia|]. replace (ex - ex) with 0 by lia. lia.
  - split; [lia|]. rewrite iter_xO. f_equal. f_equal. lia.
Qed.

Lemma Zdigits2_shift m k : 0 < m -> 0 <= k -> Zdigits2 (m * 2 ^ k) = Zdigits2 m + k.
Proof.
  intros Hm Hk. pose proof (Zdigits2_spec m Hm) as D. pose proof (Zdigits2_pos m Hm).
  assert (P : 0 < 2 ^ k) by (apply pow2_pos; lia).
  apply Zdigits2_unique; [|lia].
  replace (Zdigits2 m + k - 1) with (Zdigits2 m - 1 + k) by lia.
  rewrite !Z.pow_add_r by lia. nia.
Qed.

Lemma align_pre m e :
  0 < m ->
  0 < fst (align m e) /\
  snd (align m e) <= fexp64 (Zdigits2 (fst (align m e)) + snd (align m e)) /\
  snd (align m e) <= e /\
  Zdigits2 (fst (align m e)) + snd (align m e) = Zdigits2 m + e.
Proof.
  intros Hm. unfold align. cbn [fst snd].
  set (ez := Z.min e (fexp64 (Zdigits2 m + e))).
  assert (ez <= e) by (unfold ez; lia).
  assert (P : 0 < 2 ^ (e - ez)) by (apply pow2_pos; lia).
  rewrite Zdigits2_shift by lia.
  replace (Zdigits2 m + (e - ez) + ez) with (Zdigits2 m + e) by lia.
  repeat split; (lia || nia).
Qed.

Lemma binary_round_spec s m e :
  binary_round prec emax s m e
  = of_pair s (rnd_pair (fst (align (Z.pos m) e)) (snd (align (Z.pos m) e))).
Proof.
  unfold binary_round. rewrite fexp_64.
  pose proof (shl_align_spec m e (fexp64 (Z.pos (digits2_pos m) + e))) as H.
  destruct (shl_align m e (fexp64 (Z.pos (digits2_pos m) + e))) as [mz ez].
  destruct H as [H1 H2].
  pose proof (align_pre (Z.pos m) e ltac:(lia)) as (A1 & A2 & _).
  assert (E : align (Z.pos m) e = (Z.pos mz, ez)).
  { unfold align. cbn [Zdigits2]. rewrite <- H1, <- H2. reflexivity. }
  rewrite E in *. cbn [fst snd] in *.
  apply binary_round_aux_exact; assumption.
Qed.

Lemma rnd_pair_valid s m e :
  0 < m -> e <= fexp64 (Zdigits2 m + e) ->
  valid_binary (of_pair s (rnd_pair m e)) = true.
Proof.
  intros Hm He.
  pose proof (rnd_first_bound m e Hm He) as B.
  pose proof (rnd_first_normal m e Hm He) as N.
  unfold rnd_pair, of_pair.
  set (E := fexp64 (Zdigits2 m + e)) in *.
  set (a := rnd_div m (2 ^ (E - e))) in *.
  assert (HE : -1074 <= E) by (unfold E, fexp64; lia).
  destruct (Z.eqb_spec a (2 ^ 53)) as [Hc|Hc]; cbn [fst snd].
  - change (2 ^ 52) with (Z.pos (2 ^ 52)).
    destruct (Z.leb_spec (E + 1) 971) as [L|L]; [|reflexivity].
    cbn [SpecFloat.valid_binary]. unfold bounded, canonical_mantissa.
    rewrite fexp_64. apply andb_true_iff. split; [|apply Z.leb_le; exact L].
    apply Z.eqb_eq. change (Z.pos (digits2_pos (2 ^ 52))) with 53. unfold fexp64. lia.
  - destruct a as [|p|p] eqn:Ea; try reflexivity.
    destruct (Z.leb_spec E 971) as [L|L]; [|reflexivity].
    cbn [SpecFloat.valid_binary]. unfold bounded, canonical_mantissa.
    rewrite fexp_64. apply andb_true_iff. split; [|apply Z.leb_le; exact L].
    apply Z.eqb_eq. change (Z.pos (digits2_pos p)) with (Zdigits2 (Z.pos p)).
    assert (D : Zdigits2 (Z.pos p) <= 53) by (apply Zdigits2_le; lia).
    destruct (Z.eq_dec E (Zdigits2 m + e - 53)) as [Hn|Hn].
    + specialize (N Hn).
      assert (52 < Zdigits2 (Z.pos p)) by (apply Zdigits2_ge; lia).
      unfold fexp64. lia.
    + assert (E = -1074) by (unfold E, fexp64 in *; lia).
      pose proof (Zdigits2_pos (Z.pos p) ltac:(lia)). unfold fexp64. lia.
Qed.

Lemma binary_round_valid s m e : valid_binary (binary_round prec emax s m e) = true.
Proof.
  rewrite binary_round_spec.
  pose proof (align_pre (Z.pos m) e ltac:(lia)) as (A1 & A2 & _).
  apply rnd_pair_valid; assumption.
Qed.

Lemma binary_normalize_valid n e s :
  valid_binary (binary_normalize prec emax n e s) = true.
Proof. destruct n; cbn [binary_normalize]; [reflexivity|apply binary_round_valid..]. Qed.

Lemma binary_round_nonneg m e : SFnonneg (binary_round prec emax false m e) = true.
Proof.
  rewrite binary_round_spec.
  pose proof (align_pre (Z.pos m) e ltac:(lia)) as (A1 & A2 & _).
  apply of_pair_nonneg, rnd_pair_nonneg; assumption.
Qed.

Lemma align_rnd_mono b m1 e1 m2 e2 :
  0 < m1 -> 0 < m2 -> b <= e1 -> b <= e2 ->
  m1 * 2 ^ (e1 - b) <= m2 * 2 ^ (e2 - b) ->
  pair_le (rnd_pair (fst (align m1 e1)) (snd (align m1 e1)))
          (rnd_pair (fst (align m2 e2)) (snd (align m2 e2))).
Proof.
  intros H1 H2 Hb1 Hb2 Hv.
  pose proof (align_pre m1 e1 H1) as (A1 & A2 & A3 & _).
  pose proof (align_pre m2 e2 H2) as (C1 & C2 & C3 & _).
  set (z1 := snd (align m1 e1)) in *.
  set (z2 := snd (align m2 e2)) in *.
  apply (rnd_pair_mono (Z.min b (Z.min z1 z2))); try assumption; try lia.
  unfold align in *. cbn [fst snd] in *. fold z1 z2.
  set (c := Z.min b (Z.min z1 z2)).
  rewrite <- !Z.mul_assoc, <- !Z.pow_add_r by lia.
  replace (e1 - z1 + (z1 - c)) with ((e1 - b) + (b - c)) by lia.
  replace (e2 - z2 + (z2 - c)) with ((e2 - b) + (b - c)) by lia.
  rewrite !Z.pow_add_r, !Z.mul_assoc by lia.
  apply Z.mul_le_mono_nonneg_r; [|exact Hv].
  apply Z.lt_le_incl, pow2_pos. lia.
Qed.

(** [binary_round] is monotone in the value [m * 2^e] *)
Lemma binary_round_mono b m1 e1 m2 e2 :
  b <= e1 -> b <= e2 ->
  Z.pos m1 * 2 ^ (e1 - b) <= Z.pos m2 * 2 ^ (e2 - b) ->
  SFleb (binary_round prec emax false m1 e1) (binary_round prec emax false m2 e2) = true.
Proof.
  intros Hb1 Hb2 Hv. rewrite !binary_round_spec.
  pose proof (align_pre (Z.pos m2) e2 ltac:(lia)) as (C1 & C2 & _).
  apply SFleb_of_pair; [|apply rnd_pair_nonneg; assumption].
  apply (align_rnd_mono b); lia.
Qed.

Lemma of_pair_antisym p q :
  pair_le p q -> pair_le q p -> of_pair false p = of_pair false q.
Proof.
  destruct p as [a x], q as [c y]. unfold pair_le, of_pair. cbn [fst snd].
  intros [H1|H1] [H2|H2]; try lia.
  - subst. reflexivity.
  - assert (a = c /\ x = y) as [-> ->] by lia. reflexivity.
Qed.

(** [binary_round] depends on the value [m * 2^e] only *)
Lemma binary_round_value b m1 e1 m2 e2 :
  b <= e1 -> b <= e2 ->
  Z.pos m1 * 2 ^ (e1 - b) = Z.pos m2 * 2 ^ (e2 - b) ->
  binary_round prec emax false m1 e1 = binary_round prec emax false m2 e2.
Proof.
  intros Hb1 Hb2 Hv. rewrite !binary_round_spec.
  apply of_pair_antisym; apply (align_rnd_mono b); lia.
Qed.

(** ** Math.round *)

Lemma Math_round_spec x : Prim2SF (JS.Math_round x) = SFround (Prim2SF x).
Proof.
  unfold JS.Math_round, SFround. destruct (Prim2SF x) eqn:E; try exact E.
  apply Prim2SF_SF2Prim, binary_normalize_valid.
Qed.

(** [JS.round_half_up] as [floor ((2 v + 1) / 2)] on the value scaled by [2^-b] *)
Lemma round_half_up_scaled m e b :
  b <= e -> b < 0 ->
  JS.round_half_up false m e
  = (2 * (Z.pos m * 2 ^ (e - b)) + 2 ^ (- b)) / (2 * 2 ^ (- b)).
Proof.
  intros Hbe Hb. unfold JS.round_half_up. cbn [cond_Zopp].
  assert (U : 0 < 2 ^ (- b)) by (apply pow2_pos; lia).
  destruct e as [|p|p].
  - replace (0 - b) with (- b) by lia.
    replace (2 * (Z.pos m * 2 ^ (- b)) + 2 ^ (- b))
      with ((2 * Z.pos m + 1) * 2 ^ (- b)) by ring.
    rewrite Z.div_mul_cancel_r by lia.
    rewrite Z.pow_0_r. rewrite (Z.mul_comm 2), Z.div_add_l by lia.
    change (1 / 2) with 0. lia.
  - replace (Z.pos p - b) with (Z.pos p + - b) by lia.
    rewrite Z.pow_add_r by lia.
    replace (2 * (Z.pos m * (2 ^ Z.pos p * 2 ^ (- b))) + 2 ^ (- b))
      with ((2 * (Z.pos m * 2 ^ Z.pos p) + 1) * 2 ^ (- b)) by ring.
    rewrite Z.div_mul_cancel_r by lia.
    rewrite (Z.mul_comm 2), Z.div_add_l by lia.
    change (1 / 2) with 0. lia.
  - set (k := Z.pos p). assert (Hk : 0 < k) by (unfold k; lia).
    change (Z.neg p) with (- k) in *.
    assert (T : 0 < 2 ^ (- k - b)) by (apply pow2_pos; lia).
    assert (K : 0 < 2 ^ (k - 1)) by (apply pow2_pos; lia).
    assert (E1 : 2 ^ (- b) = 2 ^ k * 2 ^ (- k - b)).
    { rewrite <- Z.pow_add_r by lia. f_equal. lia. }
    rewrite E1, (pow2_pred k Hk).
    replace (2 * (Z.pos m * 2 ^ (- k - b)) + 2 * 2 ^ (k - 1) * 2 ^ (- k - b))
      with ((Z.pos m + 2 ^ (k - 1)) * (2 * 2 ^ (- k - b))) by ring.
    replace (2 * (2 * 2 ^ (k - 1) * 2 ^ (- k - b)))
      with ((2 * 2 ^ (k - 1)) * (2 * 2 ^ (- k - b))) by ring.
    rewrite Z.div_mul_cancel_r by lia. reflexivity.
Qed.

Lemma round_half_up_nonneg m e : 0 <= JS.round_half_up false m e.
Proof.
  unfold JS.round_half_up. cbn [cond_Zopp]. destruct e as [|p|p].
  - lia.
  - assert (0 < 2 ^ Z.pos p) by (apply pow2_pos; lia). nia.
  - apply Z.div_pos; [|apply pow2_pos; lia].
    assert (0 < 2 ^ (Z.pos p - 1)) by (apply pow2_pos; lia). lia.
Qed.

Lemma round_half_up_int m e : 0 <= e -> JS.round_half_up false m e = Z.pos m * 2 ^ e.
Proof. intros He. unfold JS.round_half_up. destruct e; try lia; reflexivity. Qed.

Lemma round_half_up_mono mx ex my ey :
  Z.pos mx * 2 ^ (ex - Z.min ex ey) <= Z.pos my * 2 ^ (ey - Z.min ex ey) ->
  JS.round_half_up false mx ex <= JS.round_half_up false my ey.
Proof.
  intros Hv. destruct (Z.lt_ge_cases (Z.min ex ey) 0) as [Hb|Hb].
  - rewrite (round_half_up_scaled mx ex (Z.min ex ey)),
            (round_half_up_scaled my ey (Z.min ex ey)) by lia.
    apply Z.div_le_mono; [|lia].
    assert (0 < 2 ^ (- Z.min ex ey)) by (apply pow2_pos; lia). lia.
  - rewrite !round_half_up_int by lia.
    assert (Q : 0 < 2 ^ Z.min ex ey) by (apply pow2_pos; lia).
    assert (Ex : 2 ^ ex = 2 ^ (ex - Z.min ex ey) * 2 ^ Z.min ex ey).
    { rewrite <- Z.pow_add_r by lia. f_equal. lia. }
    assert (Ey : 2 ^ ey = 2 ^ (ey - Z.min ex ey) * 2 ^ Z.min ex ey).
    { rewrite <- Z.pow_add_r by lia. f_equal. lia. }
    rewrite Ex, Ey, !Z.mul_assoc. apply Z.mul_le_mono_nonneg_r; lia.
Qed.

Lemma binary_normalize_mono n1 n2 :
  0 <= n1 <= n2 ->
  SFleb (binary_normalize prec emax n1 0 false) (binary_normalize prec emax n2 0 false) = true.
Proof.
  intros H. destruct n1 as [|p1|p1]; try lia.
  - apply SFleb_zero_nonneg. destruct n2 as [|p2|p2]; try lia; [reflexivity|].
    apply binary_round_nonneg.
  - destruct n2 as [|p2|p2]; try lia. cbn [binary_normalize].
    apply (binary_round_mono 0); lia.
Qed.

Lemma binary_normalize_nonneg n s :
  0 <= n -> SFnonneg (binary_normalize prec emax n 0 s) = true.
Proof.
  intros H. destruct n as [|p|p]; try lia; [reflexivity|apply binary_round_nonneg].
Qed.

Lemma binary_normalize_sign n s :
  0 < n -> binary_normalize prec emax n 0 s = binary_normalize prec emax n 0 false.
Proof. destruct n; try lia. reflexivity. Qed.

(** [Math.round] is monotone on the non-negative values *)
Lemma SFround_mono x y :
  valid_binary x = true -> valid_binary y = true ->
  SFnonneg x = true -> SFleb x y = true ->
  SFleb (SFround x) (SFround y) = true.
Proof.
  intros Vx Vy Nx Hxy.
  destruct x as [sx|[|]| |[|] mx ex]; try discriminate;
    destruct y as [sy|[|]| |[|] my ey]; try discriminate; cbn [SFround]; try reflexivity.
  - apply SFleb_zero_nonneg, binary_normalize_nonneg, round_half_up_nonneg.
  - apply SFleb_nonneg_inf, binary_normalize_nonneg, round_half_up_nonneg.
  - pose proof (finite_le_val mx ex my ey Vx Vy Hxy) as Hv.
    apply round_half_up_mono in Hv.
    pose proof (round_half_up_nonneg mx ex) as H0.
    apply binary_normalize_mono. lia.
Qed.

Local Open Scope float_scope.

Lemma Math_round_mono x y :
  (0 <=? x) = true -> (x <=? y) = true -> (JS.Math_round x <=? JS.Math_round y) = true.
Proof.
  intros Hx Hxy. apply leb0_nonneg in Hx. rewrite leb_spec in Hxy.
  rewrite leb_spec, !Math_round_spec.
  apply SFround_mono; auto using Prim2SF_valid.
Qed.

Lemma Math_round_nonneg x : (0 <=? x) = true -> (0 <=? JS.Math_round x) = true.
Proof.
  intros Hx. change 0 with (JS.Math_round 0) at 1. apply Math_round_mono; [reflexivity|assumption].
Qed.

Local Close Scope float_scope.

(** ** Signs of quotients, sums and products *)

Lemma shr_1_nonneg mrs : 0 <= shr_m mrs -> 0 <= shr_m (shr_1 mrs).
Proof.
  destruct mrs as [m r s]. cbn [shr_m]. intros H. rewrite shr_1_spec by assumption.
  cbn [shr_m]. apply Z.div_pos; lia.
Qed.

Lemma shr_nonneg mrs e n : 0 <= shr_m mrs -> 0 <= shr_m (fst (shr mrs e n)).
Proof.
  intros H. destruct n as [|p|p]; cbn [shr fst]; try assumption.
  rewrite iter_pos_nat. induction (Pos.to_nat p) as [|k IH]; [assumption|].
  rewrite Nat.iter_succ. apply shr_1_nonneg, IH.
Qed.

Lemma shr_fexp_nonneg m e l : 0 <= m -> 0 <= shr_m (fst (shr_fexp prec emax m e l)).
Proof.
  intros H. unfold shr_fexp. apply shr_nonneg. destruct l as [|[| |]]; exact H.
Qed.

Lemma round_nearest_even_nonneg m l : 0 <= m -> 0 <= round_nearest_even m l.
Proof.
  intros H. destruct l as [|[| |]]; cbn [round_nearest_even]; try lia.
  destruct (Z.even m); lia.
Qed.

(** whatever the location, rounding a non-negative mantissa gives a
    non-negative value, never NaN *)
Lemma binary_round_aux_nonneg m e l :
  0 <= m -> SFnonneg (binary_round_aux prec emax false m e l) = true.
Proof.
  intros Hm. unfold binary_round_aux.
  pose proof (shr_fexp_nonneg m e l Hm) as H1.
  destruct (shr_fexp prec emax m e l) as [mrs' e']. cbn [fst] in H1.
  pose proof (shr_fexp_nonneg _ e' loc_Exact
                (round_nearest_even_nonneg _ (loc_of_shr_record mrs') H1)) as H2.
  destruct (shr_fexp prec emax _ e' loc_Exact) as [mrs'' e'']. cbn [fst] in H2.
  destruct (shr_m mrs'') as [|p|p]; try lia; [reflexivity|].
  destruct (e'' <=? emax - prec); reflexivity.
Qed.

Lemma SFdiv_core_nonneg m1 e1 m2 e2 :
  0 < m1 -> 0 < m2 ->
  0 <= fst (fst (SFdiv_core_binary prec emax m1 e1 m2 e2)).
Proof.
  intros H1 H2. unfold SFdiv_core_binary.
  set (s := _ - _ - _).
  set (m' := match s with Z.pos _ => Z.shiftl m1 s | 0 => m1 | Z.neg _ => 0 end).
  assert (Hm' : 0 <= m').
  { unfold m'. destruct s; try lia. apply Z.shiftl_nonneg. lia. }
  pose proof (Z_div_mod m' m2 ltac:(lia)) as H.
  destruct (Z.div_eucl m' m2) as [q r]. cbn [fst]. nia.
Qed.

(** division of a non-negative value by a positive finite one *)
Lemma SFdiv_nonneg x mc ec :
  SFnonneg x = true -> SFnonneg (SFdiv prec emax x (S754_finite false mc ec)) = true.
Proof.
  intros Nx. destruct x as [sx|[|]| |[|] mx ex]; try discriminate; try reflexivity.
  cbn [SFdiv xorb].
  pose proof (SFdiv_core_nonneg (Z.pos mx) ex (Z.pos mc) ec ltac:(lia) ltac:(lia)) as H.
  destruct (SFdiv_core_binary prec emax (Z.pos mx) ex (Z.pos mc) ec) as [[q e'] l].
  cbn [fst] in H. apply binary_round_aux_nonneg. exact H.
Qed.

Lemma rnd_pair_pos m e :
  0 < m -> e <= fexp64 (Zdigits2 m + e) -> -1074 <= e -> 0 < fst (rnd_pair m e).
Proof.
  intros Hm He Hlo.
  pose proof (rnd_first_normal m e Hm He) as N.
  unfold rnd_pair. set (E := fexp64 (Zdigits2 m + e)) in *.
  destruct (Z.eqb_spec (rnd_div m (2 ^ (E - e))) (2 ^ 53)); cbn [fst]; [reflexivity|].
  destruct (Z.eq_dec E (Zdigits2 m + e - 53)) as [Hn|Hn].
  - specialize (N Hn). assert (0 < 2 ^ 52) by reflexivity. lia.
  - assert (E = e) by (unfold E, fexp64 in *; lia).
    replace (E - e) with 0 by lia. change (2 ^ 0) with 1.
    rewrite <- (Z.mul_1_r m) at 1. rewrite rnd_div_exact; lia.
Qed.

Lemma of_pair_pos p : 0 < fst p -> SFpos (of_pair false p) = true.
Proof.
  destruct p as [a e]. unfold of_pair. cbn [fst snd]. intros H.
  destruct a; try lia. destruct (e <=? 971); reflexivity.
Qed.

Lemma binary_round_pos m e : -1074 <= e -> SFpos (binary_round prec emax false m e) = true.
Proof.
  intros He. rewrite binary_round_spec.
  pose proof (align_pre (Z.pos m) e ltac:(lia)) as (A1 & A2 & _).
  apply of_pair_pos, rnd_pair_pos; try assumption.
  unfold align. cbn [snd]. unfold fexp64. lia.
Qed.

Lemma valid_exp s m e : valid_binary (S754_finite s m e) = true -> -1074 <= e.
Proof. intros V. apply valid_finite in V. destruct V as [C _]. unfold fexp64 in C. lia. Qed.

(** the sum of a positive finite value and a non-negative one is positive *)
Lemma SFadd_pos mx ex y :
  valid_binary (S754_finite false mx ex) = true -> valid_binary y = true ->
  SFnonneg y = true ->
  SFpos (SFadd prec emax (S754_finite false mx ex) y) = true.
Proof.
  intros Vx Vy Ny. destruct y as [sy|[|]| |[|] my ey]; try discriminate; try reflexivity.
  cbn [SFadd cond_Zopp].
  apply valid_exp in Vx, Vy.
  change (Z.pos ?a + Z.pos ?b) with (Z.pos (a + b)). cbn [binary_normalize].
  apply binary_round_pos. lia.
Qed.

Lemma SFmul_pos_nonneg x y :
  valid_binary x = true -> valid_binary y = true ->
  SFpos x = true -> SFpos y = true -> SFnonneg (SFmul prec emax x y) = true.
Proof.
  intros Vx Vy Px Py.
  destruct x as [sx|[|]| |[|] mx ex]; try discriminate;
    destruct y as [sy|[|]| |[|] my ey]; try discriminate; try reflexivity.
  rewrite SFmul_finite by assumption.
  apply of_pair_nonneg, rnd_pair_nonneg; [lia|apply mul_pre; assumption].
Qed.

(** ** Integers up to 2^53 are exact *)

Lemma rnd_pair_exact m e a :
  0 < a < 2 ^ 53 -> e <= fexp64 (Zdigits2 m + e) ->
  m = a * 2 ^ (fexp64 (Zdigits2 m + e) - e) ->
  rnd_pair m e = (a, fexp64 (Zdigits2 m + e)).
Proof.
  intros Ha He Hm. unfold rnd_pair.
  set (E := fexp64 (Zdigits2 m + e)) in *.
  assert (R : rnd_div (a * 2 ^ (E - e)) (2 ^ (E - e)) = a)
    by (apply rnd_div_exact, pow2_pos; lia).
  rewrite <- Hm in R. rewrite R.
  destruct (Z.eqb_spec a (2 ^ 53)); [lia|reflexivity].
Qed.

Lemma binary_round_canonical m e :
  valid_binary (S754_finite false m e) = true ->
  binary_round prec emax false m e = S754_finite false m e.
Proof.
  intros V. apply valid_finite in V. destruct V as [C L].
  rewrite binary_round_spec. unfold align. cbn [fst snd].
  rewrite C, Z.min_id, Z.sub_diag, Z.pow_0_r, Z.mul_1_r.
  pose proof (Zdigits2_spec (Z.pos m) ltac:(lia)) as D.
  assert (Hd : Zdigits2 (Z.pos m) <= 53) by (unfold fexp64 in C; lia).
  assert (Z.pos m < 2 ^ 53).
  { eapply Z.lt_le_trans; [apply D|]. apply Z.pow_le_mono_r; lia. }
  rewrite (rnd_pair_exact (Z.pos m) e (Z.pos m)).
  - unfold of_pair. cbn [fst snd]. rewrite C.
    destruct (Z.leb_spec e 971); [reflexivity|lia].
  - lia.
  - lia.
  - rewrite C, Z.sub_diag, Z.pow_0_r. lia.
Qed.

Lemma SFint_repr k :
  0 < k <= 2 ^ 53 ->
  exists m e, SFint k = S754_finite false m e /\
              valid_binary (S754_finite false m e) = true /\
              -52 <= e <= 1 /\ Z.pos m * 2 ^ (e + 52) = k * 2 ^ 52.
Proof.
  intros Hk. destruct (Z.eq_dec k (2 ^ 53)) as [->|Hne].
  - exists (2 ^ 52)%positive, 1. repeat split; try reflexivity; lia.
  - assert (Hlt : k < 2 ^ 53) by lia.
    pose proof (Zdigits2_spec k ltac:(lia)) as D.
    pose proof (Zdigits2_pos k ltac:(lia)) as Dp.
    assert (Dle : Zdigits2 k <= 53) by (apply Zdigits2_le; lia).
    set (d := Zdigits2 k) in *.
    assert (P : 0 < 2 ^ (53 - d)) by (apply pow2_pos; lia).
    assert (Hm : 0 < k * 2 ^ (53 - d)) by nia.
    exists (Z.to_pos (k * 2 ^ (53 - d))), (d - 53).
    assert (Em : Z.pos (Z.to_pos (k * 2 ^ (53 - d))) = k * 2 ^ (53 - d)) by (apply Z2Pos.id; lia).
    assert (Dm : Zdigits2 (k * 2 ^ (53 - d)) = 53).
    { rewrite Zdigits2_shift by lia. fold d. lia. }
    assert (V : valid_binary (S754_finite false (Z.to_pos (k * 2 ^ (53 - d))) (d - 53)) = true).
    { cbn [SpecFloat.valid_binary]. unfold bounded, canonical_mantissa.
      rewrite fexp_64. change (Z.pos (digits2_pos ?p)) with (Zdigits2 (Z.pos p)).
      rewrite Em, Dm. apply andb_true_iff. split; [apply Z.eqb_eq|apply Z.leb_le].
      - unfold fexp64. lia.
      - change (d - 53 <= 971). lia. }
    split; [|split; [exact V|split; [lia|]]].
    + rewrite <- (binary_round_canonical _ _ V).
      unfold SFint. destruct k as [|p|p]; try lia. cbn [binary_normalize].
      apply (binary_round_value (d - 53)); try lia.
      rewrite Em. replace (d - 53 - (d - 53)) with 0 by lia.
      replace (0 - (d - 53)) with (53 - d) by lia. rewrite Z.pow_0_r. lia.
    + rewrite Em. replace (d - 53 + 52) with (d - 1) by lia.
      rewrite <- Z.mul_assoc, <- Z.pow_add_r by lia. f_equal. f_equal. lia.
Qed.

Lemma SFint_zero : SFint 0 = S754_zero false.
Proof. reflexivity. Qed.

Lemma SFint_pos k : 0 < k -> SFint k = binary_round prec emax false (Z.to_pos k) 0.
Proof. destruct k; try lia. reflexivity. Qed.

Lemma SFint_valid k : valid_binary (SFint k) = true.
Proof. apply binary_normalize_valid. Qed.

Lemma SFint_nonneg k : 0 <= k -> SFnonneg (SFint k) = true.
Proof. apply binary_normalize_nonneg. Qed.

(** finite value given by a mantissa and an exponent, scaled by [2^52]:
    the integer [k] with [m * 2^e = k] *)
Lemma SFint_of_repr m e k :
  0 < k -> -52 <= e -> Z.pos m * 2 ^ (e + 52) = k * 2 ^ 52 ->
  binary_round prec emax false m e = SFint k.
Proof.
  intros Hk He Hv. rewrite SFint_pos by lia.
  apply (binary_round_value (-52)); try lia.
  rewrite Z2Pos.id by lia.
  replace (e - -52) with (e + 52) by lia. exact Hv.
Qed.

Lemma SFleb_int_reflect j k :
  0 <= j <= 2 ^ 53 -> 0 <= k <= 2 ^ 53 ->
  SFleb (SFint j) (SFint k) = true -> j <= k.
Proof.
  intros Hj Hk H.
  destruct (Z.eq_dec j 0) as [->|Hj0]; [lia|].
  destruct (SFint_repr j ltac:(lia)) as (mj & ej & Ej & Vj & Bj & Rj).
  destruct (Z.eq_dec k 0) as [->|Hk0].
  - rewrite Ej, SFint_zero in H. discriminate.
  - destruct (SFint_repr k ltac:(lia)) as (mk & ek & Ek & Vk & Bk & Rk).
    rewrite Ej, Ek in H.
    pose proof (finite_le_val mj ej mk ek Vj Vk H) as Hv.
    set (b := Z.min ej ek) in *.
    assert (Pb : 0 < 2 ^ (b + 52)) by (apply pow2_pos; lia).
    assert (Sj : 2 ^ (ej + 52) = 2 ^ (ej - b) * 2 ^ (b + 52)).
    { rewrite <- Z.pow_add_r by lia. f_equal. lia. }
    assert (Sk : 2 ^ (ek + 52) = 2 ^ (ek - b) * 2 ^ (b + 52)).
    { rewrite <- Z.pow_add_r by lia. f_equal. lia. }
    rewrite Sj in Rj. rewrite Sk in Rk.
    assert (0 < 2 ^ 52) by reflexivity. nia.
Qed.

Lemma shl_align_fst m e ez :
  ez <= e -> Z.pos (fst (shl_align m e ez)) = Z.pos m * 2 ^ (e - ez).
Proof.
  intros H. pose proof (shl_align_spec m e ez) as S.
  destruct (shl_align m e ez) as [mz z]. cbn [fst]. destruct S as [S1 S2].
  rewrite S2. f_equal. f_equal. lia.
Qed.

Lemma SFsub_int j k :
  0 <= j <= k -> k <= 2 ^ 53 ->
  SFsub prec emax (SFint k) (SFint j) = SFint (k - j).
Proof.
  intros Hj Hk.
  destruct (Z.eq_dec j 0) as [->|Hj0].
  - rewrite Z.sub_0_r, SFint_zero.
    destruct (Z.eq_dec k 0) as [->|Hk0]; [reflexivity|].
    destruct (SFint_repr k ltac:(lia)) as (mk & ek & Ek & _). rewrite Ek. reflexivity.
  - destruct (SFint_repr j ltac:(lia)) as (mj & ej & Ej & Vj & Bj & Rj).
    destruct (SFint_repr k ltac:(lia)) as (mk & ek & Ek & Vk & Bk & Rk).
    rewrite Ej, Ek. cbn [SFsub cond_Zopp].
    set (ez := Z.min ek ej).
    pose proof (shl_align_fst mk ek ez ltac:(unfold ez; lia)) as Ak.
    pose proof (shl_align_fst mj ej ez ltac:(unfold ez; lia)) as Aj.
    set (A := fst (shl_align mk ek ez)) in *. set (B := fst (shl_align mj ej ez)) in *.
    assert (Pz : 0 < 2 ^ (ez + 52)) by (apply pow2_pos; unfold ez; lia).
    assert (Sk : 2 ^ (ek + 52) = 2 ^ (ek - ez) * 2 ^ (ez + 52)).
    { rewrite <- Z.pow_add_r by (unfold ez; lia). f_equal. lia. }
    assert (Sj : 2 ^ (ej + 52) = 2 ^ (ej - ez) * 2 ^ (ez + 52)).
    { rewrite <- Z.pow_add_r by (unfold ez; lia). f_equal. lia. }
    rewrite Sk in Rk. rewrite Sj in Rj.
    assert (Hd : (Z.pos A - Z.pos B) * 2 ^ (ez + 52) = (k - j) * 2 ^ 52) by nia.
    assert (P52 : 0 < 2 ^ 52) by reflexivity.
    destruct (Z.pos A - Z.pos B) as [|c|c] eqn:Ec.
    + assert (k - j = 0) by nia. replace (k - j) with 0 by lia. reflexivity.
    + cbn [binary_normalize]. apply SFint_of_repr; [nia|unfold ez; lia|exact Hd].
    + exfalso. nia.
Qed.

Lemma SFadd_int j k :
  0 <= j -> 0 <= k -> j + k <= 2 ^ 53 ->
  SFadd prec emax (SFint j) (SFint k) = SFint (j + k).
Proof.
  intros Hj Hk Hs.
  destruct (Z.eq_dec j 0) as [->|Hj0].
  - rewrite Z.add_0_l, SFint_zero.
    destruct (Z.eq_dec k 0) as [->|Hk0]; [reflexivity|].
    destruct (SFint_repr k ltac:(lia)) as (mk & ek & Ek & _). rewrite Ek. reflexivity.
  - destruct (SFint_repr j ltac:(lia)) as (mj & ej & Ej & Vj & Bj & Rj).
    destruct (Z.eq_dec k 0) as [->|Hk0].
    + rewrite Z.add_0_r, SFint_zero, Ej. reflexivity.
    + destruct (SFint_repr k ltac:(lia)) as (mk & ek & Ek & Vk & Bk & Rk).
      rewrite Ej, Ek. cbn [SFadd cond_Zopp].
      set (ez := Z.min ej ek).
      pose proof (shl_align_fst mk ek ez ltac:(unfold ez; lia)) as Ak.
      pose proof (shl_align_fst mj ej ez ltac:(unfold ez; lia)) as Aj.
      set (A := fst (shl_align mj ej ez)) in *. set (B := fst (shl_align mk ek ez)) in *.
      assert (Pz : 0 < 2 ^ (ez + 52)) by (apply pow2_pos; unfold ez; lia).
      assert (Sk : 2 ^ (ek + 52) = 2 ^ (ek - ez) * 2 ^ (ez + 52)).
      { rewrite <- Z.pow_add_r by (unfold ez; lia). f_equal. lia. }
      assert (Sj : 2 ^ (ej + 52) = 2 ^ (ej - ez) * 2 ^ (ez + 52)).
      { rewrite <- Z.pow_add_r by (unfold ez; lia). f_equal. lia. }
      rewrite Sk in Rk. rewrite Sj in Rj.
      change (Z.pos A + Z.pos B) with (Z.pos (A + B)). cbn [binary_normalize].
      apply SFint_of_repr; [lia|unfold ez; lia|]. rewrite Pos2Z.inj_add. nia.
Qed.

(** ** Rounded results and the exact split *)

Lemma round_half_up_neg m e : JS.round_half_up true m e <= 0.
Proof.
  unfold JS.round_half_up. cbn [cond_Zopp]. destruct e as [|p|p].
  - lia.
  - assert (0 < 2 ^ Z.pos p) by (apply pow2_pos; lia). nia.
  - assert (K : 0 < 2 ^ (Z.pos p - 1)) by (apply pow2_pos; lia).
    pose proof (pow2_pred (Z.pos p) ltac:(lia)) as E.
    assert (- Z.pos m + 2 ^ (Z.pos p - 1) < 2 ^ Z.pos p * 1) by lia.
    assert ((- Z.pos m + 2 ^ (Z.pos p - 1)) / 2 ^ Z.pos p < 1)
      by (apply Z.div_lt_upper_bound; lia).
    lia.
Qed.

Lemma round_half_up_small m e :
  e < 0 -> Z.pos m < 2 ^ 53 -> JS.round_half_up false m e <= 2 ^ 53.
Proof.
  intros He Hm. unfold JS.round_half_up. cbn [cond_Zopp]. destruct e as [|p|p]; try lia.
  assert (K : 0 < 2 ^ (Z.pos p - 1)) by (apply pow2_pos; lia).
  pose proof (pow2_pred (Z.pos p) ltac:(lia)) as E.
  apply Z.div_le_upper_bound; [lia|].
  assert (0 < 2 ^ 53) by reflexivity. nia.
Qed.

Lemma binary_round_neg m e :
  -1074 <= e -> SFnonneg (binary_round prec emax true m e) = false.
Proof.
  intros He. rewrite binary_round_spec.
  pose proof (align_pre (Z.pos m) e ltac:(lia)) as (A1 & A2 & _).
  assert (P : 0 < fst (rnd_pair (fst (align (Z.pos m) e)) (snd (align (Z.pos m) e)))).
  { apply rnd_pair_pos; try assumption. unfold align. cbn [snd]. unfold fexp64. lia. }
  destruct (rnd_pair _ _) as [a x]. unfold of_pair. cbn [fst snd] in *.
  destruct a; try lia. destruct (x <=? 971); reflexivity.
Qed.

Lemma valid_mantissa s m e :
  valid_binary (S754_finite s m e) = true -> Z.pos m < 2 ^ 53.
Proof.
  intros V. apply valid_finite in V. destruct V as [C _].
  pose proof (Zdigits2_spec (Z.pos m) ltac:(lia)) as D.
  assert (Hd : Zdigits2 (Z.pos m) <= 53) by (unfold fexp64 in C; lia).
  eapply Z.lt_le_trans; [apply D|]. apply Z.pow_le_mono_r; lia.
Qed.

Lemma SFint_2p53 : SFint (2 ^ 53) = S754_finite false (2 ^ 52) 1.
Proof. reflexivity. Qed.

(** A non-negative result of [Math.round] that is at most [2^53] is the
    binary64 value of an integer of that range (or the zero [-0]). *)
Lemma SFround_form y :
  valid_binary y = true ->
  SFnonneg (SFround y) = true -> SFleb (SFround y) (SFint (2 ^ 53)) = true ->
  SFround y = S754_zero true \/ exists k, 0 <= k <= 2 ^ 53 /\ SFround y = SFint k.
Proof.
  intros V N L. destruct y as [[|]|s| |s m e]; cbn [SFround] in *; try discriminate.
  - left; reflexivity.
  - right. exists 0. split; [lia|reflexivity].
  - destruct s; discriminate.
  - set (n := JS.round_half_up s m e) in *.
    destruct (Z.lt_trichotomy n 0) as [Hn|[Hn|Hn]].
    + exfalso. destruct n as [|p|p]; try lia. cbn [binary_normalize] in N.
      rewrite binary_round_neg in N by lia. discriminate.
    + rewrite Hn. cbn [binary_normalize].
      destruct s; [left|right; exists 0; split; [lia|]]; reflexivity.
    + right. exists n.
      rewrite (binary_normalize_sign n s Hn) in *. fold (SFint n) in *.
      split; [|reflexivity]. split; [lia|].
      destruct s; [pose proof (round_half_up_neg m e); unfold n in Hn; lia|].
      destruct (Z.lt_ge_cases e 0) as [He|He].
      * apply round_half_up_small; [assumption|]. eapply valid_mantissa, V.
      * assert (En : n = Z.pos m * 2 ^ e) by (apply round_half_up_int; assumption).
        assert (Ey : SFint n = S754_finite false m e).
        { rewrite <- (binary_round_canonical m e V). symmetry.
          apply SFint_of_repr; [lia|lia|]. rewrite En, Z.pow_add_r by lia. ring. }
        rewrite Ey, SFint_2p53 in L. apply SFleb_finite_iff in L.
        destruct L as [L|[L L']].
        -- assert (e = 0) by lia. subst e. rewrite En, Z.pow_0_r.
           pose proof (valid_mantissa _ _ _ V). lia.
        -- subst e. rewrite En. change (2 ^ 1) with 2. change (2 ^ 53) with (2 ^ 52 * 2). lia.
Qed.

Lemma SFround_int k : 0 <= k <= 2 ^ 53 -> SFround (SFint k) = SFint k.
Proof.
  intros Hk. destruct (Z.eq_dec k 0) as [->|Hk0]; [reflexivity|].
  destruct (SFint_repr k ltac:(lia)) as (m & e & E & V & B & R).
  rewrite E. cbn [SFround]. rewrite <- E. unfold SFint. f_equal.
  destruct (Z.lt_ge_cases e 0) as [He|He].
  - rewrite (round_half_up_scaled m e e) by lia.
    rewrite Z.sub_diag, Z.pow_0_r, Z.mul_1_r.
    assert (U : 0 < 2 ^ (- e)) by (apply pow2_pos; lia).
    assert (Em : Z.pos m = k * 2 ^ (- e)).
    { assert (S : 2 ^ 52 = 2 ^ (e + 52) * 2 ^ (- e)).
      { rewrite <- Z.pow_add_r by lia. f_equal. lia. }
      assert (0 < 2 ^ (e + 52)) by (apply pow2_pos; lia).
      rewrite S in R. nia. }
    rewrite Em.
    replace (2 * (k * 2 ^ (- e)) + 2 ^ (- e)) with ((2 * k + 1) * 2 ^ (- e)) by ring.
    rewrite Z.div_mul_cancel_r by lia.
    rewrite (Z.mul_comm 2), Z.div_add_l by lia. change (1 / 2) with 0. lia.
  - rewrite round_half_up_int by lia.
    rewrite Z.pow_add_r in R by lia. assert (0 < 2 ^ 52) by reflexivity. nia.
Qed.

Lemma SFleb_trans x y z :
  SFnonneg x = true -> SFnonneg y = true -> SFnonneg z = true ->
  SFleb x y = true -> SFleb y z = true -> SFleb x z = true.
Proof.
  intros Nx Ny Nz.
  destruct x as [sx|[|]| |[|] mx ex]; try discriminate;
    destruct y as [sy|[|]| |[|] my ey]; try discriminate;
    destruct z as [sz|[|]| |[|] mz ez]; try discriminate;
    intros H1 H2; try reflexivity; try discriminate.
  apply SFleb_finite_iff in H1, H2. apply SFleb_finite_iff. lia.
Qed.

Lemma SFeqb_refl_int k : 0 <= k <= 2 ^ 53 -> SFeqb (SFint k) (SFint k) = true.
Proof.
  intros Hk. destruct (Z.eq_dec k 0) as [->|Hk0]; [reflexivity|].
  destruct (SFint_repr k ltac:(lia)) as (m & e & E & _). rewrite E.
  unfold SFeqb, SFcompare. rewrite Z.compare_refl.
  change (Pos.compare_cont Eq m m) with (Pos.compare m m). rewrite Pos.compare_refl. reflexivity.
Qed.

Lemma SFmul_one m e :
  valid_binary (S754_finite false m e) = true ->
  SFmul prec emax (S754_finite false m e) SFone = S754_finite false m e.
Proof.
  intros V. unfold SFone. rewrite SFmul_finite by (assumption || reflexivity).
  pose proof (valid_mantissa _ _ _ V) as Hm.
  apply valid_finite in V. destruct V as [C L].
  assert (D : Zdigits2 (Z.pos m * Z.pos (2 ^ 52)) + (e + -52) = Zdigits2 (Z.pos m) + e).
  { change (Z.pos (2 ^ 52)) with (2 ^ 52). rewrite Zdigits2_shift by lia. lia. }
  rewrite (rnd_pair_exact _ _ (Z.pos m)).
  - rewrite D, C. unfold of_pair. cbn [fst snd xorb].
    destruct (Z.leb_spec e 971); [reflexivity|lia].
  - lia.
  - rewrite D, C. lia.
  - rewrite D, C. replace (e - (e + -52)) with 52 by lia. reflexivity.
Qed.

(** The split of a payment [m] into [w = round (m * c)] (with [0 < c <= 1])
    and [m - w] adds up to [m] again, exactly. *)
Lemma SFsplit_exact k mc ec :
  0 < k <= 2 ^ 53 ->
  valid_binary (S754_finite false mc ec) = true ->
  SFleb (S754_finite false mc ec) SFone = true ->
  let m := SFint k in
  let w := SFround (SFmul prec emax m (S754_finite false mc ec)) in
  let d := SFsub prec emax m w in
  SFeqb (SFadd prec emax w d) m = true.
Proof.
  intros Hk Vc Hc m w d.
  destruct (SFint_repr k Hk) as (mk & ek & Ek & Vk & Bk & Rk).
  assert (Hprod : SFleb (SFmul prec emax m (S754_finite false mc ec)) m = true).
  { unfold m. rewrite Ek. rewrite <- (SFmul_one mk ek Vk) at 2.
    rewrite (SFmul_comm _ (S754_finite false mc ec)), (SFmul_comm _ SFone).
    apply SFmul_mono; try assumption; reflexivity. }
  assert (Nprod : SFnonneg (SFmul prec emax m (S754_finite false mc ec)) = true).
  { unfold m. rewrite Ek, SFmul_finite by assumption.
    apply of_pair_nonneg, rnd_pair_nonneg; [lia|apply mul_pre; assumption]. }
  assert (Vprod : valid_binary (SFmul prec emax m (S754_finite false mc ec)) = true).
  { unfold m. rewrite Ek, SFmul_finite by assumption.
    apply rnd_pair_valid; [lia|apply mul_pre; assumption]. }
  assert (Hw : SFleb w m = true).
  { unfold w. replace m with (SFround m) at 2 by (apply SFround_int; lia).
    apply SFround_mono; try assumption. apply SFint_valid. }
  assert (Nw : SFnonneg w = true).
  { unfold w.
    destruct (SFmul prec emax m (S754_finite false mc ec)) as [s|[|]| |[|] a b];
      try discriminate; try reflexivity.
    cbn [SFround]. apply binary_normalize_nonneg, round_half_up_nonneg. }
  assert (Lw : SFleb w (SFint (2 ^ 53)) = true).
  { apply (SFleb_trans w m); try assumption; try (apply SFint_nonneg; lia).
    apply binary_normalize_mono. lia. }
  destruct (SFround_form _ Vprod Nw Lw) as [Ez|(j & Hj & Ej)].
  - fold w in Ez. unfold d. rewrite Ez. unfold m. rewrite Ek. cbn [SFsub SFadd].
    unfold SFeqb, SFcompare. rewrite Z.compare_refl.
    change (Pos.compare_cont Eq mk mk) with (Pos.compare mk mk).
    rewrite Pos.compare_refl. reflexivity.
  - fold w in Ej.
    assert (Hjk : j <= k).
    { apply SFleb_int_reflect; try lia. rewrite <- Ej. exact Hw. }
    unfold d. rewrite Ej. unfold m.
    rewrite SFsub_int, SFadd_int by lia.
    replace (j + (k - j)) with k by lia. apply SFeqb_refl_int. lia.
Qed.

End Binary64Facts.

Local Open Scope float_scope.

(** ** Order and sign of binary64 values *)

Lemma SFcompare_antisym x y :
  SFcompare y x = option_map CompOpp (SFcompare x y).
Proof.
  destruct x as [sx|[|]| |[|] mx ex]; destruct y as [sy|[|]| |[|] my ey];
    try reflexivity; cbn [SFcompare option_map];
    rewrite (Z.compare_antisym ey ex);
    change (Pos.compare_cont Eq ?a ?b) with (Pos.compare a b);
    rewrite (Pos.compare_antisym my mx);
    destruct (ey ?= ex)%Z; destruct (my ?= mx)%positive; reflexivity.
Qed.

Lemma ltb_leb_false x y : (x <? y) = true -> (y <=? x) = false.
Proof.
  rewrite ltb_spec, leb_spec. unfold SFltb, SFleb.
  rewrite (SFcompare_antisym (Prim2SF x) (Prim2SF y)).
  destruct (SFcompare (Prim2SF x) (Prim2SF y)) as [[| |]|]; cbn; congruence.
Qed.

Lemma leb_ltb_false x y : (x <=? y) = true -> (y <? x) = false.
Proof.
  rewrite ltb_spec, leb_spec. unfold SFltb, SFleb.
  rewrite (SFcompare_antisym (Prim2SF x) (Prim2SF y)).
  destruct (SFcompare (Prim2SF x) (Prim2SF y)) as [[| |]|]; cbn; congruence.
Qed.

Lemma eqb_leb x y : (x =? y) = true -> (y <=? x) = true.
Proof.
  rewrite eqb_spec, leb_spec. unfold SFeqb, SFleb.
  rewrite (SFcompare_antisym (Prim2SF x) (Prim2SF y)).
  destruct (SFcompare (Prim2SF x) (Prim2SF y)) as [[| |]|]; cbn; congruence.
Qed.

Lemma ltb_leb x y : (x <? y) = true -> (x <=? y) = true.
Proof.
  rewrite ltb_spec, leb_spec. unfold SFltb, SFleb.
  destruct (SFcompare (Prim2SF x) (Prim2SF y)) as [[| |]|]; cbn; congruence.
Qed.

(** a value equal to zero is below every positive value *)
Lemma zero_below_pos t thr :
  (t =? 0) = true -> (0 <? thr) = true -> (thr <=? t) = false /\ (0 <? t) = false.
Proof.
  rewrite eqb_spec, !ltb_spec, leb_spec.
  change (Prim2SF 0) with (S754_zero false).
  destruct (Prim2SF t) as [st|[|]| |[|] mt et];
    destruct (Prim2SF thr) as [sh|[|]| |[|] mh eh]; cbn; intros; split; congruence.
Qed.

Lemma ltb0_pos x : (0 <? x) = true <-> SFpos (Prim2SF x) = true.
Proof.
  rewrite ltb_spec. change (Prim2SF 0) with (S754_zero false).
  destruct (Prim2SF x) as [s|[|]| |[|] m e]; cbn; split; intros; congruence.
Qed.

Lemma nonzero_pos x : (0 <=? x) = true -> (x =? 0) = false -> (0 <? x) = true.
Proof.
  rewrite leb_spec, eqb_spec, ltb_spec. change (Prim2SF 0) with (S754_zero false).
  destruct (Prim2SF x) as [s|[|]| |[|] m e]; cbn; intros; congruence.
Qed.

Lemma mul_nonneg x c :
  (0 <=? x) = true -> (0 <? c) = true -> (c <? infinity) = true -> (0 <=? x * c) = true.
Proof.
  intros Hx Hc Hf.
  assert (Z0 : 0 * c = 0).
  { destruct (pos_finite c Hc Hf) as (mc & ec & Ec).
    apply Prim2SF_inj. rewrite mul_spec, Ec. reflexivity. }
  rewrite <- Z0 at 1. apply mul_mono_r; try assumption. reflexivity.
Qed.

Lemma mul_mono_const x c1 c2 :
  (0 <=? x) = true -> (0 <? c1) = true -> (c1 <=? c2) = true ->
  (c2 <? infinity) = true -> (x * c1 <=? x * c2) = true.
Proof.
  intros Hx H1 H12 H2. apply leb0_nonneg in Hx.
  assert (F1 : (c1 <? infinity) = true).
  { rewrite ltb_spec in *. rewrite leb_spec in H12.
    change (Prim2SF 0) with (S754_zero false) in *.
    change (Prim2SF infinity) with (S754_infinity false) in *.
    destruct (Prim2SF c1) as [s|[|]| |[|] m e]; destruct (Prim2SF c2) as [s'|[|]| |[|] m' e'];
      cbn in *; congruence. }
  assert (P2 : (0 <? c2) = true).
  { rewrite ltb_spec in *. rewrite leb_spec in H12.
    change (Prim2SF 0) with (S754_zero false) in *.
    destruct (Prim2SF c1) as [s|[|]| |[|] m e]; destruct (Prim2SF c2) as [s'|[|]| |[|] m' e'];
      cbn in *; congruence. }
  destruct (pos_finite c1 H1 F1) as (m1 & e1 & E1).
  destruct (pos_finite c2 P2 H2) as (m2 & e2 & E2).
  pose proof (Prim2SF_valid c1) as V1. pose proof (Prim2SF_valid c2) as V2.
  pose proof (Prim2SF_valid x) as Vx.
  rewrite leb_spec in *. rewrite !mul_spec. rewrite E1, E2 in *.
  destruct (Prim2SF x) as [s|[|]| |[|] m e]; try discriminate; try reflexivity.
  rewrite (SFmul_comm (S754_finite false m e)), (SFmul_comm (S754_finite false m e)).
  apply SFmul_mono; (assumption || reflexivity).
Qed.

Lemma div_nonneg x c :
  (0 <=? x) = true -> (0 <? c) = true -> (c <? infinity) = true -> (0 <=? x / c) = true.
Proof.
  intros Hx Hc Hf. destruct (pos_finite c Hc Hf) as (mc & ec & Ec).
  apply leb0_nonneg in Hx. apply leb0_nonneg. rewrite div_spec, Ec.
  apply SFdiv_nonneg. exact Hx.
Qed.

Lemma add_pos c y :
  (0 <? c) = true -> (c <? infinity) = true -> (0 <=? y) = true -> (0 <? c + y) = true.
Proof.
  intros Hc Hf Hy. destruct (pos_finite c Hc Hf) as (mc & ec & Ec).
  apply leb0_nonneg in Hy. apply ltb0_pos. rewrite add_spec, Ec.
  apply SFadd_pos; try assumption; try apply Prim2SF_valid.
  rewrite <- Ec. apply Prim2SF_valid.
Qed.

Lemma mul_pos_nonneg x y :
  (0 <? x) = true -> (0 <? y) = true -> (0 <=? x * y) = true.
Proof.
  intros Hx Hy. apply ltb0_pos in Hx, Hy. apply leb0_nonneg. rewrite mul_spec.
  apply SFmul_pos_nonneg; try assumption; apply Prim2SF_valid.
Qed.

Lemma SFltb_finite_iff mx ex my ey :
  SFltb (S754_finite false mx ex) (S754_finite false my ey) = true <->
  (ex < ey \/ (ex = ey /\ Z.pos mx < Z.pos my))%Z.
Proof.
  unfold SFltb, SFcompare.
  change (Pos.compare_cont Eq mx my) with (Z.pos mx ?= Z.pos my)%Z.
  destruct (Z.compare_spec ex ey); destruct (Z.compare_spec (Z.pos mx) (Z.pos my));
    split; intros; try reflexivity; try discriminate; lia.
Qed.

(** a bureau score of at most 600 is neither above 700 nor above 600 *)
Lemma score_le_600 s :
  (s <=? 600) = true -> (s >? 700) = false /\ (s >? 600) = false.
Proof.
  intros H. split; [|apply leb_ltb_false; exact H].
  rewrite leb_spec in H. rewrite ltb_spec.
  destruct (Prim2SF s) as [z|[|]| |[|] m e]; try discriminate; try reflexivity.
  change (Prim2SF 600) with (S754_finite false 5277655813324800 (-43)) in H.
  change (Prim2SF 700) with (S754_finite false 6157265115545600 (-43)).
  apply SFleb_finite_iff in H.
  destruct (SFltb _ _) eqn:E; [|reflexivity].
  apply SFltb_finite_iff in E. lia.
Qed.

(** ** The revenue engine and its formula *)

Lemma computeTotalRevenue_formula base score bureau tenure compliant fb ig im wa ss :
  (base =? 0) = false ->
  computeTotalRevenue base score bureau tenure compliant fb ig im wa ss
  = Formula.total base score bureau tenure compliant fb ig im wa ss.
Proof.
  intros H. unfold computeTotalRevenue, Formula.total, Formula.digitalFactors.
  rewrite H.
  destruct im as [[|]|], wa as [[|]|], ss as [[|]|]; reflexivity.
Qed.

Lemma social_pos fb ig :
  (0 <? Formula.socialBoost fb ig) = true /\ (Formula.socialBoost fb ig <? infinity) = true.
Proof.
  unfold Formula.socialBoost, Formula.facebookTier, Formula.instagramTier.
  destruct fb as [f|]; destruct ig as [i|];
    repeat match goal with |- context [if ?c then _ else _] => destruct c end;
    split; reflexivity.
Qed.

Lemma digitalFactors_nonneg base score fb ig im wa ss :
  (0 <=? base) = true -> (base =? 0) = false -> (0 <=? score) = true ->
  (0 <=? Formula.digitalFactors base score fb ig im wa ss) = true.
Proof.
  intros Hb Hnz Hs. unfold Formula.digitalFactors.
  assert (Hl : (0 <? Formula.listingsBoost score) = true).
  { unfold Formula.listingsBoost. apply add_pos; try reflexivity.
    apply mul_nonneg; try reflexivity. apply div_nonneg; try reflexivity. exact Hs. }
  assert (H1 : (0 <=? base * Formula.listingsBoost score) = true).
  { apply mul_pos_nonneg; [apply nonzero_pos; assumption|exact Hl]. }
  destruct (social_pos fb ig) as [S1 S2].
  apply mul_nonneg;
    [apply mul_nonneg; [apply mul_nonneg; [apply mul_nonneg|..]|..]|..];
    try assumption;
    try (destruct im as [[|]|]; reflexivity);
    try (destruct wa as [[|]|]; reflexivity);
    try (destruct ss as [[|]|]; reflexivity).
Qed.

Lemma bureau_tenure_compliance_pos tenure compliant :
  ((0 <? Formula.tenureMultiplier tenure) = true /\
   (Formula.tenureMultiplier tenure <? infinity) = true) /\
  ((0 <? Formula.complianceMultiplier compliant) = true /\
   (Formula.complianceMultiplier compliant <? infinity) = true).
Proof.
  unfold Formula.tenureMultiplier, Formula.complianceMultiplier.
  destruct tenure as [t|]; destruct compliant;
    repeat match goal with |- context [if ?c then _ else _] => destruct c end;
    repeat split; reflexivity.
Qed.

Lemma bureau_pos bureau :
  (0 <? Formula.bureauMultiplier bureau) = true /\
  (Formula.bureauMultiplier bureau <? infinity) = true.
Proof.
  unfold Formula.bureauMultiplier. destruct bureau as [s|];
    repeat match goal with |- context [if ?c then _ else _] => destruct c end;
    split; reflexivity.
Qed.


(** ** The repayment split *)

(** [m] is split into [w = Math.round(m * 0.20)] and [m - w]; for an
    integer [m] from 0 to [2^53] the two parts add up to [m] exactly. *)
Lemma split_adds_up y :
  let m := JS.Math_round y in
  let w := JS.Math_round (m * 0.20) in
  (0 <=? m) = true -> (m <=? 9007199254740992) = true ->
  (w + (m - w) =? m) = true.
Proof.
  intros m w H0 H53.
  pose proof (Math_round_spec y) as Em. fold m in Em.
  assert (N : SFnonneg (SFround (Prim2SF y)) = true)
    by (rewrite <- Em; apply leb0_nonneg; exact H0).
  assert (L : SFleb (SFround (Prim2SF y)) (SFint (2 ^ 53)) = true).
  { rewrite leb_spec, Em in H53.
    change (Prim2SF 9007199254740992) with (SFint (2 ^ 53)) in H53. exact H53. }
  destruct (SFround_form (Prim2SF y) (Prim2SF_valid y) N L) as [Ez|(k & Hk & Ek)].
  - assert (M : m = (-0)%float)
      by (apply Prim2SF_inj; rewrite Em, Ez; reflexivity).
    unfold w. rewrite M. reflexivity.
  - destruct (Z.eq_dec k 0) as [->|Hk0].
    + assert (M : m = 0)
        by (apply Prim2SF_inj; rewrite Em, Ek; reflexivity).
      unfold w. rewrite M. reflexivity.
    + rewrite eqb_spec, add_spec, sub_spec. unfold w.
      rewrite Math_round_spec, mul_spec, Em, Ek.
      apply (SFsplit_exact k 7205759403792794 (-55)); [lia|reflexivity|reflexivity].
Qed.

(** ** Runs of the orchestrator: every block returns *)

Section Orchestrator.

Variable Math_pow : float -> float -> float.
Variable toLocaleString_esMX : float -> string.
Variable Number_toString : float -> string.
Variable env : Env.t.
Variable clients : Clients.t.
Variable now : string.

Lemma fetchSyntage_returns application calls :
  exists r m a c,
    fetchSyntage clients now application calls = (inr (r, m, a, c), calls ++ [Syntage]) /\
    (a = false -> m = 0 /\ r = None) /\
    (failed (Clients.getRevenueData clients (ApplicationDoc.merchant_id application)) ->
     a = false) /\
    (a = true ->
     exists raw, Clients.getRevenueData clients (ApplicationDoc.merchant_id application)
                 = Fulfilled raw).
Proof.
  unfold fetchSyntage, try_catch, bind, withTimeout, ret.
  destruct (Clients.getRevenueData clients (ApplicationDoc.merchant_id application))
    as [raw|err|]; cbn [failed];
    do 4 eexists; (split; [reflexivity|]); repeat split; intros;
    try discriminate; try contradiction; eauto.
Qed.

Lemma fetchPlaces_returns mapsUrl calls :
  exists r sc a,
    fetchPlaces clients now mapsUrl calls
    = (inr (r, sc, a), calls ++ (if JS.nonempty mapsUrl then [GooglePlaces] else [])) /\
    (failed (Clients.getPlacesData clients mapsUrl) ->
     a = false /\ r = Some (PlacesResult.not_connected now)).
Proof.
  unfold fetchPlaces, try_catch, bind, withTimeout, ret.
  destruct (JS.nonempty mapsUrl).
  - destruct (Clients.getPlacesData clients mapsUrl) as [v|err|]; cbn [failed];
      [destruct (PlacesResult.connected v)|..];
      do 3 eexists; (split; [reflexivity|]); intros; try contradiction; auto.
  - do 3 eexists. rewrite app_nil_r. split; [reflexivity|auto].
Qed.

Lemma fetchFacebook_returns facebookToken calls :
  exists r n a,
    fetchFacebook env clients now facebookToken calls
    = (inr (r, n, a),
       calls ++ (if JS.nonempty facebookToken || Env.DEMO_MODE env then [Facebook] else [])) /\
    (failed (Clients.getPageData clients facebookToken) ->
     a = false /\ r = Some (FacebookResult.not_connected now)).
Proof.
  unfold fetchFacebook, try_catch, bind, withTimeout, ret.
  destruct (JS.nonempty facebookToken || Env.DEMO_MODE env).
  - destruct (Clients.getPageData clients facebookToken) as [v|err|]; cbn [failed];
      [destruct (FacebookResult.connected v)|..];
      do 3 eexists; (split; [reflexivity|]); intros; try contradiction; auto.
  - do 3 eexists. rewrite app_nil_r. split; [reflexivity|auto].
Qed.

Lemma fetchInstagram_returns instagramToken facebookToken calls :
  exists r n a,
    fetchInstagram env clients now instagramToken facebookToken calls
    = (inr (r, n, a),
       calls ++ (if JS.nonempty instagramToken || JS.nonempty facebookToken
                    || Env.DEMO_MODE env then [Instagram] else [])) /\
    (failed (Clients.getProfileData clients (JS.or_else instagramToken facebookToken)) ->
     a = false /\ r = Some (InstagramResult.not_connected now)).
Proof.
  unfold fetchInstagram, try_catch, bind, withTimeout, ret.
  destruct (JS.nonempty instagramToken || JS.nonempty facebookToken || Env.DEMO_MODE env).
  - destruct (Clients.getProfileData clients (JS.or_else instagramToken facebookToken))
      as [v|err|]; cbn [failed];
      [destruct (InstagramResult.connected v)|..];
      do 3 eexists; (split; [reflexivity|]); intros; try contradiction; auto.
  - do 3 eexists. rewrite app_nil_r. split; [reflexivity|auto].
Qed.

Lemma fetchTwilio_returns phone firstName lastName calls :
  exists r im wa ss a,
    fetchTwilio clients now phone firstName lastName calls
    = (inr (r, im, wa, ss, a), calls ++ [Twilio]) /\
    (failed (Clients.verifyPhone clients (JS.or_else phone "+525500000000")
               firstName lastName) ->
     a = false /\ r = Some (TwilioResult.not_connected now)).
Proof.
  unfold fetchTwilio, try_catch, bind, withTimeout, ret.
  destruct (Clients.verifyPhone clients (JS.or_else phone "+525500000000")
              firstName lastName) as [v|err|]; cbn [failed];
    [destruct (TwilioResult.connected v)|..];
    do 5 eexists; (split; [reflexivity|]); intros; try contradiction; auto.
Qed.

Lemma fetchBureau_returns taxId calls :
  exists r s a,
    fetchBureau clients taxId calls = (inr (r, s, a), calls ++ [Bureau]) /\
    (failed (Clients.getScore clients taxId) -> a = false /\ r = None).
Proof.
  unfold fetchBureau, try_catch, bind, withTimeout, ret.
  destruct (Clients.getScore clients taxId) as [v|err|]; cbn [failed];
    [destruct (BureauResult.bureau_score v)|..];
    do 3 eexists; (split; [reflexivity|]); intros; try contradiction; auto.
Qed.

Lemma fetchPlatform_returns application calls :
  exists r g t a,
    fetchPlatform clients application calls = (inr (r, g, t, a), calls ++ [Platform]) /\
    (failed (Clients.getMerchantData clients (ApplicationDoc.merchant_id application)) ->
     a = false /\ r = None).
Proof.
  unfold fetchPlatform, try_catch, bind, withTimeout, ret.
  destruct (Clients.getMerchantData clients (ApplicationDoc.merchant_id application))
    as [v|err|]; cbn [failed];
    [destruct (PlatformResult.avg_platform_gmv_6m v)|..];
    do 4 eexists; (split; [reflexivity|]); intros; try contradiction; auto.
Qed.

Lemma data_sources_none (a1 a2 a3 a4 a5 a6 a7 : bool) :
  ((if a1 then ["syntage"%string] else []) ++
   (if a2 then ["google_places"%string] else []) ++
   (if a3 then ["facebook"%string] else []) ++
   (if a4 then ["instagram"%string] else []) ++
   (if a5 then ["twilio"%string] else []) ++
   (if a6 then ["bureau"%string] else []) ++
   (if a7 then ["platform"%string] else []))%list = [] ->
  a1 = false /\ a2 = false /\ a3 = false /\ a4 = false /\ a5 = false /\
  a6 = false /\ a7 = false.
Proof.
  destruct a1, a2, a3, a4, a5, a6, a7; cbn; intros H; try discriminate H;
    repeat split.
Qed.

Lemma data_sources_absent (a1 a2 a3 a4 a5 a6 a7 : bool) (name : string) (a : bool) :
  In (name, a) [("syntage"%string, a1); ("google_places"%string, a2);
                ("facebook"%string, a3); ("instagram"%string, a4);
                ("twilio"%string, a5); ("bureau"%string, a6);
                ("platform"%string, a7)] ->
  a = false ->
  ~ In name
      ((if a1 then ["syntage"%string] else []) ++
       (if a2 then ["google_places"%string] else []) ++
       (if a3 then ["facebook"%string] else []) ++
       (if a4 then ["instagram"%string] else []) ++
       (if a5 then ["twilio"%string] else []) ++
       (if a6 then ["bureau"%string] else []) ++
       (if a7 then ["platform"%string] else []))%list.
Proof.
  intros Hin Ha. subst a. cbn [In] in Hin.
  repeat (destruct Hin as [Hin|Hin];
          [injection Hin as Hn Hf; subst name; rewrite Hf; clear Hf|]);
    try contradiction;
    destruct a1, a2, a3, a4, a5, a6, a7; cbn; intuition discriminate.
Qed.

(** Every run returns a decision; what the decision records. *)
Lemma runUnderwriting_returns application calls :
  let mapsUrl := form_field application FormData.google_business_url in
  let facebookToken := form_field application FormData.facebook_access_token in
  let instagramToken := form_field application FormData.instagram_access_token in
  let phone := form_field application FormData.phone in
  let taxId := form_field application FormData.tax_id in
  let merchant := ApplicationDoc.merchant_id application in
  exists d,
    runUnderwriting Math_pow toLocaleString_esMX Number_toString env clients now
      application calls
    = (inr d, calls ++ plannedCalls env application) /\
    let p := UnderwritingDecision.payload d in
    let ds := DecisionPayload.data_sources p in
    UnderwritingDecision.status d
      = resolveStatus (DecisionPayload.total_revenue p) (Env.APPROVAL_THRESHOLD env) /\
    DecisionPayload.threshold_used p = Env.APPROVAL_THRESHOLD env /\
    (failed (Clients.getRevenueData clients merchant) ->
     DecisionPayload.total_revenue p = 0 /\ ~ In "syntage"%string ds /\
     UnderwritingDecision.syntage_result d = None) /\
    ((DecisionPayload.total_revenue p =? 0) = false ->
     exists raw, Clients.getRevenueData clients merchant = Fulfilled raw) /\
    (failed (Clients.getPlacesData clients mapsUrl) ->
     ~ In "google_places"%string ds /\
     UnderwritingDecision.places_result d = Some (PlacesResult.not_connected now)) /\
    (failed (Clients.getPageData clients facebookToken) ->
     ~ In "facebook"%string ds /\
     UnderwritingDecision.facebook_result d = Some (FacebookResult.not_connected now)) /\
    (failed (Clients.getProfileData clients (JS.or_else instagramToken facebookToken)) ->
     ~ In "instagram"%string ds /\
     UnderwritingDecision.instagram_result d = Some (InstagramResult.not_connected now)) /\
    ((forall firstName lastName,
        failed (Clients.verifyPhone clients (JS.or_else phone "+525500000000")
                  firstName lastName)) ->
     ~ In "twilio"%string ds /\
     UnderwritingDecision.twilio_result d = Some (TwilioResult.not_connected now)) /\
    (failed (Clients.getScore clients taxId) ->
     ~ In "bureau"%string ds /\ UnderwritingDecision.bureau_result d = None) /\
    (failed (Clients.getMerchantData clients merchant) ->
     ~ In "platform"%string ds /\ UnderwritingDecision.platform_result d = None) /\
    (ds = [] ->
     DecisionPayload.total_revenue p = 0 /\
     DecisionPayload.reason p = reasonNoSources).
Proof.
  intros mapsUrl facebookToken instagramToken phone taxId merchant.
  unfold runUnderwriting, plannedCalls.
  fold mapsUrl facebookToken instagramToken phone taxId.
  destruct (match JS.split (JS.trim (form_field application FormData.legal_name)) with
            | [] => (""%string, [])
            | firstName :: lastParts => (firstName, lastParts)
            end) as [firstName lastParts].
  destruct (fetchSyntage_returns application calls)
    as (r1 & m1 & a1 & c1 & E1 & D1 & F1 & G1).
  destruct (fetchPlaces_returns mapsUrl (calls ++ [Syntage]))
    as (r2 & sc2 & a2 & E2 & F2).
  destruct (fetchFacebook_returns facebookToken
              ((calls ++ [Syntage]) ++
               (if JS.nonempty mapsUrl then [GooglePlaces] else [])))
    as (r3 & n3 & a3 & E3 & F3).
  match type of E3 with _ = (_, ?c) =>
    destruct (fetchInstagram_returns instagramToken facebookToken c)
      as (r4 & n4 & a4 & E4 & F4) end.
  match type of E4 with _ = (_, ?c) =>
    destruct (fetchTwilio_returns phone firstName (JS.join " " lastParts) c)
      as (r5 & im5 & wa5 & ss5 & a5 & E5 & F5) end.
  match type of E5 with _ = (_, ?c) =>
    destruct (fetchBureau_returns taxId c) as (r6 & s6 & a6 & E6 & F6) end.
  match type of E6 with _ = (_, ?c) =>
    destruct (fetchPlatform_returns application c)
      as (r7 & g7 & t7 & a7 & E7 & F7) end.
  unfold bind. rewrite E1, E2, E3, E4, E5, E6, E7. unfold ret.
  eexists. split.
  { f_equal. rewrite <- !app_assoc. reflexivity. }
  cbn [UnderwritingDecision.payload UnderwritingDecision.status
       DecisionPayload.data_sources DecisionPayload.total_revenue
       DecisionPayload.threshold_used DecisionPayload.reason
       UnderwritingDecision.syntage_result UnderwritingDecision.places_result
       UnderwritingDecision.facebook_result UnderwritingDecision.instagram_result
       UnderwritingDecision.twilio_result UnderwritingDecision.bureau_result
       UnderwritingDecision.platform_result].
  pose proof (data_sources_absent a1 a2 a3 a4 a5 a6 a7) as Abs.
  repeat match goal with |- _ /\ _ => split end.
  - reflexivity.
  - reflexivity.
  - intros H. pose proof (F1 H) as Ha. destruct (D1 Ha) as [-> ->].
    split; [reflexivity|split; [|reflexivity]].
    apply (Abs _ a1); [cbn; auto|exact Ha].
  - intros H. destruct a1; [apply G1; reflexivity|].
    destruct (D1 eq_refl) as [-> _]. discriminate H.
  - intros H. destruct (F2 H) as [Ha Hr]. split; [|exact Hr].
    apply (Abs _ a2); cbn; tauto.
  - intros H. destruct (F3 H) as [Ha Hr]. split; [|exact Hr].
    apply (Abs _ a3); cbn; tauto.
  - intros H. destruct (F4 H) as [Ha Hr]. split; [|exact Hr].
    apply (Abs _ a4); cbn; tauto.
  - intros H. destruct (F5 (H _ _)) as [Ha Hr]. split; [|exact Hr].
    apply (Abs _ a5); cbn; tauto.
  - intros H. destruct (F6 H) as [Ha Hr]. split; [|exact Hr].
    apply (Abs _ a6); cbn; tauto.
  - intros H. destruct (F7 H) as [Ha Hr]. split; [|exact Hr].
    apply (Abs _ a7); cbn; tauto.
  - intros H. apply data_sources_none in H.
    destruct H as (-> & -> & -> & -> & -> & -> & ->).
    destruct (D1 eq_refl) as [-> _]. split; reflexivity.
Qed.

End Orchestrator.

(** ** The signals scorer and its table *)

Lemma score_is_sum data :
  computeSignalsScore data = JS.Math_min (ScoreTable.sum data) 100 /\
  JS.Math_min (ScoreTable.sum data) 100 = ScoreTable.sum data /\
  (0 <=? ScoreTable.sum data) = true /\
  (ScoreTable.sum data <=? 90) = true.
Proof.
  unfold computeSignalsScore, ScoreTable.sum, ScoreTable.ratingPoints,
    ScoreTable.reviewPoints, ScoreTable.flag, ScoreTable.priceTierHigh.
  destruct (hasCommercialType data);
  destruct (is_operational (PlacesResult.business_status data));
  destruct (is_true (PlacesResult.has_website data));
  destruct (is_true (PlacesResult.is_verified data));
  (destruct (PlacesResult.price_level_index data) as [p|];
   [destruct (JS.truthy p && (p >=? 3))|]);
  (destruct (PlacesResult.total_review_count data) as [n|];
   [destruct (JS.truthy n);
    [destruct (n >=? 200);
     [|destruct (n >=? 100); [|destruct (n >=? 50); [|destruct (n >=? 10)]]]|]|]);
  (destruct (PlacesResult.rating data) as [r|];
   [destruct (JS.truthy r);
    [destruct (r >=? 4.5); [|destruct (r >=? 4.0); [|destruct (r >=? 3.5)]]|]|]);
  repeat split; reflexivity.
Qed.

(** * The claims *)

(** ** C2: without the tax source the total is 0 *)

(** C2, as stated, fails: with the threshold configured as 0 a run whose
    tax call times out has total revenue 0 and status APPROVED. *)
Lemma tax_unavailable_approved_at_threshold_zero :
  failed (Clients.getRevenueData pendingClients
            (ApplicationDoc.merchant_id bareApplication)) /\
  exists d calls,
    runWith 0 pendingClients = (inr d, calls) /\
    DecisionPayload.total_revenue (UnderwritingDecision.payload d) = 0 /\
    UnderwritingDecision.status d = APPROVED /\
    UnderwritingDecision.status d <> REJECTED.
Proof.
  split; [exact I|].
  eexists. eexists. split; [vm_compute; reflexivity|].
  cbn. repeat split. discriminate.
Qed.

(** C2, amended.  When the call to the tax/revenue source fails (it is
    rejected or times out), whatever the other sources answer, the run
    returns a decision whose total revenue is 0 and whose status is REJECTED
    provided the configured threshold is positive; and a run whose total
    revenue is not zero had its tax/revenue call fulfilled. *)
Theorem tax_source_unavailable_gives_zero
    Math_pow toLocaleString_esMX Number_toString env clients now application calls :
  (failed (Clients.getRevenueData clients (ApplicationDoc.merchant_id application)) ->
   exists d calls',
     runUnderwriting Math_pow toLocaleString_esMX Number_toString env clients now
       application calls = (inr d, calls') /\
     DecisionPayload.total_revenue (UnderwritingDecision.payload d) = 0 /\
     ((0 <? Env.APPROVAL_THRESHOLD env) = true ->
      UnderwritingDecision.status d = REJECTED)) /\
  (forall d calls',
     runUnderwriting Math_pow toLocaleString_esMX Number_toString env clients now
       application calls = (inr d, calls') ->
     (DecisionPayload.total_revenue (UnderwritingDecision.payload d) =? 0) = false ->
     exists raw,
       Clients.getRevenueData clients (ApplicationDoc.merchant_id application)
       = Fulfilled raw).
Proof.
  destruct (runUnderwriting_returns Math_pow toLocaleString_esMX Number_toString
              env clients now application calls)
    as (d & E & Hstatus & _ & Hsyn & Honly & _).
  cbv zeta in *. split.
  - intros Hf. exists d. eexists. split; [exact E|].
    destruct (Hsyn Hf) as (H0 & _). split; [exact H0|].
    intros Hthr. rewrite Hstatus, H0. unfold resolveStatus.
    rewrite (ltb_leb_false _ _ Hthr). reflexivity.
  - intros d' calls' E' Hnz. rewrite E in E'. injection E' as <- _.
    apply Honly. exact Hnz.
Qed.

Lemma tax_source_unavailable_gives_zero_witness :
  exists d calls',
    runWith 50000 pendingClients = (inr d, calls') /\
    DecisionPayload.total_revenue (UnderwritingDecision.payload d) = 0 /\
    ((0 <? 50000) = true -> UnderwritingDecision.status d = REJECTED).
Proof.
  apply (proj1 (tax_source_unavailable_gives_zero Math_pow_model format_model
                  format_model (envWithThreshold 50000) pendingClients "t1"
                  bareApplication [])).
  exact I.
Defined.

(** ** C3: the decision resolver *)

(** C3, as stated, fails: with the threshold configured as 0, a total
    revenue of 0 is at least the threshold and resolves to APPROVED, not to
    REJECTED. *)
Lemma zero_total_approved_at_threshold_zero :
  (0 =? 0) = true /\ resolveStatus 0 0 = APPROVED /\ resolveStatus 0 0 <> REJECTED.
Proof. repeat split. discriminate. Qed.

(** C3, amended.  For every run that returns a decision, with [total] its
    total revenue and [threshold] the configured threshold: the status is
    APPROVED if [total >= threshold]; MANUAL_REVIEW if [0 < total <
    threshold]; REJECTED if [total == 0] and the threshold is positive; it is
    always one of these three; and [total == threshold] gives APPROVED. *)
Theorem status_resolution
    Math_pow toLocaleString_esMX Number_toString env clients now application calls
    d calls' :
  runUnderwriting Math_pow toLocaleString_esMX Number_toString env clients now
    application calls = (inr d, calls') ->
  let total := DecisionPayload.total_revenue (UnderwritingDecision.payload d) in
  let threshold := Env.APPROVAL_THRESHOLD env in
  ((total >=? threshold) = true -> UnderwritingDecision.status d = APPROVED) /\
  ((total >? 0) = true -> (total <? threshold) = true ->
   UnderwritingDecision.status d = MANUAL_REVIEW) /\
  ((total =? 0) = true -> (0 <? threshold) = true ->
   UnderwritingDecision.status d = REJECTED) /\
  (UnderwritingDecision.status d = APPROVED \/
   UnderwritingDecision.status d = MANUAL_REVIEW \/
   UnderwritingDecision.status d = REJECTED) /\
  ((total =? threshold) = true -> UnderwritingDecision.status d = APPROVED).
Proof.
  intros E total threshold.
  destruct (runUnderwriting_returns Math_pow toLocaleString_esMX Number_toString
              env clients now application calls) as (d0 & E0 & Hstatus & _).
  rewrite E in E0. injection E0 as <- _. cbv zeta in Hstatus.
  fold total threshold in Hstatus. rewrite Hstatus. unfold resolveStatus.
  repeat match goal with |- _ /\ _ => split end.
  - intros H. rewrite H. reflexivity.
  - intros Hpos Hlt. rewrite (ltb_leb_false _ _ Hlt), Hpos. reflexivity.
  - intros Hz Hthr. destruct (zero_below_pos total threshold Hz Hthr) as [-> ->].
    reflexivity.
  - destruct (total >=? threshold); [|destruct (total >? 0)]; auto.
  - intros Heq. rewrite (eqb_leb _ _ Heq). reflexivity.
Qed.

Lemma status_resolution_witness :
  exists d calls',
    runWith 50000 stubClients = (inr d, calls') /\
    (DecisionPayload.total_revenue (UnderwritingDecision.payload d) >=? 50000) = true /\
    UnderwritingDecision.status d = APPROVED.
Proof.
  eexists. eexists. split; [vm_compute; reflexivity|].
  split; [vm_compute; reflexivity|].
  refine (proj1 (status_resolution Math_pow_model format_model format_model
                   (envWithThreshold 50000) stubClients "t1" bareApplication []
                   _ _ _) _).
  - vm_compute. reflexivity.
  - vm_compute. reflexivity.
Defined.

(** ** C5: the repayment split *)

(** C5, as stated, fails: for a base of 1e308 with fiscal data the amounts
    overflow, the monthly payment is [Infinity], the direct debit is
    [Infinity - Infinity = NaN], and the two parts do not add up to the
    payment. *)
Lemma split_of_infinite_payment_does_not_add_up :
  let o := computeCreditOffer Math_pow_model 1e308 (Some 720) 3 true true in
  CreditOffer.monthly_payment o = infinity /\
  (CreditOffer.withholding_amount o + CreditOffer.direct_debit_amount o
   =? CreditOffer.monthly_payment o) = false.
Proof. vm_compute. split; reflexivity. Qed.

(** C5, amended.  For every computed credit offer the withheld amount is
    [Math.round(monthly_payment * 0.20)] and the direct debit is
    [monthly_payment - withheld]; and whenever the monthly payment lies
    between 0 and 2^53 = 9,007,199,254,740,992 (the integers a number holds
    exactly), withheld + direct debit equals the monthly payment exactly. *)
Theorem repayment_split_adds_up Math_pow baseRevenue bureauScore dataSourceCount
    hasSocial hasFiscal :
  let o := computeCreditOffer Math_pow baseRevenue bureauScore dataSourceCount
             hasSocial hasFiscal in
  CreditOffer.withholding_amount o
  = JS.Math_round (CreditOffer.monthly_payment o * 0.20) /\
  CreditOffer.direct_debit_amount o
  = CreditOffer.monthly_payment o - CreditOffer.withholding_amount o /\
  ((0 <=? CreditOffer.monthly_payment o) = true ->
   (CreditOffer.monthly_payment o <=? 9007199254740992) = true ->
   (CreditOffer.withholding_amount o + CreditOffer.direct_debit_amount o
    =? CreditOffer.monthly_payment o) = true).
Proof.
  intros o. split; [reflexivity|]. split; [reflexivity|].
  unfold o, computeCreditOffer.
  cbn [CreditOffer.monthly_payment CreditOffer.withholding_amount
       CreditOffer.direct_debit_amount].
  apply split_adds_up.
Qed.

Lemma repayment_split_adds_up_witness :
  let o := computeCreditOffer Math_pow_model 50000 (Some 650) 3 true true in
  CreditOffer.monthly_payment o = 10288 /\
  CreditOffer.withholding_amount o = 2058 /\
  CreditOffer.direct_debit_amount o = 8230 /\
  (CreditOffer.withholding_amount o + CreditOffer.direct_debit_amount o
   =? CreditOffer.monthly_payment o) = true.
Proof.
  intros o.
  split; [vm_compute; reflexivity|].
  split; [vm_compute; reflexivity|].
  split; [vm_compute; reflexivity|].
  refine (proj2 (proj2 (repayment_split_adds_up Math_pow_model 50000 (Some 650) 3
                          true true)) _ _);
    vm_compute; reflexivity.
Defined.

(** ** C7 and C10: the signals score *)



(** C10.  For every listings result the signals score is at least 0 and at
    most 90, the sum of the weights 25 + 20 + 10 + 10 + 10 + 10 + 5, which a
    listing with every sub-signal at its best reaches; so the cap
    [min(sum, 100)] never binds: the score is the sum itself. *)
Theorem signals_score_at_most_90 :
  (forall data,
      (0 <=? computeSignalsScore data) = true /\
      (computeSignalsScore data <=? 90) = true /\
      computeSignalsScore data = ScoreTable.sum data) /\
  computeSignalsScore bestListing = 90 /\
  25 + 20 + 10 + 10 + 10 + 10 + 5 = 90.
Proof.
  split.
  - intros data. destruct (score_is_sum data) as (E & Ecap & H0 & H90).
    rewrite E, Ecap. repeat split; assumption.
  - split; vm_compute; reflexivity.
Qed.

(** ** C9: raising the bureau score *)

(** C9, as stated, fails: with a negative monthly base, raising the bureau
    score from 600 to 701 lowers the total from -900 to -1100. *)
Lemma bureau_raise_lowers_negative_total :
  computeTotalRevenue (-1000) 0 (Some 600) None true None None None None None = -900 /\
  computeTotalRevenue (-1000) 0 (Some 701) None true None None None None None = -1100 /\
  (computeTotalRevenue (-1000) 0 (Some 600) None true None None None None None
   <=? computeTotalRevenue (-1000) 0 (Some 701) None true None None None None None)
  = false.
Proof. vm_compute. repeat split. Qed.

(** C9, amended.  For every valuation of the other inputs in which the
    monthly base and the listings score are not negative (and not NaN),
    raising the bureau score from any value <= 600 to any value > 700 never
    decreases the total weighted revenue. *)
Theorem bureau_raise_never_decreases base score lo hi tenure compliant facebook
    instagram identityMatch whatsappBusiness simSwap :
  (0 <=? base) = true -> (0 <=? score) = true ->
  (lo <=? 600) = true -> (hi >? 700) = true ->
  (computeTotalRevenue base score (Some lo) tenure compliant facebook instagram
     identityMatch whatsappBusiness simSwap
   <=? computeTotalRevenue base score (Some hi) tenure compliant facebook instagram
         identityMatch whatsappBusiness simSwap) = true.
Proof.
  intros Hb Hs Hlo Hhi. destruct (base =? 0) eqn:Hz.
  - unfold computeTotalRevenue. rewrite Hz. reflexivity.
  - rewrite !computeTotalRevenue_formula by assumption. unfold Formula.total.
    pose proof (digitalFactors_nonneg base score facebook instagram identityMatch
                  whatsappBusiness simSwap Hb Hz Hs) as HP.
    set (P := Formula.digitalFactors base score facebook instagram identityMatch
                whatsappBusiness simSwap) in *.
    destruct (score_le_600 lo Hlo) as [L7 L6].
    cbn [Formula.bureauMultiplier]. rewrite L7, L6, Hhi.
    destruct (bureau_tenure_compliance_pos tenure compliant) as [[T1 T2] [C1 C2]].
    assert (H1 : (P * 0.90 <=? P * 1.10) = true)
      by (apply mul_mono_const; (assumption || reflexivity)).
    assert (N1 : (0 <=? P * 0.90) = true)
      by (apply mul_nonneg; (assumption || reflexivity)).
    apply Math_round_mono.
    + apply mul_nonneg; [apply mul_nonneg; [exact N1|..]|..]; assumption.
    + apply mul_mono_r; try assumption.
      * apply mul_nonneg; assumption.
      * apply mul_mono_r; assumption.
Qed.

Lemma bureau_raise_never_decreases_witness :
  (computeTotalRevenue 60000 72 (Some 600) (Some 36) true None None None None None
   <=? computeTotalRevenue 60000 72 (Some 720) (Some 36) true None None None None
         None) = true.
Proof.
  apply (bureau_raise_never_decreases 60000 72 600 720 (Some 36) true None None
           None None None); reflexivity.
Defined.

(** * Further properties of the service *)

(** ** What each block of a run yields *)

Section Blocks.

Variable env : Env.t.
Variable clients : Clients.t.
Variable now : string.

Lemma fetchSyntage_cases application calls :
  exists r m a c,
    fetchSyntage clients now application calls = (inr (r, m, a, c), calls ++ [Syntage]) /\
    match Clients.getRevenueData clients (ApplicationDoc.merchant_id application) with
    | Fulfilled raw =>
        a = true /\ m = SyntageRevenueData.annual_revenue raw / 12 /\
        c = nullish (SyntageRevenueData.tax_compliance raw) true /\
        exists res,
          r = Some res /\ SyntageResult.raw_response res = raw /\
          SyntageResult.monthly_revenue res = m /\
          SyntageResult.tax_compliance res = Some c /\
          SyntageResult.cfdi_count_last_12m res
          = SyntageRevenueData.cfdi_count_last_12m raw /\
          SyntageResult.tax_regime res = SyntageRevenueData.tax_regime raw /\
          SyntageResult.fetched_at res = now
    | _ => a = false /\ m = 0 /\ c = true /\ r = None
    end.
Proof.
  unfold fetchSyntage, try_catch, bind, withTimeout, ret.
  destruct (Clients.getRevenueData clients (ApplicationDoc.merchant_id application))
    as [raw|err|]; do 4 eexists; (split; [reflexivity|]); repeat split.
  eexists. repeat split.
Qed.

Lemma fetchPlaces_cases mapsUrl calls :
  exists r sc a,
    fetchPlaces clients now mapsUrl calls
    = (inr (r, sc, a), calls ++ (if JS.nonempty mapsUrl then [GooglePlaces] else [])) /\
    match JS.nonempty mapsUrl, Clients.getPlacesData clients mapsUrl with
    | true, Fulfilled v =>
        r = Some v /\ a = PlacesResult.connected v /\
        sc = (if PlacesResult.connected v
              then nullish (PlacesResult.signals_score v) 0 else 0)
    | _, _ => r = Some (PlacesResult.not_connected now) /\ a = false /\ sc = 0
    end.
Proof.
  unfold fetchPlaces, try_catch, bind, withTimeout, ret.
  destruct (JS.nonempty mapsUrl).
  - destruct (Clients.getPlacesData clients mapsUrl) as [v|err|];
      [destruct (PlacesResult.connected v)|..];
      do 3 eexists; (split; [reflexivity|]); repeat split.
  - do 3 eexists. rewrite app_nil_r. split; [reflexivity|].
    destruct (Clients.getPlacesData clients mapsUrl); repeat split.
Qed.

Lemma fetchFacebook_cases facebookToken calls :
  exists r n a,
    fetchFacebook env clients now facebookToken calls
    = (inr (r, n, a),
       calls ++ (if JS.nonempty facebookToken || Env.DEMO_MODE env then [Facebook] else [])) /\
    match JS.nonempty facebookToken || Env.DEMO_MODE env,
          Clients.getPageData clients facebookToken with
    | true, Fulfilled v =>
        r = Some v /\ a = FacebookResult.connected v /\
        n = (if FacebookResult.connected v then FacebookResult.fan_count v else None)
    | _, _ => r = Some (FacebookResult.not_connected now) /\ a = false /\ n = None
    end.
Proof.
  unfold fetchFacebook, try_catch, bind, withTimeout, ret.
  destruct (JS.nonempty facebookToken || Env.DEMO_MODE env).
  - destruct (Clients.getPageData clients facebookToken) as [v|err|];
      [destruct (FacebookResult.connected v)|..];
      do 3 eexists; (split; [reflexivity|]); repeat split.
  - do 3 eexists. rewrite app_nil_r. split; [reflexivity|].
    destruct (Clients.getPageData clients facebookToken); repeat split.
Qed.

Lemma fetchInstagram_cases instagramToken facebookToken calls :
  exists r n a,
    fetchInstagram env clients now instagramToken facebookToken calls
    = (inr (r, n, a),
       calls ++ (if JS.nonempty instagramToken || JS.nonempty facebookToken
                    || Env.DEMO_MODE env then [Instagram] else [])) /\
    match JS.nonempty instagramToken || JS.nonempty facebookToken || Env.DEMO_MODE env,
          Clients.getProfileData clients (JS.or_else instagramToken facebookToken) with
    | true, Fulfilled v =>
        r = Some v /\ a = InstagramResult.connected v /\
        n = (if InstagramResult.connected v
             then InstagramResult.followers_count v else None)
    | _, _ => r = Some (InstagramResult.not_connected now) /\ a = false /\ n = None
    end.
Proof.
  unfold fetchInstagram, try_catch, bind, withTimeout, ret.
  destruct (JS.nonempty instagramToken || JS.nonempty facebookToken || Env.DEMO_MODE env).
  - destruct (Clients.getProfileData clients (JS.or_else instagramToken facebookToken))
      as [v|err|];
      [destruct (InstagramResult.connected v)|..];
      do 3 eexists; (split; [reflexivity|]); repeat split.
  - do 3 eexists. rewrite app_nil_r. split; [reflexivity|].
    destruct (Clients.getProfileData clients (JS.or_else instagramToken facebookToken));
      repeat split.
Qed.

Lemma fetchTwilio_cases phone firstName lastName calls :
  exists r im wa ss a,
    fetchTwilio clients now phone firstName lastName calls
    = (inr (r, im, wa, ss, a), calls ++ [Twilio]) /\
    match Clients.verifyPhone clients (JS.or_else phone "+525500000000")
            firstName lastName with
    | Fulfilled v =>
        r = Some v /\ a = TwilioResult.connected v /\
        (if TwilioResult.connected v
         then im = TwilioResult.identity_match v /\
              wa = TwilioResult.whatsapp_business v /\
              ss = TwilioResult.sim_swap_detected v
         else im = None /\ wa = None /\ ss = None)
    | _ => r = Some (TwilioResult.not_connected now) /\ a = false /\
           im = None /\ wa = None /\ ss = None
    end.
Proof.
  unfold fetchTwilio, try_catch, bind, withTimeout, ret.
  destruct (Clients.verifyPhone clients (JS.or_else phone "+525500000000")
              firstName lastName) as [v|err|];
    [destruct (TwilioResult.connected v) eqn:Ec|..];
    do 5 eexists; (split; [reflexivity|]); rewrite ?Ec; repeat split.
Qed.

Lemma fetchBureau_cases taxId calls :
  exists r s a,
    fetchBureau clients taxId calls = (inr (r, s, a), calls ++ [Bureau]) /\
    match Clients.getScore clients taxId with
    | Fulfilled v =>
        r = Some v /\ s = BureauResult.bureau_score v /\
        a = (match BureauResult.bureau_score v with Some _ => true | None => false end)
    | _ => r = None /\ s = None /\ a = false
    end.
Proof.
  unfold fetchBureau, try_catch, bind, withTimeout, ret.
  destruct (Clients.getScore clients taxId) as [v|err|];
    [destruct (BureauResult.bureau_score v)|..];
    do 3 eexists; (split; [reflexivity|]); repeat split.
Qed.

Lemma fetchPlatform_cases application calls :
  exists r g t a,
    fetchPlatform clients application calls = (inr (r, g, t, a), calls ++ [Platform]) /\
    match Clients.getMerchantData clients (ApplicationDoc.merchant_id application) with
    | Fulfilled v =>
        r = Some v /\ g = PlatformResult.avg_platform_gmv_6m v /\
        (match PlatformResult.avg_platform_gmv_6m v with
         | Some _ => a = true /\ t = PlatformResult.tenure_months v
         | None => a = false /\ t = None
         end)
    | _ => r = None /\ g = None /\ t = None /\ a = false
    end.
Proof.
  unfold fetchPlatform, try_catch, bind, withTimeout, ret.
  destruct (Clients.getMerchantData clients (ApplicationDoc.merchant_id application))
    as [v|err|];
    [destruct (PlatformResult.avg_platform_gmv_6m v)|..];
    do 4 eexists; (split; [reflexivity|]); repeat split.
Qed.

End Blocks.


(** ** Pre-qualification *)

(** The numbers JavaScript takes for false are [0], [-0] and [NaN]. *)
Lemma falsy_cases a : JS.truthy a = false -> a = 0 \/ a = (-0) \/ a = nan.
Proof.
  unfold JS.truthy, is_zero, is_nan. intros H.
  apply negb_false_iff, orb_true_iff in H. destruct H as [H|H].
  - rewrite eqb_spec in H. change (Prim2SF zero) with (S754_zero false) in H.
    destruct (Prim2SF a) as [s|s| |s m e] eqn:E;
      try (destruct s; discriminate H); try discriminate H.
    destruct s; [right; left|left]; apply Prim2SF_inj; rewrite E; reflexivity.
  - apply negb_true_iff in H. rewrite eqb_spec in H.
    destruct (Prim2SF a) as [s|s| |s m e] eqn:E;
      try (destruct s; discriminate H).
    + right. right. apply Prim2SF_inj. rewrite E. reflexivity.
    + exfalso. unfold SFeqb, SFcompare in H. rewrite Z.compare_refl in H.
      change (Pos.compare_cont Eq m m) with (Pos.compare m m) in H.
      rewrite Pos.compare_refl in H. destruct s; discriminate H.
Qed.

Lemma runPrequalification_cases clients merchantId calls :
  exists o,
    runPrequalification clients merchantId calls = (inr o, calls ++ [Platform]) /\
    PrequalOffers.base_amount o
    = match Clients.getMerchantData clients merchantId with
      | Fulfilled v =>
          match PlatformResult.pre_approved_amount v with
          | Some amount => if JS.truthy amount then amount else 50000
          | None => 50000
          end
      | _ => 50000
      end /\
    PrequalOffers.bureau_offer o
    = JS.Math_round ((PrequalOffers.base_amount o * 1.2) / 1000) * 1000 /\
    PrequalOffers.social_offer o
    = JS.Math_round ((PrequalOffers.base_amount o * 1.4) / 1000) * 1000 /\
    PrequalOffers.fiscal_offer o
    = JS.Math_round ((PrequalOffers.base_amount o * 2.0) / 1000) * 1000.
Proof.
  unfold runPrequalification, try_catch, bind, withTimeout, ret.
  destruct (Clients.getMerchantData clients merchantId) as [v|err|];
    [destruct (PlatformResult.pre_approved_amount v) as [amount|];
     [destruct (JS.truthy amount)|]|..];
    eexists; (split; [reflexivity|]); repeat split.
Qed.

(** X1.  [runPrequalification] always returns its four amounts, after exactly
    one call to the platform adapter and whatever that call does.  The base
    is the platform's pre-approved amount when the call answers with an
    amount that JavaScript takes for true.  When the call fails or times
    out, or answers without an amount or with the amount 0, -0 or NaN, the
    base is 50,000 and the offers are 60,000, 70,000 and 100,000.  In every
    case the three offers are the approved amounts [computeCreditOffer]
    gives for that base: without social and fiscal data, with social data
    only, and with fiscal data. *)
Theorem prequalification_always_answers Math_pow clients merchantId calls :
  exists o,
    runPrequalification clients merchantId calls = (inr o, calls ++ [Platform]) /\
    (forall v amount,
        Clients.getMerchantData clients merchantId = Fulfilled v ->
        PlatformResult.pre_approved_amount v = Some amount ->
        JS.truthy amount = true ->
        PrequalOffers.base_amount o = amount) /\
    ((failed (Clients.getMerchantData clients merchantId) \/
      exists v, Clients.getMerchantData clients merchantId = Fulfilled v /\
                match PlatformResult.pre_approved_amount v with
                | Some amount => JS.truthy amount = false
                | None => True
                end) ->
     PrequalOffers.base_amount o = 50000 /\
     PrequalOffers.bureau_offer o = 60000 /\
     PrequalOffers.social_offer o = 70000 /\
     PrequalOffers.fiscal_offer o = 100000) /\
    (forall bureauScore dataSourceCount,
        let offer hasSocial hasFiscal :=
          CreditOffer.approved_amount
            (computeCreditOffer Math_pow (PrequalOffers.base_amount o) bureauScore
               dataSourceCount hasSocial hasFiscal) in
        PrequalOffers.bureau_offer o = offer false false /\
        PrequalOffers.social_offer o = offer true false /\
        PrequalOffers.fiscal_offer o = offer false true /\
        PrequalOffers.fiscal_offer o = offer true true).
Proof.
  destruct (runPrequalification_cases clients merchantId calls)
    as (o & E & Hb & H1 & H2 & H3).
  exists o. split; [exact E|]. split; [|split].
  - intros v amount Ev Ea Ht. rewrite Hb, Ev, Ea, Ht. reflexivity.
  - intros H.
    assert (B : PrequalOffers.base_amount o = 50000).
    { rewrite Hb. destruct H as [H|(v & Ev & H)].
      - destruct (Clients.getMerchantData clients merchantId);
          [contradiction|reflexivity..].
      - rewrite Ev. destruct (PlatformResult.pre_approved_amount v);
          [rewrite H|]; reflexivity. }
    rewrite H1, H2, H3, B. repeat split; vm_compute; reflexivity.
  - intros bureauScore dataSourceCount offer. unfold offer.
    rewrite H1, H2, H3. repeat split.
Qed.


(** ** The reason string *)

Lemma append_nil_r (s : string) : (s ++ "")%string = s.
Proof. induction s as [|c s IH]; cbn; [reflexivity|rewrite IH; reflexivity]. Qed.

Lemma prefix_append (a b : string) : String.prefix a (a ++ b) = true.
Proof.
  induction a as [|c a IH]; cbn; [destruct b; reflexivity|].
  destruct (ascii_dec c c) as [_|N]; [exact IH|contradiction].
Qed.

Lemma append_assoc (a b c : string) : ((a ++ b) ++ c = a ++ (b ++ c))%string.
Proof. induction a as [|x a IH]; cbn; [reflexivity|rewrite IH; reflexivity]. Qed.

Lemma join_two_more a b l :
  exists rest, JS.join " " (a :: b :: l) = (a ++ " " ++ b ++ rest)%string.
Proof.
  unfold JS.join. destruct l as [|c l].
  - exists ""%string. cbn [String.concat]. rewrite append_nil_r. reflexivity.
  - eexists. cbn [String.concat]. reflexivity.
Qed.

(** A list of sentences that starts with [a] and [b] and has at most [n]
    more, after one more step of [buildReason]. *)
Lemma sentences_push (a b : string) (n : nat) (parts : list string) (x : string) :
  (exists t, parts = a :: b :: t /\ (List.length t <= n)%nat) ->
  exists t, (parts ++ [x])%list = a :: b :: t /\ (List.length t <= S n)%nat.
Proof.
  intros (t & -> & Hl). exists (t ++ [x])%list. split; [reflexivity|].
  rewrite length_app. cbn. lia.
Qed.

Lemma sentences_keep (a b : string) (n : nat) (parts : list string) :
  (exists t, parts = a :: b :: t /\ (List.length t <= n)%nat) ->
  exists t, parts = a :: b :: t /\ (List.length t <= S n)%nat.
Proof. intros (t & -> & Hl). exists t. split; [reflexivity|lia]. Qed.

Lemma buildReason_parts toLocaleString_esMX Number_toString params :
  exists l,
    buildReason toLocaleString_esMX Number_toString params
    = JS.join " "
        ("Solicitud en revisión manual para determinar nuevo monto Préstamo MÁS."%string
         :: (if ReasonParams.syntageAvailable params
             then ("Ventas SAT: $" ++
                   toLocaleString_esMX (ReasonParams.syntageMonthlyRevenue params) ++
                   " MXN/mes." ++
                   (if negb (ReasonParams.syntageCompliance params)
                    then " ⚠️ Deuda activa con SAT detectada." else ""))%string
             else "Datos SAT no disponibles — requiere verificación manual."%string)
         :: l) /\
    (List.length l <= 6)%nat.
Proof.
  unfold buildReason. cbv zeta.
  set (o := "Solicitud en revisión manual para determinar nuevo monto Préstamo MÁS."%string).
  set (p1 := if ReasonParams.syntageAvailable params
             then @app string _ _ else @app string _ _).
  set (s2 := if ReasonParams.syntageAvailable params then _ else _).
  assert (Q1 : exists t, p1 = o :: s2 :: t /\ (List.length t <= 0)%nat).
  { exists []. unfold p1, s2. destruct (ReasonParams.syntageAvailable params);
      split; (reflexivity || (cbn; lia)). }
  clearbody p1 o s2.
  set (p2 := if ReasonParams.placesAvailable params then _ else _).
  assert (Q2 : exists t, p2 = o :: s2 :: t /\ (List.length t <= 1)%nat).
  { unfold p2. destruct (ReasonParams.placesAvailable params);
      first [apply sentences_push; exact Q1 | apply sentences_keep; exact Q1]. }
  clearbody p2. clear Q1 p1.
  set (p3 := match ReasonParams.facebookAvailable params with true => _ | false => _ end).
  assert (Q3 : exists t, p3 = o :: s2 :: t /\ (List.length t <= 2)%nat).
  { unfold p3. destruct (ReasonParams.facebookAvailable params);
      [destruct (ReasonParams.facebookFanCount params)|];
      first [apply sentences_push; exact Q2 | apply sentences_keep; exact Q2]. }
  clearbody p3. clear Q2 p2.
  set (p4 := match ReasonParams.instagramAvailable params with true => _ | false => _ end).
  assert (Q4 : exists t, p4 = o :: s2 :: t /\ (List.length t <= 3)%nat).
  { unfold p4. destruct (ReasonParams.instagramAvailable params);
      [destruct (ReasonParams.instagramFollowers params)|];
      first [apply sentences_push; exact Q3 | apply sentences_keep; exact Q3]. }
  clearbody p4. clear Q3 p3.
  set (p5 := if ReasonParams.twilioAvailable params then _ else _).
  assert (Q5 : exists t, p5 = o :: s2 :: t /\ (List.length t <= 4)%nat).
  { unfold p5. destruct (ReasonParams.twilioAvailable params);
      [destruct (is_true (ReasonParams.twilioIdentityMatch params));
       destruct (is_true (ReasonParams.twilioWhatsapp params));
       destruct (is_true (ReasonParams.twilioSimSwap params)); cbn [app]|];
      first [apply sentences_push; exact Q4 | apply sentences_keep; exact Q4]. }
  clearbody p5. clear Q4 p4.
  set (p6 := match ReasonParams.bureauAvailable params with true => _ | false => _ end).
  assert (Q6 : exists t, p6 = o :: s2 :: t /\ (List.length t <= 5)%nat).
  { unfold p6. destruct (ReasonParams.bureauAvailable params);
      [destruct (ReasonParams.bureauScore params)|];
      first [apply sentences_push; exact Q5 | apply sentences_keep; exact Q5]. }
  clearbody p6. clear Q5 p5.
  set (p7 := match ReasonParams.platformAvailable params with true => _ | false => _ end).
  assert (Q7 : exists t, p7 = o :: s2 :: t /\ (List.length t <= 6)%nat).
  { unfold p7. destruct (ReasonParams.platformAvailable params);
      [destruct (ReasonParams.platformGmv params)|];
      first [apply sentences_push; exact Q6 | apply sentences_keep; exact Q6]. }
  destruct Q7 as (t & -> & Hl). exists t. split; [reflexivity|exact Hl].
Qed.


(** ** The order of binary64 values is transitive *)

Ltac order_cases :=
  repeat match goal with
  | H : context [(?a ?= ?b)%Z] |- _ => destruct (Z.compare_spec a b)
  | |- context [(?a ?= ?b)%Z] => destruct (Z.compare_spec a b)
  | H : context [(?a ?= ?b)%positive] |- _ => destruct (Pos.compare_spec a b)
  | |- context [(?a ?= ?b)%positive] => destruct (Pos.compare_spec a b)
  end.

Lemma SFltb_leb_trans x y z :
  SFltb x y = true -> SFleb y z = true -> SFltb x z = true.
Proof.
  unfold SFltb, SFleb.
  destruct x as [sx|[|]| |[|] mx ex]; destruct y as [sy|[|]| |[|] my ey];
    destruct z as [sz|[|]| |[|] mz ez];
    cbn [SFcompare]; try discriminate; try reflexivity;
    change (Pos.compare_cont Eq ?a ?b) with (Pos.compare a b);
    intros H1 H2; order_cases; cbn [CompOpp] in *;
    try discriminate; try reflexivity; subst; lia.
Qed.

Lemma SFleb_ltb_trans x y z :
  SFleb x y = true -> SFltb y z = true -> SFltb x z = true.
Proof.
  unfold SFltb, SFleb.
  destruct x as [sx|[|]| |[|] mx ex]; destruct y as [sy|[|]| |[|] my ey];
    destruct z as [sz|[|]| |[|] mz ez];
    cbn [SFcompare]; try discriminate; try reflexivity;
    change (Pos.compare_cont Eq ?a ?b) with (Pos.compare a b);
    intros H1 H2; order_cases; cbn [CompOpp] in *;
    try discriminate; try reflexivity; subst; lia.
Qed.

Lemma SFleb_trans_any x y z :
  SFleb x y = true -> SFleb y z = true -> SFleb x z = true.
Proof.
  unfold SFleb.
  destruct x as [sx|[|]| |[|] mx ex]; destruct y as [sy|[|]| |[|] my ey];
    destruct z as [sz|[|]| |[|] mz ez];
    cbn [SFcompare]; try discriminate; try reflexivity;
    change (Pos.compare_cont Eq ?a ?b) with (Pos.compare a b);
    intros H1 H2; order_cases; cbn [CompOpp] in *;
    try discriminate; try reflexivity; subst; lia.
Qed.

Lemma ltb_leb_trans x y z : (x <? y) = true -> (y <=? z) = true -> (x <? z) = true.
Proof. rewrite !ltb_spec, leb_spec. apply SFltb_leb_trans. Qed.

Lemma leb_ltb_trans x y z : (x <=? y) = true -> (y <? z) = true -> (x <? z) = true.
Proof. rewrite !ltb_spec, leb_spec. apply SFleb_ltb_trans. Qed.

Lemma leb_trans x y z : (x <=? y) = true -> (y <=? z) = true -> (x <=? z) = true.
Proof. rewrite !leb_spec. apply SFleb_trans_any. Qed.

Lemma leb_antisym x y : (x <=? y) = true -> (y <=? x) = true -> (x =? y) = true.
Proof.
  rewrite !leb_spec, eqb_spec. unfold SFleb, SFeqb.
  rewrite (SFcompare_antisym (Prim2SF x) (Prim2SF y)).
  destruct (SFcompare (Prim2SF x) (Prim2SF y)) as [[| |]|]; cbn; congruence.
Qed.


(** ** The credit offer *)

Section SplitParts.
Local Open Scope Z_scope.

(** Both parts of the split of a payment [m] lie between 0 and [m]. *)
Lemma SFsplit_parts k mc ec :
  0 < k <= 2 ^ 53 ->
  valid_binary (S754_finite false mc ec) = true ->
  SFleb (S754_finite false mc ec) SFone = true ->
  let m := SFint k in
  let w := SFround (SFmul prec emax m (S754_finite false mc ec)) in
  let d := SFsub prec emax m w in
  SFnonneg w = true /\ SFleb w m = true /\ SFnonneg d = true /\ SFleb d m = true.
Proof.
  intros Hk Vc Hc m w d.
  destruct (SFint_repr k Hk) as (mk & ek & Ek & Vk & Bk & Rk).
  assert (Hprod : SFleb (SFmul prec emax m (S754_finite false mc ec)) m = true).
  { unfold m. rewrite Ek. rewrite <- (SFmul_one mk ek Vk) at 2.
    rewrite (SFmul_comm _ (S754_finite false mc ec)), (SFmul_comm _ SFone).
    apply SFmul_mono; try assumption; reflexivity. }
  assert (Vprod : valid_binary (SFmul prec emax m (S754_finite false mc ec)) = true).
  { unfold m. rewrite Ek, SFmul_finite by assumption.
    apply rnd_pair_valid; [lia|apply mul_pre; assumption]. }
  assert (Nprod : SFnonneg (SFmul prec emax m (S754_finite false mc ec)) = true).
  { unfold m. rewrite Ek, SFmul_finite by assumption.
    apply of_pair_nonneg, rnd_pair_nonneg; [lia|apply mul_pre; assumption]. }
  assert (Hw : SFleb w m = true).
  { unfold w. replace m with (SFround m) at 2 by (apply SFround_int; lia).
    apply SFround_mono; try assumption. apply SFint_valid. }
  assert (Nw : SFnonneg w = true).
  { unfold w.
    destruct (SFmul prec emax m (S754_finite false mc ec)) as [s|[|]| |[|] a b];
      try discriminate; try reflexivity.
    cbn [SFround]. apply binary_normalize_nonneg, round_half_up_nonneg. }
  assert (Lw : SFleb w (SFint (2 ^ 53)) = true).
  { apply (SFleb_trans w m); try assumption; try (apply SFint_nonneg; lia).
    apply binary_normalize_mono. lia. }
  assert (Lm : SFleb m m = true).
  { unfold m. apply binary_normalize_mono. lia. }
  split; [exact Nw|]. split; [exact Hw|].
  destruct (SFround_form _ Vprod Nw Lw) as [Ez|(j & Hj & Ej)].
  - fold w in Ez. unfold d. rewrite Ez. unfold m in *. rewrite Ek in *.
    cbn [SFsub]. split; [reflexivity|exact Lm].
  - fold w in Ej.
    assert (Hjk : j <= k).
    { apply SFleb_int_reflect; try lia. rewrite <- Ej. exact Hw. }
    unfold d. rewrite Ej. unfold m. rewrite SFsub_int by lia.
    split; [apply SFint_nonneg; lia|apply binary_normalize_mono; lia].
Qed.

End SplitParts.

Lemma split_parts_bounds y :
  let m := JS.Math_round y in
  let w := JS.Math_round (m * 0.20) in
  (0 <=? m) = true -> (m <=? 9007199254740992) = true ->
  (0 <=? w) = true /\ (w <=? m) = true /\
  (0 <=? m - w) = true /\ (m - w <=? m) = true.
Proof.
  intros m w H0 H53.
  pose proof (Math_round_spec y) as Em. fold m in Em.
  assert (N : SFnonneg (SFround (Prim2SF y)) = true)
    by (rewrite <- Em; apply leb0_nonneg; exact H0).
  assert (L : SFleb (SFround (Prim2SF y)) (SFint (2 ^ 53)) = true).
  { rewrite leb_spec, Em in H53.
    change (Prim2SF 9007199254740992) with (SFint (2 ^ 53)) in H53. exact H53. }
  destruct (SFround_form (Prim2SF y) (Prim2SF_valid y) N L) as [Ez|(k & Hk & Ek)].
  - assert (M : m = (-0)%float)
      by (apply Prim2SF_inj; rewrite Em, Ez; reflexivity).
    unfold w. rewrite M. repeat split.
  - destruct (Z.eq_dec k 0) as [->|Hk0].
    + assert (M : m = 0)
        by (apply Prim2SF_inj; rewrite Em, Ek; reflexivity).
      unfold w. rewrite M. repeat split.
    + rewrite (leb0_nonneg w), (leb0_nonneg (m - w)), !leb_spec, sub_spec.
      unfold w. rewrite Math_round_spec, mul_spec, Em, Ek.
      apply (SFsplit_parts k 7205759403792794 (-55)); [lia|reflexivity|reflexivity].
Qed.

(** X2.  For a credit offer whose monthly payment lies between 0 and 2^53,
    the withheld part and the direct-debit part of the payment each lie
    between 0 and the payment. *)
Theorem repayment_parts_within_payment Math_pow baseRevenue bureauScore
    dataSourceCount hasSocial hasFiscal :
  let o := computeCreditOffer Math_pow baseRevenue bureauScore dataSourceCount
             hasSocial hasFiscal in
  (0 <=? CreditOffer.monthly_payment o) = true ->
  (CreditOffer.monthly_payment o <=? 9007199254740992) = true ->
  (0 <=? CreditOffer.withholding_amount o) = true /\
  (CreditOffer.withholding_amount o <=? CreditOffer.monthly_payment o) = true /\
  (0 <=? CreditOffer.direct_debit_amount o) = true /\
  (CreditOffer.direct_debit_amount o <=? CreditOffer.monthly_payment o) = true.
Proof.
  intros o. unfold o, computeCreditOffer.
  cbn [CreditOffer.monthly_payment CreditOffer.withholding_amount
       CreditOffer.direct_debit_amount].
  apply split_parts_bounds.
Qed.

Lemma repayment_parts_within_payment_witness :
  let o := computeCreditOffer Math_pow_model 50000 (Some 650) 3 true true in
  CreditOffer.monthly_payment o = 10288 /\
  (0 <=? CreditOffer.withholding_amount o) = true /\
  (CreditOffer.withholding_amount o <=? CreditOffer.monthly_payment o) = true /\
  (0 <=? CreditOffer.direct_debit_amount o) = true /\
  (CreditOffer.direct_debit_amount o <=? CreditOffer.monthly_payment o) = true.
Proof.
  split; [vm_compute; reflexivity|].
  apply (repayment_parts_within_payment Math_pow_model 50000 (Some 650) 3 true true);
    vm_compute; reflexivity.
Defined.

(** X3.  With the other inputs fixed, a bureau score that is not lower never
    gives a higher monthly rate, no rate is higher than the rate 0.038 of an
    unknown score, and the rate of a known score is 0.030, 0.034 or
    0.038. *)
Theorem interest_rate_never_rises_with_score Math_pow baseRevenue dataSourceCount
    hasSocial hasFiscal lower higher :
  (lower <=? higher) = true ->
  let rate score :=
    CreditOffer.interest_rate_monthly
      (computeCreditOffer Math_pow baseRevenue score dataSourceCount hasSocial
         hasFiscal) in
  (rate (Some higher) <=? rate (Some lower)) = true /\
  (rate (Some lower) <=? rate None) = true /\
  rate None = 0.038 /\
  (rate (Some higher) = 0.030 \/ rate (Some higher) = 0.034 \/
   rate (Some higher) = 0.038).
Proof.
  intros H rate. unfold rate, computeCreditOffer.
  cbn [CreditOffer.interest_rate_monthly].
  destruct (lower >? 700) eqn:L7.
  - rewrite (ltb_leb_trans _ _ _ L7 H). repeat split. left. reflexivity.
  - destruct (lower >? 600) eqn:L6.
    + rewrite (ltb_leb_trans _ _ _ L6 H).
      destruct (higher >? 700); repeat split; auto.
    + destruct (higher >? 700); [|destruct (higher >? 600)]; repeat split; auto.
Qed.

Lemma interest_rate_never_rises_with_score_witness :
  CreditOffer.interest_rate_monthly
    (computeCreditOffer Math_pow_model 50000 (Some 720) 3 true true) = 0.030 /\
  CreditOffer.interest_rate_monthly
    (computeCreditOffer Math_pow_model 50000 (Some 650) 3 true true) = 0.034 /\
  (0.030 <=? 0.034) = true.
Proof.
  split; [reflexivity|]. split; [reflexivity|].
  apply (proj1 (interest_rate_never_rises_with_score Math_pow_model 50000 3 true true
                  650 720 eq_refl)).
Defined.


(** ** Division of finite values *)

Section Binary64Division.

Local Open Scope Z_scope.

Lemma shr_quot_start M D :
  0 <= M -> 0 < D ->
  shr_record_of_loc (M / D) (new_location D (M mod D)) = shr_quot M D 0.
Proof.
  intros HM HD. unfold shr_quot. rewrite Z.pow_0_r, Z.mul_1_r.
  pose proof (Z.mod_pos_bound M D HD) as Hr.
  pose proof (Z.div_mod M D ltac:(lia)) as HE.
  set (q := M / D) in *. set (r := M mod D) in *. clearbody q r.
  assert (E2 : 2 * M = 2 * r + (2 * q) * D) by lia.
  rewrite E2, Z.div_add, Z.mod_add by lia.
  rewrite Z.odd_add_mul_2.
  unfold new_location, new_location_even, new_location_odd.
  destruct (Z.even D) eqn:EV; cbv beta;
    (destruct (Z.eqb_spec r 0) as [R0|R0];
     [subst r; change (2 * 0) with 0; rewrite Z.div_0_l, Z.mod_0_l by lia;
      reflexivity|]).
  - destruct (Z.compare_spec (2 * r) D) as [C|C|C]; cbn [shr_record_of_loc].
    + rewrite C, Z.div_same, Z.mod_same by lia. reflexivity.
    + rewrite Z.div_small, Z.mod_small by lia.
      destruct (Z.eqb_spec (2 * r) 0); [lia|reflexivity].
    + assert (Q : 2 * r / D = 1) by (symmetry; apply (Z.div_unique _ _ 1 (2 * r - D)); lia).
      assert (Rm : (2 * r) mod D = 2 * r - D)
        by (symmetry; apply (Z.mod_unique _ _ 1 (2 * r - D)); lia).
      rewrite Q, Rm. destruct (Z.eqb_spec (2 * r - D) 0); [lia|reflexivity].
  - assert (OD : D <> 2 * r).
    { intros C. rewrite C, Z.even_mul in EV. discriminate EV. }
    destruct (Z.compare_spec (2 * r + 1) D) as [C|C|C]; cbn [shr_record_of_loc].
    + rewrite Z.div_small, Z.mod_small by lia.
      destruct (Z.eqb_spec (2 * r) 0); [lia|reflexivity].
    + rewrite Z.div_small, Z.mod_small by lia.
      destruct (Z.eqb_spec (2 * r) 0); [lia|reflexivity].
    + assert (Q : 2 * r / D = 1) by (symmetry; apply (Z.div_unique _ _ 1 (2 * r - D)); lia).
      assert (Rm : (2 * r) mod D = 2 * r - D)
        by (symmetry; apply (Z.mod_unique _ _ 1 (2 * r - D)); lia).
      rewrite Q, Rm. destruct (Z.eqb_spec (2 * r - D) 0); [lia|reflexivity].
Qed.

Lemma shr_quot_step M D k :
  0 <= M -> 0 < D -> 0 <= k -> shr_1 (shr_quot M D k) = shr_quot M D (k + 1).
Proof.
  intros HM HD Hk. unfold shr_quot.
  assert (HP : 0 < 2 ^ k) by (apply pow2_pos; lia).
  rewrite Z.pow_add_r, Z.pow_1_r by lia.
  set (P := D * 2 ^ k). assert (HPp : 0 < P) by (unfold P; nia).
  replace (D * (2 ^ k * 2)) with (P * 2) by (unfold P; ring).
  clearbody P.
  rewrite shr_1_spec by (apply Z.div_pos; lia).
  rewrite Z.div_div by lia. f_equal.
  - rewrite (Z.mul_comm P 2), Z.div_mul_cancel_l by lia. reflexivity.
  - rewrite (Z.rem_mul_r (2 * M) P 2) by lia.
    pose proof (Z.mod_pos_bound (2 * M) P HPp) as Hlo.
    pose proof (Z.mod_pos_bound (2 * M / P) 2 ltac:(lia)) as Hb.
    rewrite Zodd_mod.
    set (lo := (2 * M) mod P) in *. set (b := (2 * M / P) mod 2) in *. clearbody lo b.
    destruct (Z.eqb_spec b 1) as [E|E]; destruct (Z.eqb_spec lo 0) as [E'|E'];
      cbn [orb negb]; symmetry.
    + apply negb_true_iff, Z.eqb_neq. nia.
    + apply negb_true_iff, Z.eqb_neq. nia.
    + apply negb_false_iff, Z.eqb_eq. assert (b = 0) by lia. nia.
    + apply negb_true_iff, Z.eqb_neq. assert (b = 0) by lia. nia.
Qed.

Lemma shr_quot_iter M D n :
  0 <= M -> 0 < D ->
  Nat.iter n shr_1 (shr_quot M D 0) = shr_quot M D (Z.of_nat n).
Proof.
  intros HM HD. induction n as [|n IH]; [reflexivity|].
  rewrite Nat.iter_succ, IH, shr_quot_step by lia. f_equal. lia.
Qed.

Lemma shr_quot_round M D k :
  0 <= M -> 0 < D -> 0 <= k ->
  round_nearest_even (shr_m (shr_quot M D k)) (loc_of_shr_record (shr_quot M D k))
  = rnd_div M (D * 2 ^ k).
Proof.
  intros HM HD Hk. unfold shr_quot, rnd_div. cbn [shr_m].
  assert (HP : 0 < 2 ^ k) by (apply pow2_pos; lia).
  set (P := D * 2 ^ k). assert (HPp : 0 < P) by (unfold P; nia). clearbody P.
  pose proof (Z.mod_pos_bound M P HPp) as Hr.
  pose proof (Z.div_mod M P ltac:(lia)) as HE.
  set (q := M / P) in *. set (r := M mod P) in *. clearbody q r.
  assert (E2 : 2 * M = 2 * r + (2 * q) * P) by lia.
  rewrite E2, Z.div_add, Z.mod_add by lia.
  rewrite Z.odd_add_mul_2.
  destruct (Z.compare_spec (2 * r) P) as [C|C|C].
  - rewrite C, Z.div_same, Z.mod_same by lia. reflexivity.
  - rewrite Z.div_small, Z.mod_small by lia.
    destruct (Z.eqb_spec (2 * r) 0); reflexivity.
  - assert (Q : 2 * r / P = 1) by (symmetry; apply (Z.div_unique _ _ 1 (2 * r - P)); lia).
    assert (Rm : (2 * r) mod P = 2 * r - P)
      by (symmetry; apply (Z.mod_unique _ _ 1 (2 * r - P)); lia).
    rewrite Q, Rm. destruct (Z.eqb_spec (2 * r - P) 0); [lia|reflexivity].
Qed.

Lemma shr_fexp_quot M D e :
  0 <= M -> 0 < D -> e <= fexp64 (Zdigits2 (M / D) + e) ->
  let '(mrs, e') := shr_fexp prec emax (M / D) e (new_location D (M mod D)) in
  round_nearest_even (shr_m mrs) (loc_of_shr_record mrs)
    = rnd_div M (D * 2 ^ (fexp64 (Zdigits2 (M / D) + e) - e))
  /\ e' = fexp64 (Zdigits2 (M / D) + e).
Proof.
  intros HM HD He. unfold shr_fexp. rewrite fexp_64, shr_quot_start by assumption.
  set (E := fexp64 (Zdigits2 (M / D) + e)) in *.
  destruct (E - e) as [|p|p] eqn:En; try lia.
  - cbn [shr]. rewrite shr_quot_round by lia. split; [reflexivity|lia].
  - cbn [shr]. rewrite iter_pos_nat, shr_quot_iter, positive_nat_Z by assumption.
    rewrite shr_quot_round by lia. split; [reflexivity|lia].
Qed.

Lemma quot_first_bound M D e :
  0 <= M -> 0 < D -> e <= fexp64 (Zdigits2 (M / D) + e) ->
  0 <= rnd_div M (D * 2 ^ (fexp64 (Zdigits2 (M / D) + e) - e)) <= 2 ^ 53.
Proof.
  intros HM HD He. set (E := fexp64 (Zdigits2 (M / D) + e)) in *.
  assert (HP : 0 < 2 ^ (E - e)) by (apply pow2_pos; lia).
  assert (HDP : 0 < D * 2 ^ (E - e)) by nia.
  split; [apply rnd_div_nonneg; lia|].
  rewrite <- (rnd_div_exact (2 ^ 53) (D * 2 ^ (E - e)) HDP).
  apply rnd_div_mono_same; [assumption|].
  assert (Hq : 0 <= M / D) by (apply Z.div_pos; lia).
  assert (Hlt : M / D < 2 ^ (53 + (E - e))).
  { destruct (Z.eq_dec (M / D) 0) as [Z0|NZ].
    - rewrite Z0. apply pow2_pos. lia.
    - pose proof (Zdigits2_spec (M / D) ltac:(lia)) as Hd.
      eapply Z.lt_le_trans; [apply Hd|].
      apply Z.pow_le_mono_r; [lia|]. unfold E, fexp64. lia. }
  rewrite Z.pow_add_r in Hlt by lia.
  pose proof (Z.mod_pos_bound M D HD) as Hr.
  pose proof (Z.div_mod M D ltac:(lia)) as HE.
  set (q := M / D) in *. set (r := M mod D) in *. clearbody q r.
  assert (M < (q + 1) * D) by nia.
  assert (q + 1 <= 2 ^ 53 * 2 ^ (E - e)) by lia.
  nia.
Qed.

Lemma quot_first_normal M D e :
  0 <= M -> 0 < D -> e <= fexp64 (Zdigits2 (M / D) + e) ->
  fexp64 (Zdigits2 (M / D) + e) = Zdigits2 (M / D) + e - 53 ->
  2 ^ 52 <= rnd_div M (D * 2 ^ (fexp64 (Zdigits2 (M / D) + e) - e)).
Proof.
  intros HM HD He HE. set (E := fexp64 (Zdigits2 (M / D) + e)) in *.
  assert (HP : 0 < 2 ^ (E - e)) by (apply pow2_pos; lia).
  assert (HDP : 0 < D * 2 ^ (E - e)) by nia.
  rewrite <- (rnd_div_exact (2 ^ 52) (D * 2 ^ (E - e)) HDP) at 1.
  apply rnd_div_mono_same; [assumption|].
  assert (Hq : 0 < M / D).
  { assert (0 <= M / D) by (apply Z.div_pos; lia).
    destruct (Z.eq_dec (M / D) 0) as [Z0|NZ]; [|lia].
    rewrite Z0 in HE. cbn [Zdigits2] in HE. lia. }
  pose proof (Zdigits2_spec (M / D) Hq) as Hd.
  replace (Zdigits2 (M / D) - 1) with (52 + (E - e)) in Hd by lia.
  rewrite Z.pow_add_r in Hd by lia.
  pose proof (Z.mod_pos_bound M D HD) as Hr.
  pose proof (Z.div_mod M D ltac:(lia)) as HE'.
  set (q := M / D) in *. set (r := M mod D) in *. clearbody q r.
  nia.
Qed.

Lemma binary_round_aux_quot s M D e :
  0 <= M -> 0 < D -> e <= fexp64 (Zdigits2 (M / D) + e) ->
  binary_round_aux prec emax s (M / D) e (new_location D (M mod D))
  = of_pair s (rnd_quot M D e).
Proof.
  intros HM HD He. unfold binary_round_aux.
  pose proof (shr_fexp_quot M D e HM HD He) as H1.
  pose proof (quot_first_bound M D e HM HD He) as Hb.
  destruct (shr_fexp prec emax (M / D) e (new_location D (M mod D))) as [mrs' e'].
  destruct H1 as [H1 H2]. rewrite H1, H2. unfold rnd_quot.
  set (E := fexp64 (Zdigits2 (M / D) + e)) in *.
  set (m1 := rnd_div M (D * 2 ^ (E - e))) in *.
  assert (HE : -1074 <= E) by (unfold E, fexp64; lia).
  destruct (Z.eqb_spec m1 (2 ^ 53)) as [Hc|Hc].
  - rewrite Hc. unfold shr_fexp. rewrite fexp_64.
    change (Zdigits2 (2 ^ 53)) with 54.
    replace (fexp64 (54 + E) - E) with 1 by (unfold fexp64; lia).
    cbn. unfold of_pair. cbn [fst snd]. reflexivity.
  - rewrite shr_fexp_id.
    + cbn [shr_m]. unfold of_pair. cbn [fst snd]. reflexivity.
    + destruct (Z.eq_dec m1 0) as [Hz|Hz].
      * rewrite Hz. cbn [Zdigits2]. unfold fexp64. lia.
      * assert (Zdigits2 m1 <= 53) by (apply Zdigits2_le; lia).
        unfold fexp64. lia.
Qed.

(** ** Division is monotone in the dividend *)

Lemma quot_exp_mono b D M1 e1 M2 e2 :
  0 < D -> 0 <= M1 -> 0 <= M2 -> b <= e1 -> b <= e2 ->
  e1 <= fexp64 (Zdigits2 (M1 / D) + e1) ->
  M1 * 2 ^ (e1 - b) <= M2 * 2 ^ (e2 - b) ->
  fexp64 (Zdigits2 (M1 / D) + e1) <= fexp64 (Zdigits2 (M2 / D) + e2).
Proof.
  intros HD H1 H2 Hb1 Hb2 He1 Hv.
  assert (Q1 : 0 <= M1 / D) by (apply Z.div_pos; lia).
  assert (Q2 : 0 <= M2 / D) by (apply Z.div_pos; lia).
  destruct (Z.eq_dec (M1 / D) 0) as [Z1|N1].
  - rewrite Z1 in *. cbn [Zdigits2] in *. unfold fexp64 in *. lia.
  - apply fexp64_mono.
    pose proof (Zdigits2_spec (M1 / D) ltac:(lia)) as Hd1.
    pose proof (Zdigits2_pos (M1 / D) ltac:(lia)) as Hp1.
    assert (Hd2 : M2 / D < 2 ^ Zdigits2 (M2 / D) /\ 0 <= Zdigits2 (M2 / D)).
    { destruct (Z.eq_dec (M2 / D) 0) as [Z2|N2].
      - rewrite Z2. cbn [Zdigits2]. split; [reflexivity|lia].
      - pose proof (Zdigits2_spec (M2 / D) ltac:(lia)).
        pose proof (Zdigits2_pos (M2 / D) ltac:(lia)). lia. }
    destruct Hd2 as [Hd2 Hp2].
    set (d1 := Zdigits2 (M1 / D)) in *. set (d2 := Zdigits2 (M2 / D)) in *.
    pose proof (Z.mod_pos_bound M1 D HD) as Hr1.
    pose proof (Z.div_mod M1 D ltac:(lia)) as HE1.
    pose proof (Z.mod_pos_bound M2 D HD) as Hr2.
    pose proof (Z.div_mod M2 D ltac:(lia)) as HE2.
    set (q1 := M1 / D) in *. set (r1 := M1 mod D) in *.
    set (q2 := M2 / D) in *. set (r2 := M2 mod D) in *.
    clearbody q1 r1 q2 r2 d1 d2.
    assert (P1 : 0 < 2 ^ (e1 - b)) by (apply pow2_pos; lia).
    assert (P2 : 0 < 2 ^ (e2 - b)) by (apply pow2_pos; lia).
    assert (A : 2 ^ (d1 - 1 + (e1 - b)) * D <= M1 * 2 ^ (e1 - b)).
    { rewrite Z.pow_add_r by lia.
      assert (T : 2 ^ (d1 - 1) * D <= M1) by nia.
      apply (Z.mul_le_mono_nonneg_r _ _ (2 ^ (e1 - b))) in T; [|lia].
      rewrite <- T. apply Z.eq_le_incl. ring. }
    assert (B : M2 * 2 ^ (e2 - b) < 2 ^ (d2 + (e2 - b)) * D).
    { rewrite Z.pow_add_r by lia.
      assert (T : M2 < 2 ^ d2 * D) by nia.
      apply (Z.mul_lt_mono_pos_r (2 ^ (e2 - b))) in T; [|lia].
      eapply Z.lt_le_trans; [exact T|]. apply Z.eq_le_incl. ring. }
    assert (C : 2 ^ (d1 - 1 + (e1 - b)) < 2 ^ (d2 + (e2 - b))).
    { apply (Z.mul_lt_mono_pos_r D); lia. }
    apply pow2_lt_inv in C; lia.
Qed.

Lemma rnd_quot_mono b D M1 e1 M2 e2 :
  0 < D -> 0 <= M1 -> 0 <= M2 -> b <= e1 -> b <= e2 ->
  e1 <= fexp64 (Zdigits2 (M1 / D) + e1) -> e2 <= fexp64 (Zdigits2 (M2 / D) + e2) ->
  M1 * 2 ^ (e1 - b) <= M2 * 2 ^ (e2 - b) ->
  pair_le (rnd_quot M1 D e1) (rnd_quot M2 D e2).
Proof.
  intros HD H1 H2 Hb1 Hb2 He1 He2 Hv.
  pose proof (quot_exp_mono b D M1 e1 M2 e2 HD H1 H2 Hb1 Hb2 He1 Hv) as HE.
  pose proof (quot_first_bound M1 D e1 H1 HD He1) as B1.
  pose proof (quot_first_bound M2 D e2 H2 HD He2) as B2.
  pose proof (quot_first_normal M2 D e2 H2 HD He2) as N2.
  unfold rnd_quot, pair_le.
  set (E1 := fexp64 (Zdigits2 (M1 / D) + e1)) in *.
  set (E2 := fexp64 (Zdigits2 (M2 / D) + e2)) in *.
  set (a1 := rnd_div M1 (D * 2 ^ (E1 - e1))) in *.
  set (a2 := rnd_div M2 (D * 2 ^ (E2 - e2))) in *.
  assert (P52 : 0 < 2 ^ 52) by reflexivity.
  assert (P53 : 2 ^ 52 < 2 ^ 53) by reflexivity.
  destruct (Z.eq_dec E1 E2) as [Heq|Hne].
  - assert (Ha : a1 <= a2).
    { unfold a1, a2.
      assert (0 < 2 ^ (E1 - e1)) by (apply pow2_pos; lia).
      assert (0 < 2 ^ (E2 - e2)) by (apply pow2_pos; lia).
      apply rnd_div_mono; try nia.
      rewrite <- Heq.
      pose proof (cross_scale b E1 M1 e1 M2 e2 Hb1 Hb2 ltac:(lia) ltac:(lia) Hv).
      nia. }
    destruct (Z.eqb_spec a1 (2 ^ 53)); destruct (Z.eqb_spec a2 (2 ^ 53)); cbn [fst snd]; lia.
  - assert (Hn : E2 = Zdigits2 (M2 / D) + e2 - 53).
    { assert (-1074 <= E1) by (unfold E1, fexp64; lia). unfold E2, fexp64 in *. lia. }
    specialize (N2 Hn).
    destruct (Z.eqb_spec a1 (2 ^ 53)); destruct (Z.eqb_spec a2 (2 ^ 53)); cbn [fst snd]; lia.
Qed.

Lemma rnd_quot_nonneg M D e :
  0 <= M -> 0 < D -> e <= fexp64 (Zdigits2 (M / D) + e) -> 0 <= fst (rnd_quot M D e).
Proof.
  intros HM HD He. pose proof (quot_first_bound M D e HM HD He). unfold rnd_quot.
  destruct (_ =? _); cbn [fst]; [reflexivity || lia | lia].
Qed.

(** ** What [SFdiv] computes on finite values *)

Lemma div_exp_le m1 e1 m2 e2 : div_exp m1 e1 m2 e2 <= e1 - e2.
Proof. unfold div_exp. lia. Qed.

Lemma SFdiv_core_spec m1 e1 m2 e2 :
  0 < m1 -> 0 < m2 ->
  SFdiv_core_binary prec emax m1 e1 m2 e2
  = (div_num m1 e1 m2 e2 / m2, div_exp m1 e1 m2 e2,
     new_location m2 (div_num m1 e1 m2 e2 mod m2)).
Proof.
  intros H1 H2. unfold SFdiv_core_binary. rewrite fexp_64. fold (div_exp m1 e1 m2 e2).
  pose proof (div_exp_le m1 e1 m2 e2) as Hs.
  assert (Em : match e1 - e2 - div_exp m1 e1 m2 e2 with
               | Z.pos _ => Z.shiftl m1 (e1 - e2 - div_exp m1 e1 m2 e2)
               | 0 => m1
               | Z.neg _ => 0
               end = div_num m1 e1 m2 e2).
  { unfold div_num. destruct (e1 - e2 - div_exp m1 e1 m2 e2) as [|p|p] eqn:Es; try lia.
    rewrite Z.shiftl_mul_pow2 by lia. reflexivity. }
  rewrite Em. unfold Z.div, Z.modulo.
  destruct (Z.div_eucl (div_num m1 e1 m2 e2) m2) as [q r]. reflexivity.
Qed.

Lemma div_num_nonneg m1 e1 m2 e2 : 0 < m1 -> 0 <= div_num m1 e1 m2 e2.
Proof.
  intros H. unfold div_num. pose proof (div_exp_le m1 e1 m2 e2).
  assert (0 < 2 ^ (e1 - e2 - div_exp m1 e1 m2 e2)) by (apply pow2_pos; lia). nia.
Qed.

Lemma div_pre m1 e1 m2 e2 :
  0 < m1 -> 0 < m2 ->
  div_exp m1 e1 m2 e2
  <= fexp64 (Zdigits2 (div_num m1 e1 m2 e2 / m2) + div_exp m1 e1 m2 e2).
Proof.
  intros H1 H2.
  pose proof (div_exp_le m1 e1 m2 e2) as Hs.
  pose proof (div_num_nonneg m1 e1 m2 e2 H1) as HM.
  set (e' := div_exp m1 e1 m2 e2) in *.
  set (g := Zdigits2 m1 + e1 - (Zdigits2 m2 + e2)).
  assert (He' : e' <= fexp64 g) by (unfold e', div_exp, g; lia).
  eapply Z.le_trans; [exact He'|]. apply fexp64_mono.
  assert (Q : 0 <= div_num m1 e1 m2 e2 / m2) by (apply Z.div_pos; lia).
  pose proof (Zdigits2_spec m1 H1) as D1. pose proof (Zdigits2_spec m2 H2) as D2.
  pose proof (Zdigits2_pos m1 H1) as P1. pose proof (Zdigits2_pos m2 H2) as P2.
  set (s := e1 - e2 - e') in *.
  destruct (Z_le_gt_dec (Zdigits2 m1 + s) (Zdigits2 m2)) as [Sm|Lg].
  - assert (0 <= Zdigits2 (div_num m1 e1 m2 e2 / m2)).
    { destruct (Z.eq_dec (div_num m1 e1 m2 e2 / m2) 0) as [->|N]; [cbn; lia|].
      pose proof (Zdigits2_pos (div_num m1 e1 m2 e2 / m2) ltac:(lia)). lia. }
    unfold g. lia.
  - assert (K : Zdigits2 m1 + s - Zdigits2 m2 - 1 < Zdigits2 (div_num m1 e1 m2 e2 / m2)).
    { apply Zdigits2_ge; [|lia].
      apply Z.div_le_lower_bound; [lia|].
      unfold div_num. fold e'. fold s.
      assert (0 < 2 ^ s) by (apply pow2_pos; lia).
      assert (A : m2 * 2 ^ (Zdigits2 m1 + s - Zdigits2 m2 - 1)
                  < 2 ^ Zdigits2 m2 * 2 ^ (Zdigits2 m1 + s - Zdigits2 m2 - 1)).
      { apply Z.mul_lt_mono_pos_r; [apply pow2_pos; lia|lia]. }
      rewrite <- Z.pow_add_r in A by lia.
      replace (Zdigits2 m2 + (Zdigits2 m1 + s - Zdigits2 m2 - 1))
        with (Zdigits2 m1 - 1 + s) in A by lia.
      rewrite Z.pow_add_r in A by lia. nia. }
    unfold g. lia.
Qed.

Lemma SFdiv_finite sx mx ex sy my ey :
  SFdiv prec emax (S754_finite sx mx ex) (S754_finite sy my ey)
  = of_pair (xorb sx sy)
      (rnd_quot (div_num (Z.pos mx) ex (Z.pos my) ey) (Z.pos my)
         (div_exp (Z.pos mx) ex (Z.pos my) ey)).
Proof.
  cbn [SFdiv]. rewrite SFdiv_core_spec by lia.
  apply binary_round_aux_quot; [apply div_num_nonneg; lia|lia|apply div_pre; lia].
Qed.

(** division by a positive finite constant is monotone on the
    non-negative values *)
Lemma SFdiv_mono x y mc ec :
  valid_binary x = true -> valid_binary y = true ->
  SFnonneg x = true -> SFleb x y = true ->
  SFleb (SFdiv prec emax x (S754_finite false mc ec))
        (SFdiv prec emax y (S754_finite false mc ec)) = true.
Proof.
  intros Vx Vy Nx Hxy.
  destruct x as [sx|[|]| |[|] mx ex]; try discriminate;
    destruct y as [sy|[|]| |[|] my ey]; try discriminate.
  - reflexivity.
  - reflexivity.
  - apply SFleb_zero_nonneg, SFdiv_nonneg. reflexivity.
  - reflexivity.
  - apply SFleb_nonneg_inf, SFdiv_nonneg. reflexivity.
  - rewrite !SFdiv_finite. cbn [xorb].
    pose proof (div_exp_le (Z.pos mx) ex (Z.pos mc) ec) as Lx.
    pose proof (div_exp_le (Z.pos my) ey (Z.pos mc) ec) as Ly.
    apply SFleb_of_pair.
    + apply (rnd_quot_mono
               (Z.min (Z.min ex ey - ec)
                  (Z.min (div_exp (Z.pos mx) ex (Z.pos mc) ec)
                     (div_exp (Z.pos my) ey (Z.pos mc) ec))));
        try lia; try (apply div_num_nonneg; lia); try (apply div_pre; lia).
      pose proof (finite_le_val mx ex my ey Vx Vy Hxy) as Hv.
      set (b := Z.min (Z.min ex ey - ec)
                  (Z.min (div_exp (Z.pos mx) ex (Z.pos mc) ec)
                     (div_exp (Z.pos my) ey (Z.pos mc) ec))).
      unfold div_num. rewrite <- !Z.mul_assoc, <- !Z.pow_add_r by lia.
      replace (ex - ec - div_exp (Z.pos mx) ex (Z.pos mc) ec
               + (div_exp (Z.pos mx) ex (Z.pos mc) ec - b))
        with ((ex - Z.min ex ey) + (Z.min ex ey - ec - b)) by lia.
      replace (ey - ec - div_exp (Z.pos my) ey (Z.pos mc) ec
               + (div_exp (Z.pos my) ey (Z.pos mc) ec - b))
        with ((ey - Z.min ex ey) + (Z.min ex ey - ec - b)) by lia.
      rewrite !Z.pow_add_r, !Z.mul_assoc by lia.
      apply Z.mul_le_mono_nonneg_r; [apply Z.lt_le_incl, pow2_pos; lia|exact Hv].
    + apply rnd_quot_nonneg; [apply div_num_nonneg; lia|lia|apply div_pre; lia].
Qed.

End Binary64Division.

Lemma div_mono_l x y c :
  (0 <=? x) = true -> (x <=? y) = true -> (0 <? c) = true -> (c <? infinity) = true ->
  (x / c <=? y / c) = true.
Proof.
  intros H0 Hxy Hc Hf.
  destruct (pos_finite c Hc Hf) as (mc & ec & Ec).
  rewrite leb_spec, !div_spec, Ec.
  apply SFdiv_mono; try apply Prim2SF_valid.
  - apply leb0_nonneg. exact H0.
  - rewrite <- leb_spec. exact Hxy.
Qed.


(** ** The approved amount *)

Section WholeThousands.
Local Open Scope Z_scope.

(** The product of two integers is exact as long as it is at most [2^53]. *)
Lemma SFmul_int j k :
  0 < j -> 0 < k -> j * k <= 2 ^ 53 ->
  SFmul prec emax (SFint j) (SFint k) = SFint (j * k).
Proof.
  intros Hj Hk Hjk.
  assert (Bj : j <= 2 ^ 53) by nia. assert (Bk : k <= 2 ^ 53) by nia.
  destruct (SFint_repr j ltac:(lia)) as (mj & ej & Ej & Vj & Rj & Xj).
  destruct (SFint_repr k ltac:(lia)) as (mk & ek & Ek & Vk & Rk & Xk).
  rewrite Ej, Ek, SFmul_finite by assumption. cbn [xorb].
  pose proof (mul_pre mj ej mk ek Vj Vk) as Pre.
  assert (A : align (Z.pos mj * Z.pos mk) (ej + ek) = (Z.pos mj * Z.pos mk, ej + ek)).
  { unfold align. rewrite Z.min_l by exact Pre.
    rewrite Z.sub_diag, Z.pow_0_r, Z.mul_1_r. reflexivity. }
  change (Z.pos mj * Z.pos mk) with (Z.pos (mj * mk)) in *.
  pose proof (binary_round_spec false (mj * mk) (ej + ek)) as S.
  rewrite A in S. cbn [fst snd] in S. rewrite <- S.
  rewrite (SFint_pos (j * k)) by nia.
  apply (binary_round_value (-104)); try lia.
  rewrite Z2Pos.id by nia. rewrite Pos2Z.inj_mul.
  replace (ej + ek - -104) with ((ej + 52) + (ek + 52)) by lia.
  rewrite Z.pow_add_r by lia. change (2 ^ (0 - -104)) with (2 ^ 52 * 2 ^ 52).
  transitivity ((Z.pos mj * 2 ^ (ej + 52)) * (Z.pos mk * 2 ^ (ek + 52))); [ring|].
  rewrite Xj, Xk. ring.
Qed.

End WholeThousands.

Lemma leb_refl_nonneg x : (0 <=? x) = true -> (x <=? x) = true.
Proof.
  rewrite !leb_spec. change (Prim2SF 0) with (S754_zero false).
  unfold SFleb, SFcompare.
  destruct (Prim2SF x) as [s|[|]| |[|] m e]; try discriminate; try reflexivity.
  rewrite Z.compare_refl. change (Pos.compare_cont Eq m m) with (Pos.compare m m).
  rewrite Pos.compare_refl. reflexivity.
Qed.

(** The amount before it is rounded to thousands never falls when the base
    or the multiplier grows. *)
Lemma scaled_base_mono b1 b2 c1 c2 :
  (0 <=? b1) = true -> (b1 <=? b2) = true ->
  (0 <? c1) = true -> (c1 <=? c2) = true -> (c2 <? infinity) = true ->
  (0 <=? (b1 * c1) / 1000) = true /\
  ((b1 * c1) / 1000 <=? (b2 * c2) / 1000) = true.
Proof.
  intros H0 Hb Hc1 Hc Hc2.
  assert (Fc1 : (c1 <? infinity) = true) by (apply (leb_ltb_trans _ c2); assumption).
  assert (N1 : (0 <=? b1 * c1) = true) by (apply mul_nonneg; assumption).
  split; [apply div_nonneg; try reflexivity; exact N1|].
  apply div_mono_l; try reflexivity; [exact N1|].
  apply (leb_trans _ (b1 * c2)).
  - apply mul_mono_const; assumption.
  - apply mul_mono_r; try assumption. apply (ltb_leb_trans _ c1); assumption.
Qed.

Lemma approved_mono b1 b2 c1 c2 :
  (0 <=? b1) = true -> (b1 <=? b2) = true ->
  (0 <? c1) = true -> (c1 <=? c2) = true -> (c2 <? infinity) = true ->
  (0 <=? JS.Math_round ((b1 * c1) / 1000) * 1000) = true /\
  (JS.Math_round ((b1 * c1) / 1000) * 1000
   <=? JS.Math_round ((b2 * c2) / 1000) * 1000) = true.
Proof.
  intros H0 Hb Hc1 Hc Hc2.
  destruct (scaled_base_mono b1 b2 c1 c2 H0 Hb Hc1 Hc Hc2) as [N L].
  assert (NR : (0 <=? JS.Math_round ((b1 * c1) / 1000)) = true)
    by (apply Math_round_nonneg; exact N).
  split.
  - apply mul_nonneg; [exact NR|reflexivity..].
  - apply mul_mono_r; [exact NR| |reflexivity..].
    apply Math_round_mono; assumption.
Qed.

Lemma tierMultiplier_range hasSocial hasFiscal :
  (0 <? tierMultiplier hasSocial hasFiscal) = true /\
  (tierMultiplier hasSocial hasFiscal <=? 2.0) = true /\
  (tierMultiplier hasSocial hasFiscal <? infinity) = true.
Proof. destruct hasSocial, hasFiscal; repeat split. Qed.

(** X4.  For a base between 0 and 4,500,000,000,000,000 the approved amount
    of [computeCreditOffer] is a whole number of thousands between 0 and
    9,000,000,000,000,000: it is the binary64 value of [1000 * k] for an
    integer [k] between 0 and 9,000,000,000,000, so that no rounding error
    is left in it. *)
Theorem approved_amount_is_whole_thousands Math_pow baseRevenue bureauScore
    dataSourceCount hasSocial hasFiscal :
  let o := computeCreditOffer Math_pow baseRevenue bureauScore dataSourceCount
             hasSocial hasFiscal in
  (0 <=? baseRevenue) = true ->
  (baseRevenue <=? 4500000000000000) = true ->
  (0 <=? CreditOffer.approved_amount o) = true /\
  (CreditOffer.approved_amount o <=? 9000000000000000) = true /\
  exists k : Z,
    (0 <= k <= 9000000000000)%Z /\
    SFeqb (Prim2SF (CreditOffer.approved_amount o)) (SFint (1000 * k)) = true.
Proof.
  intros o Hb Hmax.
  destruct (tierMultiplier_range hasSocial hasFiscal) as (M1 & M2 & M3).
  assert (Ea : CreditOffer.approved_amount o
               = JS.Math_round ((baseRevenue * tierMultiplier hasSocial hasFiscal) / 1000)
                 * 1000) by reflexivity.
  rewrite Ea. clear Ea o.
  set (thousands :=
         JS.Math_round ((baseRevenue * tierMultiplier hasSocial hasFiscal) / 1000)).
  destruct (scaled_base_mono baseRevenue 4500000000000000
              (tierMultiplier hasSocial hasFiscal) 2.0 Hb Hmax M1 M2 eq_refl)
    as [Hq Hq'].
  assert (Hr : (0 <=? thousands) = true) by (apply Math_round_nonneg; exact Hq).
  assert (Ht : (thousands <=? 9000000000000) = true).
  { change 9000000000000 with (JS.Math_round ((4500000000000000 * 2.0) / 1000)).
    apply Math_round_mono; assumption. }
  pose proof (Math_round_spec ((baseRevenue * tierMultiplier hasSocial hasFiscal) / 1000))
    as Em. fold thousands in Em.
  set (y := Prim2SF ((baseRevenue * tierMultiplier hasSocial hasFiscal) / 1000)) in *.
  assert (Vy : valid_binary y = true) by apply Prim2SF_valid.
  assert (N : SFnonneg (SFround y) = true)
    by (rewrite <- Em; apply leb0_nonneg; exact Hr).
  assert (L0 : SFleb (SFround y) (SFint 9000000000000) = true).
  { rewrite leb_spec, Em in Ht. exact Ht. }
  assert (L : SFleb (SFround y) (SFint (2 ^ 53)) = true).
  { apply (SFleb_trans _ (SFint 9000000000000)); try assumption; try reflexivity. }
  assert (U : (thousands * 1000 <=? 9000000000000000) = true).
  { change 9000000000000000 with (9000000000000 * 1000).
    apply mul_mono_r; [exact Hr|exact Ht|reflexivity..]. }
  split; [apply mul_nonneg; [exact Hr|reflexivity..]|]. split; [exact U|].
  destruct (SFround_form y Vy N L) as [Ez|(k & Hk & Ek)].
  - assert (T : thousands = (-0)%float)
      by (apply Prim2SF_inj; rewrite Em, Ez; reflexivity).
    rewrite T. exists 0%Z. split; [lia|reflexivity].
  - assert (Hk' : (k <= 9000000000000)%Z).
    { apply SFleb_int_reflect; try lia. rewrite <- Ek. exact L0. }
    destruct (Z.eq_dec k 0) as [->|Hk0].
    + assert (T : thousands = 0)
        by (apply Prim2SF_inj; rewrite Em, Ek; reflexivity).
      rewrite T. exists 0%Z. split; [lia|reflexivity].
    + assert (P : Prim2SF (thousands * 1000) = SFint (1000 * k)).
      { rewrite mul_spec, Em, Ek. change (Prim2SF 1000) with (SFint 1000).
        rewrite SFmul_int by lia. f_equal. lia. }
      exists k. split; [lia|]. rewrite P. apply SFeqb_refl_int. lia.
Qed.

Lemma approved_amount_is_whole_thousands_witness :
  let o := computeCreditOffer Math_pow_model 50500 None 1 false false in
  CreditOffer.approved_amount o = 61000 /\
  exists k : Z,
    (0 <= k <= 9000000000000)%Z /\
    SFeqb (Prim2SF (CreditOffer.approved_amount o)) (SFint (1000 * k)) = true.
Proof.
  split; [vm_compute; reflexivity|].
  apply (approved_amount_is_whole_thousands Math_pow_model 50500 None 1 false false);
    vm_compute; reflexivity.
Defined.

(** X5.  With the kinds of data fixed, a base that is not negative and not
    lower never gives a lower approved amount, whatever the bureau scores
    and the numbers of sources are. *)
Theorem approved_amount_never_falls_with_the_base Math_pow base1 base2 bureauScore1
    bureauScore2 dataSourceCount1 dataSourceCount2 hasSocial hasFiscal :
  (0 <=? base1) = true -> (base1 <=? base2) = true ->
  (CreditOffer.approved_amount
     (computeCreditOffer Math_pow base1 bureauScore1 dataSourceCount1 hasSocial
        hasFiscal)
   <=? CreditOffer.approved_amount
         (computeCreditOffer Math_pow base2 bureauScore2 dataSourceCount2 hasSocial
            hasFiscal)) = true.
Proof.
  intros H0 Hb.
  destruct (tierMultiplier_range hasSocial hasFiscal) as (M1 & _ & M3).
  apply (approved_mono base1 base2 (tierMultiplier hasSocial hasFiscal)
           (tierMultiplier hasSocial hasFiscal) H0 Hb M1); [|exact M3].
  destruct hasSocial, hasFiscal; reflexivity.
Qed.

Lemma approved_amount_never_falls_with_the_base_witness :
  let amount base :=
    CreditOffer.approved_amount
      (computeCreditOffer Math_pow_model base (Some 650) 3 true false) in
  amount 50000 = 70000 /\ amount 50400 = 71000 /\
  (amount 50000 <=? amount 50400) = true.
Proof.
  split; [vm_compute; reflexivity|]. split; [vm_compute; reflexivity|].
  apply (approved_amount_never_falls_with_the_base Math_pow_model 50000 50400
           (Some 650) (Some 650) 3 3 true false); reflexivity.
Defined.

(** X6.  For a base that is not negative, the approved amount without
    social and fiscal data is not negative and at most the approved amount
    with social data only, which is at most the approved amount with fiscal
    data. *)
Theorem approved_amount_never_falls_with_more_data Math_pow baseRevenue bureauScore
    dataSourceCount hasSocial :
  (0 <=? baseRevenue) = true ->
  let amount social fiscal :=
    CreditOffer.approved_amount
      (computeCreditOffer Math_pow baseRevenue bureauScore dataSourceCount social
         fiscal) in
  (0 <=? amount false false) = true /\
  (amount false false <=? amount true false) = true /\
  (amount true false <=? amount hasSocial true) = true.
Proof.
  intros H0 amount. unfold amount.
  assert (R : (baseRevenue <=? baseRevenue) = true).
  { apply (leb_refl_nonneg baseRevenue H0). }
  split; [|split].
  - apply (approved_mono baseRevenue baseRevenue 1.2 1.2 H0 R); reflexivity.
  - apply (approved_mono baseRevenue baseRevenue 1.2 1.4 H0 R); reflexivity.
  - replace (CreditOffer.approved_amount
               (computeCreditOffer Math_pow baseRevenue bureauScore dataSourceCount
                  hasSocial true))
      with (JS.Math_round ((baseRevenue * 2.0) / 1000) * 1000)
      by (destruct hasSocial; reflexivity).
    apply (approved_mono baseRevenue baseRevenue 1.4 2.0 H0 R); reflexivity.
Qed.

Lemma approved_amount_never_falls_with_more_data_witness :
  let amount social fiscal :=
    CreditOffer.approved_amount
      (computeCreditOffer Math_pow_model 50000 (Some 650) 3 social fiscal) in
  amount false false = 60000 /\ amount true false = 70000 /\
  amount true true = 100000 /\
  (amount false false <=? amount true false) = true /\
  (amount true false <=? amount true true) = true.
Proof.
  split; [vm_compute; reflexivity|]. split; [vm_compute; reflexivity|].
  split; [vm_compute; reflexivity|].
  apply (approved_amount_never_falls_with_more_data Math_pow_model 50000 (Some 650) 3
           true eq_refl).
Defined.


(** ** The offers of a pre-qualification *)

(** A number JavaScript takes for true is below zero or above it. *)
Lemma truthy_not_below_zero a :
  JS.truthy a = true -> (a <? 0) = false -> (0 <=? a) = true.
Proof.
  unfold JS.truthy, is_zero, is_nan. rewrite ltb_spec, leb_spec, !eqb_spec.
  change (Prim2SF zero) with (S754_zero false).
  change (Prim2SF 0) with (S754_zero false).
  destruct (Prim2SF a) as [s|[|]| |[|] m e]; cbn; intros H1 H2;
    try reflexivity; try discriminate.

Qed.

(** X7.  Unless the platform answers with a pre-approved amount below zero,
    the base of a pre-qualification is not negative and its offers are in
    order: 0 <= bureau offer <= social offer <= fiscal offer. *)
Theorem prequalification_offers_are_ordered clients merchantId calls :
  match Clients.getMerchantData clients merchantId with
  | Fulfilled v =>
      match PlatformResult.pre_approved_amount v with
      | Some amount => (amount <? 0) = false
      | None => True
      end
  | _ => True
  end ->
  exists o,
    runPrequalification clients merchantId calls = (inr o, calls ++ [Platform]) /\
    (0 <=? PrequalOffers.base_amount o) = true /\
    (0 <=? PrequalOffers.bureau_offer o) = true /\
    (PrequalOffers.bureau_offer o <=? PrequalOffers.social_offer o) = true /\
    (PrequalOffers.social_offer o <=? PrequalOffers.fiscal_offer o) = true.
Proof.
  intros H.
  destruct (runPrequalification_cases clients merchantId calls)
    as (o & E & Hb & H1 & H2 & H3).
  exists o. split; [exact E|].
  assert (N : (0 <=? PrequalOffers.base_amount o) = true).
  { rewrite Hb. destruct (Clients.getMerchantData clients merchantId) as [v|err|];
      try reflexivity.
    destruct (PlatformResult.pre_approved_amount v) as [amount|]; try reflexivity.
    destruct (JS.truthy amount) eqn:T; [|reflexivity].
    apply truthy_not_below_zero; assumption. }
  split; [exact N|]. rewrite H1, H2, H3.
  pose proof (leb_refl_nonneg _ N) as R.
  split; [|split].
  - apply (approved_mono _ _ 1.2 1.2 N R); reflexivity.
  - apply (approved_mono _ _ 1.2 1.4 N R); reflexivity.
  - apply (approved_mono _ _ 1.4 2.0 N R); reflexivity.
Qed.

Lemma prequalification_offers_are_ordered_witness :
  exists o,
    runPrequalification stubClients "merchant-1" [] = (inr o, [Platform]) /\
    (0 <=? PrequalOffers.base_amount o) = true /\
    (0 <=? PrequalOffers.bureau_offer o) = true /\
    (PrequalOffers.bureau_offer o <=? PrequalOffers.social_offer o) = true /\
    (PrequalOffers.social_offer o <=? PrequalOffers.fiscal_offer o) = true.
Proof.
  apply (prequalification_offers_are_ordered stubClients "merchant-1" []).
  reflexivity.
Defined.


(** ** Sums with a positive constant *)

Section Binary64Sums.

Local Open Scope Z_scope.

Lemma SFadd_finite mc ec mx ex :
  exists m,
    SFadd prec emax (S754_finite false mc ec) (S754_finite false mx ex)
    = binary_round prec emax false m (Z.min ec ex) /\
    Z.pos m = Z.pos mc * 2 ^ (ec - Z.min ec ex) + Z.pos mx * 2 ^ (ex - Z.min ec ex).
Proof.
  cbn [SFadd cond_Zopp].
  pose proof (shl_align_fst mc ec (Z.min ec ex) ltac:(lia)) as Ac.
  pose proof (shl_align_fst mx ex (Z.min ec ex) ltac:(lia)) as Ax.
  set (A := fst (shl_align mc ec (Z.min ec ex))) in *.
  set (B := fst (shl_align mx ex (Z.min ec ex))) in *.
  exists (A + B)%positive. split; [reflexivity|]. rewrite Pos2Z.inj_add. lia.
Qed.

Lemma rescale m e z b : b <= z -> z <= e -> m * 2 ^ (e - z) * 2 ^ (z - b) = m * 2 ^ (e - b).
Proof.
  intros H1 H2. rewrite <- Z.mul_assoc, <- Z.pow_add_r by lia. f_equal. f_equal. lia.
Qed.

(** adding a non-negative value to a positive finite constant is monotone *)
Lemma SFadd_mono mc ec x y :
  valid_binary (S754_finite false mc ec) = true ->
  valid_binary x = true -> valid_binary y = true ->
  SFnonneg x = true -> SFleb x y = true ->
  SFleb (SFadd prec emax (S754_finite false mc ec) x)
        (SFadd prec emax (S754_finite false mc ec) y) = true.
Proof.
  intros Vc Vx Vy Nx Hxy.
  assert (Rc : SFleb (S754_finite false mc ec) (S754_finite false mc ec) = true)
    by (apply SFleb_finite_iff; lia).
  destruct x as [sx|[|]| |[|] mx ex]; try discriminate;
    destruct y as [sy|[|]| |[|] my ey]; try discriminate.
  - exact Rc.
  - reflexivity.
  - destruct (SFadd_finite mc ec my ey) as (m & -> & Em).
    change (SFadd prec emax (S754_finite false mc ec) (S754_zero sx))
      with (S754_finite false mc ec).
    rewrite <- (binary_round_canonical mc ec Vc).
    apply (binary_round_mono (Z.min ec ey)); try lia.
    rewrite Em, Z.sub_diag, Z.pow_0_r, Z.mul_1_r.
    assert (0 < 2 ^ (ey - Z.min ec ey)) by (apply pow2_pos; lia). nia.
  - reflexivity.
  - apply SFleb_nonneg_inf.
    destruct (SFadd_finite mc ec mx ex) as (m & -> & _). apply binary_round_nonneg.
  - destruct (SFadd_finite mc ec mx ex) as (m1 & -> & E1).
    destruct (SFadd_finite mc ec my ey) as (m2 & -> & E2).
    set (b := Z.min ec (Z.min ex ey)).
    apply (binary_round_mono b); try (unfold b; lia).
    rewrite E1, E2, !Z.mul_add_distr_r, !rescale by (unfold b; lia).
    apply Z.add_le_mono_l.
    pose proof (finite_le_val mx ex my ey Vx Vy Hxy) as Hv.
    rewrite <- (rescale (Z.pos mx) ex (Z.min ex ey) b) by (unfold b; lia).
    rewrite <- (rescale (Z.pos my) ey (Z.min ex ey) b) by (unfold b; lia).
    apply Z.mul_le_mono_nonneg_r; [apply Z.lt_le_incl, pow2_pos; unfold b; lia|exact Hv].
Qed.

End Binary64Sums.

Lemma add_mono_r c x y :
  (0 <? c) = true -> (c <? infinity) = true ->
  (0 <=? x) = true -> (x <=? y) = true -> (c + x <=? c + y) = true.
Proof.
  intros Hc Hf H0 Hxy. destruct (pos_finite c Hc Hf) as (mc & ec & Ec).
  rewrite leb_spec, !add_spec, Ec.
  apply SFadd_mono; try apply Prim2SF_valid.
  - rewrite <- Ec. apply Prim2SF_valid.
  - apply leb0_nonneg. exact H0.
  - rewrite <- leb_spec. exact Hxy.
Qed.

(** ** Products of factors that grow *)

Lemma mul_mono_both x y c1 c2 :
  (0 <=? x) = true -> (x <=? y) = true ->
  (0 <? c1) = true -> (c1 <=? c2) = true -> (c2 <? infinity) = true ->
  (0 <=? x * c1) = true /\ (x * c1 <=? y * c2) = true.
Proof.
  intros H0 Hb Hc1 Hc Hc2.
  assert (Fc1 : (c1 <? infinity) = true) by (apply (leb_ltb_trans _ c2); assumption).
  split; [apply mul_nonneg; assumption|].
  apply (leb_trans _ (x * c2)).
  - apply mul_mono_const; assumption.
  - apply mul_mono_r; try assumption. apply (ltb_leb_trans _ c1); assumption.
Qed.

Lemma pos_leb_refl c : (0 <? c) = true -> (c <=? c) = true.
Proof.
  intros H. apply leb_refl_nonneg. rewrite leb_spec. rewrite ltb_spec in H.
  change (Prim2SF 0) with (S754_zero false) in *.
  destruct (Prim2SF c) as [s|[|]| |[|] m e]; try discriminate; reflexivity.
Qed.

Lemma mul_mono_fixed x y c :
  (0 <=? x) = true -> (x <=? y) = true ->
  (0 <? c) = true -> (c <? infinity) = true ->
  (0 <=? x * c) = true /\ (x * c <=? y * c) = true.
Proof.
  intros H0 Hb Hc Hf. apply mul_mono_both; try assumption. apply pos_leb_refl. exact Hc.
Qed.

(** ** The factors of the total *)

Lemma listingsBoost_mono s1 s2 :
  (0 <=? s1) = true -> (s1 <=? s2) = true -> (s2 <=? 100) = true ->
  (0 <? Formula.listingsBoost s1) = true /\
  (Formula.listingsBoost s1 <=? Formula.listingsBoost s2) = true /\
  (Formula.listingsBoost s2 <? infinity) = true.
Proof.
  intros H0 H12 H2. unfold Formula.listingsBoost.
  assert (M : forall a b, (0 <=? a) = true -> (a <=? b) = true ->
                          (0 <=? (a / 100) * 0.20) = true /\
                          (1 + (a / 100) * 0.20 <=? 1 + (b / 100) * 0.20) = true).
  { intros a b Ha Hab.
    assert (D0 : (0 <=? a / 100) = true) by (apply div_nonneg; [exact Ha|reflexivity..]).
    assert (D : (a / 100 <=? b / 100) = true)
      by (apply div_mono_l; [exact Ha|exact Hab|reflexivity..]).
    destruct (mul_mono_fixed (a / 100) (b / 100) 0.20 D0 D eq_refl eq_refl) as [P0 P].
    split; [exact P0|]. apply add_mono_r; [reflexivity..|exact P0|exact P]. }
  destruct (M s1 s2 H0 H12) as [N1 L12].
  destruct (M s2 100 (leb_trans _ _ _ H0 H12) H2) as [N2 L2].
  split; [apply add_pos; [reflexivity..|exact N1]|]. split; [exact L12|].
  apply (leb_ltb_trans _ (1 + (100 / 100) * 0.20)); [exact L2|reflexivity].
Qed.

Lemma facebookTier_mono a b :
  fewerFollowers a b = true ->
  (Formula.facebookTier a = 0 \/ Formula.facebookTier a = 0.02 \/
   Formula.facebookTier a = 0.05 \/ Formula.facebookTier a = 0.08) /\
  (Formula.facebookTier b = 0 \/ Formula.facebookTier b = 0.02 \/
   Formula.facebookTier b = 0.05 \/ Formula.facebookTier b = 0.08) /\
  (Formula.facebookTier a <=? Formula.facebookTier b) = true.
Proof.
  unfold fewerFollowers, Formula.facebookTier.
  destruct a as [x|]; destruct b as [y|]; try discriminate.
  - intros H.
    destruct (x >=? 5000) eqn:X5.
    + rewrite (leb_trans _ _ _ X5 H). repeat split; auto.
    + destruct (x >=? 1000) eqn:X1.
      * rewrite (leb_trans _ _ _ X1 H). destruct (y >=? 5000); repeat split; auto.
      * destruct (y >=? 5000); [|destruct (y >=? 1000)]; repeat split; auto.
  - intros _. destruct (y >=? 5000); [|destruct (y >=? 1000)]; repeat split; auto.
  - intros _. repeat split; auto.
Qed.

Lemma instagramTier_mono a b :
  fewerFollowers a b = true ->
  (Formula.instagramTier a = 0 \/ Formula.instagramTier a = 0.01 \/
   Formula.instagramTier a = 0.04 \/ Formula.instagramTier a = 0.07) /\
  (Formula.instagramTier b = 0 \/ Formula.instagramTier b = 0.01 \/
   Formula.instagramTier b = 0.04 \/ Formula.instagramTier b = 0.07) /\
  (Formula.instagramTier a <=? Formula.instagramTier b) = true.
Proof.
  unfold fewerFollowers, Formula.instagramTier.
  destruct a as [x|]; destruct b as [y|]; try discriminate.
  - intros H.
    destruct (x >=? 5000) eqn:X5.
    + rewrite (leb_trans _ _ _ X5 H). repeat split; auto.
    + destruct (x >=? 1000) eqn:X1.
      * rewrite (leb_trans _ _ _ X1 H). destruct (y >=? 5000); repeat split; auto.
      * destruct (y >=? 5000); [|destruct (y >=? 1000)]; repeat split; auto.
  - intros _. destruct (y >=? 5000); [|destruct (y >=? 1000)]; repeat split; auto.
  - intros _. repeat split; auto.
Qed.

Lemma socialBoost_mono fb1 fb2 ig1 ig2 :
  fewerFollowers fb1 fb2 = true -> fewerFollowers ig1 ig2 = true ->
  (Formula.socialBoost fb1 ig1 <=? Formula.socialBoost fb2 ig2) = true.
Proof.
  intros Hf Hi. unfold Formula.socialBoost.
  destruct (facebookTier_mono fb1 fb2 Hf) as (A1 & A2 & A).
  destruct (instagramTier_mono ig1 ig2 Hi) as (B1 & B2 & B).
  destruct A1 as [E1|[E1|[E1|E1]]]; rewrite E1 in *;
    destruct A2 as [E2|[E2|[E2|E2]]]; rewrite E2 in *; clear E1 E2;
    try discriminate A;
    destruct B1 as [E1|[E1|[E1|E1]]]; rewrite E1 in *;
    destruct B2 as [E2|[E2|[E2|E2]]]; rewrite E2 in *; clear E1 E2;
    try discriminate B; reflexivity.
Qed.

Lemma flags_pos im wa ss :
  ((0 <? Formula.identityBoost im) = true /\
   (Formula.identityBoost im <? infinity) = true) /\
  ((0 <? Formula.messagingBoost wa) = true /\
   (Formula.messagingBoost wa <? infinity) = true) /\
  ((0 <? Formula.simSwapPenalty ss) = true /\
   (Formula.simSwapPenalty ss <? infinity) = true).
Proof.
  unfold Formula.identityBoost, Formula.messagingBoost, Formula.simSwapPenalty.
  destruct im as [[|]|], wa as [[|]|], ss as [[|]|]; repeat split.
Qed.

Lemma bureauMultiplier_mono b1 b2 :
  (b1 <=? b2) = true ->
  (Formula.bureauMultiplier (Some b1) <=? Formula.bureauMultiplier (Some b2)) = true.
Proof.
  intros H. unfold Formula.bureauMultiplier.
  destruct (b1 >? 700) eqn:B7.
  - rewrite (ltb_leb_trans _ _ _ B7 H). reflexivity.
  - destruct (b1 >? 600) eqn:B6.
    + rewrite (ltb_leb_trans _ _ _ B6 H). destruct (b2 >? 700); reflexivity.
    + destruct (b2 >? 700); [|destruct (b2 >? 600)]; reflexivity.
Qed.

Lemma tenureMultiplier_mono t1 t2 :
  (t1 <=? t2) = true ->
  (Formula.tenureMultiplier (Some t1) <=? Formula.tenureMultiplier (Some t2)) = true.
Proof.
  intros H. unfold Formula.tenureMultiplier.
  destruct (t1 >? 24) eqn:T24.
  - rewrite (ltb_leb_trans _ _ _ T24 H). reflexivity.
  - destruct (t2 <? 6) eqn:T6.
    + rewrite (leb_ltb_trans _ _ _ H T6).
      destruct (t2 >? 24); reflexivity.
    + destruct (t1 <? 6); destruct (t2 >? 24); reflexivity.
Qed.

Lemma zero_leb x y : (x =? 0) = true -> (x <=? y) = true -> (0 <=? y) = true.
Proof.
  rewrite eqb_spec, !leb_spec. change (Prim2SF 0) with (S754_zero false).
  destruct (Prim2SF x) as [s|[|]| |[|] m e]; try discriminate;
    destruct (Prim2SF y) as [sy|[|]| |[|] my ey]; try discriminate; try reflexivity;
    destruct s; discriminate.
Qed.

Lemma pos_not_zero x : (0 <? x) = true -> (x =? 0) = false.
Proof.
  rewrite ltb_spec, eqb_spec. change (Prim2SF 0) with (S754_zero false).
  destruct (Prim2SF x) as [s|[|]| |[|] m e]; try discriminate; reflexivity.
Qed.

Lemma total_nonneg base score bureau tenure compliant fb ig im wa ss :
  (0 <=? base) = true -> (0 <=? score) = true ->
  (0 <=? computeTotalRevenue base score bureau tenure compliant fb ig im wa ss) = true.
Proof.
  intros Hb Hs. destruct (base =? 0) eqn:Hz.
  - unfold computeTotalRevenue. rewrite Hz. reflexivity.
  - rewrite computeTotalRevenue_formula by assumption. unfold Formula.total.
    pose proof (digitalFactors_nonneg base score fb ig im wa ss Hb Hz Hs) as HP.
    destruct (bureau_tenure_compliance_pos tenure compliant) as [[T1 T2] [C1 C2]].
    destruct (bureau_pos bureau) as [B1 B2].
    apply Math_round_nonneg.
    apply mul_nonneg; [apply mul_nonneg; [apply mul_nonneg|..]|..]; assumption.
Qed.

(** A total that is not lower never gives a worse status. *)
Lemma resolveStatus_mono total1 total2 threshold :
  (total1 <=? total2) = true ->
  (resolveStatus total1 threshold = APPROVED ->
   resolveStatus total2 threshold = APPROVED) /\
  (resolveStatus total2 threshold = REJECTED ->
   resolveStatus total1 threshold = REJECTED).
Proof.
  intros H. unfold resolveStatus.
  destruct (total1 >=? threshold) eqn:A1.
  - rewrite (leb_trans _ _ _ A1 H). split; [reflexivity|discriminate].
  - destruct (total1 >? 0) eqn:P1.
    + rewrite (ltb_leb_trans _ _ _ P1 H).
      split; [discriminate|]. destruct (total2 >=? threshold); discriminate.
    + split; [discriminate|reflexivity].
Qed.

(** X8.  With the other inputs fixed, the total weighted revenue never falls
    when the monthly sales (not negative), the listings score (between 0
    and 100) and the followers on either network do not fall, a network
    that is not connected counting fewer followers than any connected one;
    and whatever the threshold, the decision status does not get worse: an
    approval stays an approval, and a rejection can only come from a
    rejection. *)
Theorem total_never_falls_with_better_figures sales1 sales2 score1 score2 bureau
    tenure compliant facebook1 facebook2 instagram1 instagram2 identityMatch
    whatsappBusiness simSwap :
  (0 <=? sales1) = true -> (sales1 <=? sales2) = true ->
  (0 <=? score1) = true -> (score1 <=? score2) = true -> (score2 <=? 100) = true ->
  fewerFollowers facebook1 facebook2 = true ->
  fewerFollowers instagram1 instagram2 = true ->
  let total1 :=
    computeTotalRevenue sales1 score1 bureau tenure compliant facebook1 instagram1
      identityMatch whatsappBusiness simSwap in
  let total2 :=
    computeTotalRevenue sales2 score2 bureau tenure compliant facebook2 instagram2
      identityMatch whatsappBusiness simSwap in
  (total1 <=? total2) = true /\
  forall threshold,
    (resolveStatus total1 threshold = APPROVED ->
     resolveStatus total2 threshold = APPROVED) /\
    (resolveStatus total2 threshold = REJECTED ->
     resolveStatus total1 threshold = REJECTED).
Proof.
  intros Hm0 Hm Hs0 Hs Hs2 Hf Hi total1 total2.
  assert (T : (total1 <=? total2) = true);
    [|split; [exact T|intros threshold; apply resolveStatus_mono; exact T]].
  unfold total1, total2. clear total1 total2.
  assert (Hm2 : (0 <=? sales2) = true) by (apply (leb_trans _ sales1); assumption).
  assert (Hs2' : (0 <=? score2) = true) by (apply (leb_trans _ score1); assumption).
  destruct (sales1 =? 0) eqn:Hz.
  - replace (computeTotalRevenue sales1 score1 bureau tenure compliant facebook1
               instagram1 identityMatch whatsappBusiness simSwap) with 0
      by (unfold computeTotalRevenue; rewrite Hz; reflexivity).
    apply total_nonneg; assumption.
  - assert (P1 : (0 <? sales1) = true) by (apply nonzero_pos; assumption).
    assert (Hz2 : (sales2 =? 0) = false)
      by (apply pos_not_zero, (ltb_leb_trans _ sales1); assumption).
    rewrite !computeTotalRevenue_formula by assumption.
    unfold Formula.total, Formula.digitalFactors.
    destruct (listingsBoost_mono score1 score2 Hs0 Hs Hs2) as (L1 & L12 & L2).
    destruct (social_pos facebook1 instagram1) as [S1 _].
    destruct (social_pos facebook2 instagram2) as [_ S2].
    pose proof (socialBoost_mono _ _ _ _ Hf Hi) as S12.
    destruct (flags_pos identityMatch whatsappBusiness simSwap)
      as ([I1 I2] & [W1 W2] & [Q1 Q2]).
    destruct (bureau_pos bureau) as [B1 B2].
    destruct (bureau_tenure_compliance_pos tenure compliant) as [[T1 T2] [C1 C2]].
    destruct (mul_mono_both _ _ _ _ Hm0 Hm L1 L12 L2) as [N1 M1].
    destruct (mul_mono_both _ _ _ _ N1 M1 S1 S12 S2) as [N2 M2].
    destruct (mul_mono_fixed _ _ _ N2 M2 I1 I2) as [N3 M3].
    destruct (mul_mono_fixed _ _ _ N3 M3 W1 W2) as [N4 M4].
    destruct (mul_mono_fixed _ _ _ N4 M4 Q1 Q2) as [N5 M5].
    destruct (mul_mono_fixed _ _ _ N5 M5 B1 B2) as [N6 M6].
    destruct (mul_mono_fixed _ _ _ N6 M6 T1 T2) as [N7 M7].
    destruct (mul_mono_fixed _ _ _ N7 M7 C1 C2) as [N8 M8].
    apply Math_round_mono; assumption.
Qed.

Lemma total_never_falls_with_better_figures_witness :
  computeTotalRevenue 60000 45 (Some 720) (Some 36) true (Some 800) None None None
    None = 77048 /\
  computeTotalRevenue 65000 72 (Some 720) (Some 36) true (Some 1200) (Some 300)
    None None None = 91039 /\
  (computeTotalRevenue 60000 45 (Some 720) (Some 36) true (Some 800) None None None
     None
   <=? computeTotalRevenue 65000 72 (Some 720) (Some 36) true (Some 1200) (Some 300)
         None None None) = true.
Proof.
  split; [vm_compute; reflexivity|]. split; [vm_compute; reflexivity|].
  apply (total_never_falls_with_better_figures 60000 65000 45 72 (Some 720)
           (Some 36) true (Some 800) (Some 1200) None (Some 300) None None None);
    reflexivity.
Defined.

(** X9.  With the other inputs fixed, monthly sales and listings score not
    negative, the total weighted revenue never falls when the bureau score
    and the tenure on the platform, both known, do not fall; and whatever
    the threshold, the decision status does not get worse. *)
Theorem total_never_falls_with_score_and_tenure sales score bureau1 bureau2 tenure1
    tenure2 compliant facebook instagram identityMatch whatsappBusiness simSwap :
  (0 <=? sales) = true -> (0 <=? score) = true ->
  (bureau1 <=? bureau2) = true -> (tenure1 <=? tenure2) = true ->
  let total1 :=
    computeTotalRevenue sales score (Some bureau1) (Some tenure1) compliant facebook
      instagram identityMatch whatsappBusiness simSwap in
  let total2 :=
    computeTotalRevenue sales score (Some bureau2) (Some tenure2) compliant facebook
      instagram identityMatch whatsappBusiness simSwap in
  (total1 <=? total2) = true /\
  forall threshold,
    (resolveStatus total1 threshold = APPROVED ->
     resolveStatus total2 threshold = APPROVED) /\
    (resolveStatus total2 threshold = REJECTED ->
     resolveStatus total1 threshold = REJECTED).
Proof.
  intros Hm Hs Hb Ht total1 total2.
  assert (T : (total1 <=? total2) = true);
    [|split; [exact T|intros threshold; apply resolveStatus_mono; exact T]].
  unfold total1, total2. clear total1 total2.
  destruct (sales =? 0) eqn:Hz.
  - unfold computeTotalRevenue. rewrite Hz. reflexivity.
  - rewrite !computeTotalRevenue_formula by assumption. unfold Formula.total.
    pose proof (digitalFactors_nonneg sales score facebook instagram identityMatch
                  whatsappBusiness simSwap Hm Hz Hs) as HP.
    set (P := Formula.digitalFactors sales score facebook instagram identityMatch
                whatsappBusiness simSwap) in *.
    destruct (bureau_pos (Some bureau1)) as [B1 _].
    destruct (bureau_pos (Some bureau2)) as [_ B2].
    destruct (bureau_tenure_compliance_pos (Some tenure1) compliant) as [[T1 _] [C1 C2]].
    destruct (bureau_tenure_compliance_pos (Some tenure2) compliant) as [[_ T2] _].
    assert (N1 : (0 <=? P * Formula.bureauMultiplier (Some bureau1)) = true)
      by (apply mul_nonneg; [exact HP|exact B1|]; destruct (bureau_pos (Some bureau1));
          assumption).
    assert (M1 : (P * Formula.bureauMultiplier (Some bureau1)
                  <=? P * Formula.bureauMultiplier (Some bureau2)) = true)
      by (apply mul_mono_const; try assumption; apply bureauMultiplier_mono; exact Hb).
    destruct (mul_mono_both _ _ _ _ N1 M1 T1 (tenureMultiplier_mono _ _ Ht) T2)
      as [N2 M2].
    destruct (mul_mono_fixed _ _ _ N2 M2 C1 C2) as [N3 M3].
    apply Math_round_mono; assumption.
Qed.

Lemma total_never_falls_with_score_and_tenure_witness :
  computeTotalRevenue 60000 72 (Some 580) (Some 4) true None None None None None
  = 58687 /\
  computeTotalRevenue 60000 72 (Some 720) (Some 36) true None None None None None
  = 79279 /\
  (computeTotalRevenue 60000 72 (Some 580) (Some 4) true None None None None None
   <=? computeTotalRevenue 60000 72 (Some 720) (Some 36) true None None None None
         None) = true.
Proof.
  split; [vm_compute; reflexivity|]. split; [vm_compute; reflexivity|].
  apply (total_never_falls_with_score_and_tenure 60000 72 580 720 4 36 true None None
           None None None); reflexivity.
Defined.


(** ** The names handed to the phone lookup *)

Lemma rev_string_append (s acc t : string) :
  (JS.rev_string acc s ++ t)%string = JS.rev_string (acc ++ t) s.
Proof.
  revert acc. induction s as [|c s IH]; intros acc; cbn [JS.rev_string];
    [reflexivity|]. rewrite IH. reflexivity.
Qed.

Lemma space_char (c : ascii) : (nat_of_ascii c =? 32)%nat = true -> c = " "%char.
Proof.
  intros H. apply Nat.eqb_eq in H. rewrite <- (ascii_nat_embedding c), H. reflexivity.
Qed.

Lemma includes_space_cons (c : ascii) (s : string) :
  JS.includes (String c s) " " = (nat_of_ascii c =? 32)%nat || JS.includes s " ".
Proof.
  cbn [JS.includes String.prefix].
  destruct (ascii_dec " " c) as [<-|N].
  - destruct s; reflexivity.
  - destruct (nat_of_ascii c =? 32)%nat eqn:E; [|reflexivity].
    exfalso. apply N. symmetry. apply space_char. exact E.
Qed.

Lemma includes_space_rev (s acc : string) :
  JS.includes (JS.rev_string acc s) " " = JS.includes acc " " || JS.includes s " ".
Proof.
  revert acc. induction s as [|c s IH]; intros acc; cbn [JS.rev_string].
  - cbn. rewrite orb_false_r. reflexivity.
  - rewrite IH, !includes_space_cons.
    destruct (nat_of_ascii c =? 32)%nat, (JS.includes acc " "), (JS.includes s " ");
      reflexivity.
Qed.

Lemma includes_space_append (a b : string) :
  JS.includes (a ++ " " ++ b) " " = true.
Proof.
  induction a as [|c a IH].
  - change (("" ++ " " ++ b)%string) with (String " " b).
    rewrite includes_space_cons. reflexivity.
  - change ((String c a ++ " " ++ b)%string) with (String c (a ++ " " ++ b)).
    rewrite includes_space_cons, IH. apply orb_true_r.
Qed.

Lemma split_space_spec (s cur : string) :
  exists first rest,
    JS.split_space cur s = first :: rest /\
    JS.join " " (first :: rest) = (JS.rev_string "" cur ++ s)%string /\
    JS.includes first " " = JS.includes cur " ".
Proof.
  revert cur. induction s as [|c s IH]; intros cur; cbn [JS.split_space].
  - exists (JS.rev_string "" cur), []. split; [reflexivity|]. split.
    + cbn. rewrite append_nil_r. reflexivity.
    + rewrite includes_space_rev. reflexivity.
  - destruct (nat_of_ascii c =? 32)%nat eqn:E.
    + destruct (IH ""%string) as (f & r & E1 & E2 & _).
      exists (JS.rev_string "" cur), (f :: r). rewrite E1. split; [reflexivity|]. split.
      * unfold JS.join in *. cbn [String.concat] in *. rewrite E2.
        rewrite (space_char c E). reflexivity.
      * rewrite includes_space_rev. reflexivity.
    + destruct (IH (String c cur)) as (f & r & E1 & E2 & E3).
      exists f, r. split; [exact E1|]. split.
      * rewrite E2. cbn [JS.rev_string]. rewrite !rev_string_append. reflexivity.
      * rewrite E3, includes_space_cons, E. reflexivity.
Qed.

(** X10.  The names handed to the phone lookup: the first name has no space
    in it; when the trimmed legal name has a space, it is the first name, a
    space and the last name, so that it is split at its first space and
    nothing of it is lost; when it has none, the first name is the whole
    trimmed name and the last name is empty. *)
Theorem legal_name_is_split_at_its_first_space legalName :
  let name := JS.trim legalName in
  let firstName := fst (nameParts legalName) in
  let lastName := snd (nameParts legalName) in
  JS.includes firstName " " = false /\
  (if JS.includes name " "
   then name = (firstName ++ " " ++ lastName)%string
   else firstName = name /\ lastName = ""%string).
Proof.
  cbv zeta. unfold nameParts, JS.split.
  destruct (split_space_spec (JS.trim legalName) ""%string) as (f & r & E1 & E2 & E3).
  rewrite E1. cbn [fst snd]. split; [exact E3|].
  cbn [JS.rev_string append] in E2. rewrite <- E2.
  destruct r as [|x r].
  - cbn. rewrite E3. split; reflexivity.
  - assert (J : JS.join " " (f :: x :: r) = (f ++ " " ++ JS.join " " (x :: r))%string)
      by reflexivity.
    rewrite J, includes_space_append. reflexivity.
Qed.


(** ** The signals score grows with the rating and with the reviews *)

Lemma truthy_above_zero r1 r2 :
  (0 <=? r1) = true -> (r1 <=? r2) = true ->
  JS.truthy r1 = true -> JS.truthy r2 = true.
Proof.
  intros H0 H T. destruct (JS.truthy r2) eqn:T2; [reflexivity|].
  assert (Z2 : (r2 <=? 0) = true).
  { destruct (falsy_cases r2 T2) as [->|[->| ->]]; try reflexivity.
    rewrite leb_spec in H. destruct (Prim2SF r1) as [s|s| |s m e]; try destruct s;
      discriminate H. }
  pose proof (leb_antisym _ _ (leb_trans _ _ _ H Z2) H0) as E.
  unfold JS.truthy, is_zero in T. change zero with 0 in T.
  rewrite E in T. discriminate T.
Qed.

Lemma ratingPoints_mono r1 r2 :
  (0 <=? r1) = true -> (r1 <=? r2) = true ->
  exists k1 k2 : Z,
    Prim2SF (ScoreTable.ratingPoints (Some r1)) = SFint k1 /\
    Prim2SF (ScoreTable.ratingPoints (Some r2)) = SFint k2 /\
    (0 <= k1 <= k2)%Z /\ (k2 <= 25)%Z.
Proof.
  intros H0 H. unfold ScoreTable.ratingPoints.
  pose proof (truthy_above_zero r1 r2 H0 H) as T.
  pose proof (fun t => leb_trans t r1 r2) as Tr.
  destruct (JS.truthy r1).
  - rewrite (T eq_refl).
    destruct (r1 >=? 4.5) eqn:A;
      [rewrite (Tr _ A H); exists 25%Z, 25%Z; repeat split; lia|].
    destruct (r1 >=? 4.0) eqn:B;
      [rewrite (Tr _ B H); destruct (r2 >=? 4.5);
       [exists 20%Z, 25%Z|exists 20%Z, 20%Z]; repeat split; lia|].
    destruct (r1 >=? 3.5) eqn:C;
      [rewrite (Tr _ C H); destruct (r2 >=? 4.5);
       [exists 12%Z, 25%Z
       |destruct (r2 >=? 4.0); [exists 12%Z, 20%Z|exists 12%Z, 12%Z]];
       repeat split; lia|].
    destruct (r2 >=? 4.5);
      [exists 5%Z, 25%Z
      |destruct (r2 >=? 4.0);
       [exists 5%Z, 20%Z
       |destruct (r2 >=? 3.5); [exists 5%Z, 12%Z|exists 5%Z, 5%Z]]];
      repeat split; lia.
  - destruct (JS.truthy r2);
      [destruct (r2 >=? 4.5);
       [exists 0%Z, 25%Z
       |destruct (r2 >=? 4.0);
        [exists 0%Z, 20%Z
        |destruct (r2 >=? 3.5); [exists 0%Z, 12%Z|exists 0%Z, 5%Z]]]
      |exists 0%Z, 0%Z];
      repeat split; lia.
Qed.

Lemma reviewPoints_values n :
  exists k : Z,
    Prim2SF (ScoreTable.reviewPoints (Some n)) = SFint k /\ (0 <= k <= 20)%Z /\
    k = (if JS.truthy n then
           if n >=? 200 then 20%Z else if n >=? 100 then 15%Z
           else if n >=? 50 then 10%Z else if n >=? 10 then 5%Z else 0%Z
         else 0%Z).
Proof.
  unfold ScoreTable.reviewPoints.
  destruct (JS.truthy n);
    [destruct (n >=? 200);
     [exists 20%Z
     |destruct (n >=? 100);
      [exists 15%Z
      |destruct (n >=? 50);
       [exists 10%Z|destruct (n >=? 10); [exists 5%Z|exists 0%Z]]]]
    |exists 0%Z];
    (split; [reflexivity|split; [lia|reflexivity]]).
Qed.

Lemma reviewPoints_mono n1 n2 :
  (n1 <=? n2) = true ->
  exists k1 k2 : Z,
    Prim2SF (ScoreTable.reviewPoints (Some n1)) = SFint k1 /\
    Prim2SF (ScoreTable.reviewPoints (Some n2)) = SFint k2 /\
    (0 <= k1 <= k2)%Z /\ (k2 <= 20)%Z.
Proof.
  intros H.
  destruct (reviewPoints_values n1) as (k1 & E1 & B1 & V1).
  destruct (reviewPoints_values n2) as (k2 & E2 & B2 & V2).
  exists k1, k2. split; [exact E1|]. split; [exact E2|].
  split; [|lia]. split; [lia|]. subst k1 k2.
  pose proof (fun t => leb_trans t n1 n2) as Tr.
  assert (T : forall t, (0 <? t) = true -> (n2 >=? t) = true -> JS.truthy n2 = true).
  { intros t Ht Hn. destruct (JS.truthy n2) eqn:T2; [reflexivity|].
    exfalso. pose proof (ltb_leb_trans _ _ _ Ht Hn) as P.
    destruct (falsy_cases n2 T2) as [E|[E|E]]; rewrite E in P; discriminate P. }
  destruct (JS.truthy n1); [|clear; repeat destruct (_ : bool); lia].
  destruct (n1 >=? 200) eqn:A;
    [rewrite (T 200 eq_refl (Tr _ A H)), (Tr _ A H); lia|].
  destruct (n1 >=? 100) eqn:B;
    [rewrite (T 100 eq_refl (Tr _ B H)), (Tr _ B H); destruct (n2 >=? 200); lia|].
  destruct (n1 >=? 50) eqn:C;
    [rewrite (T 50 eq_refl (Tr _ C H)), (Tr _ C H);
     destruct (n2 >=? 200); [|destruct (n2 >=? 100)]; lia|].
  destruct (n1 >=? 10) eqn:D;
    [rewrite (T 10 eq_refl (Tr _ D H)), (Tr _ D H);
     destruct (n2 >=? 200); [|destruct (n2 >=? 100); [|destruct (n2 >=? 50)]]; lia|].
  clear; repeat destruct (_ : bool); lia.
Qed.

Lemma flag_value (b : bool) (p : float) (k : Z) :
  Prim2SF p = SFint k ->
  Prim2SF (ScoreTable.flag b p) = SFint (if b then k else 0).
Proof. intros H. destruct b; [exact H|reflexivity]. Qed.

Lemma add_value (x y : float) (j k : Z) :
  Prim2SF x = SFint j -> Prim2SF y = SFint k ->
  (0 <= j)%Z -> (0 <= k)%Z -> (j + k <= 2 ^ 53)%Z ->
  Prim2SF (x + y) = SFint (j + k).
Proof. intros Hx Hy Hj Hk Hs. rewrite add_spec, Hx, Hy. apply SFadd_int; assumption. Qed.

(** X11.  For two listings with the same verification, website, status,
    categories and price level, whose ratings and numbers of reviews are
    known, the signals score of the one whose rating and number of reviews
    are not lower is not lower, provided the lower rating is not
    negative. *)
Theorem signals_score_grows_with_rating_and_reviews d1 d2 r1 r2 n1 n2 :
  PlacesResult.rating d1 = Some r1 -> PlacesResult.rating d2 = Some r2 ->
  PlacesResult.total_review_count d1 = Some n1 ->
  PlacesResult.total_review_count d2 = Some n2 ->
  PlacesResult.is_verified d1 = PlacesResult.is_verified d2 ->
  PlacesResult.has_website d1 = PlacesResult.has_website d2 ->
  PlacesResult.business_status d1 = PlacesResult.business_status d2 ->
  PlacesResult.categories d1 = PlacesResult.categories d2 ->
  PlacesResult.price_level_index d1 = PlacesResult.price_level_index d2 ->
  (0 <=? r1) = true -> (r1 <=? r2) = true -> (n1 <=? n2) = true ->
  (computeSignalsScore d1 <=? computeSignalsScore d2) = true.
Proof.
  intros Er1 Er2 En1 En2 Ev Ew Es Ec Ep H0 Hr Hn.
  destruct (score_is_sum d1) as (-> & -> & _). destruct (score_is_sum d2) as (-> & -> & _).
  unfold ScoreTable.sum, hasCommercialType.
  rewrite Er1, Er2, En1, En2, Ev, Ew, Es, Ec, Ep.
  destruct (ratingPoints_mono r1 r2 H0 Hr) as (ka1 & ka2 & A1 & A2 & LA & UA).
  destruct (reviewPoints_mono n1 n2 Hn) as (kb1 & kb2 & B1 & B2 & LB & UB).
  set (f1 := is_true (PlacesResult.is_verified d2)).
  set (f2 := is_true (PlacesResult.has_website d2)).
  set (f3 := is_operational (PlacesResult.business_status d2)).
  set (f4 := match PlacesResult.categories d2 with Some cs => _ | None => false end).
  set (f5 := ScoreTable.priceTierHigh (PlacesResult.price_level_index d2)).
  assert (P10 : Prim2SF 10 = SFint 10) by reflexivity.
  assert (P5 : Prim2SF 5 = SFint 5) by reflexivity.
  assert (P0 : Prim2SF 0 = SFint 0) by reflexivity.
  assert (K : forall b : bool, forall k, (0 <= k)%Z -> (0 <= (if b then k else 0))%Z /\
                                         ((if b then k else 0) <= k)%Z)
    by (intros [|] k; lia).
  pose proof (K f1 10%Z ltac:(lia)). pose proof (K f2 10%Z ltac:(lia)).
  pose proof (K f3 10%Z ltac:(lia)). pose proof (K f4 10%Z ltac:(lia)).
  pose proof (K f5 5%Z ltac:(lia)).
  assert (B53 : (100 <= 2 ^ 53)%Z) by (cbn; lia).
  rewrite leb_spec.
  rewrite (add_value _ _ _ _
             (add_value _ _ _ _
                (add_value _ _ _ _
                   (add_value _ _ _ _
                      (add_value _ _ _ _
                         (add_value _ _ _ _
                            (add_value _ _ _ _ P0 A1 ltac:(lia) ltac:(lia) ltac:(lia))
                            B1 ltac:(lia) ltac:(lia) ltac:(lia))
                         (flag_value f1 _ _ P10) ltac:(lia) ltac:(lia) ltac:(lia))
                      (flag_value f2 _ _ P10) ltac:(lia) ltac:(lia) ltac:(lia))
                   (flag_value f3 _ _ P10) ltac:(lia) ltac:(lia) ltac:(lia))
                (flag_value f4 _ _ P10) ltac:(lia) ltac:(lia) ltac:(lia))
             (flag_value f5 _ _ P5) ltac:(lia) ltac:(lia) ltac:(lia)).
  rewrite (add_value _ _ _ _
             (add_value _ _ _ _
                (add_value _ _ _ _
                   (add_value _ _ _ _
                      (add_value _ _ _ _
                         (add_value _ _ _ _
                            (add_value _ _ _ _ P0 A2 ltac:(lia) ltac:(lia) ltac:(lia))
                            B2 ltac:(lia) ltac:(lia) ltac:(lia))
                         (flag_value f1 _ _ P10) ltac:(lia) ltac:(lia) ltac:(lia))
                      (flag_value f2 _ _ P10) ltac:(lia) ltac:(lia) ltac:(lia))
                   (flag_value f3 _ _ P10) ltac:(lia) ltac:(lia) ltac:(lia))
                (flag_value f4 _ _ P10) ltac:(lia) ltac:(lia) ltac:(lia))
             (flag_value f5 _ _ P5) ltac:(lia) ltac:(lia) ltac:(lia)).
  apply binary_normalize_mono. lia.
Qed.

Lemma signals_score_grows_with_rating_and_reviews_witness :
  let better :=
    {| PlacesResult.connected := true;
       PlacesResult.place_id := None;
       PlacesResult.business_name := None;
       PlacesResult.rating := Some 4.8;
       PlacesResult.total_review_count := Some 350;
       PlacesResult.price_level_index := None;
       PlacesResult.is_verified := None;
       PlacesResult.categories := None;
       PlacesResult.has_website := None;
       PlacesResult.business_status := None;
       PlacesResult.signals_score := None;
       PlacesResult.fetched_at := "t0" |} in
  let worse :=
    {| PlacesResult.connected := true;
       PlacesResult.place_id := None;
       PlacesResult.business_name := None;
       PlacesResult.rating := Some 3.9;
       PlacesResult.total_review_count := Some 60;
       PlacesResult.price_level_index := None;
       PlacesResult.is_verified := None;
       PlacesResult.categories := None;
       PlacesResult.has_website := None;
       PlacesResult.business_status := None;
       PlacesResult.signals_score := None;
       PlacesResult.fetched_at := "t0" |} in
  computeSignalsScore worse = 22 /\ computeSignalsScore better = 45 /\
  (computeSignalsScore worse <=? computeSignalsScore better) = true.
Proof.
  split; [vm_compute; reflexivity|]. split; [vm_compute; reflexivity|].
  eapply signals_score_grows_with_rating_and_reviews; vm_compute; reflexivity.
Defined.


(** ** The application store *)

Lemma Map_get_set_same id doc store : Map_get id (Map_set id doc store) = Some doc.
Proof.
  induction store as [|[key old] rest IH]; cbn.
  - rewrite String.eqb_refl. reflexivity.
  - destruct (String.eqb key id) eqn:E; cbn.
    + rewrite String.eqb_refl. reflexivity.
    + rewrite E. exact IH.
Qed.

Lemma Map_get_set_other id other doc store :
  other <> id -> Map_get other (Map_set id doc store) = Map_get other store.
Proof.
  intros N. induction store as [|[key old] rest IH]; cbn.
  - destruct (String.eqb_spec id other) as [E|_]; [congruence|reflexivity].
  - destruct (String.eqb_spec key id) as [E|E]; cbn.
    + subst key. destruct (String.eqb_spec id other) as [E'|_]; [congruence|reflexivity].
    + destruct (String.eqb key other); [reflexivity|exact IH].
Qed.

(** The keys of the store stay distinct. *)
Lemma Map_set_keys id doc store :
  NoDup (map fst store) -> NoDup (map fst (Map_set id doc store)) /\
  (forall key, In key (map fst (Map_set id doc store)) <->
               key = id \/ In key (map fst store)).
Proof.
  induction store as [|[key old] rest IH]; cbn; intros ND.
  - split; [constructor; [intros []|constructor]|]. intros k. intuition.
  - inversion ND as [|? ? Hn Hr]; subst.
    destruct (IH Hr) as [IH1 IH2].
    destruct (String.eqb_spec key id) as [E|E]; cbn.
    + subst key. split; [exact ND|]. intros k. intuition.
    + split.
      * constructor; [|exact IH1]. rewrite IH2. intros [H|H]; congruence.
      * intros k. rewrite IH2. intuition.
Qed.

(** X12.  An application that [createApplication] has stored is what
    [getApplicationById] returns under its id: it has that id and merchant,
    status UNDERWRITING_PENDING and neither form data, decision nor KYC
    status.  What is stored under every other id is left as it was, and no
    id is stored twice if none was. *)
Theorem created_application_can_be_read id stamp merchantId store :
  let doc := fst (createApplication id stamp merchantId store) in
  let store' := snd (createApplication id stamp merchantId store) in
  getApplicationById id store' = Some doc /\
  Application.id doc = id /\
  Application.merchant_id doc = merchantId /\
  Application.decision_status doc = UNDERWRITING_PENDING /\
  Application.form_data doc = None /\
  Application.decision_payload doc = None /\
  Application.kyc_status doc = None /\
  (forall other, other <> id ->
     getApplicationById other store' = getApplicationById other store) /\
  (NoDup (map fst store) -> NoDup (map fst store')).
Proof.
  cbv zeta. unfold createApplication, getApplicationById. cbn [fst snd].
  rewrite Map_get_set_same. repeat split.
  - intros other N. apply Map_get_set_other. exact N.
  - intros ND. apply Map_set_keys. exact ND.
Qed.

Section Service.

Variable Math_pow : float -> float -> float.
Variable toLocaleString_esMX : float -> string.
Variable Number_toString : float -> string.
Variable env : Env.t.
Variable clients : Clients.t.


(** X14.  With an approval threshold above zero: when the tax source fails
    or times out during [submitApplication], the application is stored with
    status REJECTED, and a later [submitKyc] for it throws the error the
    handler answers with status 400 and leaves the store alone. *)
Theorem no_kyc_after_a_submit_without_tax_data id formData now stamp store resumed
    calls application personal address bank documents now' stamp' :
  getApplicationById id store = Some application ->
  failed (Clients.getRevenueData clients (Application.merchant_id application)) ->
  (0 <? Env.APPROVAL_THRESHOLD env) = true ->
  exists updated calls' err,
    submitApplication Math_pow toLocaleString_esMX Number_toString env clients
      id formData now stamp store resumed calls
    = (inr updated, Map_set id updated resumed, calls') /\
    Application.decision_status updated = REJECTED /\
    submitKyc id personal address bank documents now' stamp'
      (Map_set id updated resumed)
    = (inl err, Map_set id updated resumed) /\
    errorHandler err
    = {| ErrorResponse.status := 400;
         ErrorResponse.error :=
           "KYC can only be submitted for approved applications" |}.
Proof.
  intros Hget Hfail Hthr. unfold getApplicationById in Hget.
  set (doc := Application.submitted application formData).
  destruct (runUnderwriting_returns Math_pow toLocaleString_esMX Number_toString
              env clients now doc calls)
    as (decision & E & Hstatus & _ & Hsyn & _).
  cbv zeta in Hstatus, Hsyn. destruct (Hsyn Hfail) as (H0 & _).
  assert (Hrej : UnderwritingDecision.status decision = REJECTED).
  { rewrite Hstatus, H0. unfold resolveStatus.
    rewrite (ltb_leb_false _ _ Hthr). reflexivity. }
  unfold submitApplication. rewrite Hget. fold doc. rewrite E.
  eexists. eexists. eexists. split; [reflexivity|].
  split; [exact Hrej|].
  unfold submitKyc. rewrite Map_get_set_same.
  cbn [Application.decision_status]. rewrite Hrej. split; reflexivity.
Qed.

(** X15.  A consent that [updateConsent] records while [submitApplication]
    waits for the underwriting of the same application is in the store when
    the underwriting is done, and is then overwritten: what
    [submitApplication] stores has the consent data the application had
    when the submission began. *)
Theorem consent_recorded_during_a_submit_is_lost id formData now stamp store calls
    application consent now' stamp' :
  getApplicationById id store = Some application ->
  let resumed := snd (updateConsent id consent now' stamp' store) in
  (exists recorded,
      getApplicationById id resumed = Some recorded /\
      Application.consent_data recorded
      = Some {| ConsentData.bureau_consent := Consent.bureau_consent consent;
                ConsentData.twilio_consent := Consent.twilio_consent consent;
                ConsentData.data_processing_consent :=
                  Consent.data_processing_consent consent;
                ConsentData.consented_at := now' |}) /\
  exists updated calls',
    submitApplication Math_pow toLocaleString_esMX Number_toString env clients
      id formData now stamp store resumed calls
    = (inr updated, Map_set id updated resumed, calls') /\
    getApplicationById id (Map_set id updated resumed) = Some updated /\
    Application.consent_data updated = Application.consent_data application.
Proof.
  intros Hget resumed. unfold getApplicationById in *. split.
  - unfold resumed, updateConsent. rewrite Hget. cbn [snd].
    rewrite Map_get_set_same. eexists. split; reflexivity.
  - set (doc := Application.submitted application formData).
    destruct (runUnderwriting_returns Math_pow toLocaleString_esMX Number_toString
                env clients now doc calls) as (decision & E & _).
    unfold submitApplication. rewrite Hget. fold doc. rewrite E.
    eexists. eexists. split; [reflexivity|].
    split; [apply Map_get_set_same|reflexivity].
Qed.

End Service.

(** X16.  [submitKyc] takes KYC data for an application whose status is
    APPROVED or MANUAL_REVIEW only: it then stores the application with
    KYC status SUBMITTED and the data given, status and decision payload
    unchanged.  For every other status it throws the error the handler
    answers with status 400, for an id that is not stored the error answered
    with status 404, and in both cases the store is left alone. *)
Theorem kyc_needs_a_favourable_decision id personal address bank documents now
    stamp store :
  match getApplicationById id store with
  | None =>
      exists err,
        submitKyc id personal address bank documents now stamp store
        = (inl err, store) /\
        errorHandler err
        = {| ErrorResponse.status := 404;
             ErrorResponse.error := ("Application " ++ id ++ " not found")%string |}
  | Some application =>
      match Application.decision_status application with
      | APPROVED | MANUAL_REVIEW =>
          exists updated,
            submitKyc id personal address bank documents now stamp store
            = (inr updated, Map_set id updated store) /\
            getApplicationById id (Map_set id updated store) = Some updated /\
            Application.kyc_status updated = Some SUBMITTED /\
            Application.kyc_data updated
            = Some {| KycData.personal := personal;
                      KycData.address := address;
                      KycData.bank := bank;
                      KycData.documents := documents;
                      KycData.submitted_at := now |} /\
            Application.decision_status updated
            = Application.decision_status application /\
            Application.decision_payload updated
            = Application.decision_payload application
      | _ =>
          exists err,
            submitKyc id personal address bank documents now stamp store
            = (inl err, store) /\
            errorHandler err
            = {| ErrorResponse.status := 400;
                 ErrorResponse.error :=
                   "KYC can only be submitted for approved applications" |}
      end
  end.
Proof.
  unfold getApplicationById, submitKyc.
  destruct (Map_get id store) as [application|].
  - destruct (Application.decision_status application);
      eexists; repeat split; apply Map_get_set_same.
  - eexists. split; reflexivity.
Qed.

(** X17.  [updateConsent] on a stored id stores the application with the
    three consents given and the time of the call; decision status and
    payload, form data and KYC status are unchanged and the other ids are
    left alone.  On an id that is not stored it throws the error the handler
    answers with status 404 and leaves the store alone. *)
Theorem consent_is_recorded_beside_the_decision id consent now stamp store :
  match getApplicationById id store with
  | None =>
      exists err,
        updateConsent id consent now stamp store = (inl err, store) /\
        errorHandler err
        = {| ErrorResponse.status := 404;
             ErrorResponse.error := ("Application " ++ id ++ " not found")%string |}
  | Some application =>
      exists updated,
        updateConsent id consent now stamp store
        = (inr updated, Map_set id updated store) /\
        getApplicationById id (Map_set id updated store) = Some updated /\
        Application.consent_data updated
        = Some {| ConsentData.bureau_consent := Consent.bureau_consent consent;
                  ConsentData.twilio_consent := Consent.twilio_consent consent;
                  ConsentData.data_processing_consent :=
                    Consent.data_processing_consent consent;
                  ConsentData.consented_at := now |} /\
        Application.decision_status updated
        = Application.decision_status application /\
        Application.decision_payload updated
        = Application.decision_payload application /\
        Application.form_data updated = Application.form_data application /\
        Application.kyc_status updated = Application.kyc_status application /\
        (forall other, other <> id ->
           getApplicationById other (Map_set id updated store)
           = getApplicationById other store)
  end.
Proof.
  unfold getApplicationById, updateConsent.
  destruct (Map_get id store) as [application|].
  - eexists. repeat split; [apply Map_get_set_same|].
    intros other N. apply Map_get_set_other. exact N.
  - eexists. split; reflexivity.
Qed.

(** ** Witnesses *)

Lemma no_kyc_after_a_submit_without_tax_data_witness :
  exists updated calls' err,
    submitApplication Math_pow_model format_model format_model
      (envWithThreshold 50000) pendingClients "app-1" bareForm "t1" 2%Z oneStored
      oneStored []
    = (inr updated, Map_set "app-1" updated oneStored, calls') /\
    Application.decision_status updated = REJECTED /\
    submitKyc "app-1" somePerson someAddress someBank someDocuments "t2" 3%Z
      (Map_set "app-1" updated oneStored)
    = (inl err, Map_set "app-1" updated oneStored) /\
    errorHandler err
    = {| ErrorResponse.status := 400;
         ErrorResponse.error :=
           "KYC can only be submitted for approved applications" |}.
Proof.
  apply (no_kyc_after_a_submit_without_tax_data Math_pow_model format_model
           format_model (envWithThreshold 50000) pendingClients "app-1" bareForm
           "t1" 2%Z oneStored oneStored [] oneApplication somePerson someAddress
           someBank someDocuments "t2" 3%Z); [reflexivity|exact I|reflexivity].
Defined.

Lemma consent_recorded_during_a_submit_is_lost_witness :
  let resumed := snd (updateConsent "app-1" fullConsent "t2" 3%Z oneStored) in
  (exists recorded,
      getApplicationById "app-1" resumed = Some recorded /\
      Application.consent_data recorded
      = Some {| ConsentData.bureau_consent := true;
                ConsentData.twilio_consent := true;
                ConsentData.data_processing_consent := true;
                ConsentData.consented_at := "t2" |}) /\
  exists updated calls',
    submitApplication Math_pow_model format_model format_model
      (envWithThreshold 50000) stubClients "app-1" bareForm "t1" 4%Z oneStored
      resumed []
    = (inr updated, Map_set "app-1" updated resumed, calls') /\
    getApplicationById "app-1" (Map_set "app-1" updated resumed) = Some updated /\
    Application.consent_data updated = None.
Proof.
  apply (consent_recorded_during_a_submit_is_lost Math_pow_model format_model
           format_model (envWithThreshold 50000) stubClients "app-1" bareForm "t1"
           4%Z oneStored [] oneApplication fullConsent "t2" 3%Z).
  reflexivity.
Defined.


(** ** The listings client *)

Lemma firstMatch_somewhere attempt s captured :
  Google.firstMatch attempt s = Some captured ->
  exists t, attempt t = Some captured.
Proof.
  induction s as [|c s IH]; cbn [Google.firstMatch].
  - destruct (attempt ""%string) eqn:E; [|discriminate].
    intros H. injection H as <-. eauto.
  - destruct (attempt (String c s)) eqn:E.
    + intros H. injection H as <-. eauto.
    + exact IH.
Qed.

Lemma literalThenRun_run literal p s run :
  Google.literalThenRun literal p s = Some run ->
  run <> ""%string /\ exists t, run = Google.takeWhile p t.
Proof.
  unfold Google.literalThenRun. destruct (String.prefix literal s); [|discriminate].
  destruct (Google.takeWhile p (Google.drop (String.length literal) s)) eqn:E;
    [discriminate|].
  intros H. injection H as <-. split; [discriminate|]. eexists. symmetry. exact E.
Qed.

Lemma takeWhile_all p s c :
  In c (list_ascii_of_string (Google.takeWhile p s)) -> p c = true.
Proof.
  induction s as [|x s IH]; cbn; [tauto|].
  destruct (p x) eqn:E; cbn; [|tauto]. intros [<-|H]; auto.
Qed.

Lemma allDigits_takeWhile s : Google.allDigits (Google.takeWhile Google.is_digit s) = true.
Proof.
  induction s as [|x s IH]; cbn; [reflexivity|].
  destruct (Google.is_digit x) eqn:E; cbn; [rewrite E; exact IH|reflexivity].
Qed.

(** Decoding does not make a string empty. *)
Lemma decodeFrom_nonempty n :
  forall s octets need r,
    (String.length s <= n)%nat ->
    Google.decodeFrom octets need s = Some r ->
    need <> 0%nat \/ s <> ""%string ->
    r <> ""%string.
Proof.
  induction n as [|n IH]; intros s octets need r Hl H Hne.
  - destruct s; [|cbn in Hl; lia]. cbn in H.
    destruct need; [|discriminate]. destruct Hne as [N|N]; congruence.
  - destruct s as [|c s]; cbn [Google.decodeFrom] in H.
    + destruct need; [|discriminate]. destruct Hne as [N|N]; congruence.
    + cbn [String.length] in Hl. destruct (Ascii.eqb c "%").
      * destruct s as [|h1 [|h2 rest]]; try discriminate.
        cbn [String.length] in Hl.
        destruct (Google.hexValue h1) as [d1|]; [|discriminate].
        destruct (Google.hexValue h2) as [d2|]; [|discriminate].
        cbv zeta in H. set (b := (16 * d1 + d2)%nat) in H. clearbody b.
        destruct need as [|[|need']].
        -- destruct (Google.leadingOnes b) as [|[|[|[|[|k]]]]];
             try discriminate.
           ++ destruct (Google.decodeFrom [] 0 rest); [|discriminate].
              cbn [option_map] in H. injection H as <-. discriminate.
           ++ apply (IH rest _ _ r ltac:(lia) H). left. discriminate.
           ++ apply (IH rest _ _ r ltac:(lia) H). left. discriminate.
           ++ apply (IH rest _ _ r ltac:(lia) H). left. discriminate.
        -- destruct (Google.validUtf8 (octets ++ [b])) eqn:V;
             [|discriminate].
           destruct (Google.decodeFrom [] 0 rest) as [r'|]; [|discriminate].
           cbn [option_map] in H. injection H as <-.
           destruct (octets ++ [b])%list as [|b' l] eqn:E;
             [discriminate V|].
           unfold Google.ofOctets. cbn [map string_of_list_ascii append].
           discriminate.
        -- apply (IH rest _ _ r ltac:(lia) H). left. discriminate.
      * destruct need; [|discriminate].
        destruct (Google.decodeFrom [] 0 s); [|discriminate].
        cbn [option_map] in H. injection H as <-. discriminate.
Qed.

Lemma decode_nonempty s r :
  Google.decodeURIComponent s = Some r -> s <> ""%string -> r <> ""%string.
Proof.
  unfold Google.decodeURIComponent. intros H N.
  apply (decodeFrom_nonempty (String.length s) s [] 0%nat r (le_n _) H). right. exact N.
Qed.

Lemma plusToSpace_nonempty s : s <> ""%string -> Google.plusToSpace s <> ""%string.
Proof. destruct s; [congruence|discriminate]. Qed.

Lemma decode_ChIJ run r :
  Google.decodeURIComponent ("ChIJ" ++ run) = Some r ->
  exists r', r = ("ChIJ" ++ r')%string.
Proof.
  unfold Google.decodeURIComponent. cbn.
  destruct (Google.decodeFrom [] 0 run) as [r'|]; [|discriminate].
  cbn [option_map]. intros H. injection H as <-. exists r'. reflexivity.
Qed.

(** X18.  An identifier that [extractPlaceId] finds in a Maps URL is never
    empty.  When the URL has a [!1sChIJ...] segment the identifier starts
    with [ChIJ] and [isRealPlaceId] accepts it.  When it has none but has a
    [cid] parameter, the identifier is the digits of the first such
    parameter, and [isRealPlaceId] accepts it exactly when there are 15
    digits or more. *)
Theorem extracted_place_id mapsUrl identifier :
  Google.extractPlaceId mapsUrl = Some identifier ->
  identifier <> ""%string /\
  (Google.matchChIJ mapsUrl <> None ->
   String.prefix "ChIJ" identifier = true /\
   Google.isRealPlaceId identifier = true) /\
  (Google.matchChIJ mapsUrl = None -> Google.matchCid mapsUrl <> None ->
   Google.matchCid mapsUrl = Some identifier /\
   Google.allDigits identifier = true /\
   Google.isRealPlaceId identifier = (15 <=? String.length identifier)%nat).
Proof.
  unfold Google.extractPlaceId. intros H.
  destruct (Google.matchChIJ mapsUrl) as [chij|] eqn:E1.
  - unfold Google.matchChIJ in E1.
    destruct (Google.firstMatch _ mapsUrl) as [run|]; [|discriminate].
    injection E1 as <-. destruct (decode_ChIJ run identifier H) as (r' & ->).
    split; [discriminate|]. split; [|congruence]. intros _.
    unfold Google.isRealPlaceId. rewrite prefix_append. split; reflexivity.
  - destruct (Google.matchCid mapsUrl) as [cid|] eqn:E2.
    + injection H as <-. unfold Google.matchCid in E2.
      destruct (firstMatch_somewhere _ _ _ E2) as (t & Ht).
      destruct t as [|c t]; [discriminate|].
      destruct (Google.one_of "?&" c); [|discriminate].
      destruct (literalThenRun_run _ _ _ _ Ht) as (Hne & u & ->).
      split; [exact Hne|]. split; [congruence|]. intros _ _.
      split; [reflexivity|]. split; [apply allDigits_takeWhile|].
      unfold Google.isRealPlaceId. rewrite allDigits_takeWhile.
      assert (P : String.prefix "ChIJ" (Google.takeWhile Google.is_digit u) = false).
      { destruct u as [|x u]; [reflexivity|]. cbn [Google.takeWhile].
        destruct (Google.is_digit x) eqn:D; [|reflexivity].
        cbn [String.prefix]. destruct (ascii_dec "C" x) as [<-|]; [discriminate D|].
        reflexivity. }
      assert (Q : String.prefix "0x" (Google.takeWhile Google.is_digit u) = false).
      { destruct u as [|x u]; [reflexivity|]. cbn [Google.takeWhile].
        destruct (Google.is_digit x) eqn:D; [|reflexivity].
        cbn [String.prefix]. destruct (ascii_dec "0" x) as [<-|]; [|reflexivity].
        destruct u as [|y u]; [reflexivity|]. cbn [Google.takeWhile].
        destruct (Google.is_digit y) eqn:D'; [|reflexivity].
        cbn [String.prefix]. destruct (ascii_dec "x" y) as [<-|]; [discriminate D'|].
        reflexivity. }
      rewrite P, Q. reflexivity.
    + destruct (Google.matchName mapsUrl) as [name|] eqn:E3; [|discriminate].
      unfold Google.matchName in E3.
      destruct (firstMatch_somewhere _ _ _ E3) as (t & Ht).
      destruct (literalThenRun_run _ _ _ _ Ht) as (Hne & _).
      split; [|split; congruence].
      apply (decode_nonempty _ _ H). apply plusToSpace_nonempty. exact Hne.
Qed.

Lemma extracted_place_id_witness :
  Google.extractPlaceId
    "https://www.google.com/maps/place/Los+Aguacates/@19.04,-98.2,17z/data=!4m6!3m5!1sChIJM8FgMXnHxYURW1vYTA2hgcg!8m2"
  = Some "ChIJM8FgMXnHxYURW1vYTA2hgcg"%string /\
  "ChIJM8FgMXnHxYURW1vYTA2hgcg"%string <> ""%string /\
  Google.isRealPlaceId "ChIJM8FgMXnHxYURW1vYTA2hgcg" = true.
Proof.
  split; [vm_compute; reflexivity|].
  destruct (extracted_place_id
              "https://www.google.com/maps/place/Los+Aguacates/@19.04,-98.2,17z/data=!4m6!3m5!1sChIJM8FgMXnHxYURW1vYTA2hgcg!8m2"
              "ChIJM8FgMXnHxYURW1vYTA2hgcg" ltac:(vm_compute; reflexivity))
    as (H1 & H2 & _).
  split; [exact H1|]. apply H2. vm_compute. discriminate.
Defined.


(** ** The score of a listing as an integer *)

Lemma ratingPoints_value rating :
  exists k : Z,
    Prim2SF (ScoreTable.ratingPoints rating) = SFint k /\ (0 <= k <= 25)%Z.
Proof.
  unfold ScoreTable.ratingPoints. destruct rating as [r|]; [|exists 0%Z; split; [reflexivity|lia]].
  destruct (JS.truthy r);
    [destruct (r >=? 4.5);
     [exists 25%Z
     |destruct (r >=? 4.0);
      [exists 20%Z|destruct (r >=? 3.5); [exists 12%Z|exists 5%Z]]]
    |exists 0%Z];
    (split; [reflexivity|lia]).
Qed.

Lemma reviewPoints_value reviews :
  exists k : Z,
    Prim2SF (ScoreTable.reviewPoints reviews) = SFint k /\ (0 <= k <= 20)%Z.
Proof.
  destruct reviews as [n|].
  - destruct (reviewPoints_values n) as (k & E & B & _). exists k. split; assumption.
  - exists 0%Z. split; [reflexivity|lia].
Qed.

(** The sum of the table is the binary64 value of the sum of the points. *)
Lemma sum_value data :
  exists ka kb : Z,
    (0 <= ka <= 25)%Z /\ (0 <= kb <= 20)%Z /\
    let flag (b : bool) (k : Z) := if b then k else 0%Z in
    Prim2SF (ScoreTable.sum data)
    = SFint (0 + ka + kb
             + flag (is_true (PlacesResult.is_verified data)) 10
             + flag (is_true (PlacesResult.has_website data)) 10
             + flag (is_operational (PlacesResult.business_status data)) 10
             + flag (hasCommercialType data) 10
             + flag (ScoreTable.priceTierHigh (PlacesResult.price_level_index data)) 5)%Z.
Proof.
  destruct (ratingPoints_value (PlacesResult.rating data)) as (ka & A & LA).
  destruct (reviewPoints_value (PlacesResult.total_review_count data)) as (kb & B & LB).
  exists ka, kb. split; [exact LA|]. split; [exact LB|]. cbv zeta.
  unfold ScoreTable.sum.
  set (f1 := is_true (PlacesResult.is_verified data)).
  set (f2 := is_true (PlacesResult.has_website data)).
  set (f3 := is_operational (PlacesResult.business_status data)).
  set (f4 := hasCommercialType data).
  set (f5 := ScoreTable.priceTierHigh (PlacesResult.price_level_index data)).
  assert (P10 : Prim2SF 10 = SFint 10) by reflexivity.
  assert (P5 : Prim2SF 5 = SFint 5) by reflexivity.
  assert (P0 : Prim2SF 0 = SFint 0) by reflexivity.
  assert (K : forall b : bool, forall k, (0 <= k)%Z -> (0 <= (if b then k else 0))%Z /\
                                         ((if b then k else 0) <= k)%Z)
    by (intros [|] k; lia).
  pose proof (K f1 10%Z ltac:(lia)). pose proof (K f2 10%Z ltac:(lia)).
  pose proof (K f3 10%Z ltac:(lia)). pose proof (K f4 10%Z ltac:(lia)).
  pose proof (K f5 5%Z ltac:(lia)).
  assert (B53 : (100 <= 2 ^ 53)%Z) by (cbn; lia).
  apply (add_value _ _ _ _
           (add_value _ _ _ _
              (add_value _ _ _ _
                 (add_value _ _ _ _
                    (add_value _ _ _ _
                       (add_value _ _ _ _
                          (add_value _ _ _ _ P0 A ltac:(lia) ltac:(lia) ltac:(lia))
                          B ltac:(lia) ltac:(lia) ltac:(lia))
                       (flag_value f1 _ _ P10) ltac:(lia) ltac:(lia) ltac:(lia))
                    (flag_value f2 _ _ P10) ltac:(lia) ltac:(lia) ltac:(lia))
                 (flag_value f3 _ _ P10) ltac:(lia) ltac:(lia) ltac:(lia))
              (flag_value f4 _ _ P10) ltac:(lia) ltac:(lia) ltac:(lia))
           (flag_value f5 _ _ P5)); lia.
Qed.

Lemma verified_listing_scores_10 data :
  is_true (PlacesResult.is_verified data) = true ->
  (10 <=? computeSignalsScore data) = true.
Proof.
  intros V. destruct (score_is_sum data) as (-> & -> & _).
  destruct (sum_value data) as (ka & kb & LA & LB & E). cbv zeta in E.
  rewrite V in E. rewrite leb_spec, E. change (Prim2SF 10) with (SFint 10).
  apply binary_normalize_mono.
  repeat match goal with |- context [if ?c then _ else _] => destruct c end; lia.
Qed.

(** ** What the listings client answers *)

Section ListingsClient.

Variable DEMO_MODE : bool.
Variable GOOGLE_PLACES_API_KEY : string.
Variable api : Google.PlacesApi.t.
Variable now : string.

Lemma fetchDetails_cases placeId :
  placeId <> ""%string ->
  match Google.fetchDetails api now placeId with
  | Fulfilled r =>
      r = PlacesResult.not_connected now \/
      (PlacesResult.connected r = true /\
       PlacesResult.is_verified r = Some true /\
       PlacesResult.place_id r = Some placeId /\
       PlacesResult.signals_score r = Some (computeSignalsScore r))
  | RejectedWith _ => False
  | Pending => True
  end.
Proof.
  intros N. unfold Google.fetchDetails.
  destruct (Google.PlacesApi.details api placeId) as [[p|]|err|]; auto.
Qed.

Lemma getPlacesData_cases mapsUrl :
  match Google.getPlacesData DEMO_MODE GOOGLE_PLACES_API_KEY api now mapsUrl with
  | Fulfilled r =>
      (DEMO_MODE || negb (JS.nonempty GOOGLE_PLACES_API_KEY) = true /\
       r = Google.demoStub now) \/
      (DEMO_MODE || negb (JS.nonempty GOOGLE_PLACES_API_KEY) = false /\
       (r = PlacesResult.not_connected now \/
        (PlacesResult.connected r = true /\
         PlacesResult.is_verified r = Some true /\
         (exists placeId, PlacesResult.place_id r = Some placeId /\
                          placeId <> ""%string) /\
         PlacesResult.signals_score r = Some (computeSignalsScore r))))
  | RejectedWith _ => False
  | Pending => DEMO_MODE || negb (JS.nonempty GOOGLE_PLACES_API_KEY) = false
  end.
Proof.
  unfold Google.getPlacesData.
  destruct (DEMO_MODE || negb (JS.nonempty GOOGLE_PLACES_API_KEY)); [auto|].
  assert (D : forall placeId, placeId <> ""%string ->
              match Google.fetchDetails api now placeId with
              | Fulfilled r =>
                  false = true /\ r = Google.demoStub now \/
                  false = false /\
                  (r = PlacesResult.not_connected now \/
                   PlacesResult.connected r = true /\
                   PlacesResult.is_verified r = Some true /\
                   (exists placeId0, PlacesResult.place_id r = Some placeId0 /\
                                     placeId0 <> ""%string) /\
                   PlacesResult.signals_score r = Some (computeSignalsScore r))
              | RejectedWith _ => False
              | Pending => false = false
              end).
  { intros placeId N. pose proof (fetchDetails_cases placeId N) as F.
    destruct (Google.fetchDetails api now placeId) as [r|err|]; auto.
    right. split; [reflexivity|]. destruct F as [F|(F1 & F2 & F3 & F4)]; [auto|].
    right. repeat split; try assumption. exists placeId. split; assumption. }
  destruct (Google.extractPlaceId mapsUrl) as [identifier|]; [|auto].
  destruct identifier as [|c identifier]; [cbn; auto|].
  cbn [JS.nonempty negb].
  destruct (String.prefix "ChIJ" (String c identifier)); cbn [negb].
  - apply D. discriminate.
  - destruct (Google.PlacesApi.findPlaceFromText api (String c identifier))
      as [[placeId|]|err|]; auto.
    destruct placeId as [|x placeId]; [cbn; auto|].
    cbn [JS.nonempty negb]. apply D. discriminate.
Qed.

Lemma getPlacesData_never_rejects mapsUrl err :
  Google.getPlacesData DEMO_MODE GOOGLE_PLACES_API_KEY api now mapsUrl
  <> RejectedWith err.
Proof.
  intros E. pose proof (getPlacesData_cases mapsUrl) as C. rewrite E in C. exact C.
Qed.

Lemma getPlacesData_not_connected mapsUrl r :
  Google.getPlacesData DEMO_MODE GOOGLE_PLACES_API_KEY api now mapsUrl = Fulfilled r ->
  PlacesResult.connected r = false -> r = PlacesResult.not_connected now.
Proof.
  intros E N. pose proof (getPlacesData_cases mapsUrl) as C. rewrite E in C.
  destruct C as [(_ & ->)|(_ & [->|(C1 & _)])];
    [discriminate N|reflexivity|congruence].
Qed.

Lemma getPlacesData_score mapsUrl r :
  Google.getPlacesData DEMO_MODE GOOGLE_PLACES_API_KEY api now mapsUrl = Fulfilled r ->
  PlacesResult.connected r = true ->
  exists score,
    PlacesResult.signals_score r = Some score /\
    (0 <=? score) = true /\ (score <=? 90) = true.
Proof.
  intros E N. pose proof (getPlacesData_cases mapsUrl) as C. rewrite E in C.
  destruct C as [(_ & ->)|(_ & [->|(_ & _ & _ & C4)])].
  - exists 72. repeat split.
  - discriminate N.
  - exists (computeSignalsScore r). split; [exact C4|].
    destruct (score_is_sum r) as (S1 & S2 & S3 & S4). rewrite S1, S2. split; assumption.
Qed.

(** X19.  [getPlacesData] never rejects.  In demo mode or without an API key
    it answers with the demo listing.  Every answer that is not connected is
    the result that is only marked as not connected; every connected answer
    carries a signals score between 0 and 90, and outside demo mode that
    score is the one [computeSignalsScore] gives for the answer itself, it
    is 10 or more, and the answer is marked verified and carries a place id
    that is not empty. *)
Theorem listings_client_answers mapsUrl :
  (forall err,
      Google.getPlacesData DEMO_MODE GOOGLE_PLACES_API_KEY api now mapsUrl
      <> RejectedWith err) /\
  (DEMO_MODE || negb (JS.nonempty GOOGLE_PLACES_API_KEY) = true ->
   Google.getPlacesData DEMO_MODE GOOGLE_PLACES_API_KEY api now mapsUrl
   = Fulfilled (Google.demoStub now)) /\
  (forall r,
      Google.getPlacesData DEMO_MODE GOOGLE_PLACES_API_KEY api now mapsUrl
      = Fulfilled r ->
      if PlacesResult.connected r then
        exists score,
          PlacesResult.signals_score r = Some score /\
          (0 <=? score) = true /\ (score <=? 90) = true /\
          (DEMO_MODE || negb (JS.nonempty GOOGLE_PLACES_API_KEY) = false ->
           score = computeSignalsScore r /\ (10 <=? score) = true /\
           PlacesResult.is_verified r = Some true /\
           exists placeId, PlacesResult.place_id r = Some placeId /\
                           placeId <> ""%string)
      else r = PlacesResult.not_connected now).
Proof.
  pose proof (getPlacesData_cases mapsUrl) as C.
  split; [|split].
  - intros err E. rewrite E in C. exact C.
  - intros H. unfold Google.getPlacesData. rewrite H. reflexivity.
  - intros r E. rewrite E in C.
    destruct C as [(L & ->)|(L & [->|(C1 & C2 & C3 & C4)])].
    + cbn [PlacesResult.connected Google.demoStub]. exists 72.
      split; [reflexivity|]. split; [reflexivity|]. split; [reflexivity|].
      intros H. congruence.
    + reflexivity.
    + rewrite C1. exists (computeSignalsScore r). split; [exact C4|].
      destruct (score_is_sum r) as (S1 & S2 & S3 & S4).
      rewrite S1, S2. split; [exact S3|]. split; [exact S4|]. intros _.
      rewrite <- S2, <- S1. split; [reflexivity|].
      split; [apply verified_listing_scores_10; rewrite C2; reflexivity|].
      split; assumption.
Qed.

End ListingsClient.



(** ** Decisions of the orchestrator *)

Section Runs.

Variable Math_pow : float -> float -> float.
Variable toLocaleString_esMX : float -> string.
Variable Number_toString : float -> string.
Variable env : Env.t.
Variable clients : Clients.t.
Variable now : string.

Lemma nameParts_split legalName firstName lastParts :
  match JS.split (JS.trim legalName) with
  | firstName :: lastParts => (firstName, lastParts)
  | [] => (""%string, [])
  end = (firstName, lastParts) ->
  nameParts legalName = (firstName, JS.join " " lastParts).
Proof.
  unfold nameParts. destruct (JS.split (JS.trim legalName)); intros H;
    injection H as <- <-; reflexivity.
Qed.

(** Runs a run block by block: afterwards the goal is about the decision
    the run assembles, and [K1] ... [K7] say what each block yielded. *)
Ltac run_blocks application :=
  unfold runUnderwriting, plannedCalls;
  let firstName := fresh "firstName" in
  let lastParts := fresh "lastParts" in
  destruct (match JS.split (JS.trim (form_field application FormData.legal_name)) with
            | [] => (""%string, [])
            | firstName :: lastParts => (firstName, lastParts)
            end) as [firstName lastParts] eqn:Hname;
  apply nameParts_split in Hname;
  unfold bind;
  lazymatch goal with |- context [fetchSyntage ?cl ?n ?a ?c] =>
    destruct (fetchSyntage_cases cl n a c) as (r1 & m1 & a1 & c1 & HE & K1);
    rewrite HE; clear HE end;
  lazymatch goal with |- context [fetchPlaces ?cl ?n ?u ?c] =>
    destruct (fetchPlaces_cases cl n u c) as (r2 & sc2 & a2 & HE & K2);
    rewrite HE; clear HE end;
  lazymatch goal with |- context [fetchFacebook ?e ?cl ?n ?u ?c] =>
    destruct (fetchFacebook_cases e cl n u c) as (r3 & n3 & a3 & HE & K3);
    rewrite HE; clear HE end;
  lazymatch goal with |- context [fetchInstagram ?e ?cl ?n ?u ?v ?c] =>
    destruct (fetchInstagram_cases e cl n u v c) as (r4 & n4 & a4 & HE & K4);
    rewrite HE; clear HE end;
  lazymatch goal with |- context [fetchTwilio ?cl ?n ?p ?f ?l ?c] =>
    destruct (fetchTwilio_cases cl n p f l c)
      as (r5 & im5 & wa5 & ss5 & a5 & HE & K5);
    rewrite HE; clear HE end;
  lazymatch goal with |- context [fetchBureau ?cl ?t ?c] =>
    destruct (fetchBureau_cases cl t c) as (r6 & s6 & a6 & HE & K6);
    rewrite HE; clear HE end;
  lazymatch goal with |- context [fetchPlatform ?cl ?a ?c] =>
    destruct (fetchPlatform_cases cl a c) as (r7 & g7 & t7 & a7 & HE & K7);
    rewrite HE; clear HE end;
  unfold ret;
  eexists; split; [f_equal; rewrite <- !app_assoc; reflexivity|];
  cbn [UnderwritingDecision.payload UnderwritingDecision.status
       DecisionPayload.data_sources DecisionPayload.total_revenue
       DecisionPayload.threshold_used DecisionPayload.reason
       DecisionPayload.credit_offer DecisionPayload.syntage_monthly_revenue
       DecisionPayload.syntage_tax_compliance DecisionPayload.syntage_cfdi_count
       DecisionPayload.syntage_tax_regime DecisionPayload.places_signals_score
       DecisionPayload.places_rating DecisionPayload.places_review_count
       DecisionPayload.facebook_fan_count DecisionPayload.facebook_rating
       DecisionPayload.instagram_followers DecisionPayload.instagram_media_count
       DecisionPayload.twilio_identity_match DecisionPayload.twilio_whatsapp_business
       DecisionPayload.twilio_sim_swap_detected DecisionPayload.twilio_line_type
       DecisionPayload.bureau_score DecisionPayload.platform_gmv_6m
       DecisionPayload.platform_tenure_months DecisionPayload.decided_at
       UnderwritingDecision.syntage_result UnderwritingDecision.places_result
       UnderwritingDecision.facebook_result UnderwritingDecision.instagram_result
       UnderwritingDecision.twilio_result UnderwritingDecision.bureau_result
       UnderwritingDecision.platform_result].





(** X21.  The figures of every decision agree with one another: the total is
    what [computeTotalRevenue] gives for the figures recorded in the
    payload, the status is the one the resolver gives for that total and the
    recorded threshold, and the credit offer, which is always present, is
    what [computeCreditOffer] gives for the platform's pre-approved amount
    (50,000 without one), the recorded bureau score and the listed data
    sources. *)
Theorem decision_can_be_recomputed application calls :
  exists d,
    runUnderwriting Math_pow toLocaleString_esMX Number_toString env clients now
      application calls
    = (inr d, calls ++ plannedCalls env application) /\
    let p := UnderwritingDecision.payload d in
    let ds := DecisionPayload.data_sources p in
    let listed (name : string) := existsb (String.eqb name) ds in
    DecisionPayload.total_revenue p
    = computeTotalRevenue
        (DecisionPayload.syntage_monthly_revenue p)
        (DecisionPayload.places_signals_score p)
        (DecisionPayload.bureau_score p)
        (DecisionPayload.platform_tenure_months p)
        (DecisionPayload.syntage_tax_compliance p)
        (DecisionPayload.facebook_fan_count p)
        (DecisionPayload.instagram_followers p)
        (DecisionPayload.twilio_identity_match p)
        (DecisionPayload.twilio_whatsapp_business p)
        (DecisionPayload.twilio_sim_swap_detected p) /\
    UnderwritingDecision.status d
    = resolveStatus (DecisionPayload.total_revenue p)
        (DecisionPayload.threshold_used p) /\
    DecisionPayload.credit_offer p
    = Some (computeCreditOffer Math_pow
              (nullish
                 (match UnderwritingDecision.platform_result d with
                  | Some r => PlatformResult.pre_approved_amount r
                  | None => None
                  end) 50000)
              (DecisionPayload.bureau_score p)
              (List.length ds)
              (listed "google_places"%string || listed "facebook"%string
               || listed "instagram"%string)
              (listed "syntage"%string)).
Proof.
  run_blocks application.
  repeat match goal with |- _ /\ _ => split end; try reflexivity.
  destruct a1, a2, a3, a4, a5, a6, a7; reflexivity.
Qed.


(** X22.  The approved amount of a decision is the offer of the
    pre-qualification of the same merchant for the kinds of data the
    decision lists (fiscal, else social, else bureau), as long as the
    platform answers both in the same way; except when the platform answers
    with the amount 0, -0 or NaN, where the pre-qualification falls back on
    the base 50,000 and the decision offers nothing above zero. *)
Theorem final_offer_agrees_with_prequalification application calls calls' :
  exists d o offer,
    runUnderwriting Math_pow toLocaleString_esMX Number_toString env clients now
      application calls
    = (inr d, calls ++ plannedCalls env application) /\
    runPrequalification clients (ApplicationDoc.merchant_id application) calls'
    = (inr o, calls' ++ [Platform]) /\
    DecisionPayload.credit_offer (UnderwritingDecision.payload d) = Some offer /\
    let ds := DecisionPayload.data_sources (UnderwritingDecision.payload d) in
    let listed (name : string) := existsb (String.eqb name) ds in
    let tierOffer :=
      if listed "syntage"%string then PrequalOffers.fiscal_offer o
      else if listed "google_places"%string || listed "facebook"%string
              || listed "instagram"%string
           then PrequalOffers.social_offer o
           else PrequalOffers.bureau_offer o in
    (CreditOffer.approved_amount offer = tierOffer \/
     exists v amount,
       Clients.getMerchantData clients (ApplicationDoc.merchant_id application)
       = Fulfilled v /\
       PlatformResult.pre_approved_amount v = Some amount /\
       JS.truthy amount = false /\
       PrequalOffers.base_amount o = 50000 /\
       (0 <? CreditOffer.approved_amount offer) = false).
Proof.
  destruct (runPrequalification_cases clients (ApplicationDoc.merchant_id application)
              calls') as (o & Eo & Hb & H1 & H2 & H3).
  assert (R : exists d,
             runUnderwriting Math_pow toLocaleString_esMX Number_toString env clients
               now application calls
             = (inr d, calls ++ plannedCalls env application) /\
             exists offer,
               DecisionPayload.credit_offer (UnderwritingDecision.payload d) = Some offer /\
               let ds := DecisionPayload.data_sources (UnderwritingDecision.payload d) in
               let listed (name : string) := existsb (String.eqb name) ds in
               let mult :=
                 if listed "syntage"%string then 2.0
                 else if listed "google_places"%string || listed "facebook"%string
                         || listed "instagram"%string
                      then 1.4 else 1.2 in
               CreditOffer.approved_amount offer
               = JS.Math_round
                   ((nullish
                       (match Clients.getMerchantData clients
                                (ApplicationDoc.merchant_id application) with
                        | Fulfilled v => PlatformResult.pre_approved_amount v
                        | _ => None
                        end) 50000 * mult) / 1000) * 1000).
  { run_blocks application. eexists. split; [reflexivity|].
    cbn [CreditOffer.approved_amount computeCreditOffer].
    assert (Er : match r7 with
                 | Some r => PlatformResult.pre_approved_amount r
                 | None => None
                 end
                 = match Clients.getMerchantData clients
                           (ApplicationDoc.merchant_id application) with
                   | Fulfilled v => PlatformResult.pre_approved_amount v
                   | _ => None
                   end).
    { destruct (Clients.getMerchantData clients (ApplicationDoc.merchant_id application));
        [destruct K7 as (-> & _)|destruct K7 as (-> & _)..]; reflexivity. }
    rewrite Er. destruct a1, a2, a3, a4, a5, a6, a7; reflexivity. }
  destruct R as (d & Ed & offer & Ho & Ha). exists d, o, offer.
  split; [exact Ed|]. split; [exact Eo|]. split; [exact Ho|].
  cbv zeta in Ha |- *. rewrite Ha, H1, H2, H3, Hb. clear Ha H1 H2 H3 Hb.
  destruct (Clients.getMerchantData clients (ApplicationDoc.merchant_id application))
    as [v|err|].
  - destruct (PlatformResult.pre_approved_amount v) as [amount|] eqn:Ea.
    + destruct (JS.truthy amount) eqn:Et.
      * left. cbn [nullish].
        repeat match goal with |- context [if ?c then _ else _] => destruct c end;
          reflexivity.
      * right. exists v, amount. repeat split; try assumption.
        cbn [nullish].
        destruct (falsy_cases amount Et) as [->|[->| ->]];
          repeat match goal with |- context [if ?c then _ else _] => destruct c end;
          vm_compute; reflexivity.
    + left. cbn [nullish].
      repeat match goal with |- context [if ?c then _ else _] => destruct c end;
        reflexivity.
  - left. cbn [nullish].
    repeat match goal with |- context [if ?c then _ else _] => destruct c end;
      reflexivity.
  - left. cbn [nullish].
    repeat match goal with |- context [if ?c then _ else _] => destruct c end;
      reflexivity.
Qed.


(** X23.  Every decision records, for each source, what the source
    answered: the tax result is missing exactly when the tax call failed or
    timed out; the listings, social and phone results are the answers of the
    calls that were made and answered, and the result that is only marked as
    not connected otherwise; the bureau and platform results are the answers
    of the calls, and missing when these failed or timed out. *)
Theorem results_are_recorded_as_answered application calls :
  let mapsUrl := form_field application FormData.google_business_url in
  let facebookToken := form_field application FormData.facebook_access_token in
  let instagramToken := form_field application FormData.instagram_access_token in
  let phone := form_field application FormData.phone in
  let taxId := form_field application FormData.tax_id in
  let merchant := ApplicationDoc.merchant_id application in
  let names := nameParts (form_field application FormData.legal_name) in
  exists d,
    runUnderwriting Math_pow toLocaleString_esMX Number_toString env clients now
      application calls
    = (inr d, calls ++ plannedCalls env application) /\
    (UnderwritingDecision.syntage_result d = None <->
     failed (Clients.getRevenueData clients merchant)) /\
    UnderwritingDecision.places_result d
    = Some (match JS.nonempty mapsUrl, Clients.getPlacesData clients mapsUrl with
            | true, Fulfilled v => v
            | _, _ => PlacesResult.not_connected now
            end) /\
    UnderwritingDecision.facebook_result d
    = Some (match JS.nonempty facebookToken || Env.DEMO_MODE env,
                  Clients.getPageData clients facebookToken with
            | true, Fulfilled v => v
            | _, _ => FacebookResult.not_connected now
            end) /\
    UnderwritingDecision.instagram_result d
    = Some (match JS.nonempty instagramToken || JS.nonempty facebookToken
                  || Env.DEMO_MODE env,
                  Clients.getProfileData clients
                    (JS.or_else instagramToken facebookToken) with
            | true, Fulfilled v => v
            | _, _ => InstagramResult.not_connected now
            end) /\
    UnderwritingDecision.twilio_result d
    = Some (match Clients.verifyPhone clients (JS.or_else phone "+525500000000")
                    (fst names) (snd names) with
            | Fulfilled v => v
            | _ => TwilioResult.not_connected now
            end) /\
    UnderwritingDecision.bureau_result d
    = match Clients.getScore clients taxId with
      | Fulfilled v => Some v
      | _ => None
      end /\
    UnderwritingDecision.platform_result d
    = match Clients.getMerchantData clients merchant with
      | Fulfilled v => Some v
      | _ => None
      end.
Proof.
  intros mapsUrl facebookToken instagramToken phone taxId merchant names.
  subst mapsUrl facebookToken instagramToken phone taxId merchant names.
  run_blocks application.
  rewrite Hname. cbn [fst snd].
  repeat match goal with |- _ /\ _ => split end.
  - destruct (Clients.getRevenueData clients _) as [raw|err|]; cbn [failed].
    + destruct K1 as (_ & _ & _ & res & -> & _). split; [discriminate|contradiction].
    + destruct K1 as (_ & _ & _ & ->). tauto.
    + destruct K1 as (_ & _ & _ & ->). tauto.
  - destruct (JS.nonempty _); [destruct (Clients.getPlacesData clients _)|];
      destruct K2 as (-> & _); reflexivity.
  - destruct (JS.nonempty _ || Env.DEMO_MODE env);
      [destruct (Clients.getPageData clients _)|]; destruct K3 as (-> & _);
      reflexivity.
  - destruct (JS.nonempty _ || JS.nonempty _ || Env.DEMO_MODE env);
      [destruct (Clients.getProfileData clients _)|]; destruct K4 as (-> & _);
      reflexivity.
  - destruct (Clients.verifyPhone clients _ _ _); destruct K5 as (-> & _);
      reflexivity.
  - destruct (Clients.getScore clients _); destruct K6 as (-> & _); reflexivity.
  - destruct (Clients.getMerchantData clients _); destruct K7 as (-> & _);
      reflexivity.
Qed.

Lemma div12_zero annual : (annual =? 0) = true -> (annual / 12 =? 0) = true.
Proof.
  rewrite !eqb_spec, div_spec. change (Prim2SF 0) with (S754_zero false).
  change (Prim2SF 12) with (S754_finite false 6755399441055744 (-49)).
  destruct (Prim2SF annual) as [s|s| |s m e]; intros H;
    try (destruct s; discriminate H); try discriminate H.
  destruct s; reflexivity.
Qed.

(** X24.  When the tax source answers, the decision records a twelfth of the
    annual revenue as monthly revenue, the compliance flag (true when the
    answer has none), the invoice count and the tax regime of the answer;
    when the annual revenue is zero the tax source is still listed, but the
    total is 0 and, for a threshold above zero, the status is REJECTED.  When
    the tax source fails or times out, the monthly revenue is 0, the flag is
    true and count and regime are missing. *)
Theorem tax_figures_of_a_decision application calls :
  exists d,
    runUnderwriting Math_pow toLocaleString_esMX Number_toString env clients now
      application calls
    = (inr d, calls ++ plannedCalls env application) /\
    let p := UnderwritingDecision.payload d in
    match Clients.getRevenueData clients (ApplicationDoc.merchant_id application) with
    | Fulfilled raw =>
        DecisionPayload.syntage_monthly_revenue p
        = SyntageRevenueData.annual_revenue raw / 12 /\
        DecisionPayload.syntage_tax_compliance p
        = nullish (SyntageRevenueData.tax_compliance raw) true /\
        DecisionPayload.syntage_cfdi_count p
        = SyntageRevenueData.cfdi_count_last_12m raw /\
        DecisionPayload.syntage_tax_regime p = SyntageRevenueData.tax_regime raw /\
        ((SyntageRevenueData.annual_revenue raw =? 0) = true ->
         In "syntage"%string (DecisionPayload.data_sources p) /\
         DecisionPayload.total_revenue p = 0 /\
         ((0 <? Env.APPROVAL_THRESHOLD env) = true ->
          UnderwritingDecision.status d = REJECTED))
    | _ =>
        DecisionPayload.syntage_monthly_revenue p = 0 /\
        DecisionPayload.syntage_tax_compliance p = true /\
        DecisionPayload.syntage_cfdi_count p = None /\
        DecisionPayload.syntage_tax_regime p = None
    end.
Proof.
  run_blocks application. cbv zeta.
  destruct (Clients.getRevenueData clients _) as [raw|err|].
  - destruct K1 as (-> & -> & -> & res & -> & _ & _ & _ & -> & -> & _).
    repeat match goal with |- _ /\ _ => split end; try reflexivity.
    + intros H. unfold computeTotalRevenue. rewrite (div12_zero _ H).
      split; [left; reflexivity|]. split; [reflexivity|].
      intros Ht. unfold resolveStatus.
      destruct (zero_below_pos 0 (Env.APPROVAL_THRESHOLD env) eq_refl Ht) as [-> ->].
      reflexivity.
  - destruct K1 as (-> & -> & -> & ->). repeat split.
  - destruct K1 as (-> & -> & -> & ->). repeat split.
Qed.

(** X25.  The reason of every decision, whatever its status, opens with the
    sentence announcing a manual review, followed by the monthly tax sales
    when the tax source answered and by the notice that tax data are not
    available when it did not. *)
Theorem reason_opens_with_manual_review application calls :
  exists d,
    runUnderwriting Math_pow toLocaleString_esMX Number_toString env clients now
      application calls
    = (inr d, calls ++ plannedCalls env application) /\
    let reason := DecisionPayload.reason (UnderwritingDecision.payload d) in
    let opening :=
      "Solicitud en revisión manual para determinar nuevo monto Préstamo MÁS. "%string in
    String.prefix opening reason = true /\
    match Clients.getRevenueData clients (ApplicationDoc.merchant_id application) with
    | Fulfilled raw =>
        String.prefix
          (opening ++ "Ventas SAT: $" ++
           toLocaleString_esMX (SyntageRevenueData.annual_revenue raw / 12) ++
           " MXN/mes.")%string reason = true
    | _ =>
        String.prefix
          (opening ++ "Datos SAT no disponibles — requiere verificación manual.")%string
          reason = true
    end.
Proof.
  run_blocks application. cbv zeta.
  match goal with |- context [buildReason _ _ ?params] =>
    destruct (buildReason_parts toLocaleString_esMX Number_toString params)
      as (l & -> & _) end.
  cbn [ReasonParams.syntageAvailable ReasonParams.syntageMonthlyRevenue
       ReasonParams.syntageCompliance].
  match goal with |- context [JS.join " " (?a :: ?b :: l)] =>
    destruct (join_two_more a b l) as (rest & ->) end.
  split.
  - match goal with |- String.prefix ?o (?a ++ " " ++ ?r)%string = true =>
      change o with (a ++ " ")%string;
      rewrite <- (append_assoc a " " r) end.
    apply prefix_append.
  - destruct (Clients.getRevenueData clients _) as [raw|err|].
    + destruct K1 as (-> & -> & _).
      match goal with
        |- String.prefix _ (?a ++ " " ++ (?b ++ ?f ++ ?c ++ ?w) ++ ?r)%string = true =>
        replace (a ++ " " ++ (b ++ f ++ c ++ w) ++ r)%string
          with (((a ++ " ") ++ b ++ f ++ c) ++ (w ++ r))%string
          by (rewrite !append_assoc; reflexivity)
      end.
      apply prefix_append.
    + destruct K1 as (-> & _).
      match goal with |- String.prefix _ (?a ++ " " ++ ?b ++ ?r)%string = true =>
        replace (a ++ " " ++ b ++ r)%string with (((a ++ " ") ++ b) ++ r)%string
          by (rewrite !append_assoc; reflexivity)
      end.
      apply prefix_append.
    + destruct K1 as (-> & _).
      match goal with |- String.prefix _ (?a ++ " " ++ ?b ++ ?r)%string = true =>
        replace (a ++ " " ++ b ++ r)%string with (((a ++ " ") ++ b) ++ r)%string
          by (rewrite !append_assoc; reflexivity)
      end.
      apply prefix_append.
Qed.


(** X26.  When the listings adapter of a run is [getPlacesData], the
    listings score recorded in the decision lies between 0 and 90. *)
Theorem listings_score_of_a_decision_is_bounded application calls
    DEMO_MODE GOOGLE_PLACES_API_KEY api now' :
  Clients.getPlacesData clients
  = Google.getPlacesData DEMO_MODE GOOGLE_PLACES_API_KEY api now' ->
  exists d,
    runUnderwriting Math_pow toLocaleString_esMX Number_toString env clients now
      application calls
    = (inr d, calls ++ plannedCalls env application) /\
    let score :=
      DecisionPayload.places_signals_score (UnderwritingDecision.payload d) in
    (0 <=? score) = true /\ (score <=? 90) = true.
Proof.
  intros Hc. run_blocks application. cbv zeta.
  destruct (JS.nonempty (form_field application FormData.google_business_url));
    [|destruct K2 as (_ & _ & ->); split; reflexivity].
  rewrite Hc in K2.
  pose proof (getPlacesData_score DEMO_MODE GOOGLE_PLACES_API_KEY api now'
                (form_field application FormData.google_business_url)) as A.
  destruct (Google.getPlacesData DEMO_MODE GOOGLE_PLACES_API_KEY api now'
              (form_field application FormData.google_business_url)) as [v|err|];
    [|destruct K2 as (_ & _ & ->); split; reflexivity..].
  destruct K2 as (_ & _ & ->). specialize (A v eq_refl).
  destruct (PlacesResult.connected v); [|split; reflexivity].
  destruct (A eq_refl) as (score & -> & A1 & A2). split; assumption.
Qed.

(** X27.  The bureau and platform clients of the repository answer every
    call with their stub, in demo mode and outside it.  With them, every
    decision records the bureau score 720, platform sales of 900,000 and a
    tenure of 36 months and lists both sources; its offer has the monthly
    rate 0.030 and the approved amount 100,000 when the tax source is
    listed, else 70,000 when a listings or social source is, else 60,000;
    and every pre-qualification gives the base 50,000 and the offers
    60,000, 70,000 and 100,000. *)
Theorem offers_with_the_bureau_and_platform_stubs application calls calls'
    DEMO_MODE now1 now2 :
  Clients.getScore clients = BureauClient.getScore DEMO_MODE now1 ->
  Clients.getMerchantData clients = PlatformClient.getMerchantData DEMO_MODE now2 ->
  exists d,
    runUnderwriting Math_pow toLocaleString_esMX Number_toString env clients now
      application calls
    = (inr d, calls ++ plannedCalls env application) /\
    let p := UnderwritingDecision.payload d in
    let ds := DecisionPayload.data_sources p in
    let listed (name : string) := existsb (String.eqb name) ds in
    DecisionPayload.bureau_score p = Some 720 /\
    DecisionPayload.platform_gmv_6m p = Some 900000 /\
    DecisionPayload.platform_tenure_months p = Some 36 /\
    listed "bureau"%string = true /\ listed "platform"%string = true /\
    (exists offer,
        DecisionPayload.credit_offer p = Some offer /\
        CreditOffer.interest_rate_monthly offer = 0.030 /\
        CreditOffer.approved_amount offer
        = (if listed "syntage"%string then 100000
           else if listed "google_places"%string || listed "facebook"%string
                   || listed "instagram"%string
                then 70000 else 60000)) /\
    runPrequalification clients (ApplicationDoc.merchant_id application) calls'
    = (inr {| PrequalOffers.base_amount := 50000;
              PrequalOffers.bureau_offer := 60000;
              PrequalOffers.social_offer := 70000;
              PrequalOffers.fiscal_offer := 100000 |},
       calls' ++ [Platform]).
Proof.
  intros Hb Hp.
  assert (Q : runPrequalification clients (ApplicationDoc.merchant_id application)
                calls'
              = (inr {| PrequalOffers.base_amount := 50000;
                        PrequalOffers.bureau_offer := 60000;
                        PrequalOffers.social_offer := 70000;
                        PrequalOffers.fiscal_offer := 100000 |},
                 calls' ++ [Platform])).
  { unfold runPrequalification, try_catch, bind, withTimeout, ret. rewrite Hp.
    destruct DEMO_MODE; reflexivity. }
  revert Q. generalize (runPrequalification clients
                          (ApplicationDoc.merchant_id application) calls').
  intros q Q.
  run_blocks application.
  rewrite Hb in K6. rewrite Hp in K7.
  assert (K6' : r6 = r6 /\ s6 = Some 720 /\ a6 = true)
    by (destruct DEMO_MODE; destruct K6 as (_ & -> & ->); repeat split).
  assert (K7' : (r7 = Some {| PlatformResult.avg_platform_gmv_6m := Some 900000;
                             PlatformResult.tenure_months := Some 36;
                             PlatformResult.pre_approved_amount := Some 50000;
                             PlatformResult.fetched_at := now2 |})
                /\ g7 = Some 900000 /\ t7 = Some 36 /\ a7 = true)
    by (destruct DEMO_MODE; destruct K7 as (-> & -> & -> & ->); repeat split).
  destruct K6' as (_ & -> & ->). destruct K7' as (-> & -> & -> & ->).
  cbv zeta.
  repeat match goal with |- _ /\ _ => split end; try reflexivity; try exact Q.
  - destruct a1, a2, a3, a4, a5; reflexivity.
  - destruct a1, a2, a3, a4, a5; reflexivity.
  - eexists. split; [reflexivity|]. split; [reflexivity|].
    destruct a1, a2, a3, a4, a5; reflexivity.
Qed.


End Runs.

Lemma listings_score_of_a_decision_is_bounded_witness :
  exists d,
    runUnderwriting Math_pow_model format_model format_model (envWithThreshold 50000)
      demoListingClients "t1" listedApplication []
    = (inr d, [Syntage; GooglePlaces; Twilio; Bureau; Platform]) /\
    DecisionPayload.places_signals_score (UnderwritingDecision.payload d) = 72 /\
    (0 <=? DecisionPayload.places_signals_score (UnderwritingDecision.payload d))
    = true /\
    (DecisionPayload.places_signals_score (UnderwritingDecision.payload d) <=? 90)
    = true.
Proof.
  destruct (listings_score_of_a_decision_is_bounded Math_pow_model format_model
              format_model (envWithThreshold 50000) demoListingClients "t1"
              listedApplication [] true ""%string silentApi "t0"%string eq_refl)
    as (d & E & H0 & H90).
  exists d. split; [exact E|]. split; [|split; assumption].
  assert (E' : exists d0,
             runUnderwriting Math_pow_model format_model format_model
               (envWithThreshold 50000) demoListingClients "t1" listedApplication []
             = (inr d0, [Syntage; GooglePlaces; Twilio; Bureau; Platform]) /\
             DecisionPayload.places_signals_score (UnderwritingDecision.payload d0)
             = 72)
    by (eexists; split; vm_compute; reflexivity).
  destruct E' as (d0 & E0 & H). rewrite E in E0. injection E0 as ->. exact H.
Defined.

Lemma offers_with_the_bureau_and_platform_stubs_witness :
  exists d offer,
    runUnderwriting Math_pow_model format_model format_model (envWithThreshold 50000)
      bureauAndPlatformClients "t1" bareApplication []
    = (inr d, [Syntage; Twilio; Bureau; Platform]) /\
    DecisionPayload.bureau_score (UnderwritingDecision.payload d) = Some 720 /\
    DecisionPayload.credit_offer (UnderwritingDecision.payload d) = Some offer /\
    CreditOffer.interest_rate_monthly offer = 0.030 /\
    CreditOffer.approved_amount offer = 60000.
Proof.
  destruct (offers_with_the_bureau_and_platform_stubs Math_pow_model format_model
              format_model (envWithThreshold 50000) bureauAndPlatformClients "t1"
              bareApplication [] [] false "t0"%string "t0"%string eq_refl eq_refl)
    as (d & E & B & _ & _ & _ & _ & (offer & O & R & A) & _).
  exists d, offer. split; [exact E|]. split; [exact B|]. split; [exact O|].
  split; [exact R|]. rewrite A.
  assert (E' : exists d0,
             runUnderwriting Math_pow_model format_model format_model
               (envWithThreshold 50000) bureauAndPlatformClients "t1"
               bareApplication []
             = (inr d0, [Syntage; Twilio; Bureau; Platform]) /\
             DecisionPayload.data_sources (UnderwritingDecision.payload d0)
             = ["bureau"; "platform"]%string)
    by (eexists; split; vm_compute; reflexivity).
  destruct E' as (d0 & E0 & H). rewrite E in E0. injection E0 as ->.
  rewrite H. reflexivity.
Defined.



(** ** How the clients of the repository fail *)

(** A request of the listings client that is rejected: the text search
    for an identifier that is not a place id, or the details request for
    the place id that the link or the text search gave. *)
Lemma getPlacesData_failed_request DEMO_MODE GOOGLE_PLACES_API_KEY api now
    mapsUrl identifier err :
  DEMO_MODE || negb (JS.nonempty GOOGLE_PLACES_API_KEY) = false ->
  Google.extractPlaceId mapsUrl = Some identifier ->
  (String.prefix "ChIJ" identifier = false /\
   Google.PlacesApi.findPlaceFromText api identifier = RejectedWith err) \/
  (String.prefix "ChIJ" identifier = true /\
   Google.PlacesApi.details api identifier = RejectedWith err) \/
  (exists placeId,
      String.prefix "ChIJ" identifier = false /\
      Google.PlacesApi.findPlaceFromText api identifier = Fulfilled (Some placeId) /\
      Google.PlacesApi.details api placeId = RejectedWith err) ->
  Google.getPlacesData DEMO_MODE GOOGLE_PLACES_API_KEY api now mapsUrl
  = Fulfilled (PlacesResult.not_connected now).
Proof.
  intros D X H. unfold Google.getPlacesData. rewrite D, X.
  destruct (negb (JS.nonempty identifier)); [reflexivity|].
  destruct H as [[P F]|[[P F]|(placeId & P & F & F')]]; rewrite P; cbn [negb].
  - rewrite F. reflexivity.
  - unfold Google.fetchDetails. rewrite F. reflexivity.
  - rewrite F. destruct (negb (JS.nonempty placeId)); [reflexivity|].
    unfold Google.fetchDetails. rewrite F'. reflexivity.
Qed.

(** X29.  Of the seven clients of the repository only the tax client can
    reject: it does so exactly when it is out of demo mode, has an API key
    and its request is rejected.  The bureau and platform clients always
    answer.  The listings, social and phone clients never reject, and
    every answer of theirs that is not connected is the result that
    carries nothing but the time.  Out of demo mode and with their
    credential set, a rejected request of theirs gives that result: the
    text search or the details request of the listings client, the page
    request of the Facebook client, the account or the profile request of
    the Instagram client, and the lookup of the phone client. *)
Theorem only_the_tax_client_rejects DEMO_MODE keys services syntageInTime clock :
  let clients := repositoryClients DEMO_MODE keys services syntageInTime clock in
  (forall merchantId err,
      Clients.getRevenueData clients merchantId = RejectedWith err <->
      DEMO_MODE
      || negb (JS.nonempty (nullish (Credentials.SYNTAGE_API_KEY keys) ""%string))
      = false /\
      Services.syntage services merchantId = RejectedWith err) /\
  (forall taxId, exists v, Clients.getScore clients taxId = Fulfilled v) /\
  (forall merchantId, exists v, Clients.getMerchantData clients merchantId = Fulfilled v) /\
  (forall mapsUrl,
      match Clients.getPlacesData clients mapsUrl with
      | Fulfilled v =>
          PlacesResult.connected v = false ->
          v = PlacesResult.not_connected (clock GooglePlaces)
      | RejectedWith _ => False
      | Pending => True
      end) /\
  (forall token,
      match Clients.getPageData clients token with
      | Fulfilled v =>
          FacebookResult.connected v = false ->
          v = FacebookResult.not_connected (clock Facebook)
      | RejectedWith _ => False
      | Pending => True
      end) /\
  (forall token,
      match Clients.getProfileData clients token with
      | Fulfilled v =>
          InstagramResult.connected v = false ->
          v = InstagramResult.not_connected (clock Instagram)
      | RejectedWith _ => False
      | Pending => True
      end) /\
  (forall phone firstName lastName,
      match Clients.verifyPhone clients phone firstName lastName with
      | Fulfilled v =>
          TwilioResult.connected v = false ->
          v = TwilioResult.not_connected (clock Twilio)
      | RejectedWith _ => False
      | Pending => True
      end) /\
  (DEMO_MODE || negb (JS.nonempty (Credentials.GOOGLE_PLACES_API_KEY keys)) = false ->
   forall mapsUrl identifier err,
     Google.extractPlaceId mapsUrl = Some identifier ->
     (String.prefix "ChIJ" identifier = false /\
      Google.PlacesApi.findPlaceFromText (Services.places services) identifier
      = RejectedWith err) \/
     (String.prefix "ChIJ" identifier = true /\
      Google.PlacesApi.details (Services.places services) identifier
      = RejectedWith err) \/
     (exists placeId,
         String.prefix "ChIJ" identifier = false /\
         Google.PlacesApi.findPlaceFromText (Services.places services) identifier
         = Fulfilled (Some placeId) /\
         Google.PlacesApi.details (Services.places services) placeId
         = RejectedWith err) ->
     Clients.getPlacesData clients mapsUrl
     = Fulfilled (PlacesResult.not_connected (clock GooglePlaces))) /\
  (DEMO_MODE || negb (JS.nonempty (Credentials.FACEBOOK_APP_ID keys)) = false ->
   (forall token err,
       GraphApi.firstPage (Services.graph services) token = RejectedWith err ->
       Clients.getPageData clients token
       = Fulfilled (FacebookResult.not_connected (clock Facebook))) /\
   (forall token err,
       GraphApi.instagramAccountId (Services.graph services) token = RejectedWith err \/
       (exists igAccountId,
           GraphApi.instagramAccountId (Services.graph services) token
           = Fulfilled (Some igAccountId) /\
           GraphApi.profile (Services.graph services) igAccountId token
           = RejectedWith err) ->
       Clients.getProfileData clients token
       = Fulfilled (InstagramResult.not_connected (clock Instagram)))) /\
  (DEMO_MODE || negb (JS.nonempty (Credentials.TWILIO_ACCOUNT_SID keys)) = false ->
   forall phone firstName lastName err,
     Services.lookup services phone (TwilioClient.fields firstName lastName)
       (if JS.nonempty firstName then Some firstName else None)
       (if JS.nonempty lastName then Some lastName else None)
     = RejectedWith err ->
     Clients.verifyPhone clients phone firstName lastName
     = Fulfilled (TwilioResult.not_connected (clock Twilio))).
Proof.
  intros clients. unfold clients, repositoryClients.
  cbn [Clients.getRevenueData Clients.getScore Clients.getMerchantData
       Clients.getPlacesData Clients.getPageData Clients.getProfileData
       Clients.verifyPhone].
  repeat match goal with |- _ /\ _ => split end.
  - intros merchantId err. unfold SyntageClient.getRevenueData.
    destruct (DEMO_MODE || negb (JS.nonempty _)).
    + destruct syntageInTime;
        (split; intros H; [discriminate H|destruct H as [H _]; discriminate H]).
    + split; [intros H; split; [reflexivity|exact H]|intros [_ H]; exact H].
  - intros taxId. unfold BureauClient.getScore. destruct DEMO_MODE; eexists; reflexivity.
  - intros merchantId. unfold PlatformClient.getMerchantData.
    destruct DEMO_MODE; eexists; reflexivity.
  - intros mapsUrl.
    pose proof (getPlacesData_never_rejects DEMO_MODE
                  (Credentials.GOOGLE_PLACES_API_KEY keys) (Services.places services)
                  (clock GooglePlaces) mapsUrl) as R.
    pose proof (getPlacesData_not_connected DEMO_MODE
                  (Credentials.GOOGLE_PLACES_API_KEY keys) (Services.places services)
                  (clock GooglePlaces) mapsUrl) as A.
    destruct (Google.getPlacesData _ _ _ _ mapsUrl) as [v|err|];
      [|exact (R err eq_refl)|exact I].
    intros C. exact (A v eq_refl C).
  - intros token. unfold FacebookClient.getPageData.
    destruct (DEMO_MODE || negb (JS.nonempty _)); [discriminate|].
    destruct (GraphApi.firstPage _ token) as [[page|]|err|];
      first [discriminate | reflexivity | exact I].
  - intros token. unfold InstagramClient.getProfileData.
    destruct (DEMO_MODE || negb (JS.nonempty _)); [discriminate|].
    destruct (GraphApi.instagramAccountId _ token) as [[igAccountId|]|err|];
      try first [discriminate | reflexivity | exact I].
    destruct (negb (JS.nonempty igAccountId)); [reflexivity|].
    destruct (GraphApi.profile _ igAccountId token) as [ig|err|];
      first [discriminate | reflexivity | exact I].
  - intros phone firstName lastName. unfold TwilioClient.verifyPhone.
    destruct (DEMO_MODE || negb (JS.nonempty _)); [discriminate|].
    destruct (Services.lookup _ _ _ _ _) as [data|err|];
      first [discriminate | reflexivity | exact I].
  - intros D mapsUrl identifier err X H.
    exact (getPlacesData_failed_request _ _ _ _ mapsUrl identifier err D X H).
  - intros D. split.
    + intros token err H. unfold FacebookClient.getPageData.
      rewrite D, H. reflexivity.
    + intros token err H. unfold InstagramClient.getProfileData. rewrite D.
      destruct H as [H|(igAccountId & H & H')]; rewrite H; [reflexivity|].
      destruct (negb (JS.nonempty igAccountId)); [reflexivity|].
      rewrite H'. reflexivity.
  - intros D phone firstName lastName err H. unfold TwilioClient.verifyPhone.
    rewrite D, H. reflexivity.
Qed.


(** * Binary64 numbers and the rationals they stand for *)

Section ExactFacts.
Import QArith Qround Qabs.
Local Open Scope Z_scope.

Lemma round_half_up_exact s m e :
  JS.round_half_up s m e = Exact.round (Exact.ofFinite s m e).
Proof.
  unfold JS.round_half_up, Exact.round, Exact.ofFinite.
  set (n := cond_Zopp s (Z.pos m)).
  destruct e as [|p|k].
  - unfold Qfloor, Qplus, inject_Z. cbn [Qnum Qden].
    rewrite Z.pow_0_r, Z.mul_1_r. change (Z.pos (1 * 2)) with 2.
    rewrite Z.mul_1_l. apply Z.div_unique with (r := 1); lia.
  - unfold Qfloor, Qplus, inject_Z. cbn [Qnum Qden].
    change (Z.pos (1 * 2)) with 2. rewrite Z.mul_1_l.
    apply Z.div_unique with (r := 1); lia.
  - unfold Qfloor, Qplus. cbn [Qnum Qden].
    rewrite Pos2Z.inj_mul, Pos2Z.inj_pow. change (Z.pos 2) with 2.
    rewrite Z.mul_1_l.
    assert (E : 2 ^ Z.pos k = 2 * 2 ^ (Z.pos k - 1)) by (apply pow2_pred; lia).
    assert (P : 0 < 2 ^ (Z.pos k - 1)) by (apply pow2_pos; lia).
    replace (n * 2 + 2 ^ Z.pos k) with ((n + 2 ^ (Z.pos k - 1)) * 2) by lia.
    rewrite Z.div_mul_cancel_r by lia. reflexivity.
Qed.


Lemma binary_round_sign s m e mr er :
  binary_round prec emax false m e = S754_finite false mr er ->
  binary_round prec emax s m e = S754_finite s mr er.
Proof.
  rewrite !binary_round_spec.
  destruct (rnd_pair _ _) as [a x]. unfold of_pair. cbn [fst snd].
  destruct a; try discriminate.
  destruct (x <=? 971); try discriminate.
  intros H. injection H as -> ->. reflexivity.
Qed.

(** A mantissa and an exponent that stand for the integer [n]. *)
Lemma ofFinite_integer s m e n :
  -52 <= e -> Z.pos m * 2 ^ (e + 52) = n * 2 ^ 52 ->
  Exact.ofFinite s m e == inject_Z (cond_Zopp s n).
Proof.
  intros He Hv. unfold Exact.ofFinite.
  assert (P52 : 0 < 2 ^ 52) by reflexivity.
  destruct e as [|p|k].
  - change (2 ^ (0 + 52)) with (2 ^ 52) in Hv.
    assert (Z.pos m = n) by nia. subst n.
    rewrite Z.pow_0_r, Z.mul_1_r. reflexivity.
  - rewrite Z.pow_add_r in Hv by lia.
    assert (Z.pos m * 2 ^ Z.pos p = n) by nia. subst n.
    destruct s; cbn [cond_Zopp]; [rewrite Z.mul_opp_l|]; reflexivity.
  - unfold Qeq, inject_Z. cbn [Qnum Qden].
    rewrite Pos2Z.inj_pow. change (Z.pos 2) with 2.
    assert (S : 2 ^ 52 = 2 ^ (Z.neg k + 52) * 2 ^ Z.pos k).
    { rewrite <- Z.pow_add_r by lia. f_equal. lia. }
    assert (P : 0 < 2 ^ (Z.neg k + 52)) by (apply pow2_pos; lia).
    assert (E : Z.pos m = n * 2 ^ Z.pos k).
    { rewrite S in Hv. nia. }
    destruct s; cbn [cond_Zopp]; rewrite E; ring.
Qed.

(** The integers up to [2^53] in magnitude are binary64 numbers. *)
Lemma normalize_represents n s :
  - 2 ^ 53 <= n <= 2 ^ 53 ->
  Prim2SF (SF2Prim (binary_normalize prec emax n 0 s))
  = binary_normalize prec emax n 0 s /\
  Exact.represents (SF2Prim (binary_normalize prec emax n 0 s)) (inject_Z n).
Proof.
  intros Hn.
  assert (E : Prim2SF (SF2Prim (binary_normalize prec emax n 0 s))
              = binary_normalize prec emax n 0 s)
    by apply Prim2SF_SF2Prim, binary_normalize_valid.
  split; [exact E|]. unfold Exact.represents, Exact.value. rewrite E.
  destruct n as [|p|p]; cbn [binary_normalize].
  - reflexivity.
  - destruct (SFint_repr (Z.pos p) ltac:(lia)) as (m & e & Em & V & B & R).
    unfold SFint in Em. cbn [binary_normalize] in Em. rewrite Em.
    apply (ofFinite_integer false m e (Z.pos p)); [lia|exact R].
  - destruct (SFint_repr (Z.pos p) ltac:(lia)) as (m & e & Em & V & B & R).
    unfold SFint in Em. cbn [binary_normalize] in Em.
    rewrite (binary_round_sign true p 0 m e Em).
    apply (ofFinite_integer true m e (Z.pos p)); [lia|exact R].
Qed.

Lemma represents_unique x q q' :
  Exact.represents x q -> Exact.represents x q' -> q == q'.
Proof.
  unfold Exact.represents. destruct (Exact.value x) as [v|]; [|contradiction].
  intros H H'. rewrite <- H. exact H'.
Qed.

Lemma represents_eq x q q' : q == q' -> Exact.represents x q -> Exact.represents x q'.
Proof.
  unfold Exact.represents. destruct (Exact.value x) as [v|]; [|contradiction].
  intros E H. rewrite H. exact E.
Qed.

Lemma round_bounds q :
  Exact.atMost q (2 ^ 53) -> - 2 ^ 53 <= Exact.round q <= 2 ^ 53.
Proof.
  unfold Exact.atMost, Exact.round. intros H.
  apply Qabs_Qle_condition in H. destruct H as [L U].
  split.
  - rewrite <- (Qfloor_Z (- 2 ^ 53)). apply Qfloor_resp_le.
    apply Qle_trans with q; [exact L|].
    rewrite <- (Qplus_0_r q) at 1. apply Qplus_le_r. discriminate.
  - apply Z.le_trans with (Qfloor (inject_Z (2 ^ 53) + (1 # 2)));
      [|vm_compute; discriminate].
    apply Qfloor_resp_le. apply Qplus_le_l. exact U.
Qed.

(** [Math.round] of a finite number of magnitude at most [2^53] is the
    integer nearest to it, the upper one on a tie. *)
Lemma Math_round_exact x q :
  Exact.represents x q -> Exact.atMost q (2 ^ 53) ->
  Exact.represents (JS.Math_round x) (Exact.integer (Exact.round q)).
Proof.
  intros R B. pose proof (round_bounds q B) as Bn.
  unfold Exact.represents, Exact.value in R. unfold JS.Math_round.
  destruct (Prim2SF x) as [s'| | |s m e] eqn:Ex; try contradiction.
  - assert (Eq : Exact.round q = 0).
    { unfold Exact.round. rewrite <- R. reflexivity. }
    rewrite Eq. unfold Exact.represents, Exact.value. rewrite Ex. reflexivity.
  - assert (Eq : Exact.round q = JS.round_half_up s m e).
    { rewrite round_half_up_exact. unfold Exact.round. rewrite <- R. reflexivity. }
    rewrite Eq in *. apply normalize_represents. exact Bn.
Qed.


Lemma represents_SFint x k :
  0 <= k <= 2 ^ 53 -> Prim2SF x = SFint k -> Exact.represents x (Exact.integer k).
Proof.
  intros Hk E. destruct (normalize_represents k false ltac:(lia)) as [_ R].
  fold (SFint k) in R. rewrite <- E, SF2Prim_Prim2SF in R. exact R.
Qed.

Lemma represents_zero x s :
  Prim2SF x = S754_zero s -> Exact.represents x (Exact.integer 0).
Proof. intros E. unfold Exact.represents, Exact.value. rewrite E. reflexivity. Qed.

Lemma represents_finite x s m e :
  Prim2SF x = S754_finite s m e -> Exact.represents x (Exact.ofFinite s m e).
Proof. intros E. unfold Exact.represents, Exact.value. rewrite E. reflexivity. Qed.

End ExactFacts.


(** * The rounding error of a product *)

Section RoundingError.
Local Open Scope Z_scope.

(** [rnd_div] rounds to a nearest integer. *)
Lemma rnd_div_nearest M D : 0 < D -> 2 * Z.abs (rnd_div M D * D - M) <= D.
Proof.
  intros HD. unfold rnd_div.
  pose proof (Z.div_mod M D ltac:(lia)) as E.
  pose proof (Z.mod_pos_bound M D HD) as B.
  destruct (Z.compare_spec (2 * (M mod D)) D) as [C|C|C];
    [destruct (Z.even (M / D))|..]; nia.
Qed.

(** A value [m * 2^e] of the normal range is rounded with a relative error
    of at most [2^-53]: the rounded mantissa, brought back to the exponent
    [e], differs from [m] by at most [m / 2^53]. *)
Lemma rnd_pair_error m e :
  0 < m -> e <= fexp64 (Zdigits2 m + e) -> -1074 <= Zdigits2 m + e - 53 ->
  e <= snd (rnd_pair m e) /\
  0 < fst (rnd_pair m e) /\
  snd (rnd_pair m e) <= Zdigits2 m + e - 52 /\
  2 ^ 53 * Z.abs (fst (rnd_pair m e) * 2 ^ (snd (rnd_pair m e) - e) - m) <= m.
Proof.
  intros Hm He Hn.
  assert (HE : fexp64 (Zdigits2 m + e) = Zdigits2 m + e - 53) by (unfold fexp64; lia).
  pose proof (rnd_first_normal m e Hm He HE) as L.
  pose proof (rnd_first_bound m e Hm He) as U.
  unfold rnd_pair. set (E := fexp64 (Zdigits2 m + e)) in *.
  assert (HD : 0 < 2 ^ (E - e)) by (apply pow2_pos; lia).
  pose proof (rnd_div_nearest m (2 ^ (E - e)) HD) as N.
  set (m1 := rnd_div m (2 ^ (E - e))) in *.
  pose proof (Zdigits2_spec m Hm) as Dm.
  assert (P52 : 0 < 2 ^ 52) by reflexivity.
  assert (S : 2 ^ (Zdigits2 m - 1) = 2 ^ 52 * 2 ^ (E - e)).
  { rewrite <- Z.pow_add_r by lia. f_equal. lia. }
  assert (R : 2 ^ 53 * Z.abs (m1 * 2 ^ (E - e) - m) <= m).
  { change (2 ^ 53) with (2 ^ 52 * 2). nia. }
  destruct (Z.eqb_spec m1 (2 ^ 53)) as [Q|Q]; cbn [fst snd].
  - split; [lia|]. split; [lia|]. split; [lia|].
    replace (E + 1 - e) with (1 + (E - e)) by lia.
    rewrite Z.pow_add_r by lia. change (2 ^ 1) with 2.
    rewrite Q in R. change (2 ^ 53) with (2 ^ 52 * 2) in R at 2.
    replace (2 ^ 52 * (2 * 2 ^ (E - e))) with (2 ^ 52 * 2 * 2 ^ (E - e)) by ring.
    exact R.
  - split; [lia|]. split; [lia|]. split; [lia|]. exact R.
Qed.

End RoundingError.


(** ** The error of a product, over the rationals *)

Section ProductError.
Import QArith Qround Qabs Qpower Lqa.
Local Open Scope Q_scope.

Lemma pow2_Q_pos e : 0 < 2 ^ e.
Proof. apply Qpower_0_lt. reflexivity. Qed.

Lemma pow2_Q_inject k : (0 <= k)%Z -> inject_Z (2 ^ k) == 2 ^ k.
Proof. intros H. rewrite Zpower_Qpower by assumption. reflexivity. Qed.

(** The value of a finite number is its mantissa times a power of 2. *)
Lemma ofFinite_pow s m e :
  Exact.ofFinite s m e == inject_Z (cond_Zopp s (Z.pos m)) * 2 ^ e.
Proof.
  unfold Exact.ofFinite. destruct e as [|p|k].
  - rewrite Z.pow_0_r, Z.mul_1_r. change (2 ^ 0) with 1. ring.
  - rewrite inject_Z_mult, pow2_Q_inject by lia. reflexivity.
  - rewrite Qmake_Qdiv. rewrite Pos2Z.inj_pow. change (Z.pos 2) with 2%Z.
    rewrite pow2_Q_inject by lia.
    change (2 ^ Z.neg k) with (/ 2 ^ Z.pos k). reflexivity.
Qed.


Lemma pow2_Q_plus a b : 2 ^ (a + b) == 2 ^ a * 2 ^ b.
Proof. apply Qpower_plus. discriminate. Qed.

Lemma pow2_Q_le a b : (a <= b)%Z -> 2 ^ a <= 2 ^ b.
Proof. intros H. apply Qpower_le_compat_l; [exact H|discriminate]. Qed.

(** The exponent of a value that is at least [2^-100], and of one that is
    at most [2^100]. *)
Lemma exponent_lower m e d :
  (0 < m <= 2 ^ d)%Z -> (0 <= d)%Z -> 2 ^ (-100) <= inject_Z m * 2 ^ e ->
  (-100 <= d + e)%Z.
Proof.
  intros [Hm Hd] Hd0 H.
  destruct (Z.lt_ge_cases (d + e) (-100)) as [C|C]; [exfalso|exact C].
  assert (L : inject_Z m * 2 ^ e <= 2 ^ (d + e)).
  { pose proof (pow2_Q_plus d e) as E1. pose proof (pow2_Q_inject d Hd0) as E2.
    assert (M : inject_Z m * 2 ^ e <= inject_Z (2 ^ d) * 2 ^ e).
    { apply Qmult_le_compat_r; [|apply Qlt_le_weak, pow2_Q_pos].
      rewrite <- Zle_Qle. exact Hd. }
    rewrite E1, <- E2. exact M. }
  assert (U : 2 ^ (d + e) <= 2 ^ (-101)) by (apply pow2_Q_le; lia).
  assert (S : 2 ^ (-101) < 2 ^ (-100)) by reflexivity.
  lra.
Qed.

Lemma exponent_upper m e d :
  (2 ^ (d - 1) <= m)%Z -> (1 <= d)%Z -> inject_Z m * 2 ^ e <= 2 ^ 100 ->
  (d - 1 + e <= 100)%Z.
Proof.
  intros Hm Hd H.
  destruct (Z.le_gt_cases (d - 1 + e) 100) as [C|C]; [exact C|exfalso].
  assert (L : 2 ^ (d - 1 + e) <= inject_Z m * 2 ^ e).
  { pose proof (pow2_Q_plus (d - 1) e) as E1.
    pose proof (pow2_Q_inject (d - 1) ltac:(lia)) as E2.
    assert (M : inject_Z (2 ^ (d - 1)) * 2 ^ e <= inject_Z m * 2 ^ e).
    { apply Qmult_le_compat_r; [|apply Qlt_le_weak, pow2_Q_pos].
      rewrite <- Zle_Qle. exact Hm. }
    rewrite E1, <- E2. exact M. }
  assert (U : 2 ^ 101 <= 2 ^ (d - 1 + e)) by (apply pow2_Q_le; lia).
  assert (S : 2 ^ 100 < 2 ^ 101) by reflexivity.
  lra.
Qed.

(** A finite number with a positive value. *)
Lemma represents_pos x X :
  Exact.represents x X -> 0 < X ->
  exists m e, Prim2SF x = S754_finite false m e /\ X == inject_Z (Z.pos m) * 2 ^ e.
Proof.
  unfold Exact.represents, Exact.value. intros R P.
  destruct (Prim2SF x) as [s| | |s m e]; try contradiction.
  - exfalso. lra.
  - rewrite ofFinite_pow in R. destruct s; cbn [cond_Zopp] in R.
    + exfalso. pose proof (pow2_Q_pos e) as Q.
      assert (N : inject_Z (- Z.pos m) * 2 ^ e < 0).
      { rewrite <- (Qmult_0_l (2 ^ e)). apply Qmult_lt_compat_r; [exact Q|].
        change 0 with (inject_Z 0). rewrite <- Zlt_Qlt. lia. }
      lra.
    + exists m, e. split; [reflexivity|]. symmetry. exact R.
Qed.

(** The binary64 product of two positive numbers whose exact product lies
    between [2^-100] and [2^100] has a relative error of at most [2^-53]. *)
Lemma mul_error x c X C :
  Exact.represents x X -> Exact.represents c C -> 0 < X -> 0 < C ->
  2 ^ (-100) <= X * C -> X * C <= 2 ^ 100 ->
  exists Y,
    Exact.represents (x * c)%float Y /\
    X * C * (1 - 2 ^ (-53)) <= Y /\ Y <= X * C * (1 + 2 ^ (-53)).
Proof.
  intros Rx Rc Px Pc L U.
  destruct (represents_pos x X Rx Px) as (mx & ex & Ex & Vx).
  destruct (represents_pos c C Rc Pc) as (mc & ec & Ec & Vc).
  assert (Wx : valid_binary (S754_finite false mx ex) = true)
    by (rewrite <- Ex; apply Prim2SF_valid).
  assert (Wc : valid_binary (S754_finite false mc ec) = true)
    by (rewrite <- Ec; apply Prim2SF_valid).
  assert (Ep : Prim2SF (x * c)%float
               = of_pair false (rnd_pair (Z.pos mx * Z.pos mc) (ex + ec))).
  { rewrite mul_spec, Ex, Ec. apply (SFmul_finite false mx ex false mc ec Wx Wc). }
  set (m := (Z.pos mx * Z.pos mc)%Z) in *. set (e := (ex + ec)%Z) in *.
  assert (Hm : (0 < m)%Z) by (unfold m; lia).
  assert (V : X * C == inject_Z m * 2 ^ e).
  { rewrite Vx, Vc. unfold m, e. rewrite inject_Z_mult, pow2_Q_plus. ring. }
  pose proof (Zdigits2_spec m Hm) as Dm. pose proof (Zdigits2_pos m Hm) as Dp.
  assert (Lo : (-100 <= Zdigits2 m + e)%Z).
  { apply (exponent_lower m e (Zdigits2 m)); [lia|lia|]. rewrite <- V. exact L. }
  assert (Hi : (Zdigits2 m - 1 + e <= 100)%Z).
  { apply (exponent_upper m e (Zdigits2 m)); [lia|lia|]. rewrite <- V. exact U. }
  pose proof (mul_pre mx ex mc ec Wx Wc) as Pre. fold m e in Pre.
  destruct (rnd_pair_error m e Hm Pre ltac:(lia)) as (R1 & R2 & R3 & R4).
  destruct (rnd_pair m e) as [m1 E]. cbn [fst snd] in *.
  unfold of_pair in Ep. cbn [fst snd] in Ep.
  destruct m1 as [|m1|m1]; try lia.
  assert (HE : (E <=? 971)%Z = true) by (apply Z.leb_le; lia).
  rewrite HE in Ep.
  exists (Exact.ofFinite false m1 E). split; [exact (represents_finite _ _ _ _ Ep)|].
  rewrite ofFinite_pow. cbn [cond_Zopp].
  assert (S : 2 ^ E == inject_Z (2 ^ (E - e)) * 2 ^ e).
  { rewrite pow2_Q_inject by lia. rewrite <- pow2_Q_plus. f_equiv. lia. }
  rewrite S, V.
  pose proof (pow2_Q_pos e) as Pe.
  set (k := (Z.pos m1 * 2 ^ (E - e))%Z) in *.
  assert (K : inject_Z (Z.pos m1) * (inject_Z (2 ^ (E - e)) * 2 ^ e)
              == inject_Z k * 2 ^ e) by (unfold k; rewrite inject_Z_mult; ring).
  rewrite K.
  assert (A : (2 ^ 53 * (k - m) <= m /\ 2 ^ 53 * (m - k) <= m)%Z) by lia.
  destruct A as [A1 A2].
  rewrite Zle_Qle in A1, A2. rewrite inject_Z_mult in A1, A2.
  unfold Z.sub in A1, A2. rewrite inject_Z_plus, inject_Z_opp in A1, A2.
  change (inject_Z (2 ^ 53)) with 9007199254740992 in A1, A2.
  change (2 ^ (-53)) with (1 # 9007199254740992).
  clear K S V. set (qm := inject_Z m) in *. set (qk := inject_Z k) in *.
  set (p := 2 ^ e) in *. clearbody qm qk p.
  split.
  - assert (G : qm * (1 - (1 # 9007199254740992)) <= qk) by lra.
    apply (Qmult_le_compat_r _ _ p) in G; [|lra]. lra.
  - assert (G : qk <= qm * (1 + (1 # 9007199254740992))) by lra.
    apply (Qmult_le_compat_r _ _ p) in G; [|lra]. lra.
Qed.

End ProductError.


(** * The product of the factors in binary64 and over the rationals

    A binary64 number [x] is enclosed by [E], [a] and [b] when it is finite
    and its value lies between [E * a] and [E * b]; [a] and [b] bound the
    relative error that [x] makes as an approximation of [E]. *)

Section ExactProduct.
Import QArith Qround Qabs Qpower Lqa.
Local Open Scope Q_scope.

Lemma enclosedb_true x E a b : Exact.enclosedb x E a b = true -> Exact.enclosed x E a b.
Proof.
  unfold Exact.enclosedb, Exact.enclosed, Exact.represents.
  destruct (Exact.value x) as [X|]; [|discriminate].
  intros H. apply andb_true_iff in H. destruct H as [H1 H2].
  apply Qle_bool_iff in H1, H2. exists X. split; [reflexivity|split; assumption].
Qed.

Lemma enclosed_weaken x E E' a b a' b' :
  Exact.enclosed x E a b -> E == E' -> 0 <= E -> a' <= a -> b <= b' ->
  Exact.enclosed x E' a' b'.
Proof.
  intros (X & R & L & U) HE P Ha Hb. exists X. split; [exact R|].
  rewrite <- HE. split.
  - apply Qle_trans with (E * a); [|exact L].
    rewrite !(Qmult_comm E). apply Qmult_le_compat_r; assumption.
  - apply Qle_trans with (E * b); [exact U|].
    rewrite !(Qmult_comm E). apply Qmult_le_compat_r; assumption.
Qed.

(** One factor more: the relative error grows by at most [2^-51]. *)
Lemma mul_enclosed x c E D a b lo hi :
  Exact.enclosed x E a b /\ lo <= E /\ E <= hi ->
  Exact.enclosed c D (1 - 2 ^ (-52)) (1 + 2 ^ (-52)) /\ (4 # 5) <= D /\ D <= (6 # 5) ->
  2 ^ (-90) <= lo -> hi <= 2 ^ 90 -> (1 # 2) <= a -> a <= b -> b <= 2 ->
  Exact.enclosed (x * c)%float (E * D) (a * (1 - 2 ^ (-51))) (b * (1 + 2 ^ (-51))) /\
  lo * (4 # 5) <= E * D /\ E * D <= hi * (6 # 5).
Proof.
  intros ((X & Rx & Lx & Ux) & Lo & Hi) ((C & Rc & Lc & Uc) & Dl & Dh) Hlo Hhi Ha Hab Hb.
  assert (P90 : 0 < 2 ^ (-90)) by reflexivity.
  assert (Plo : 0 < lo) by (apply Qlt_le_trans with (2 ^ (-90)); assumption).
  assert (E0 : 0 < E) by (apply Qlt_le_trans with lo; assumption).
  assert (Ea : 2 ^ (-91) <= E * a).
  { apply Qle_trans with (2 ^ (-90) * (1 # 2)); [apply Qle_bool_iff; reflexivity|].
    apply Qmult_le_compat_nonneg; split; lra. }
  assert (Eb : E * b <= 2 ^ 91).
  { apply Qle_trans with (2 ^ 90 * 2); [|apply Qle_bool_iff; reflexivity].
    assert (0 <= b) by lra.
    apply Qmult_le_compat_nonneg; split; lra. }
  assert (Dv : (3 # 4) <= D * (1 - 2 ^ (-52))).
  { apply Qle_trans with ((4 # 5) * (1 - 2 ^ (-52))); [apply Qle_bool_iff; reflexivity|].
    apply Qmult_le_compat_r; [exact Dl|apply Qle_bool_iff; reflexivity]. }
  assert (Dw : D * (1 + 2 ^ (-52)) <= (5 # 4)).
  { apply Qle_trans with ((6 # 5) * (1 + 2 ^ (-52))); [|apply Qle_bool_iff; reflexivity].
    apply Qmult_le_compat_r; [exact Dh|apply Qle_bool_iff; reflexivity]. }
  assert (P91 : 0 < 2 ^ (-91)) by reflexivity.
  assert (X0 : 0 < X) by lra. assert (C0 : 0 < C) by lra.
  assert (L1 : (E * a) * (D * (1 - 2 ^ (-52))) <= X * C).
  { apply Qmult_le_compat_nonneg; split; lra. }
  assert (U1 : X * C <= (E * b) * (D * (1 + 2 ^ (-52)))).
  { apply Qmult_le_compat_nonneg; split; lra. }
  assert (L2 : 2 ^ (-100) <= X * C).
  { apply Qle_trans with (2 ^ (-91) * (3 # 4)); [apply Qle_bool_iff; reflexivity|].
    apply Qle_trans with ((E * a) * (D * (1 - 2 ^ (-52)))); [|exact L1].
    apply Qmult_le_compat_nonneg; split; lra. }
  assert (U2 : X * C <= 2 ^ 100).
  { apply Qle_trans with (2 ^ 91 * (5 # 4)); [|apply Qle_bool_iff; reflexivity].
    apply Qle_trans with ((E * b) * (D * (1 + 2 ^ (-52)))); [exact U1|].
    apply Qmult_le_compat_nonneg; split; lra. }
  destruct (mul_error x c X C Rx Rc X0 C0 L2 U2) as (Y & Ry & Ly & Uy).
  split; [|split].
  - exists Y. split; [exact Ry|]. split.
    + apply Qle_trans with (X * C * (1 - 2 ^ (-53))); [|exact Ly].
      apply Qle_trans with ((E * a) * (D * (1 - 2 ^ (-52))) * (1 - 2 ^ (-53))).
      * assert (T : E * D * (a * (1 - 2 ^ (-51)))
                    == (E * a * D) * (1 - 2 ^ (-51))) by ring.
        assert (T' : E * a * (D * (1 - 2 ^ (-52))) * (1 - 2 ^ (-53))
                     == (E * a * D) * ((1 - 2 ^ (-52)) * (1 - 2 ^ (-53)))) by ring.
        rewrite T, T'. rewrite !(Qmult_comm (E * a * D)).
        apply Qmult_le_compat_r; [apply Qle_bool_iff; reflexivity|].
        apply Qmult_le_0_compat; [|lra]. apply Qmult_le_0_compat; lra.
      * apply Qmult_le_compat_r; [exact L1|apply Qle_bool_iff; reflexivity].
    + apply Qle_trans with (X * C * (1 + 2 ^ (-53))); [exact Uy|].
      apply Qle_trans with ((E * b) * (D * (1 + 2 ^ (-52))) * (1 + 2 ^ (-53))).
      * apply Qmult_le_compat_r; [exact U1|apply Qle_bool_iff; reflexivity].
      * assert (T : E * D * (b * (1 + 2 ^ (-51)))
                    == (E * b * D) * (1 + 2 ^ (-51))) by ring.
        assert (T' : E * b * (D * (1 + 2 ^ (-52))) * (1 + 2 ^ (-53))
                     == (E * b * D) * ((1 + 2 ^ (-52)) * (1 + 2 ^ (-53)))) by ring.
        rewrite T, T'. rewrite !(Qmult_comm (E * b * D)).
        apply Qmult_le_compat_r; [apply Qle_bool_iff; reflexivity|].
        assert (0 <= b) by lra.
        apply Qmult_le_0_compat; [|lra]. apply Qmult_le_0_compat; lra.
  - assert (0 <= lo) by lra. apply Qmult_le_compat_nonneg; split; lra.
  - apply Qmult_le_compat_nonneg; split; lra.
Qed.


(** ** The factors and the decimal numbers they stand for *)

Ltac closed_factor :=
  split; [apply enclosedb_true; vm_compute; reflexivity
         |split; apply Qle_bool_iff; reflexivity].

Lemma social_enclosed fb ig :
  Exact.enclosed (Formula.socialBoost fb ig) (Exact.socialBoost fb ig)
    (1 - 2 ^ (-52)) (1 + 2 ^ (-52)) /\
  (4 # 5) <= Exact.socialBoost fb ig /\ Exact.socialBoost fb ig <= (6 # 5).
Proof.
  unfold Formula.socialBoost, Exact.socialBoost, Formula.facebookTier,
    Exact.facebookTier, Formula.instagramTier, Exact.instagramTier.
  destruct fb as [f|], ig as [i|];
    repeat match goal with |- context [if ?c then _ else _] => destruct c end;
    closed_factor.
Qed.

Lemma phone_enclosed im wa ss :
  (Exact.enclosed (Formula.identityBoost im) (Exact.identityBoost im)
     (1 - 2 ^ (-52)) (1 + 2 ^ (-52)) /\
   (4 # 5) <= Exact.identityBoost im /\ Exact.identityBoost im <= (6 # 5)) /\
  (Exact.enclosed (Formula.messagingBoost wa) (Exact.messagingBoost wa)
     (1 - 2 ^ (-52)) (1 + 2 ^ (-52)) /\
   (4 # 5) <= Exact.messagingBoost wa /\ Exact.messagingBoost wa <= (6 # 5)) /\
  (Exact.enclosed (Formula.simSwapPenalty ss) (Exact.simSwapPenalty ss)
     (1 - 2 ^ (-52)) (1 + 2 ^ (-52)) /\
   (4 # 5) <= Exact.simSwapPenalty ss /\ Exact.simSwapPenalty ss <= (6 # 5)).
Proof.
  destruct im as [[|]|], wa as [[|]|], ss as [[|]|];
    (split; [|split]); closed_factor.
Qed.

Lemma multipliers_enclosed bureau tenure compliant :
  (Exact.enclosed (Formula.bureauMultiplier bureau) (Exact.bureauMultiplier bureau)
     (1 - 2 ^ (-52)) (1 + 2 ^ (-52)) /\
   (4 # 5) <= Exact.bureauMultiplier bureau /\ Exact.bureauMultiplier bureau <= (6 # 5)) /\
  (Exact.enclosed (Formula.tenureMultiplier tenure) (Exact.tenureMultiplier tenure)
     (1 - 2 ^ (-52)) (1 + 2 ^ (-52)) /\
   (4 # 5) <= Exact.tenureMultiplier tenure /\ Exact.tenureMultiplier tenure <= (6 # 5)) /\
  (Exact.enclosed (Formula.complianceMultiplier compliant)
     (Exact.complianceMultiplier compliant) (1 - 2 ^ (-52)) (1 + 2 ^ (-52)) /\
   (4 # 5) <= Exact.complianceMultiplier compliant /\
   Exact.complianceMultiplier compliant <= (6 # 5)).
Proof.
  unfold Formula.bureauMultiplier, Exact.bureauMultiplier, Formula.tenureMultiplier,
    Exact.tenureMultiplier, Formula.complianceMultiplier, Exact.complianceMultiplier.
  destruct bureau as [s|], tenure as [t|], compliant;
    repeat match goal with |- context [if ?c then _ else _] => destruct c end;
    (split; [|split]); closed_factor.
Qed.

(** A finite number whose value is a whole number up to [2^53]. *)
Lemma represents_integer_inv x k :
  (0 <= k <= 2 ^ 53)%Z -> Exact.represents x (inject_Z k) ->
  x = SF2Prim (SFint k) \/ (k = 0%Z /\ x = SF2Prim (S754_zero true)).
Proof.
  intros Hk R. destruct (Z.eq_dec k 0) as [->|Hk0].
  - unfold Exact.represents, Exact.value in R.
    destruct (Prim2SF x) as [s| | |s m e] eqn:Ex; try contradiction.
    + rewrite <- (SF2Prim_Prim2SF x), Ex. destruct s; [right; split|left]; reflexivity.
    + exfalso. rewrite ofFinite_pow in R. pose proof (pow2_Q_pos e) as P.
      assert (N : ~ inject_Z (cond_Zopp s (Z.pos m)) == 0).
      { unfold Qeq. cbn [Qnum Qden inject_Z]. destruct s; cbn [cond_Zopp]; lia. }
      apply N. change (inject_Z 0) with 0 in R.
      apply Qmult_integral in R. destruct R as [R|R]; [exact R|]. lra.
  - left. assert (Pk : 0 < inject_Z k).
    { change 0 with (inject_Z 0). rewrite <- Zlt_Qlt. lia. }
    destruct (represents_pos x _ R Pk) as (m & e & Ex & V).
    assert (W : valid_binary (S754_finite false m e) = true)
      by (rewrite <- Ex; apply Prim2SF_valid).
    pose proof (valid_mantissa _ _ _ W) as Hm.
    assert (Z1 : (-52 <= e /\ Z.pos m * 2 ^ (e + 52) = k * 2 ^ 52)%Z).
    { destruct (Z.lt_ge_cases e 0) as [He|He].
      - assert (I : inject_Z (k * 2 ^ (- e)) == inject_Z (Z.pos m)).
        { rewrite inject_Z_mult, pow2_Q_inject by lia. rewrite V.
          rewrite <- Qmult_assoc, <- pow2_Q_plus.
          replace (e + - e)%Z with 0%Z by lia. change (2 ^ 0) with 1. ring. }
        unfold Qeq in I. cbn [Qnum Qden inject_Z] in I. rewrite !Z.mul_1_r in I.
        assert (P : (0 < 2 ^ (- e))%Z) by (apply pow2_pos; lia).
        assert (B : (2 ^ (- e) < 2 ^ 53)%Z) by nia.
        assert (- e < 53)%Z by (apply pow2_lt_inv; lia).
        split; [lia|]. rewrite <- I.
        rewrite <- Z.mul_assoc, <- Z.pow_add_r by lia. f_equal. f_equal. lia.
      - assert (I : inject_Z k == inject_Z (Z.pos m * 2 ^ e)).
        { rewrite inject_Z_mult, pow2_Q_inject by lia. exact V. }
        unfold Qeq in I. cbn [Qnum Qden inject_Z] in I. rewrite !Z.mul_1_r in I.
        split; [lia|]. rewrite I, Z.pow_add_r by lia. ring. }
    destruct Z1 as [Z1 Z2].
    rewrite <- (SF2Prim_Prim2SF x), Ex. f_equal.
    rewrite <- (binary_round_canonical m e W).
    apply SFint_of_repr; [lia|exact Z1|exact Z2].
Qed.

Lemma listings_table :
  forallb
    (fun n =>
       Exact.enclosedb (Formula.listingsBoost (SF2Prim (SFint (Z.of_nat n))))
         (Exact.listingsBoost (inject_Z (Z.of_nat n))) (1 - 2 ^ (-52)) (1 + 2 ^ (-52)))
    (seq 0 101) = true.
Proof. vm_compute. reflexivity. Qed.

Lemma listings_enclosed score k :
  (0 <= k <= 100)%Z -> Exact.represents score (inject_Z k) ->
  Exact.enclosed (Formula.listingsBoost score) (Exact.listingsBoost (inject_Z k))
    (1 - 2 ^ (-52)) (1 + 2 ^ (-52)) /\
  (4 # 5) <= Exact.listingsBoost (inject_Z k) /\
  Exact.listingsBoost (inject_Z k) <= (6 # 5).
Proof.
  intros Hk R. split.
  - destruct (represents_integer_inv score k ltac:(lia) R) as [->|[-> ->]].
    + pose proof listings_table as T. rewrite forallb_forall in T.
      specialize (T (Z.to_nat k)). rewrite Z2Nat.id in T by lia.
      apply enclosedb_true, T. apply in_seq. lia.
    + apply enclosedb_true. vm_compute. reflexivity.
  - unfold Exact.listingsBoost.
    assert (L : 0 <= inject_Z k) by (change 0 with (inject_Z 0); rewrite <- Zle_Qle; lia).
    assert (U : inject_Z k <= 100) by (change 100 with (inject_Z 100); rewrite <- Zle_Qle; lia).
    assert (E : 1 + inject_Z k / 100 * (20 # 100) == 1 + inject_Z k * (1 # 500))
      by (field; discriminate).
    rewrite E. split; lra.
Qed.


(** ** The computed product and the exact product *)

Ltac one_more I F H :=
  pose proof (mul_enclosed _ _ _ _ _ _ _ _ I F) as H;
  do 5 (match type of H with
        | ?A -> _ =>
            let a := fresh in
            assert (a : A) by (apply Qle_bool_iff; reflexivity);
            specialize (H a); clear a
        end).

(** For a base between 1 and 10^10 and a whole listings score from 0 to
    100, the product that binary64 arithmetic gives is within the relative
    error [2^-47] of the exact product of the decimal factors. *)
Lemma product_close base score bureau tenure compliant fb ig im wa ss B k :
  Exact.represents base B -> Exact.between 1 B 10000000000 ->
  Exact.represents score (Exact.integer k) -> (0 <= k <= 100)%Z ->
  exists E,
    Exact.product base score bureau tenure compliant fb ig im wa ss = Some E /\
    Exact.close (factorProduct base score bureau tenure compliant fb ig im wa ss) E /\
    0 < E /\ E <= 43000000000.
Proof.
  intros Rb [B1 B2] Rs Hk. unfold Exact.integer in Rs.
  pose proof (listings_enclosed score k Hk Rs) as F1.
  pose proof (social_enclosed fb ig) as F2.
  destruct (phone_enclosed im wa ss) as (F3 & F4 & F5).
  destruct (multipliers_enclosed bureau tenure compliant) as (F6 & F7 & F8).
  assert (I0 : Exact.enclosed base B 1 1 /\ 1 <= B /\ B <= 10000000000).
  { split; [|split; assumption]. exists B. split; [exact Rb|]. split; lra. }
  one_more I0 F1 I1. one_more I1 F2 I2. one_more I2 F3 I3. one_more I3 F4 I4.
  one_more I4 F5 I5. one_more I5 F6 I6. one_more I6 F7 I7. one_more I7 F8 I8.
  clear I0 I1 I2 I3 I4 I5 I6 I7 F1 F2 F3 F4 F5 F6 F7 F8.
  destruct I8 as (I & Lo & Hi).
  unfold Exact.product. unfold Exact.represents in Rb, Rs.
  destruct (Exact.value base) as [b|]; [|contradiction].
  destruct (Exact.value score) as [s|]; [|contradiction].
  eexists. split; [reflexivity|].
  set (E' := B * Exact.listingsBoost (inject_Z k) * Exact.socialBoost fb ig *
             Exact.identityBoost im * Exact.messagingBoost wa *
             Exact.simSwapPenalty ss * Exact.bureauMultiplier bureau *
             Exact.tenureMultiplier tenure * Exact.complianceMultiplier compliant) in *.
  assert (EE : E' == b * Exact.listingsBoost s * Exact.socialBoost fb ig *
                     Exact.identityBoost im * Exact.messagingBoost wa *
                     Exact.simSwapPenalty ss * Exact.bureauMultiplier bureau *
                     Exact.tenureMultiplier tenure * Exact.complianceMultiplier compliant).
  { unfold E', Exact.listingsBoost. rewrite Rb, Rs. reflexivity. }
  assert (P : 0 < E').
  { apply Qlt_le_trans with (1 * (4 # 5) * (4 # 5) * (4 # 5) * (4 # 5) * (4 # 5) *
                              (4 # 5) * (4 # 5) * (4 # 5)); [reflexivity|exact Lo]. }
  split; [|split].
  - unfold Exact.close.
    apply (enclosed_weaken _ E' _ _ _ _ _ I EE); [apply Qlt_le_weak; exact P|..];
      apply Qle_bool_iff; reflexivity.
  - rewrite <- EE. exact P.
  - rewrite <- EE. apply Qle_trans with (2 := ltac:(apply Qle_bool_iff; reflexivity) :
      10000000000 * (6 # 5) * (6 # 5) * (6 # 5) * (6 # 5) * (6 # 5) * (6 # 5) *
      (6 # 5) * (6 # 5) <= 43000000000). exact Hi.
Qed.


(** The total of such an input is an integer within 1/2 + 1/1000 of the
    exact product. *)
Lemma total_nearby base score bureau tenure compliant fb ig im wa ss B k :
  Exact.represents base B -> Exact.between 1 B 10000000000 ->
  Exact.represents score (Exact.integer k) -> (0 <= k <= 100)%Z ->
  exists E t,
    Exact.product base score bureau tenure compliant fb ig im wa ss = Some E /\
    Exact.close (factorProduct base score bureau tenure compliant fb ig im wa ss) E /\
    Exact.represents
      (computeTotalRevenue base score bureau tenure compliant fb ig im wa ss)
      (Exact.integer t) /\
    Exact.nearby t E.
Proof.
  intros Rb HB Rs Hk.
  destruct (product_close base score bureau tenure compliant fb ig im wa ss B k
              Rb HB Rs Hk) as (E & HE & HC & E0 & Emax).
  pose proof HC as (P & RP & L & U).
  change Exact.tolerance with (1 # 140737488355328) in L, U.
  assert (Hz : (base =? 0)%float = false).
  { destruct HB as [B1 _]. change (inject_Z 1) with 1 in B1.
    destruct (represents_pos base B Rb ltac:(lra)) as (m & e & Ex & _).
    rewrite FloatAxioms.eqb_spec, Ex. reflexivity. }
  assert (A : Exact.atMost P (2 ^ 53)).
  { unfold Exact.atMost. apply Qabs_Qle_condition.
    change (inject_Z (2 ^ 53)) with 9007199254740992. split; lra. }
  exists E, (Exact.round P). split; [exact HE|]. split; [exact HC|]. split.
  - rewrite computeTotalRevenue_formula by exact Hz.
    exact (Math_round_exact _ P RP A).
  - unfold Exact.nearby, Exact.round.
    pose proof (Qfloor_le (P + (1 # 2))) as F1.
    pose proof (Qlt_floor (P + (1 # 2))) as F2.
    rewrite inject_Z_plus in F2. change (inject_Z 1) with 1 in F2.
    apply Qabs_Qle_condition. split; lra.
Qed.

End ExactProduct.


(** * The rounding error of a quotient *)

Section QuotientRounding.
Local Open Scope Z_scope.

(** A quotient [(M / D) * 2^e] of the normal range is rounded with a
    relative error of at most [2^-53]. *)
Lemma rnd_quot_error M D e :
  0 <= M -> 0 < D -> e <= fexp64 (Zdigits2 (M / D) + e) ->
  -1074 <= Zdigits2 (M / D) + e - 53 ->
  e <= snd (rnd_quot M D e) /\
  0 < fst (rnd_quot M D e) /\
  snd (rnd_quot M D e) <= Zdigits2 (M / D) + e - 52 /\
  2 ^ 53 * Z.abs (fst (rnd_quot M D e) * (D * 2 ^ (snd (rnd_quot M D e) - e)) - M) <= M.
Proof.
  intros HM HD He Hn.
  assert (HE : fexp64 (Zdigits2 (M / D) + e) = Zdigits2 (M / D) + e - 53)
    by (unfold fexp64; lia).
  assert (Hq : 0 < M / D).
  { assert (0 <= M / D) by (apply Z.div_pos; lia).
    destruct (Z.eq_dec (M / D) 0) as [Z0|NZ]; [|lia].
    rewrite Z0 in HE, He. cbn [Zdigits2] in HE, He. lia. }
  pose proof (quot_first_normal M D e HM HD He HE) as L.
  pose proof (quot_first_bound M D e HM HD He) as U.
  unfold rnd_quot. set (E := fexp64 (Zdigits2 (M / D) + e)) in *.
  assert (HP : 0 < 2 ^ (E - e)) by (apply pow2_pos; lia).
  assert (HK : 0 < D * 2 ^ (E - e)) by nia.
  pose proof (rnd_div_nearest M (D * 2 ^ (E - e)) HK) as N.
  set (m1 := rnd_div M (D * 2 ^ (E - e))) in *.
  pose proof (Zdigits2_spec (M / D) Hq) as Dq.
  assert (P52 : 0 < 2 ^ 52) by reflexivity.
  assert (S : 2 ^ (Zdigits2 (M / D) - 1) = 2 ^ 52 * 2 ^ (E - e)).
  { rewrite <- Z.pow_add_r by lia. f_equal. lia. }
  pose proof (Z.mod_pos_bound M D HD) as Hr.
  pose proof (Z.div_mod M D ltac:(lia)) as Hdm.
  assert (B : 2 ^ 52 * (D * 2 ^ (E - e)) <= M) by nia.
  assert (R : 2 ^ 53 * Z.abs (m1 * (D * 2 ^ (E - e)) - M) <= M).
  { change (2 ^ 53) with (2 ^ 52 * 2). nia. }
  destruct (Z.eqb_spec m1 (2 ^ 53)) as [Q|Q]; cbn [fst snd].
  - split; [lia|]. split; [lia|]. split; [lia|].
    replace (E + 1 - e) with (1 + (E - e)) by lia.
    rewrite Z.pow_add_r by lia. change (2 ^ 1) with 2.
    rewrite Q in R. change (2 ^ 53) with (2 ^ 52 * 2) in R at 2.
    replace (2 ^ 52 * (D * (2 * 2 ^ (E - e)))) with (2 ^ 52 * 2 * (D * 2 ^ (E - e)))
      by ring.
    exact R.
  - split; [lia|]. split; [lia|]. split; [lia|]. exact R.
Qed.

End QuotientRounding.

Section QuotientError.
Import QArith Qround Qabs Qpower Lqa.
Local Open Scope Q_scope.

(** The binary64 quotient of two positive numbers whose exact quotient
    lies between [2^-100] and [2^100] has a relative error of at most
    [2^-53]. *)
Lemma div_error x c X C :
  Exact.represents x X -> Exact.represents c C -> 0 < X -> 0 < C ->
  2 ^ (-100) <= X / C -> X / C <= 2 ^ 100 ->
  exists Y,
    Exact.represents (x / c)%float Y /\
    X / C * (1 - 2 ^ (-53)) <= Y /\ Y <= X / C * (1 + 2 ^ (-53)).
Proof.
  intros Rx Rc Px Pc L U.
  destruct (represents_pos x X Rx Px) as (mx & ex & Ex & Vx).
  destruct (represents_pos c C Rc Pc) as (mc & ec & Ec & Vc).
  assert (Ep : Prim2SF (x / c)%float
               = of_pair false
                   (rnd_quot (div_num (Z.pos mx) ex (Z.pos mc) ec) (Z.pos mc)
                      (div_exp (Z.pos mx) ex (Z.pos mc) ec))).
  { rewrite div_spec, Ex, Ec. apply (SFdiv_finite false mx ex false mc ec). }
  pose proof (div_exp_le (Z.pos mx) ex (Z.pos mc) ec) as Hs.
  pose proof (div_num_nonneg (Z.pos mx) ex (Z.pos mc) ec ltac:(lia)) as HM.
  pose proof (div_pre (Z.pos mx) ex (Z.pos mc) ec ltac:(lia) ltac:(lia)) as Pre.
  assert (EM : div_num (Z.pos mx) ex (Z.pos mc) ec
               = (Z.pos mx * 2 ^ (ex - ec - div_exp (Z.pos mx) ex (Z.pos mc) ec))%Z)
    by reflexivity.
  set (M := div_num (Z.pos mx) ex (Z.pos mc) ec) in *.
  set (e := div_exp (Z.pos mx) ex (Z.pos mc) ec) in *.
  set (D := Z.pos mc) in *. assert (HD : (0 < D)%Z) by (unfold D; lia).
  pose proof (pow2_Q_pos e) as Pe.
  assert (QD : 0 < inject_Z D) by (change 0 with (inject_Z 0); rewrite <- Zlt_Qlt; exact HD).
  (* the exact quotient, times the divisor *)
  assert (V : X / C * inject_Z D == inject_Z M * 2 ^ e).
  { rewrite EM, inject_Z_mult, pow2_Q_inject by lia. rewrite Vx, Vc.
    assert (S : 2 ^ ex == 2 ^ (ex - ec - e) * 2 ^ e * 2 ^ ec).
    { rewrite <- !pow2_Q_plus. f_equiv. lia. }
    rewrite S. fold D. pose proof (pow2_Q_pos ec). field. split; lra. }
  set (W := X / C) in *.
  pose proof (Z.mod_pos_bound M D HD) as Hr.
  pose proof (Z.div_mod M D ltac:(lia)) as Hdm.
  assert (Hq0 : (0 <= M / D)%Z) by (apply Z.div_pos; lia).
  set (q0 := (M / D)%Z) in *.
  assert (Q1 : inject_Z q0 * 2 ^ e <= W).
  { apply (Qmult_lt_0_le_reg_r _ _ (inject_Z D) QD). rewrite V.
    assert (T : inject_Z q0 * 2 ^ e * inject_Z D == inject_Z (q0 * D) * 2 ^ e)
      by (rewrite inject_Z_mult; ring).
    rewrite T. apply Qmult_le_compat_r; [|lra]. rewrite <- Zle_Qle. lia. }
  assert (Q2 : W <= inject_Z (q0 + 1) * 2 ^ e).
  { apply (Qmult_lt_0_le_reg_r _ _ (inject_Z D) QD). rewrite V.
    assert (T : inject_Z (q0 + 1) * 2 ^ e * inject_Z D == inject_Z ((q0 + 1) * D) * 2 ^ e)
      by (rewrite inject_Z_mult; ring).
    rewrite T. apply Qmult_le_compat_r; [|lra]. rewrite <- Zle_Qle. lia. }
  assert (Dq : (q0 + 1 <= 2 ^ Zdigits2 q0)%Z).
  { destruct (Z.eq_dec q0 0) as [->|N]; [reflexivity|].
    pose proof (Zdigits2_spec q0 ltac:(lia)). lia. }
  assert (Dn : (0 <= Zdigits2 q0)%Z).
  { destruct (Z.eq_dec q0 0) as [->|N]; [reflexivity|].
    pose proof (Zdigits2_pos q0 ltac:(lia)). lia. }
  assert (Lo : (-100 <= Zdigits2 q0 + e)%Z).
  { apply (exponent_lower (q0 + 1) e (Zdigits2 q0)); [lia|lia|].
    apply Qle_trans with W; assumption. }
  assert (Nq : (0 < q0)%Z).
  { destruct (Z.eq_dec q0 0) as [Z0|N]; [|lia].
    rewrite Z0 in Pre, Lo. cbn [Zdigits2] in Pre, Lo. unfold fexp64 in Pre. lia. }
  pose proof (Zdigits2_spec q0 Nq) as Dspec.
  pose proof (Zdigits2_pos q0 Nq) as Dpos.
  assert (Hi : (Zdigits2 q0 - 1 + e <= 100)%Z).
  { apply (exponent_upper q0 e (Zdigits2 q0)); [lia|lia|].
    apply Qle_trans with W; assumption. }
  destruct (rnd_quot_error M D e HM HD Pre ltac:(fold q0; lia)) as (R1 & R2 & R3 & R4).
  fold q0 in R3.
  destruct (rnd_quot M D e) as [m1 E]. cbn [fst snd] in *.
  unfold of_pair in Ep. cbn [fst snd] in Ep.
  destruct m1 as [|m1|m1]; try lia.
  assert (HE : (E <=? 971)%Z = true) by (apply Z.leb_le; lia).
  rewrite HE in Ep.
  exists (Exact.ofFinite false m1 E). split; [exact (represents_finite _ _ _ _ Ep)|].
  rewrite ofFinite_pow. cbn [cond_Zopp].
  assert (S : 2 ^ E == inject_Z (2 ^ (E - e)) * 2 ^ e).
  { rewrite pow2_Q_inject by lia. rewrite <- pow2_Q_plus. f_equiv. lia. }
  set (k := (Z.pos m1 * 2 ^ (E - e))%Z) in *.
  assert (K : inject_Z (Z.pos m1) * 2 ^ E == inject_Z k * 2 ^ e).
  { rewrite S. unfold k. rewrite inject_Z_mult. ring. }
  rewrite K.
  assert (R5 : (2 ^ 53 * Z.abs (k * D - M) <= M)%Z).
  { replace (k * D)%Z with (Z.pos m1 * (D * 2 ^ (E - e)))%Z by (unfold k; ring).
    exact R4. }
  assert (A : (2 ^ 53 * (k * D - M) <= M /\ 2 ^ 53 * (M - k * D) <= M)%Z) by lia.
  destruct A as [A1 A2].
  rewrite Zle_Qle in A1, A2. rewrite inject_Z_mult in A1, A2.
  unfold Z.sub in A1, A2. rewrite inject_Z_plus, inject_Z_opp, inject_Z_mult in A1, A2.
  change (inject_Z (2 ^ 53)) with 9007199254740992 in A1, A2.
  change (2 ^ (-53)) with (1 # 9007199254740992).
  clear K S EM Q1 Q2 L U.
  set (qm := inject_Z M) in *. set (qk := inject_Z k) in *. set (qd := inject_Z D) in *.
  set (p := 2 ^ e) in *. clearbody qm qk qd p W.
  split.
  - apply (Qmult_lt_0_le_reg_r _ _ qd QD).
    assert (G : qm * (1 - (1 # 9007199254740992)) <= qk * qd) by lra.
    apply (Qmult_le_compat_r _ _ p) in G; [|lra].
    assert (T : W * (1 - (1 # 9007199254740992)) * qd
                == (W * qd) * (1 - (1 # 9007199254740992))) by ring.
    rewrite T, V. lra.
  - apply (Qmult_lt_0_le_reg_r _ _ qd QD).
    assert (G : qk * qd <= qm * (1 + (1 # 9007199254740992))) by lra.
    apply (Qmult_le_compat_r _ _ p) in G; [|lra].
    assert (T : W * (1 + (1 # 9007199254740992)) * qd
                == (W * qd) * (1 + (1 # 9007199254740992))) by ring.
    rewrite T, V. lra.
Qed.


(** A whole number of thousands is a binary64 number. *)
Lemma times_1000_exact x n :
  (0 <= n <= 9000000000000)%Z -> Exact.represents x (inject_Z n) ->
  Exact.represents (x * 1000)%float (Exact.integer (n * 1000)).
Proof.
  intros Hn R.
  assert (B : (9000000000000 * 1000 <= 2 ^ 53)%Z) by (vm_compute; discriminate).
  destruct (represents_integer_inv x n ltac:(lia) R) as [->|[-> ->]].
  - destruct (Z.eq_dec n 0) as [->|N].
    + apply (represents_zero _ false). vm_compute. reflexivity.
    + apply represents_SFint; [lia|].
      rewrite mul_spec, Prim2SF_SF2Prim by apply SFint_valid.
      change (Prim2SF 1000) with (SFint 1000). apply SFmul_int; lia.
  - apply (represents_zero _ true). vm_compute. reflexivity.
Qed.

Lemma tier_enclosed hasSocial hasFiscal :
  Exact.enclosed (tierMultiplier hasSocial hasFiscal)
    (Exact.tierMultiplier hasSocial hasFiscal) (1 - 2 ^ (-53)) (1 + 2 ^ (-53)) /\
  1 <= Exact.tierMultiplier hasSocial hasFiscal /\
  Exact.tierMultiplier hasSocial hasFiscal <= 2.
Proof.
  destruct hasSocial, hasFiscal;
    (split; [apply enclosedb_true; vm_compute; reflexivity
            |split; apply Qle_bool_iff; reflexivity]).
Qed.

(** For a base between 1 and 10^12, the approved amount is a whole number
    of thousands, and that number is within 1/2 + 1/1000 of the exact
    quotient [base * multiplier / 1000]. *)
Lemma approved_amount_nearby base hasSocial hasFiscal B :
  Exact.represents base B -> Exact.between 1 B 1000000000000 ->
  exists T k,
    Exact.thousands base hasSocial hasFiscal = Some T /\
    Exact.represents
      (JS.Math_round ((base * tierMultiplier hasSocial hasFiscal) / 1000) * 1000)%float
      (Exact.integer (k * 1000)) /\
    Exact.nearby k T.
Proof.
  intros Rb [B1 B2].
  change (inject_Z 1) with 1 in B1.
  change (inject_Z 1000000000000) with 1000000000000 in B2.
  destruct (tier_enclosed hasSocial hasFiscal) as ((C & Rc & Lc & Uc) & D1 & D2).
  set (m := tierMultiplier hasSocial hasFiscal) in *.
  set (D := Exact.tierMultiplier hasSocial hasFiscal) in *.
  change (2 ^ (-53)) with (1 # 9007199254740992) in Lc, Uc.
  assert (C1 : (99 # 100) <= C) by lra. assert (C2 : C <= (201 # 100)) by lra.
  assert (BC1 : (99 # 100) <= B * C).
  { apply Qle_trans with (1 * (99 # 100)); [apply Qle_bool_iff; reflexivity|].
    apply Qmult_le_compat_nonneg; split; lra. }
  assert (BC2 : B * C <= 2010000000000).
  { apply Qle_trans with (1000000000000 * (201 # 100)); [|apply Qle_bool_iff; reflexivity].
    apply Qmult_le_compat_nonneg; split; lra. }
  assert (BD1 : 1 <= B * D).
  { apply Qle_trans with (1 * 1); [apply Qle_bool_iff; reflexivity|].
    apply Qmult_le_compat_nonneg; split; lra. }
  assert (BD2 : B * D <= 2000000000000).
  { apply Qle_trans with (1000000000000 * 2); [|apply Qle_bool_iff; reflexivity].
    apply Qmult_le_compat_nonneg; split; lra. }
  assert (BCD1 : B * D * (1 - (1 # 9007199254740992)) <= B * C).
  { rewrite <- Qmult_assoc. rewrite !(Qmult_comm B).
    apply Qmult_le_compat_r; lra. }
  assert (BCD2 : B * C <= B * D * (1 + (1 # 9007199254740992))).
  { rewrite <- Qmult_assoc. rewrite !(Qmult_comm B).
    apply Qmult_le_compat_r; lra. }
  destruct (mul_error base m B C Rb Rc ltac:(lra) ltac:(lra)) as (P & Rp & Lp & Up).
  { apply Qle_trans with (99 # 100); [apply Qle_bool_iff; reflexivity|exact BC1]. }
  { apply Qle_trans with 2010000000000; [exact BC2|apply Qle_bool_iff; reflexivity]. }
  change (2 ^ (-53)) with (1 # 9007199254740992) in Lp, Up.
  assert (R1000 : Exact.represents 1000%float 1000) by (vm_compute; reflexivity).
  assert (P1 : (98 # 100) <= P) by lra. assert (P2 : P <= 2020000000000) by lra.
  assert (EP : P / 1000 == P * (1 # 1000)) by (field; discriminate).
  destruct (div_error (base * m)%float 1000%float P 1000 Rp R1000 ltac:(lra)
              ltac:(reflexivity)) as (Q & Rq & Lq & Uq).
  { rewrite EP. apply Qle_trans with ((98 # 100) * (1 # 1000));
      [apply Qle_bool_iff; reflexivity|lra]. }
  { rewrite EP. apply Qle_trans with (2020000000000 * (1 # 1000));
      [lra|apply Qle_bool_iff; reflexivity]. }
  change (2 ^ (-53)) with (1 # 9007199254740992) in Lq, Uq.
  rewrite EP in Lq, Uq.
  set (T' := B * D * (1 # 1000)).
  assert (T1 : 0 < T') by (unfold T'; lra).
  assert (T2 : T' <= 2000000000) by (unfold T'; lra).
  assert (QL : T' - (1 # 1000000) <= Q).
  { unfold T'. lra. }
  assert (QU : Q <= T' + (1 # 1000000)).
  { unfold T'. lra. }
  assert (A : Exact.atMost Q (2 ^ 53)).
  { unfold Exact.atMost. apply Qabs_Qle_condition.
    change (inject_Z (2 ^ 53)) with 9007199254740992. split; lra. }
  pose proof (Math_round_exact _ Q Rq A) as Rr. unfold Exact.integer in Rr.
  pose proof (Qfloor_le (Q + (1 # 2))) as F1.
  pose proof (Qlt_floor (Q + (1 # 2))) as F2.
  rewrite inject_Z_plus in F2. change (inject_Z 1) with 1 in F2.
  fold (Exact.round Q) in F1, F2.
  set (k := Exact.round Q) in *.
  assert (K0 : (0 <= k <= 9000000000000)%Z).
  { split.
    - assert (G : -1 < inject_Z k) by lra.
      change (-1) with (inject_Z (-1)) in G. rewrite <- Zlt_Qlt in G. lia.
    - assert (G : inject_Z k <= 9000000000000) by lra.
      change 9000000000000 with (inject_Z 9000000000000) in G.
      rewrite <- Zle_Qle in G. exact G. }
  unfold Exact.thousands. unfold Exact.represents in Rb.
  destruct (Exact.value base) as [b|]; [|contradiction]. cbn [option_map].
  eexists. exists k. split; [reflexivity|]. split.
  - apply times_1000_exact; assumption.
  - unfold Exact.nearby. fold D.
    assert (ET : b * D / 1000 == T') by (unfold T'; rewrite Rb; field; discriminate).
    rewrite ET. apply Qabs_Qle_condition. split; lra.
Qed.

End QuotientError.


(** * What a run records *)

Section Recorded.

Variable Math_pow : float -> float -> float.
Variable toLocaleString_esMX : float -> string.
Variable Number_toString : float -> string.
Variable env : Env.t.
Variable clients : Clients.t.
Variable now : string.

Lemma fetchSyntage_records application calls :
  exists r m a c,
    fetchSyntage clients now application calls = (inr (r, m, a, c), calls ++ [Syntage]) /\
    m = OfResults.monthlyRevenue r /\ c = OfResults.compliance r /\
    (forall raw,
        Clients.getRevenueData clients (ApplicationDoc.merchant_id application)
        = Fulfilled raw ->
        a = true /\ r = Some (syntageResultOf now raw)).
Proof.
  unfold fetchSyntage, try_catch, bind, withTimeout, ret.
  destruct (Clients.getRevenueData clients (ApplicationDoc.merchant_id application))
    as [raw|err|];
    do 4 eexists; (split; [reflexivity|]);
    (split; [reflexivity|split; [reflexivity|]]);
    intros raw' H; try discriminate H; injection H as <-; split; reflexivity.
Qed.

Lemma fetchPlaces_records mapsUrl calls :
  exists r sc a,
    fetchPlaces clients now mapsUrl calls
    = (inr (r, sc, a), calls ++ (if JS.nonempty mapsUrl then [GooglePlaces] else [])) /\
    sc = OfResults.listingsScore r.
Proof.
  unfold fetchPlaces, try_catch, bind, withTimeout, ret.
  destruct (JS.nonempty mapsUrl).
  - destruct (Clients.getPlacesData clients mapsUrl) as [v|err|];
      [destruct (PlacesResult.connected v) eqn:C|..];
      do 3 eexists; (split; [reflexivity|]); cbn; try rewrite C; reflexivity.
  - do 3 eexists. rewrite app_nil_r. split; reflexivity.
Qed.

Lemma fetchFacebook_records facebookToken calls :
  exists r n a,
    fetchFacebook env clients now facebookToken calls
    = (inr (r, n, a),
       calls ++ (if JS.nonempty facebookToken || Env.DEMO_MODE env then [Facebook] else [])) /\
    n = OfResults.fanCount r.
Proof.
  unfold fetchFacebook, try_catch, bind, withTimeout, ret.
  destruct (JS.nonempty facebookToken || Env.DEMO_MODE env).
  - destruct (Clients.getPageData clients facebookToken) as [v|err|];
      [destruct (FacebookResult.connected v) eqn:C|..];
      do 3 eexists; (split; [reflexivity|]); cbn; try rewrite C; reflexivity.
  - do 3 eexists. rewrite app_nil_r. split; reflexivity.
Qed.

Lemma fetchInstagram_records instagramToken facebookToken calls :
  exists r n a,
    fetchInstagram env clients now instagramToken facebookToken calls
    = (inr (r, n, a),
       calls ++ (if JS.nonempty instagramToken || JS.nonempty facebookToken
                    || Env.DEMO_MODE env then [Instagram] else [])) /\
    n = OfResults.followers r.
Proof.
  unfold fetchInstagram, try_catch, bind, withTimeout, ret.
  destruct (JS.nonempty instagramToken || JS.nonempty facebookToken || Env.DEMO_MODE env).
  - destruct (Clients.getProfileData clients (JS.or_else instagramToken facebookToken))
      as [v|err|];
      [destruct (InstagramResult.connected v) eqn:C|..];
      do 3 eexists; (split; [reflexivity|]); cbn; try rewrite C; reflexivity.
  - do 3 eexists. rewrite app_nil_r. split; reflexivity.
Qed.

Lemma fetchTwilio_records phone firstName lastName calls :
  exists r im wa ss a,
    fetchTwilio clients now phone firstName lastName calls
    = (inr (r, im, wa, ss, a), calls ++ [Twilio]) /\
    im = OfResults.phoneFlag TwilioResult.identity_match r /\
    wa = OfResults.phoneFlag TwilioResult.whatsapp_business r /\
    ss = OfResults.phoneFlag TwilioResult.sim_swap_detected r.
Proof.
  unfold fetchTwilio, try_catch, bind, withTimeout, ret.
  destruct (Clients.verifyPhone clients (JS.or_else phone "+525500000000")
              firstName lastName) as [v|err|];
    [destruct (TwilioResult.connected v) eqn:C|..];
    do 5 eexists; (split; [reflexivity|]); cbn; try rewrite C; repeat split.
Qed.

Lemma fetchBureau_records taxId calls :
  exists r s a,
    fetchBureau clients taxId calls = (inr (r, s, a), calls ++ [Bureau]) /\
    s = OfResults.bureauScore r.
Proof.
  unfold fetchBureau, try_catch, bind, withTimeout, ret.
  destruct (Clients.getScore clients taxId) as [v|err|];
    [destruct (BureauResult.bureau_score v) eqn:C|..];
    do 3 eexists; (split; [reflexivity|]); cbn; try rewrite C; reflexivity.
Qed.

Lemma fetchPlatform_records application calls :
  exists r g t a,
    fetchPlatform clients application calls = (inr (r, g, t, a), calls ++ [Platform]) /\
    t = OfResults.tenureMonths r.
Proof.
  unfold fetchPlatform, try_catch, bind, withTimeout, ret.
  destruct (Clients.getMerchantData clients (ApplicationDoc.merchant_id application))
    as [v|err|];
    [destruct (PlatformResult.avg_platform_gmv_6m v) eqn:C|..];
    do 4 eexists; (split; [reflexivity|]); cbn; try rewrite C; reflexivity.
Qed.

(** The decision of a run: its total is the total of the seven results it
    records, and an answer that the tax call delivers is recorded as it
    is, with the tax source among the data sources. *)
Lemma runUnderwriting_records application calls :
  exists d,
    runUnderwriting Math_pow toLocaleString_esMX Number_toString env clients now
      application calls
    = (inr d, calls ++ plannedCalls env application) /\
    DecisionPayload.total_revenue (UnderwritingDecision.payload d)
    = OfResults.ofDecision d /\
    (forall raw,
        Clients.getRevenueData clients (ApplicationDoc.merchant_id application)
        = Fulfilled raw ->
        In "syntage"%string
          (DecisionPayload.data_sources (UnderwritingDecision.payload d)) /\
        UnderwritingDecision.syntage_result d = Some (syntageResultOf now raw) /\
        DecisionPayload.syntage_monthly_revenue (UnderwritingDecision.payload d)
        = SyntageRevenueData.annual_revenue raw / 12).
Proof.
  unfold runUnderwriting, plannedCalls.
  set (mapsUrl := form_field application FormData.google_business_url).
  set (facebookToken := form_field application FormData.facebook_access_token).
  set (instagramToken := form_field application FormData.instagram_access_token).
  set (phone := form_field application FormData.phone).
  set (taxId := form_field application FormData.tax_id).
  destruct (match JS.split (JS.trim (form_field application FormData.legal_name)) with
            | [] => (""%string, [])
            | firstName :: lastParts => (firstName, lastParts)
            end) as [firstName lastParts].
  destruct (fetchSyntage_records application calls)
    as (r1 & m1 & a1 & c1 & E1 & M1 & C1 & F1).
  destruct (fetchPlaces_records mapsUrl (calls ++ [Syntage]))
    as (r2 & sc2 & a2 & E2 & S2).
  destruct (fetchFacebook_records facebookToken
              ((calls ++ [Syntage]) ++
               (if JS.nonempty mapsUrl then [GooglePlaces] else [])))
    as (r3 & n3 & a3 & E3 & N3).
  match type of E3 with _ = (_, ?c) =>
    destruct (fetchInstagram_records instagramToken facebookToken c)
      as (r4 & n4 & a4 & E4 & N4) end.
  match type of E4 with _ = (_, ?c) =>
    destruct (fetchTwilio_records phone firstName (JS.join " " lastParts) c)
      as (r5 & im5 & wa5 & ss5 & a5 & E5 & I5 & W5 & X5) end.
  match type of E5 with _ = (_, ?c) =>
    destruct (fetchBureau_records taxId c) as (r6 & s6 & a6 & E6 & S6) end.
  match type of E6 with _ = (_, ?c) =>
    destruct (fetchPlatform_records application c)
      as (r7 & g7 & t7 & a7 & E7 & T7) end.
  unfold bind. rewrite E1, E2, E3, E4, E5, E6, E7. unfold ret.
  eexists. split.
  { f_equal. rewrite <- !app_assoc. reflexivity. }
  cbn [UnderwritingDecision.payload DecisionPayload.total_revenue
       DecisionPayload.data_sources DecisionPayload.syntage_monthly_revenue
       UnderwritingDecision.syntage_result].
  split.
  - unfold OfResults.ofDecision, OfResults.total.
    cbn [UnderwritingDecision.syntage_result UnderwritingDecision.places_result
         UnderwritingDecision.facebook_result UnderwritingDecision.instagram_result
         UnderwritingDecision.twilio_result UnderwritingDecision.bureau_result
         UnderwritingDecision.platform_result].
    rewrite <- M1, <- C1, <- S2, <- N3, <- N4, <- I5, <- W5, <- X5, <- S6, <- T7.
    reflexivity.
  - intros raw H. destruct (F1 raw H) as [-> ->].
    split; [left; reflexivity|]. split; [reflexivity|].
    rewrite M1. reflexivity.
Qed.

End Recorded.


(** * The claims on the product, the runs and the approved amount *)

(** ** C1: the total weighted revenue and the product of the factors *)

(** C1, as stated, fails: the factors and their products are binary64
    numbers, and the total is not always the exact product of the decimal
    factors rounded to the nearest integer.  With the monthly base
    47,619.52380952381 (the binary64 number [0x1.74070c30c30c3p+15]), a
    matched identity and no other signal, the exact product base * 1.05
    lies below 50,000.5 and rounds to 50,000, while the code returns
    50,001, which is not an integer nearest to it.  With base 50,062.5 and
    listings score 72 the exact product is 57,271.5, which rounds to
    57,272, while the code returns 57,271. *)
Lemma total_revenue_is_not_the_exactly_rounded_product :
  computeTotalRevenue 0x1.74070c30c30c3p+15 0 None None true None None
    (Some true) None None = 50001 /\
  Exact.total 0x1.74070c30c30c3p+15 0 None None true None None
    (Some true) None None = Some 50000%Z /\
  Exact.totalNearest 50001 0x1.74070c30c30c3p+15 0 None None true None None
    (Some true) None None = Some false /\
  computeTotalRevenue 50062.5 72 None None true None None None None None = 57271 /\
  Exact.total 50062.5 72 None None true None None None None None = Some 57272%Z.
Proof. repeat split; vm_compute; reflexivity. Qed.

(** C1, amended.  For every input whose monthly base is not zero,
    [computeTotalRevenue] returns the base multiplied, from left to right
    and in binary64 arithmetic, by the listings boost
    [1 + (score/100) * 0.20], the social boost [1 + facebookTier +
    instagramTier], the identity-match boost, the business-messaging boost,
    the SIM-swap penalty, the bureau multiplier, the tenure multiplier and
    the compliance multiplier, and rounded by [Math.round]: when this
    binary64 product is a finite number of magnitude at most [2^53], the
    total is the integer nearest to it, the upper one on a tie.  For a
    base between 1 and 10^10 and a listings score that is a whole number
    from 0 to 100, the binary64 product is within the relative error
    [2^-47] of the exact product of the base and the decimal factors, and
    the total is an integer within 1/2 + 1/1000 of that exact product.
    Base 60,000, listings score 72, bureau score 720, tenure 36 months,
    compliant, with no social or phone data, gives 79,279; with the three
    phone flags set it gives 77,166; with 6,000 and 1,500 followers, a
    matched identity and no business messaging it gives 93,232; and with
    bureau score 650, tenure 3 months, not compliant, 500 and 200
    followers, business messaging and a SIM swap it gives 49,809. *)
Theorem total_revenue_is_rounded_product :
  (forall base score bureau tenure compliant facebook instagram
          identityMatch whatsappBusiness simSwap,
      (base =? 0) = false ->
      computeTotalRevenue base score bureau tenure compliant facebook instagram
        identityMatch whatsappBusiness simSwap
      = Formula.total base score bureau tenure compliant facebook instagram
          identityMatch whatsappBusiness simSwap) /\
  (forall base score bureau tenure compliant facebook instagram
          identityMatch whatsappBusiness simSwap q,
      (base =? 0) = false ->
      Exact.represents
        (factorProduct base score bureau tenure compliant facebook instagram
           identityMatch whatsappBusiness simSwap) q ->
      Exact.atMost q (2 ^ 53) ->
      Exact.represents
        (computeTotalRevenue base score bureau tenure compliant facebook instagram
           identityMatch whatsappBusiness simSwap)
        (Exact.integer (Exact.round q))) /\
  (forall base score bureau tenure compliant facebook instagram
          identityMatch whatsappBusiness simSwap B k,
      Exact.represents base B -> Exact.between 1 B 10000000000 ->
      Exact.represents score (Exact.integer k) -> (0 <= k <= 100)%Z ->
      exists E t,
        Exact.product base score bureau tenure compliant facebook instagram
          identityMatch whatsappBusiness simSwap = Some E /\
        Exact.close
          (factorProduct base score bureau tenure compliant facebook instagram
             identityMatch whatsappBusiness simSwap) E /\
        Exact.represents
          (computeTotalRevenue base score bureau tenure compliant facebook
             instagram identityMatch whatsappBusiness simSwap)
          (Exact.integer t) /\
        Exact.nearby t E) /\
  computeTotalRevenue 60000 72 (Some 720) (Some 36) true None None None None None
  = 79279 /\
  computeTotalRevenue 60000 72 (Some 720) (Some 36) true None None
    (Some true) (Some true) (Some true) = 77166 /\
  computeTotalRevenue 60000 72 (Some 720) (Some 36) true (Some 6000) (Some 1500)
    (Some true) (Some false) None = 93232 /\
  computeTotalRevenue 60000 72 (Some 650) (Some 3) false (Some 500) (Some 200)
    None (Some true) (Some true) = 49809.
Proof.
  split; [|split; [|split]].
  - intros. apply computeTotalRevenue_formula. assumption.
  - intros * Hz R B. rewrite computeTotalRevenue_formula by assumption.
    exact (Math_round_exact _ q R B).
  - intros. eapply total_nearby; eassumption.
  - repeat split; vm_compute; reflexivity.
Qed.

Lemma total_revenue_is_rounded_product_witness :
  exists E t,
    Exact.product 50062.5 72 None None true (Some 6000) None (Some true) None None
    = Some E /\
    Exact.close
      (factorProduct 50062.5 72 None None true (Some 6000) None (Some true) None None)
      E /\
    Exact.represents
      (computeTotalRevenue 50062.5 72 None None true (Some 6000) None (Some true)
         None None)
      (Exact.integer t) /\
    Exact.nearby t E.
Proof.
  apply (proj1 (proj2 (proj2 total_revenue_is_rounded_product))
           50062.5 72 None None true (Some 6000) None (Some true) None None
           (Exact.valueOf 50062.5) 72%Z).
  - vm_compute. reflexivity.
  - split; vm_compute; discriminate.
  - vm_compute. reflexivity.
  - lia.
Defined.

(** ** C4: a run never throws *)




(** ** C6: the approved amount *)

(** C6, as stated, fails.  The amount is not rounded down: a base of
    50,500 at the floor tier gives 50,500 * 1.2 = 60,600, and the approved
    amount is 61,000, above it.  Nor is it the exact product rounded to
    thousands: a base of 22,500 with a social source gives 31,000, while
    22,500 * 1.4 = 31,500 and round(31.5) * 1000 = 32,000. *)
Lemma approved_amount_neither_rounded_down_nor_exact :
  CreditOffer.approved_amount
    (computeCreditOffer Math_pow_model 50500 None 1 false false) = 61000 /\
  (50500 * tierMultiplier false false <? 61000) = true /\
  CreditOffer.approved_amount
    (computeCreditOffer Math_pow_model 22500 None 3 true false) = 31000 /\
  Exact.approvedAmount 22500 true false = Some 32000%Z.
Proof. repeat split; vm_compute; reflexivity. Qed.

(** The approved amount of a base between 0 and 4.5 * 10^15: the quotient
    [base * multiplier / 1000], as binary64 arithmetic gives it, is a
    finite number, and the amount is the integer nearest to this quotient
    (the upper one on a tie) times 1000, without a rounding error. *)
Lemma approved_amount_of_quotient base multiplier :
  (0 <=? base) = true -> (base <=? 4500000000000000) = true ->
  (0 <? multiplier) = true -> (multiplier <=? 2.0) = true ->
  exists q,
    Exact.represents ((base * multiplier) / 1000) q /\
    Exact.represents (JS.Math_round ((base * multiplier) / 1000) * 1000)
      (Exact.integer (Exact.round q * 1000)).
Proof.
  intros Hb Hmax M1 M2.
  destruct (scaled_base_mono base 4500000000000000 multiplier 2.0 Hb Hmax M1 M2 eq_refl)
    as [Hq Hq'].
  change ((4500000000000000 * 2.0) / 1000) with 9000000000000 in Hq'.
  set (y := (base * multiplier) / 1000) in *.
  assert (Vy : valid_binary (Prim2SF y) = true) by apply Prim2SF_valid.
  rewrite leb_spec in Hq, Hq'.
  change (Prim2SF 0) with (S754_zero false) in Hq.
  change (Prim2SF 9000000000000)
    with (S754_finite false 4608000000000000 (-9)) in Hq'.
  destruct (Prim2SF y) as [s'|[|]| |[|] m e] eqn:Ey; try discriminate.
  - exists (Exact.integer 0). split; [exact (represents_zero y s' Ey)|].
    assert (Er : JS.Math_round y = y) by (unfold JS.Math_round; rewrite Ey; reflexivity).
    rewrite Er. apply (represents_zero _ s').
    rewrite mul_spec, Ey. destruct s'; reflexivity.
  - exists (Exact.ofFinite false m e). split; [exact (represents_finite y _ _ _ Ey)|].
    rewrite <- round_half_up_exact.
    set (n := JS.round_half_up false m e).
    assert (N0 : (0 <= n)%Z) by apply round_half_up_nonneg.
    assert (N1 : (n <= 9000000000000)%Z).
    { change 9000000000000%Z with (JS.round_half_up false 4608000000000000 (-9)).
      apply round_half_up_mono. apply finite_le_val; [exact Vy|reflexivity|exact Hq']. }
    assert (Er : Prim2SF (JS.Math_round y) = SFint n).
    { unfold JS.Math_round. rewrite Ey. fold n.
      apply Prim2SF_SF2Prim, binary_normalize_valid. }
    destruct (Z.eq_dec n 0) as [Hn|Hn].
    + rewrite Hn in *. apply (represents_zero _ false).
      rewrite mul_spec, Er. reflexivity.
    + apply represents_SFint; [change (2 ^ 53)%Z with 9007199254740992%Z; lia|].
      rewrite mul_spec, Er. change (Prim2SF 1000) with (SFint 1000).
      apply SFmul_int; [lia|lia|change (2 ^ 53)%Z with 9007199254740992%Z; lia].
Qed.

(** C6, amended.  For every computed credit offer the approved amount is
    [Math.round(base * multiplier / 1000) * 1000] in binary64 arithmetic,
    the multiplier being 2.0 with fiscal data, else 1.4 with a social
    source, else 1.2.  For a base between 0 and 4.5 * 10^15 the quotient
    that binary64 arithmetic gives is rounded to the nearest integer, the
    upper one on a tie, and the amount is exactly that number of
    thousands.  For a base between 1 and 10^12 that number is within
    1/2 + 1/1000 of the exact quotient [base * multiplier / 1000]: the
    amount is the product rounded to the nearest thousand, not down, and
    only where the product lies within 1 of the middle between two
    thousands can it be either of them.  Fiscal data with base 50,000
    gives 100,000; base 50,500 at the floor tier gives 61,000; with a
    social source, base 22,500 gives 31,000 and base 42,500 gives 59,000,
    the computed quotients lying just below 31.5 and 59.5. *)
Theorem approved_amount_by_tier :
  (forall Math_pow baseRevenue bureauScore dataSourceCount hasSocial hasFiscal,
      CreditOffer.approved_amount
        (computeCreditOffer Math_pow baseRevenue bureauScore dataSourceCount
           hasSocial hasFiscal)
      = JS.Math_round (baseRevenue * tierMultiplier hasSocial hasFiscal / 1000) * 1000) /\
  (forall Math_pow baseRevenue bureauScore dataSourceCount hasSocial hasFiscal,
      (0 <=? baseRevenue) = true -> (baseRevenue <=? 4500000000000000) = true ->
      exists q,
        Exact.represents (baseRevenue * tierMultiplier hasSocial hasFiscal / 1000) q /\
        Exact.represents
          (CreditOffer.approved_amount
             (computeCreditOffer Math_pow baseRevenue bureauScore dataSourceCount
                hasSocial hasFiscal))
          (Exact.integer (Exact.round q * 1000))) /\
  (forall Math_pow baseRevenue bureauScore dataSourceCount hasSocial hasFiscal B,
      Exact.represents baseRevenue B -> Exact.between 1 B 1000000000000 ->
      exists T k,
        Exact.thousands baseRevenue hasSocial hasFiscal = Some T /\
        Exact.represents
          (CreditOffer.approved_amount
             (computeCreditOffer Math_pow baseRevenue bureauScore dataSourceCount
                hasSocial hasFiscal))
          (Exact.integer (k * 1000)) /\
        Exact.nearby k T) /\
  (forall Math_pow bureauScore dataSourceCount hasSocial,
      CreditOffer.approved_amount
        (computeCreditOffer Math_pow 50000 bureauScore dataSourceCount hasSocial true)
      = 100000) /\
  (forall Math_pow bureauScore dataSourceCount,
      CreditOffer.approved_amount
        (computeCreditOffer Math_pow 50500 bureauScore dataSourceCount false false)
      = 61000 /\
      CreditOffer.approved_amount
        (computeCreditOffer Math_pow 22500 bureauScore dataSourceCount true false)
      = 31000 /\
      CreditOffer.approved_amount
        (computeCreditOffer Math_pow 42500 bureauScore dataSourceCount true false)
      = 59000) /\
  (22500 * tierMultiplier true false / 1000 <? 31.5) = true /\
  (42500 * tierMultiplier true false / 1000 <? 59.5) = true.
Proof.
  assert (F : forall Math_pow baseRevenue bureauScore dataSourceCount hasSocial hasFiscal,
             CreditOffer.approved_amount
               (computeCreditOffer Math_pow baseRevenue bureauScore dataSourceCount
                  hasSocial hasFiscal)
             = JS.Math_round (baseRevenue * tierMultiplier hasSocial hasFiscal / 1000)
               * 1000).
  { intros. unfold computeCreditOffer, tierMultiplier.
    cbn [CreditOffer.approved_amount]. reflexivity. }
  split; [exact F|]. split; [|split; [|split; [|split]]].
  - intros * Hb Hmax. rewrite F.
    destruct (tierMultiplier_range hasSocial hasFiscal) as (M1 & M2 & _).
    apply approved_amount_of_quotient; assumption.
  - intros * Rb HB. rewrite F. apply (approved_amount_nearby _ _ _ B); assumption.
  - intros. rewrite F. vm_compute. reflexivity.
  - intros. rewrite !F. repeat split; vm_compute; reflexivity.
  - split; vm_compute; reflexivity.
Qed.

Lemma approved_amount_by_tier_witness :
  exists T k,
    Exact.thousands 22500 true false = Some T /\
    Exact.represents
      (CreditOffer.approved_amount
         (computeCreditOffer Math_pow_model 22500 (Some 650) 3 true false))
      (Exact.integer (k * 1000)) /\
    Exact.nearby k T.
Proof.
  apply (proj1 (proj2 (proj2 approved_amount_by_tier))
           Math_pow_model 22500 (Some 650) 3%nat true false (Exact.valueOf 22500)).
  - vm_compute. reflexivity.
  - split; vm_compute; discriminate.
Defined.

(** ** C8: the total revenue is not negative *)

(** C8, as stated, fails: a negative monthly base gives a negative total,
    and a base that is NaN gives NaN, which is not at least 0.  Both are
    reached by runs: a tax answer with annual revenue -12,000 gives the
    total -1,000, and a tax answer with no fields gives NaN. *)
Lemma negative_or_missing_revenue_gives_no_nonnegative_total :
  computeTotalRevenue (-1000) 0 None None true None None None None None = -1000 /\
  (0 <=? computeTotalRevenue (-1000) 0 None None true None None None None None)
  = false /\
  is_nan (computeTotalRevenue nan 0 None None true None None None None None) = true /\
  (0 <=? computeTotalRevenue nan 0 None None true None None None None None) = false /\
  (exists d calls,
      runWith 50000 (taxAnswering negativeTaxAnswer) = (inr d, calls) /\
      DecisionPayload.total_revenue (UnderwritingDecision.payload d) = -1000) /\
  (exists d calls,
      runWith 50000 (taxAnswering emptyTaxAnswer) = (inr d, calls) /\
      (0 <=? DecisionPayload.total_revenue (UnderwritingDecision.payload d)) = false).
Proof.
  repeat split; try (vm_compute; reflexivity);
    eexists; eexists; (split; [vm_compute; reflexivity|]); vm_compute; reflexivity.
Qed.

(** C8, amended.  For every combination of inputs in which the monthly
    base and the listings score are numbers that are not below 0 (so
    neither is NaN), the total weighted revenue is at least 0.  Every run
    returns a decision whose total is the value of one function,
    [OfResults.total], at the seven source results it records; so the
    total is at least 0 when the monthly revenue and the listings score
    read off the recorded tax and listings results are not below 0, and
    two runs that record the same seven source results have the same
    total, whatever their applications, thresholds, clients and earlier
    calls. *)
Theorem total_revenue_nonneg :
  (forall base score bureau tenure compliant facebook instagram
          identityMatch whatsappBusiness simSwap,
      (0 <=? base) = true -> (0 <=? score) = true ->
      (0 <=? computeTotalRevenue base score bureau tenure compliant facebook
               instagram identityMatch whatsappBusiness simSwap) = true) /\
  (forall Math_pow toLocaleString_esMX Number_toString env clients now
          application calls,
      exists d,
        runUnderwriting Math_pow toLocaleString_esMX Number_toString env clients
          now application calls
        = (inr d, calls ++ plannedCalls env application) /\
        DecisionPayload.total_revenue (UnderwritingDecision.payload d)
        = OfResults.total (UnderwritingDecision.syntage_result d)
            (UnderwritingDecision.places_result d)
            (UnderwritingDecision.facebook_result d)
            (UnderwritingDecision.instagram_result d)
            (UnderwritingDecision.twilio_result d)
            (UnderwritingDecision.bureau_result d)
            (UnderwritingDecision.platform_result d) /\
        ((0 <=? OfResults.monthlyRevenue (UnderwritingDecision.syntage_result d))
         = true ->
         (0 <=? OfResults.listingsScore (UnderwritingDecision.places_result d))
         = true ->
         (0 <=? DecisionPayload.total_revenue (UnderwritingDecision.payload d))
         = true)) /\
  (forall Math_pow1 toLocaleString1 toString1 env1 clients1 now1 application1 calls1
          Math_pow2 toLocaleString2 toString2 env2 clients2 now2 application2 calls2
          d1 trace1 d2 trace2,
      runUnderwriting Math_pow1 toLocaleString1 toString1 env1 clients1 now1
        application1 calls1 = (inr d1, trace1) ->
      runUnderwriting Math_pow2 toLocaleString2 toString2 env2 clients2 now2
        application2 calls2 = (inr d2, trace2) ->
      OfResults.sameResults d1 d2 ->
      DecisionPayload.total_revenue (UnderwritingDecision.payload d1)
      = DecisionPayload.total_revenue (UnderwritingDecision.payload d2)).
Proof.
  split; [|split].
  - intros. apply total_nonneg; assumption.
  - intros.
    destruct (runUnderwriting_records Math_pow toLocaleString_esMX Number_toString
                env clients now application calls) as (d & E & T & _).
    exists d. split; [exact E|]. split; [exact T|].
    intros Hb Hs. rewrite T. unfold OfResults.ofDecision, OfResults.total.
    apply total_nonneg; assumption.
  - intros * R1 R2 (S1 & S2 & S3 & S4 & S5 & S6 & S7).
    destruct (runUnderwriting_records Math_pow1 toLocaleString1 toString1
                env1 clients1 now1 application1 calls1) as (e1 & E1 & T1 & _).
    destruct (runUnderwriting_records Math_pow2 toLocaleString2 toString2
                env2 clients2 now2 application2 calls2) as (e2 & E2 & T2 & _).
    rewrite R1 in E1. injection E1 as <- _. rewrite R2 in E2. injection E2 as <- _.
    rewrite T1, T2. unfold OfResults.ofDecision.
    rewrite S1, S2, S3, S4, S5, S6, S7. reflexivity.
Qed.

Lemma total_revenue_nonneg_witness :
  exists d1 d2 trace1 trace2,
    runWith 50000 stubClients = (inr d1, trace1) /\
    runUnderwriting Math_pow_model format_model format_model (envWithThreshold 90000)
      stubClients "t1" resubmittedApplication [Platform] = (inr d2, trace2) /\
    UnderwritingDecision.status d1 = APPROVED /\
    UnderwritingDecision.status d2 = MANUAL_REVIEW /\
    DecisionPayload.total_revenue (UnderwritingDecision.payload d1)
    = DecisionPayload.total_revenue (UnderwritingDecision.payload d2).
Proof.
  eexists. eexists. eexists. eexists.
  split; [vm_compute; reflexivity|]. split; [vm_compute; reflexivity|].
  split; [reflexivity|]. split; [reflexivity|].
  eapply (proj2 (proj2 total_revenue_nonneg)
            Math_pow_model format_model format_model (envWithThreshold 50000)
            stubClients "t1"%string bareApplication []
            Math_pow_model format_model format_model (envWithThreshold 90000)
            stubClients "t1"%string resubmittedApplication [Platform]).
  - vm_compute. reflexivity.
  - vm_compute. reflexivity.
  - vm_compute. repeat split.
Defined.

